(* ===== verification/_CoqProject ===== *)
-Q . S2P
Prelude.v
GoLib.v
GoPath.v
GoText.v
RuneFacts.v
Regexp.v
Graph.v
Domain.v
NodeNames.v
Repository.v
BuildRepo.v
BuildRepoFacts.v
LifecycleSpec.v
Lifecycle.v
LifecycleThms.v
Leases.v
Numbering.v
Listings.v
ExecJobRepo.v
ExecJobFacts.v
ExecJobIndex.v
ExecJobThms.v
Planner.v
PlannerFacts.v
PlannerThms.v
Versioning.v
VersioningThms.v
ReleaseVersions.v
ReleaseThms.v
Schema.v
Pipeline.v
CycleFacts.v
Resolve.v
PipelineFacts.v
PipelineThms.v
BuildService.v
ServiceThms.v
Rerun.v
RerunThms.v
StepCompletion.v
CompletionThms.v
Worker.v
WorkerThms.v
ScmDelivery.v
ScmRepo.v
DeliverySpec.v
ScmFacts.v
ScmSpec.v
ScmViews.v
ScmOutcomes.v
ScmThms.v
ScmProps.v
ScmRecover.v
ScmClaims.v
ScmReporter.v
ScmRequests.v
ScmReporterThms.v
ScmSending.v
ScmDrain.v
ScmExamples.v
NotifDelivery.v
NotifRepo.v
NotifFacts.v
NotifViews.v
NotifThms.v
NotifExamples.v
NotifDestinations.v
Notifier.v
NotifierFacts.v
NotifierThms.v
NotifierExamples.v
NotifTargets.v
SubscriptionBook.v
NotifTargetFacts.v
NotifTargetThms.v
NotifTargetProps.v
NotifSettings.v
NotifSettingsThms.v
NotifSettingsRuns.v
NotifSettingsExamples.v
