(* ===== verification/Prelude.v ===== *)
(** Coyote CI: a verification library for the core of the backend.

    Coyote CI (backend/, in Go) runs builds.  A pipeline file is validated and
    resolved into a plan of nodes; a build is created with a step for each node
    and, for each step, an execution job; workers claim jobs and steps under a
    lease, run them and report results; the stores decide from the results when a
    build succeeds or fails; builds can be canceled, retried and rerun, and they
    get versions.  The state of a build is reported as a commit status, and its
    end is told to people by e-mail or Slack; both keep a store of deliveries,
    which are claimed, attempted, retried and recovered.  All sources named below
    are under src/backend/internal/.

    ** How the code is modelled

    A method of a store takes the lock for its whole body, so it is one function
    from the store to the store, its result and its error.  Maps are finite maps,
    slices are lists; where Go iterates a map, either the result is proved not to
    depend on the order, or the order is an argument.  Integers are 64 bits wide
    and wrap around (GoLib.v); instants are integers of nanoseconds.  Identifiers,
    the clock, the YAML decoder, the JSON encoder and decoder, SHA-256, the
    folding of letters and the parsing of addresses are arguments.  Errors are values of a sum or option
    type.  Calls from different goroutines are sequences of calls: a store is
    reachable when a sequence of guarded calls leads to it, and the guard of a
    call is what its callers check first.  An operation of a service is a function
    on the stores in a monad of state, error and divergence (BuildService.v).
    The reporter of commit statuses and the notifier (ScmReporter.v, Notifier.v)
    run beside others: before each of their accesses the stores may change by any
    calls the stores allow for (the field [others] of their surroundings), which
    also hold the clock, the identifiers and the answers of the hosting service
    or of the senders.  A theorem about one of them alone asks for [others] to
    change nothing ([quiet], [Hq]).

    Recursion that is not structural takes fuel: the searches of the planner
    (Planner.v) and of the cycle check (Pipeline.v).  The planner's set of
    ancestors and the cycle check always have enough, the depth of a node has
    enough in an acyclic graph (PlannerFacts.v, CycleFacts.v); with no fuel the
    definitions answer [None], which no theorem hides.

    ** The files

    - Prelude.v: notations, record update, tactics, hints.
    - GoLib.v, GoPath.v, GoText.v, Regexp.v: the parts of the Go language and of
      strings, unicode/utf8, net/url, path, fmt, sort and regexp that the code
      uses.  RuneFacts.v: runes, trimming and cutting of texts.
    - Graph.v: dependency graphs, reachability, acyclicity, longest chains.
    - Domain.v (domain/), NodeNames.v: builds, steps, jobs, triggers, their tables
      of transitions.
    - Repository.v (repository/build_repository.go, completion_decision.go,
      execution_job_repository.go): requests, outcomes, decisions.
    - BuildRepo.v (repository/memory/build_repository.go) and BuildRepoFacts.v:
      the store of builds and steps.  [BuildRepository_X] is the method X.
    - LifecycleSpec.v, Lifecycle.v, LifecycleThms.v: the abstract lifecycle of a
      build as a step relation, the refinement of it by the store, and the
      invariants that follow.  Leases.v: claims, leases, completions.
      Numbering.v, Listings.v: build numbers, listings and pages.
    - ExecJobRepo.v (repository/memory/execution_job_repository.go and
      execution_job_output_repository.go), ExecJobFacts.v, ExecJobIndex.v,
      ExecJobThms.v: the store of jobs, its indices and claims.
    - Planner.v (service/build/execution_planner.go), PlannerFacts.v,
      PlannerThms.v: the jobs of a build and the workspaces they start from.
    - Versioning.v, ReleaseVersions.v (versioning/), VersioningThms.v,
      ReleaseThms.v: versions of applications, artifacts and releases.
    - Schema.v, Pipeline.v, Resolve.v (pipeline/, cache/preset.go,
      service/build/creation.go), CycleFacts.v, PipelineFacts.v, PipelineThms.v:
      pipeline files, from validation to a build that can go on.
    - BuildService.v (service/build/lifecycle.go, read_queue.go, creation.go,
      execution_orchestration.go), ServiceThms.v: queueing, cancellation, claims.
    - Rerun.v (service/build/retry_rerun.go), RerunThms.v: retries and reruns.
    - StepCompletion.v (service/build/completion.go), CompletionThms.v: results of
      steps.
    - Worker.v (service/worker/claim.go, lease.go, helpers.go, service.go),
      WorkerThms.v: what a worker claims, and its heartbeat.
    - DeliverySpec.v: the life of a delivery as a step relation, which both
      stores of deliveries refine.
    - ScmDelivery.v (domain/scm_status_delivery.go, repository/scm_status_*.go),
      ScmRepo.v (repository/memory/scm_status_delivery_repository.go): commit
      statuses and their store.  ScmFacts.v, ScmSpec.v, ScmViews.v,
      ScmOutcomes.v, ScmThms.v, ScmProps.v: streams of statuses, and the
      refinement.  ScmRecover.v: what a scan lists.  ScmClaims.v: claims that
      are granted.
    - ScmReporter.v (service/build/scm_status_reporting.go,
      scm_status_delivery_policy.go, scm_status_recovery_drain.go, and the checks
      of github_commit_status_client.go and github_app_commit_status_publisher.go):
      the reporter.  ScmRequests.v, ScmReporterThms.v, ScmSending.v, ScmDrain.v:
      its requests, its use of the store, what becomes of a status, and an
      iteration of the recovery.  ScmExamples.v: a reporter at work.
    - NotifDelivery.v (domain/notification_delivery.go,
      repository/notification_delivery_repository.go), NotifRepo.v
      (repository/memory/notification_delivery_repository.go): notifications and
      their store.  NotifFacts.v, NotifViews.v, NotifThms.v: the refinement.
      NotifExamples.v: a delivery from its first claim to its end.
    - NotifDestinations.v (service/build/notification_delivery_policy.go,
      notification_delivery_errors.go, notification_destinations.go,
      domain/notification_subscription.go), Notifier.v
      (service/build/notifications.go, notification_planning.go,
      notification_execution.go, notification_recovery.go,
      notification_recovery_drain.go): the notifier.  NotifierFacts.v,
      NotifierThms.v: what it sends.  NotifierExamples.v: a notifier at work.
    - NotifTargets.v (repository/memory/notification_subscription_repository.go,
      user_notification_preference_repository.go,
      notification_instance_settings_repository.go): the stores of targets,
      subscriptions, preferences and settings.  SubscriptionBook.v: the abstract
      book they refine.  NotifTargetFacts.v, NotifTargetThms.v,
      NotifTargetProps.v: the invariant, the refinement call by call, and the
      matches for an event.
    - NotifSettings.v (service/notification_*.go): the service of these settings.
      NotifSettingsThms.v: it agrees with the notifier.  NotifSettingsRuns.v: its
      requests beside other users of the stores.  NotifSettingsExamples.v: the
      settings at work.

    Components meet through their stores.  The job store reads builds through the
    class [BuildReader] (ExecJobRepo.v), which the build store implements, so that
    the theorems on claims hold for any build store.  The theorems on the
    reporter and the notifier use of their stores only what the refinements of
    DeliverySpec.v give.  The notifier reads targets, subscriptions and preferences
    through a record of operations (Notifier.v), of which [subscriptions_at] and
    [preferences_at] (NotifSettings.v) are the stores' own.

    ** What the theorems show

    - Lifecycle: the build store refines the lifecycle; a successful build has
      only successful steps; a started step was ready; canceled builds and steps
      agree; what has ended never changes; a completion that leaves a build
      running leaves it something to run.
    - Claims: a claim is exclusive, its holder is not disturbed, and a holder
      whose lease ran out is fenced off; a job is claimed only when its upstream
      jobs succeeded, and it is the first in the documented order; a worker holds
      a job and its step under one token; the heartbeat comes before the lease
      ends ([heartbeat_keeps_lease]).
    - Step and job together: both or neither is completed; a refused result
      changes nothing; a canceled build leaves no job to claim.
    - Reruns: a new attempt beside the old one, in its lineage.
    - Planning: the cycle check is exact and ends; an accepted file resolves into
      an acyclic plan with one job per step, and its build is never stuck; the
      workspace baseline is the deepest common ancestor.
    - Versions: the check of semantic versions is the regular expression of the
      code; templates are cut without loss; the next patch is new.
    - Commit statuses: the store refines streams of deliveries; a stream stays
      with its newest build; an outcome counts only under the claim it was
      reported for; a scan lists what is due, oldest first.  The reporter, beside
      others, makes only calls the store allows for; alone, what becomes of a
      claimed status is determined, and an iteration of the recovery sends all
      that is due.  What is planned is a request the publisher accepts.
    - Notifications: the store refines the life of a delivery; once sent, a
      delivery stays sent.  The notifier, beside others, sends a notification no
      more often than it is attempted and never after its end; alone, what
      becomes of a claimed delivery is determined.
    - Settings: the indexed store of targets and subscriptions is a book in which
      a user and a configured address have one target and no two subscriptions the
      same place; an event of a build is matched by exactly the enabled
      subscriptions that concern it; what the settings show as active is where the
      notifier sends; whatever is asked of the service, beside others, the stores
      stay consistent ([settings_stay_consistent]).

    Each property with hypotheses has a witness on a concrete store or input.
    Examples show where the code departs from what it means to do: [rerun_step_stuck]
    and [rerun_jobs_unordered] (RerunThms.v), [ex_claim_lost] (WorkerThms.v),
    [preparation_overwrites_cancel] and [complete_with_unfinished_steps]
    (ServiceThms.v), [ex_stale_logs] (CompletionThms.v), [braces_accepted_alone]
    (VersioningThms.v), [wrapped_patch] and [signed_series] (ReleaseVersions.v),
    [lost_attempt_blocks_recovery] (ScmRecover.v), [reassert_refused]
    (ScmRequests.v), [ex_lost_last_attempt] (NotifExamples.v),
    [nx_never_recovered] (NotifierExamples.v), [sx_planned_both],
    [sx_reused_identifier] and [sx_untrimmed_unreachable]
    (NotifSettingsExamples.v).

    ** Not modelled

    Input and output around what is modelled: the PostgreSQL stores (text of
    queries), HTTP handlers and clients with their authentication, the clients of
    the hosting service, of mail and of Slack, the cluster API and image builds,
    processes, archives, caches of files, logs and file trees, webhooks, metrics;
    the tickers that start recoveries; the texts of notifications
    (notification_format.go), which are an argument.

    Of the build service: the creation of builds from requests and pipelines, the
    preparation of a build (source.go) and the run of a step around its
    completion, which move files and start processes between the calls that are
    modelled; automatic version tags.  The edits of YAML documents
    (pipeline/mutate.go) and the decoding of YAML, which a library does.  Stores
    of plain records (jobs, projects, users, tokens, releases, labels), which
    have no states to keep. *)

From stdpp Require Import base gmap strings list pretty sorting numbers.

(** ** Notations *)

Declare Scope go_scope.
Delimit Scope go_scope with go.

(** Go's [==] and [!=] on comparable values, as booleans. *)
Notation "x == y" := (bool_decide (x = y)) (at level 70, no associativity) : go_scope.
Notation "x != y" := (negb (bool_decide (x = y))) (at level 70, no associativity) : go_scope.

(** ** Record update

    [r <| f := v |>] is the record [r] with the field [f] set to [v], the Go
    assignment [r.f = v] on a copied struct.  A record supports it once it has
    an [Eta] instance, which lists its fields. *)

Class Eta (R : Type) := eta : R → R.

Class Setter {R T : Type} (f : R → T) := set_field : (T → T) → R → R.
Arguments set_field {R T} f {_} _ !_ /.

Ltac solve_setter :=
  lazymatch goal with
  | |- @Setter ?R ?T ?f =>
      let u := fresh "u" in let r := fresh "r" in
      intros u r;
      let e := eval hnf in (eta r) in
      lazymatch eval pattern (f r) in e with
      | ?g _ => let t := eval cbv beta in (g (u (f r))) in exact t
      end
  end.

#[export] Hint Extern 1 (Setter _) => solve_setter : typeclass_instances.

Notation "r <| f := v |>" := (set_field f (λ _, v) r)
  (at level 1, f at level 0, v at level 200, left associativity,
   format "r  <| f  :=  v |>") : go_scope.

Create HintDb go discriminated.
Create Rewrite HintDb go.

(** ** Tactics *)

(** Split every [match] and [if] of the goal, clearing absurd branches. *)
Ltac split_matches :=
  repeat (case_match; simplify_eq/=; try done).

(** Move boolean tests of the context to propositions. *)
Ltac bool_to_prop :=
  repeat match goal with
  | H : bool_decide _ = true |- _ => apply bool_decide_eq_true in H
  | H : bool_decide _ = false |- _ => apply bool_decide_eq_false in H
  | H : negb _ = true |- _ => apply negb_true_iff in H
  | H : negb _ = false |- _ => apply negb_false_iff in H
  | H : _ && _ = true |- _ => apply andb_true_iff in H as [? ?]
  | H : _ || _ = false |- _ => apply orb_false_iff in H as [? ?]
  | H : _ && _ = false |- _ => apply andb_false_iff in H
  | H : _ || _ = true |- _ => apply orb_true_iff in H
  | H : (_ <? _)%Z = true |- _ => apply Z.ltb_lt in H
  | H : (_ <? _)%Z = false |- _ => apply Z.ltb_ge in H
  | H : (_ <=? _)%Z = true |- _ => apply Z.leb_le in H
  | H : (_ <=? _)%Z = false |- _ => apply Z.leb_gt in H
  | H : (_ =? _)%Z = true |- _ => apply Z.eqb_eq in H
  | H : (_ =? _)%Z = false |- _ => apply Z.eqb_neq in H
  end.

