(* ===== verification/GoLib.v ===== *)
(** The parts of the Go language and standard library the program uses:
    machine integers, instants, errors, [strings], [fmt], [sort] and the
    iteration of a slice by index.  Strings are byte strings, as in Go. *)

From Stdlib Require Import Ascii.
From stdpp Require Import base gmap strings list pretty sorting numbers.
From S2P Require Import Prelude.

Open Scope go_scope.
Open Scope Z_scope.

(** ** Machine integers

    [int], [int64] and [time.Duration] are 64-bit: arithmetic wraps around. *)

Definition int64_wrap (z : Z) : Z := (z + 2 ^ 63) `mod` 2 ^ 64 - 2 ^ 63.
Definition max_int64 : Z := 2 ^ 63 - 1.
Definition min_int64 : Z := - 2 ^ 63.
Definition int64_add (x y : Z) : Z := int64_wrap (x + y).
Definition int64_sub (x y : Z) : Z := int64_wrap (x - y).
Definition int64_mul (x y : Z) : Z := int64_wrap (x * y).

Definition is_int64 (z : Z) : Prop := min_int64 ≤ z ≤ max_int64.

Lemma int64_wrap_range z : is_int64 (int64_wrap z).
Proof.
  unfold is_int64, int64_wrap, min_int64, max_int64.
  pose proof (Z.mod_pos_bound (z + 2 ^ 63) (2 ^ 64) ltac:(lia)). lia.
Qed.

Lemma int64_wrap_id z : is_int64 z → int64_wrap z = z.
Proof.
  unfold is_int64, int64_wrap, min_int64, max_int64. intros ?.
  rewrite Z.mod_small; lia.
Qed.

Lemma int64_add_id x y : is_int64 (x + y) → int64_add x y = x + y.
Proof. apply int64_wrap_id. Qed.

Lemma int64_sub_id x y : is_int64 (x - y) → int64_sub x y = x - y.
Proof. apply int64_wrap_id. Qed.

(** ** Instants

    A [time.Time] is the number of nanoseconds since the Unix epoch; the
    comparisons of [time.Time] depend on the instant only, and [UTC] does not
    change it.  The zero value of the type is the year 1. *)

Abbreviation Time := Z (only parsing).

Definition zero_time : Time := -62135596800 * 10 ^ 9.
Definition After (t u : Time) : bool := u <? t.
Definition Before (t u : Time) : bool := t <? u.
Definition Equal (t u : Time) : bool := t =? u.
Definition IsZero (t : Time) : bool := t =? zero_time.

(** ** Errors

    A sentinel ([errors.New] of a package variable) is identified by its
    qualified name; [Errorf] is a fresh error with a message, [Wrap] an
    [fmt.Errorf] with [%w], [Joined] an [errors.Join] of two. *)

Inductive error :=
  | Sentinel (name : string)
  | Errorf (message : string)
  | Wrap (message : string) (inner : error)
  | Joined (first second : error).

#[export] Instance error_eq_dec : EqDecision error.
Proof. solve_decision. Defined.

(** [errors.Is] walks the tree of wrapped errors. *)
Fixpoint errors_Is (err target : error) : bool :=
  bool_decide (err = target) ||
  match err with
  | Wrap _ inner => errors_Is inner target
  | Joined first second => errors_Is first target || errors_Is second target
  | _ => false
  end.

(** ** Bytes and strings *)

Fixpoint string_to_list (s : string) : list Ascii.ascii :=
  match s with
  | EmptyString => []
  | String c s' => c :: string_to_list s'
  end.

Fixpoint string_of_list (l : list Ascii.ascii) : string :=
  match l with
  | [] => EmptyString
  | c :: l' => String c (string_of_list l')
  end.

Lemma string_of_to_list s : string_of_list (string_to_list s) = s.
Proof. induction s as [|c s IH]; simpl; [done|]. by rewrite IH. Qed.

Lemma string_to_of_list l : string_to_list (string_of_list l) = l.
Proof. induction l as [|c l IH]; simpl; [done|]. by rewrite IH. Qed.

Definition byte_of (c : Ascii.ascii) : N := Ascii.N_of_ascii c.

(** [unicode.IsSpace] on the UTF-8 encodings of its code points: one byte
    (tab, newline, vertical tab, form feed, carriage return, space), two bytes
    (U+0085, U+00A0) and three bytes (U+1680, U+2000 to U+200A, U+2028,
    U+2029, U+202F, U+205F, U+3000). *)
Definition space1 (a : Ascii.ascii) : bool :=
  let a := byte_of a in
  ((9 <=? a)%N && (a <=? 13)%N) || (a =? 32)%N.

Definition space2 (a b : Ascii.ascii) : bool :=
  let a := byte_of a in let b := byte_of b in
  (a =? 194)%N && ((b =? 133)%N || (b =? 160)%N).

Definition space3 (a b c : Ascii.ascii) : bool :=
  let a := byte_of a in let b := byte_of b in let c := byte_of c in
  ((a =? 225)%N && (b =? 154)%N && (c =? 128)%N)
  || ((a =? 226)%N && (b =? 128)%N &&
      (((128 <=? c)%N && (c <=? 138)%N) || (c =? 168)%N || (c =? 169)%N || (c =? 175)%N))
  || ((a =? 226)%N && (b =? 129)%N && (c =? 159)%N)
  || ((a =? 227)%N && (b =? 128)%N && (c =? 128)%N).

(** Drop the code points at the head of a byte sequence that the three
    classifiers accept. *)
Fixpoint trim_prefix (p1 : Ascii.ascii → bool) (p2 : Ascii.ascii → Ascii.ascii → bool)
    (p3 : Ascii.ascii → Ascii.ascii → Ascii.ascii → bool) (l : list Ascii.ascii)
    : list Ascii.ascii :=
  match l with
  | [] => []
  | a :: l1 =>
      if p1 a then trim_prefix p1 p2 p3 l1
      else match l1 with
      | [] => l
      | b :: l2 =>
          if p2 a b then trim_prefix p1 p2 p3 l2
          else match l2 with
          | [] => l
          | c :: l3 => if p3 a b c then trim_prefix p1 p2 p3 l3 else l
          end
      end
  end.

Definition trim_left_bytes : list Ascii.ascii → list Ascii.ascii :=
  trim_prefix space1 space2 space3.

Definition trim_right_bytes (l : list Ascii.ascii) : list Ascii.ascii :=
  reverse (trim_prefix space1 (λ b a, space2 a b) (λ c b a, space3 a b c) (reverse l)).

(** [strings.TrimSpace]: leading code points first, then trailing ones. *)
Definition TrimSpace (s : string) : string :=
  string_of_list (trim_right_bytes (trim_left_bytes (string_to_list s))).

(** The ASCII part of [strings.ToLower], with the two code points outside
    ASCII whose lower case is an ASCII letter (U+0130 to i, U+212A to k).
    Other code points outside ASCII are left as they are, so names that differ
    only in the case of such letters are distinct in the model. *)
Definition lower_byte (a : Ascii.ascii) : Ascii.ascii :=
  let n := byte_of a in
  if (65 <=? n)%N && (n <=? 90)%N then Ascii.ascii_of_N (n + 32) else a.

Fixpoint lower_bytes (l : list Ascii.ascii) : list Ascii.ascii :=
  match l with
  | [] => []
  | a :: l1 =>
      match l1 with
      | b :: l2 =>
          if (byte_of a =? 196)%N && (byte_of b =? 176)%N
          then "i"%char :: lower_bytes l2
          else match l2 with
          | c :: l3 =>
              if (byte_of a =? 226)%N && (byte_of b =? 132)%N && (byte_of c =? 170)%N
              then "k"%char :: lower_bytes l3
              else lower_byte a :: lower_bytes l1
          | [] => lower_byte a :: lower_bytes l1
          end
      | [] => [lower_byte a]
      end
  end.

Definition ToLower (s : string) : string := string_of_list (lower_bytes (string_to_list s)).

(** [strings.HasPrefix], and [s < t] on strings. *)
Definition HasPrefix (s prefix : string) : bool := String.prefix prefix s.
Definition string_lt (s t : string) : bool := String.ltb s t.

(** [fmt.Sprintf("%03d", n)]: the sign counts in the width. *)
Definition pad_zeros (width : nat) (digits : string) : string :=
  string_of_list (replicate (width - String.length digits) "0"%char) +:+ digits.

Definition Sprintf_03d (n : Z) : string :=
  if n <? 0 then "-" +:+ pad_zeros 2 (pretty (- n)) else pad_zeros 3 (pretty n).

(** [strconv.Itoa] and [strconv.FormatInt(_, 10)]. *)
Definition Itoa (n : Z) : string := pretty n.

(** ** Sorting

    [sort.Slice] returns the elements in an order the [less] function allows;
    which one of several is not specified.  The model takes a merge sort, and
    [sort_slice_unique] says when the choice cannot be observed. *)

Definition not_after {A} (less : A → A → bool) (x y : A) : Prop := less y x = false.

#[export] Instance not_after_dec {A} (less : A → A → bool) x y : Decision (not_after less x y).
Proof. unfold not_after. apply _. Defined.

Definition sort_slice {A} (less : A → A → bool) (l : list A) : list A :=
  merge_sort (not_after less) l.

(** A [less] function [sort.Slice] may be given: irreflexive, and both [less]
    and its complement are transitive. *)
Class StrictWeakOrder {A} (less : A → A → bool) : Prop := {
  less_irrefl x : less x x = false;
  less_trans x y z : less x y = true → less y z = true → less x z = true;
  less_cotrans x y z : less x z = true → less x y = true ∨ less y z = true;
}.

(** Compare by the first function, then by the second. *)
Definition lex_less {A} (less1 less2 : A → A → bool) (x y : A) : bool :=
  less1 x y || (negb (less1 y x) && less2 x y).

Section strict_weak_order.
  Context {A : Type}.
  Implicit Types less : A → A → bool.

Lemma less_asym less `{!StrictWeakOrder less} x y : less x y = true → less y x = false.
Proof.
  intros Hxy. destruct (less y x) eqn:Hyx; [|done].
  pose proof (less_trans _ _ _ Hxy Hyx). pose proof (less_irrefl x). congruence.
Qed.

#[local] Instance not_after_trans less `{!StrictWeakOrder less} : Transitive (not_after less).
Proof.
  unfold not_after. intros x y z Hxy Hyz.
  destruct (less z x) eqn:Hzx; [|done].
  destruct (less_cotrans z y x Hzx); congruence.
Qed.

#[local] Instance not_after_total less `{!StrictWeakOrder less} : Total (not_after less).
Proof.
  unfold not_after. intros x y. destruct (less y x) eqn:Hyx; [right|by left].
  by apply less_asym.
Qed.

Lemma sort_slice_perm less l : sort_slice less l ≡ₚ l.
Proof. apply merge_sort_Permutation. Qed.

Lemma sort_slice_sorted less `{!StrictWeakOrder less} l :
  StronglySorted (not_after less) (sort_slice less l).
Proof. apply (StronglySorted_merge_sort _). Qed.

Lemma elem_of_sort_slice less x l : x ∈ sort_slice less l ↔ x ∈ l.
Proof. by rewrite (sort_slice_perm less l). Qed.

(** Any two sorted arrangements agree when [less] separates the elements. *)
Lemma sort_slice_unique less `{!StrictWeakOrder less} l l' :
  (∀ x y, x ∈ l → y ∈ l → less x y = false → less y x = false → x = y) →
  l ≡ₚ l' → StronglySorted (not_after less) l' → sort_slice less l = l'.
Proof.
  intros Hsep Hperm Hsorted.
  apply (StronglySorted_unique_strong (not_after less)); [|by apply sort_slice_sorted|done|].
  - intros x y Hx Hy H1 H2. apply elem_of_sort_slice in Hx. rewrite <-Hperm in Hy. by apply Hsep.
  - by rewrite sort_slice_perm.
Qed.

Lemma sort_slice_perm_eq less `{!StrictWeakOrder less} l l' :
  (∀ x y, x ∈ l → y ∈ l → less x y = false → less y x = false → x = y) →
  l ≡ₚ l' → sort_slice less l = sort_slice less l'.
Proof.
  intros Hsep Hperm. apply sort_slice_unique; [done|done| |by apply sort_slice_sorted].
  by rewrite sort_slice_perm.
Qed.

Lemma sort_slice_id less `{!StrictWeakOrder less} l :
  (∀ x y, x ∈ l → y ∈ l → less x y = false → less y x = false → x = y) →
  StronglySorted (not_after less) l → sort_slice less l = l.
Proof. intros. by apply sort_slice_unique. Qed.

Lemma lex_less_incomparable less1 less2 x y :
  lex_less less1 less2 x y = false → lex_less less1 less2 y x = false →
  (less1 x y = false ∧ less1 y x = false) ∧ (less2 x y = false ∧ less2 y x = false).
Proof.
  unfold lex_less. destruct (less1 x y), (less1 y x), (less2 x y), (less2 y x); simpl; auto.
Qed.

#[export] Instance lex_less_swo less1 less2 :
  StrictWeakOrder less1 → StrictWeakOrder less2 → StrictWeakOrder (lex_less less1 less2).
Proof.
  intros H1 H2. unfold lex_less. split.
  - intros x. by rewrite !less_irrefl.
  - intros x y z.
    rewrite !orb_true_iff, !andb_true_iff, !negb_true_iff.
    intros [Hxy|[Hyx Hxy]] [Hyz|[Hzy Hyz]].
    + left. by eapply less_trans.
    + left. destruct (less_cotrans x z y Hxy); [done|congruence].
    + left. destruct (less_cotrans y x z Hyz); [congruence|done].
    + right. split; [|by eapply less_trans].
      destruct (less1 z x) eqn:Hzx; [|done].
      destruct (less_cotrans z y x Hzx); congruence.
  - intros x y z. rewrite !orb_true_iff, !andb_true_iff, !negb_true_iff.
    intros [Hxz|[Hzx Hxz]].
    + destruct (less_cotrans x y z Hxz); auto.
    + destruct (less_cotrans x y z Hxz) as [Hxy|Hyz].
      * destruct (less1 y x) eqn:Hyx; [|auto].
        destruct (less_cotrans y z x Hyx); [auto|congruence].
      * destruct (less1 z y) eqn:Hzy; [|auto].
        destruct (less_cotrans z x y Hzy); [congruence|auto].
Qed.

(** The sort only compares elements of the list. *)
Section sort_slice_ext.
  Context (P : A → Prop) (less less' : A → A → bool).
  Context (Hless : ∀ x y, P x → P y → less x y = less' x y).
  Implicit Types (l : list A) (st : list (option (list A))).

Lemma list_merge_ext l1 l2 :
  Forall P l1 → Forall P l2 →
  list_merge (not_after less) l1 l2 = list_merge (not_after less') l1 l2 ∧
  Forall P (list_merge (not_after less') l1 l2).
Proof.
  intros H1. revert l2. induction H1 as [|x1 l1 Hx1 Hl1 IH1]; [by destruct l2|].
  intros l2 H2. induction H2 as [|x2 l2 Hx2 Hl2 IH2]; simpl; [by auto|].
  assert (E : not_after less x1 x2 ↔ not_after less' x1 x2) by (unfold not_after; by rewrite Hless).
  destruct (decide (not_after less x1 x2)) as [Hd|Hd], (decide (not_after less' x1 x2)) as [Hd'|Hd'];
    try tauto.
  - destruct (IH1 (x2 :: l2)) as [-> ?]; auto.
  - destruct IH2 as [E2 ?]. split; [|by constructor]. by f_equal.
Qed.

Definition stack_all st : Prop := Forall (λ o, from_option (Forall P) True o) st.

Lemma merge_list_to_stack_ext st l :
  stack_all st → Forall P l →
  merge_list_to_stack (not_after less) st l = merge_list_to_stack (not_after less') st l ∧
  stack_all (merge_list_to_stack (not_after less') st l).
Proof.
  intros Hst. revert l. induction Hst as [|[l'|] st Hl' Hst IH]; intros l Hl; simpl.
  - split; [done|]. by repeat constructor.
  - destruct (list_merge_ext l' l Hl' Hl) as [-> Hm]. destruct (IH _ Hm) as [-> ?].
    split; [done|]. by constructor.
  - split; [done|]. by constructor.
Qed.

Lemma merge_stack_ext st :
  stack_all st →
  merge_stack (not_after less) st = merge_stack (not_after less') st ∧
  Forall P (merge_stack (not_after less') st).
Proof.
  induction 1 as [|[l|] st Hl Hst [IH IHP]]; simpl; [by split|rewrite IH|done].
  by apply list_merge_ext.
Qed.

Lemma sort_slice_ext l : Forall P l → sort_slice less l = sort_slice less' l.
Proof.
  unfold sort_slice, merge_sort. intros Hl.
  assert (Hst : stack_all []) by constructor. revert Hst. generalize (@nil (option (list A))).
  induction Hl as [|x l Hx Hl IH]; intros st Hst; simpl; [by apply merge_stack_ext|].
  destruct (merge_list_to_stack_ext st [x] Hst) as [-> ?]; [by repeat constructor|]. by apply IH.
Qed.
End sort_slice_ext.

(** Comparison of images, and equal comparisons. *)
Lemma swo_map {B} (f : B → A) less :
  StrictWeakOrder less → StrictWeakOrder (λ x y, less (f x) (f y)).
Proof.
  intros H. split.
  - intros x. apply less_irrefl.
  - intros x y z. apply less_trans.
  - intros x y z. apply less_cotrans.
Qed.

Lemma swo_ext less less' :
  (∀ x y, less x y = less' x y) → StrictWeakOrder less' → StrictWeakOrder less.
Proof.
  intros E H. split.
  - intros x. rewrite E. apply less_irrefl.
  - intros x y z. rewrite !E. apply less_trans.
  - intros x y z. rewrite !E. apply less_cotrans.
Qed.

(** Comparison through an integer key, in either direction, and a string key. *)
#[export] Instance ltb_key_swo (f : A → Z) : StrictWeakOrder (λ x y, f x <? f y).
Proof.
  split.
  - intros x. apply Z.ltb_irrefl.
  - intros x y z. rewrite !Z.ltb_lt. lia.
  - intros x y z. rewrite !Z.ltb_lt. lia.
Qed.

#[export] Instance gtb_key_swo (f : A → Z) : StrictWeakOrder (λ x y, f y <? f x).
Proof.
  split.
  - intros x. apply Z.ltb_irrefl.
  - intros x y z. rewrite !Z.ltb_lt. lia.
  - intros x y z. rewrite !Z.ltb_lt. lia.
Qed.
End strict_weak_order.

Lemma string_lt_le s t : string_lt s t = true ↔ ¬ String.le t s.
Proof.
  unfold string_lt, String.le, String.ltb, String.leb.
  rewrite (String.compare_antisym t s).
  destruct (String.compare s t); naive_solver.
Qed.

Lemma string_lt_false s t : string_lt s t = false ↔ String.le t s.
Proof.
  rewrite <-not_true_iff_false, string_lt_le. split; [|tauto].
  intros H. destruct (decide (String.le t s)); tauto.
Qed.

#[export] Instance string_key_swo {A} (f : A → string) :
  StrictWeakOrder (λ x y, string_lt (f x) (f y)).
Proof.
  split.
  - intros x. by apply string_lt_false.
  - intros x y z. rewrite !string_lt_le. intros H1 H2 H3.
    destruct (total String.le (f x) (f y)) as [H|H]; [|done].
    apply H2. by trans (f x).
  - intros x y z. rewrite !string_lt_le. intros H.
    destruct (decide (String.le (f y) (f x))); [right|by left].
    intros H2. apply H. by trans (f y).
Qed.

Lemma string_lt_antisym s t : string_lt s t = false → string_lt t s = false → s = t.
Proof. rewrite !string_lt_false. intros H1 H2. by apply (anti_symm String.le). Qed.

(** Filtering and sortedness look at the elements of the list only. *)
Lemma filter_elem_ext {A} (P1 P2 : A → Prop) `{!∀ x, Decision (P1 x), !∀ x, Decision (P2 x)}
    (l : list A) :
  (∀ x, x ∈ l → P1 x ↔ P2 x) → filter P1 l = filter P2 l.
Proof.
  induction l as [|x l IH]; intros HP; [done|]. rewrite !filter_cons, IH by (intros; apply HP; by right).
  specialize (HP x ltac:(left)). destruct (decide (P1 x)), (decide (P2 x)); tauto.
Qed.


Lemma filter_of_fmap {A B} (f : A → B) (P : B → Prop) `{!∀ x, Decision (P x)} (l : list A) :
  filter P (f <$> l) = f <$> filter (λ x, P (f x)) l.
Proof.
  induction l as [|x l IH]; [done|]. rewrite fmap_cons, !filter_cons, IH.
  by destruct (decide (P (f x))).
Qed.

Lemma list_find_elem_ext {A} (P1 P2 : A → Prop) `{!∀ x, Decision (P1 x), !∀ x, Decision (P2 x)}
    (l : list A) :
  (∀ x, x ∈ l → P1 x ↔ P2 x) → list_find P1 l = list_find P2 l.
Proof.
  induction l as [|x l IH]; intros HP; [done|]. simpl. rewrite IH by (intros; apply HP; by right).
  specialize (HP x ltac:(left)). destruct (decide (P1 x)), (decide (P2 x)); tauto.
Qed.

Lemma StronglySorted_lookup {A} (R : A → A → Prop) (l : list A) i j x y :
  StronglySorted R l → l !! i = Some x → l !! j = Some y → (i < j)%nat → R x y.
Proof.
  intros Hs Hi Hj Hlt. rewrite <-(take_drop (S i) l) in Hs.
  apply (StronglySorted_app_1_elem_of R (take (S i) l) (drop (S i) l)); [done|..].
  - apply list_elem_of_lookup. exists i. by rewrite lookup_take_lt by lia.
  - apply list_elem_of_lookup. exists (j - S i)%nat. rewrite lookup_drop. by replace (S i + (j - S i))%nat with j by lia.
Qed.

Lemma StronglySorted_weaken {A} (R R' : A → A → Prop) (l : list A) :
  (∀ x y, x ∈ l → y ∈ l → R x y → R' x y) → StronglySorted R l → StronglySorted R' l.
Proof.
  induction l as [|x l IH]; [constructor|]. intros HR. rewrite !StronglySorted_cons.
  intros [Hx Hl]. split; [|apply IH; [|done]; intros; apply HR; [by right..|done]].
  rewrite List.Forall_forall in Hx |- *. intros y Hy. apply HR; [left| |by apply Hx].
  right. by apply list_elem_of_In.
Qed.

(** Go programs compare two keys as [if equal then less2 else less1]; this is the
    lexicographic order.  The tactic settles the first key [k] of [x] and [y]. *)
Ltac lex_key k x y :=
  unfold lex_less at 1; cbv beta;
  let E := fresh "E" in
  destruct (Z.eqb_spec (k x) (k y)) as [E|E];
  [ rewrite !E, !Z.ltb_irrefl; cbn [orb andb negb]
  | destruct (Z.ltb_spec (k x) (k y)), (Z.ltb_spec (k y) (k x)); simpl; try done; lia ].

(** ** Facts about [TrimSpace] *)

Section trim.
  Context (p1 : Ascii.ascii → bool) (p2 : Ascii.ascii → Ascii.ascii → bool)
          (p3 : Ascii.ascii → Ascii.ascii → Ascii.ascii → bool).

(** A classifier accepts the first code point of the list. *)
Definition leads (l : list Ascii.ascii) : bool :=
  match l with
  | [] => false
  | a :: l1 => p1 a || match l1 with
    | [] => false
    | b :: l2 => p2 a b || match l2 with [] => false | c :: _ => p3 a b c end
    end
  end.

Lemma trim_prefix_spec l :
  leads (trim_prefix p1 p2 p3 l) = false ∧ ∃ k, l = k ++ trim_prefix p1 p2 p3 l.
Proof.
  remember (length l) as n eqn:Hn. revert l Hn.
  induction n as [n IH] using lt_wf_ind. intros l ->.
  assert (IH' : ∀ l' k, l = k ++ l' → (length l' < length l)%nat →
    leads (trim_prefix p1 p2 p3 l') = false ∧
    ∃ k, l = k ++ trim_prefix p1 p2 p3 l').
  { intros l' k Hl Hlt. destruct (IH _ Hlt l' eq_refl) as [? [k' Hk']].
    split; [done|]. exists (k ++ k'). by rewrite <-app_assoc, <-Hk'. }
  destruct l as [|a [|b [|c l]]]; simpl in *.
  - split; [done|]. by exists [].
  - destruct (p1 a) eqn:E1.
    + apply (IH' [] [a]); simpl; [done|lia].
    + simpl. rewrite E1. split; [done|]. by exists [].
  - destruct (p1 a) eqn:E1; [|destruct (p2 a b) eqn:E2].
    + apply (IH' [b] [a]); simpl; [done|lia].
    + apply (IH' [] [a; b]); simpl; [done|lia].
    + simpl. rewrite E1, E2. split; [done|]. by exists [].
  - destruct (p1 a) eqn:E1; [|destruct (p2 a b) eqn:E2; [|destruct (p3 a b c) eqn:E3]].
    + apply (IH' (b :: c :: l) [a]); simpl; [done|lia].
    + apply (IH' (c :: l) [a; b]); simpl; [done|lia].
    + apply (IH' l [a; b; c]); simpl; [done|lia].
    + simpl. rewrite E1, E2, E3. split; [done|]. by exists [].
Qed.

Lemma trim_prefix_id l : leads l = false → trim_prefix p1 p2 p3 l = l.
Proof.
  destruct l as [|a [|b [|c l]]]; simpl; [done|..];
    rewrite ?orb_false_iff; intros; destruct_and?;
    repeat match goal with H : _ = false |- _ => rewrite H end; done.
Qed.

Lemma leads_app l k : leads (l ++ k) = false → leads l = false.
Proof.
  destruct l as [|a [|b [|c l]]]; simpl; try done;
    rewrite ?orb_false_iff; intros; destruct_and?; done.
Qed.
End trim.

Lemma trim_left_idemp_prefix l k : 
  leads space1 space2 space3 (l ++ k) = false → trim_left_bytes l = l.
Proof. intros H. apply trim_prefix_id. by eapply leads_app. Qed.

(** Trimming twice is trimming once. *)
Lemma TrimSpace_idemp s : TrimSpace (TrimSpace s) = TrimSpace s.
Proof.
  unfold TrimSpace. rewrite string_to_of_list. f_equal.
  set (l := trim_left_bytes (string_to_list s)).
  assert (Hl : leads space1 space2 space3 l = false).
  { subst l. apply trim_prefix_spec. }
  unfold trim_right_bytes.
  set (q := trim_prefix _ _ _ (reverse l)).
  destruct (trim_prefix_spec space1 (λ b a, space2 a b) (λ c b a, space3 a b c) (reverse l))
    as [Hq [k Hk]]. fold q in Hq, Hk.
  assert (Hr : l = reverse q ++ reverse k).
  { rewrite <-reverse_app, <-Hk, reverse_involutive. done. }
  rewrite (trim_left_idemp_prefix _ (reverse k)); [|by rewrite <-Hr].
  rewrite reverse_involutive. by rewrite trim_prefix_id.
Qed.

Lemma TrimSpace_empty : TrimSpace "" = "".
Proof. reflexivity. Qed.

#[export] Hint Rewrite TrimSpace_idemp TrimSpace_empty : go.

Lemma pad_zeros_length width s : (String.length s ≤ String.length (pad_zeros width s))%nat.
Proof.
  unfold pad_zeros. generalize (replicate (width - String.length s) "0"%char).
  intros l. induction l as [|c l IH]; [done|]. change (String.length s ≤ S (String.length (string_of_list l +:+ s)))%nat. lia.
Qed.
