(* ===== verification/GoPath.v ===== *)
(** The functions of the Go packages [strings] and [path] that cut strings up:
    [Split], [Join], [ReplaceAll] of a byte, [Contains], quoting, and
    slash-separated paths. *)

From Stdlib Require Import Ascii.
From stdpp Require Import base gmap strings list pretty sorting numbers.
From S2P Require Import Prelude GoLib.

Open Scope go_scope.
Open Scope Z_scope.

(** ** Bytes of a string *)

(** [strings.ContainsRune] and [strings.ContainsAny] for ASCII characters. *)
Definition contains_byte (c : Ascii.ascii) (s : string) : bool :=
  existsb (Ascii.eqb c) (string_to_list s).

Definition ContainsAny (s chars : string) : bool :=
  existsb (λ c, contains_byte c s) (string_to_list chars).

(** [strings.ReplaceAll] of one byte by another. *)
Definition replace_byte (old new : Ascii.ascii) (s : string) : string :=
  string_of_list ((λ c, if Ascii.eqb c old then new else c) <$> string_to_list s).

(** [strings.Contains], [strings.HasSuffix]. *)
Fixpoint list_prefix (p l : list Ascii.ascii) : bool :=
  match p, l with
  | [], _ => true
  | c :: p, d :: l => Ascii.eqb c d && list_prefix p l
  | _ :: _, [] => false
  end.

Fixpoint list_contains (p l : list Ascii.ascii) : bool :=
  list_prefix p l || match l with [] => false | _ :: l => list_contains p l end.

Definition Contains (s substr : string) : bool :=
  list_contains (string_to_list substr) (string_to_list s).

Definition HasSuffix (s suffix : string) : bool :=
  list_prefix (reverse (string_to_list suffix)) (reverse (string_to_list s)).

(** The verb [%q] of [fmt]: a quoted string with its control characters, quotes
    and backslashes escaped.  Bytes outside ASCII are left as they are, as Go
    does for printable characters. *)
Definition hex_digit (n : N) : Ascii.ascii :=
  Ascii.ascii_of_N (if (n <? 10)%N then 48 + n else 87 + n).

Definition quote_byte (c : Ascii.ascii) : list Ascii.ascii :=
  let n := byte_of c in
  if (n =? 34)%N then ["\"; c]%char
  else if (n =? 92)%N then ["\"; "\"]%char
  else if (n =? 7)%N then ["\"; "a"]%char
  else if (n =? 8)%N then ["\"; "b"]%char
  else if (n =? 12)%N then ["\"; "f"]%char
  else if (n =? 10)%N then ["\"; "n"]%char
  else if (n =? 13)%N then ["\"; "r"]%char
  else if (n =? 9)%N then ["\"; "t"]%char
  else if (n =? 11)%N then ["\"; "v"]%char
  else if (n <? 32)%N || (n =? 127)%N
  then ["\"; "x"; hex_digit (n / 16); hex_digit (n mod 16)]%char
  else [c].

Definition Quote (s : string) : string :=
  let q := Ascii.ascii_of_N 34 in
  string_of_list (q :: concat (quote_byte <$> string_to_list s) ++ [q]).

(** ** Split and join at a byte *)

Fixpoint split_bytes (sep : Ascii.ascii) (l : list Ascii.ascii) : list (list Ascii.ascii) :=
  match l with
  | [] => [[]]
  | c :: l =>
      if Ascii.eqb c sep then [] :: split_bytes sep l
      else match split_bytes sep l with
           | [] => [[c]]
           | w :: ws => (c :: w) :: ws
           end
  end.

(** [strings.Split] with a separator of one byte. *)
Definition Split (s : string) (sep : Ascii.ascii) : list string :=
  string_of_list <$> split_bytes sep (string_to_list s).

(** [strings.Join]. *)
Definition Join (parts : list string) (sep : string) : string := String.concat sep parts.

(** ** Slash-separated paths *)

Definition slash : Ascii.ascii := "/"%char.
Definition backslash : Ascii.ascii := "\"%char.

(** [path.IsAbs]. *)
Definition IsAbs (p : string) : bool := HasPrefix p "/".

(** One element of a path that is being cleaned; [out] holds the elements kept
    so far, the last one first.  [..] eliminates the element before it, and
    disappears at the root. *)
Definition clean_element (rooted : bool) (out : list string) (element : string) : list string :=
  if (element == "") || (element == ".") then out
  else if element == ".." then
    match out with
    | [] => if rooted then [] else [".."]
    | top :: rest => if top == ".." then ".." :: out else rest
    end
  else element :: out.

(** [path.Clean]: the shortest path equivalent to [p] by lexical processing. *)
Definition Clean (p : string) : string :=
  let rooted := IsAbs p in
  let elements := reverse (foldl (clean_element rooted) [] (Split p slash)) in
  if rooted then "/" +:+ Join elements "/"
  else if bool_decide (elements = []) then "." else Join elements "/".

(** The part of [p] up to its last slash, and the rest: [path.Split]. *)
Definition dir_part (p : string) : string :=
  match reverse (Split p slash) with
  | [] | [_] => ""
  | _ :: rest => Join (reverse rest) "/" +:+ "/"
  end.

(** [path.Dir]. *)
Definition Dir (p : string) : string := Clean (dir_part p).

(** The elements of a cleaned path, for [Rel]; the root has one empty element. *)
Definition path_elements (p : string) : list string :=
  if p == "/" then [""] else if p == "" then [] else Split p slash.

Fixpoint drop_common (base targ : list string) : list string * list string :=
  match base, targ with
  | b :: base', t :: targ' => if b == t then drop_common base' targ' else (base, targ)
  | _, _ => (base, targ)
  end.

(** [filepath.Rel] on a Unix system; [None] is its error. *)
Definition Rel (basepath targpath : string) : option string :=
  let base := Clean basepath in
  let targ := Clean targpath in
  if targ == base then Some "."
  else
    let base := if base == "." then "" else base in
    if xorb (IsAbs base) (IsAbs targ) then None
    else
      let '(up, down) := drop_common (path_elements base) (path_elements targ) in
      match up, down with
      | [], _ => Some (Join down "/")
      | b :: _, _ :: _ =>
          if b == ".." then None
          else Some (Join (((λ _, "..") <$> up) ++ down) "/")
      | _ :: _, [] => Some (Join ((λ _, "..") <$> up) "/")
      end.

Example Rel_below : Rel "a/b" "a/b/c/d" = Some "c/d". Proof. vm_compute. reflexivity. Qed.
Example Rel_above : Rel "a/b/c" "a/x" = Some "../../x". Proof. vm_compute. reflexivity. Qed.
Example Rel_dot : Rel "." "x/Dockerfile" = Some "x/Dockerfile". Proof. vm_compute. reflexivity. Qed.
Example Rel_abs : Rel "/srv" "x" = None. Proof. vm_compute. reflexivity. Qed.

Example Clean_dots : Clean "a/./b//../c/" = "a/c". Proof. vm_compute. reflexivity. Qed.
Example Clean_up : Clean "../a/../../b" = "../../b". Proof. vm_compute. reflexivity. Qed.
Example Clean_root : Clean "/../a/.." = "/". Proof. vm_compute. reflexivity. Qed.
Example Clean_empty : Clean "" = ".". Proof. vm_compute. reflexivity. Qed.
Example Dir_file : Dir "ci/linux/pipeline.yml" = "ci/linux". Proof. vm_compute. reflexivity. Qed.
Example Dir_top : Dir "/pipeline.yml" = "/". Proof. vm_compute. reflexivity. Qed.
Example Dir_plain : Dir "pipeline.yml" = ".". Proof. vm_compute. reflexivity. Qed.

(** ** Lemmas *)

Lemma clean_elements_nonempty rooted l out :
  Forall (λ x, x ≠ "") out → Forall (λ x, x ≠ "") (foldl (clean_element rooted) out l).
Proof.
  revert out. induction l as [|e l IH]; intros out Hout; [done|].
  simpl. apply IH. unfold clean_element. destruct out as [|top rest]; simpl;
    repeat case_bool_decide; simpl; repeat constructor; try done; try (by destruct rooted; repeat constructor).
  all: by inversion Hout.
Qed.

Lemma Clean_nonempty p : Clean p ≠ "".
Proof.
  unfold Clean. destruct (IsAbs p); [done|].
  destruct (bool_decide _) eqn:E; [done|]. apply bool_decide_eq_false in E.
  pose proof (clean_elements_nonempty false (Split p slash) [] ltac:(constructor)) as Hall.
  apply Forall_reverse in Hall. destruct (reverse _) as [|x l]; [done|].
  inversion Hall; subst. unfold Join. destruct l; simpl; by destruct x.
Qed.
