(* ===== verification/GoText.v ===== *)
(** Text in the style of Go: the runes of a UTF-8 string, the trimming of a
    byte at the end of a string, and the facts that let normalised strings be
    normalised again. *)

From Stdlib Require Import Ascii.
From stdpp Require Import base gmap strings list pretty sorting numbers.
From S2P Require Import Prelude GoLib.

Open Scope go_scope.
Open Scope Z_scope.

(** ** Runes

    The decoding of [unicode/utf8]: a byte that does not start a well-formed
    sequence is a rune of its own, which is written back as U+FFFD. *)

Definition in_range (lo hi : N) (a : Ascii.ascii) : bool :=
  (lo <=? byte_of a)%N && (byte_of a <=? hi)%N.

Definition continuation : Ascii.ascii → bool := in_range 128 191.

Definition leads2 (a b : Ascii.ascii) : bool := in_range 194 223 a && continuation b.

Definition leads3 (a b : Ascii.ascii) : bool :=
  (in_range 224 224 a && in_range 160 191 b)
  || ((in_range 225 236 a || in_range 238 239 a) && continuation b)
  || (in_range 237 237 a && in_range 128 159 b).

Definition leads4 (a b : Ascii.ascii) : bool :=
  (in_range 240 240 a && in_range 144 191 b)
  || (in_range 241 243 a && continuation b)
  || (in_range 244 244 a && in_range 128 143 b).

Definition RuneError : list Ascii.ascii := Ascii.ascii_of_N <$> [239; 191; 189]%N.

(** [[]rune(s)], each rune as the bytes it is written with. *)
Fixpoint runes (l : list Ascii.ascii) : list (list Ascii.ascii) :=
  match l with
  | [] => []
  | a :: l1 =>
      if (byte_of a <? 128)%N then [a] :: runes l1
      else match l1 with
      | [] => [RuneError]
      | b :: l2 =>
          if leads2 a b then [a; b] :: runes l2
          else match l2 with
          | [] => RuneError :: runes l1
          | c :: l3 =>
              if leads3 a b && continuation c then [a; b; c] :: runes l3
              else match l3 with
              | [] => RuneError :: runes l1
              | d :: l4 =>
                  if leads4 a b && continuation c && continuation d
                  then [a; b; c; d] :: runes l4 else RuneError :: runes l1
              end
          end
      end
  end.

(** [utf8.RuneCountInString]. *)
Definition RuneCountInString (s : string) : Z := Z.of_nat (length (runes (string_to_list s))).

(** [string(runes[:n])]. *)
Definition first_runes (n : nat) (s : string) : string :=
  string_of_list (concat (take n (runes (string_to_list s)))).

(** ** [strings.TrimRight] with a cutset of one ASCII byte *)

Fixpoint drop_bytes (c : Ascii.ascii) (l : list Ascii.ascii) : list Ascii.ascii :=
  match l with
  | [] => []
  | a :: l' => if a == c then drop_bytes c l' else l
  end.

Definition TrimRight (s : string) (c : Ascii.ascii) : string :=
  string_of_list (reverse (drop_bytes c (reverse (string_to_list s)))).

(** ** [url.PathEscape] *)

Definition path_segment_byte (a : Ascii.ascii) : bool :=
  in_range 48 57 a || in_range 65 90 a || in_range 97 122 a
  || existsb (Ascii.eqb a) ["-"; "_"; "."; "~"; "$"; "&"; "+"; "="; ":"; "@"]%char.

Definition upper_hex_digit (n : N) : Ascii.ascii :=
  Ascii.ascii_of_N (if n <? 10 then 48 + n else 55 + n)%N.

Definition escape_byte (a : Ascii.ascii) : list Ascii.ascii :=
  if path_segment_byte a then [a]
  else ["%"%char; upper_hex_digit (byte_of a / 16); upper_hex_digit (byte_of a mod 16)].

Definition PathEscape (s : string) : string :=
  string_of_list (concat (escape_byte <$> string_to_list s)).

(** ** Lower case of trimmed strings *)

Local Abbreviation space_leads := (leads space1 space2 space3).
Local Abbreviation space_ends l :=
  (leads space1 (λ b a, space2 a b) (λ c b a, space3 a b c) (reverse l)).

Definition is_i_or_k (a : Ascii.ascii) : Prop := a = "i"%char ∨ a = "k"%char.

Lemma space1_lower a : space1 (lower_byte a) = space1 a.
Proof. destruct a as [[] [] [] [] [] [] [] []]; reflexivity. Qed.

Lemma lower_byte_idemp a : lower_byte (lower_byte a) = lower_byte a.
Proof. destruct a as [[] [] [] [] [] [] [] []]; reflexivity. Qed.

(** A byte outside ASCII is the lower case of itself only. *)
Lemma lower_byte_high a : (128 <=? byte_of (lower_byte a))%N = true → lower_byte a = a.
Proof. destruct a as [[] [] [] [] [] [] [] []]; done. Qed.

(** One step of [lower_bytes] on a list of three or more. *)
Lemma lower_bytes_3 a b c l :
  lower_bytes (a :: b :: c :: l) =
  if (byte_of a =? 196)%N && (byte_of b =? 176)%N then "i"%char :: lower_bytes (c :: l)
  else if (byte_of a =? 226)%N && (byte_of b =? 132)%N && (byte_of c =? 170)%N
  then "k"%char :: lower_bytes l else lower_byte a :: lower_bytes (b :: c :: l).
Proof. done. Qed.

Lemma lower_bytes_nil l : lower_bytes l = [] → l = [].
Proof.
  destruct l as [|a [|b [|c l]]]; [done..| |]; [simpl; by case_match|].
  rewrite lower_bytes_3. by repeat case_match.
Qed.

(** The lower case of a list starts with an i or k of its own, or with the lower
    case of its first byte. *)
Lemma lower_bytes_head l x m :
  lower_bytes l = x :: m →
  is_i_or_k x ∨ ∃ a l', l = a :: l' ∧ x = lower_byte a ∧ m = lower_bytes l'.
Proof.
  destruct l as [|a [|b [|c l]]]; [done|simpl..|]; [| |rewrite lower_bytes_3];
    repeat case_match; intros; simplify_eq; unfold is_i_or_k; eauto.
  - right. by eexists _, [].
  - right. by eexists _, [b].
  - right. by eexists _, (b :: c :: l).
Qed.

(** The same at the end. *)
Lemma lower_bytes_end l : ∀ x m,
  lower_bytes l = m ++ [x] →
  is_i_or_k x ∨ ∃ a l', l = l' ++ [a] ∧ x = lower_byte a ∧ m = lower_bytes l'.
Proof.
  remember (length l) as n eqn:Hn. revert l Hn.
  induction n as [n IH] using lt_wf_ind. intros l -> x m H.
  destruct l as [|a [|b [|c l]]].
  - by destruct m.
  - destruct m as [|? [|]]; simplify_eq/=. right. by exists a, [].
  - simpl in H. destruct (_ && _) eqn:E.
    + destruct m as [|? [|]]; simplify_eq/=. by left; left.
    + destruct m as [|? [|? []]]; simplify_eq/=. right. by exists b, [a].
  - rewrite lower_bytes_3 in H. destruct (_ && _) eqn:E1 in H; [|destruct (_ && _) eqn:E2 in H].
    + destruct m as [|? m]; injection H as <- H; [by apply (lower_bytes_nil (c :: l)) in H|].
      destruct (IH (length (c :: l)) ltac:(simpl; lia) (c :: l) eq_refl x m H)
        as [?|(a0 & l' & El & -> & ->)]; [by left|].
      right. exists a0, (a :: b :: l'). rewrite El. split; [done|]. split; [done|].
      destruct l'; simpl; by rewrite E1.
    + destruct m as [|? m]; injection H as <- H; [by left; right|].
      destruct (IH (length l) ltac:(simpl; lia) l eq_refl x m H)
        as [?|(a0 & l' & El & -> & ->)]; [by left|].
      right. exists a0, (a :: b :: c :: l'). rewrite El. split; [done|]. split; [done|].
      rewrite lower_bytes_3. by rewrite E1, E2.
    + destruct m as [|? m]; injection H as <- H; [by apply (lower_bytes_nil (b :: c :: l)) in H|].
      destruct (IH (length (b :: c :: l)) ltac:(simpl; lia) (b :: c :: l) eq_refl x m H)
        as [?|(a0 & l' & El & -> & ->)]; [by left|].
      right. exists a0, (a :: l'). destruct l' as [|b' [|c' l']]; simplify_eq/=.
      * by rewrite E1.
      * by rewrite E1, E2.
Qed.

(** A list whose lower case starts with a space starts with this space; the same
    at the end, where the list is read backwards. *)
Section lower_leads.
  Context (f : list Ascii.ascii → list Ascii.ascii).
  Context (f_head : ∀ l x m, f l = x :: m →
    is_i_or_k x ∨ ∃ a l', l = a :: l' ∧ x = lower_byte a ∧ m = f l').
  Context (p1 : Ascii.ascii → bool) (p2 : Ascii.ascii → Ascii.ascii → bool)
          (p3 : Ascii.ascii → Ascii.ascii → Ascii.ascii → bool).
  Local Abbreviation high a := ((128 <=? byte_of a)%N = true).
  Context (p1_lower : ∀ a, p1 (lower_byte a) = p1 a) (p1_letter : ∀ a, is_i_or_k a → p1 a = false).
  Context (p2_high : ∀ a b, p2 a b = true → high a ∧ high b).
  Context (p3_high : ∀ a b c, p3 a b c = true → high a ∧ high b ∧ high c).

Lemma f_head_high l x m : f l = x :: m → high x → ∃ l', l = x :: l' ∧ m = f l'.
Proof.
  intros H Hx. destruct (f_head l x m H) as [[-> | ->]|(a & l' & -> & -> & ->)]; [done..|].
  exists l'. by rewrite lower_byte_high.
Qed.

Lemma leads_lower l : leads p1 p2 p3 (f l) = true → leads p1 p2 p3 l = true.
Proof.
  destruct (f l) as [|x m] eqn:E; [done|]. simpl. intros [H|H]%orb_true_iff.
  { destruct (f_head l x m E) as [Hx|(a & l' & -> & -> & ->)].
    - by rewrite p1_letter in H.
    - simpl. by rewrite <-p1_lower, H. }
  destruct m as [|y m]; [done|]. apply orb_true_iff in H as [H|H].
  - destruct (p2_high _ _ H) as [Hx Hy].
    destruct (f_head_high l x _ E Hx) as (l' & -> & E').
    destruct (f_head_high l' y m (eq_sym E') Hy) as (l'' & -> & _). simpl. rewrite H. by rewrite orb_true_r.
  - destruct m as [|z m]; [done|]. destruct (p3_high _ _ _ H) as (Hx & Hy & Hz).
    destruct (f_head_high l x _ E Hx) as (l1 & -> & E1).
    destruct (f_head_high l1 y _ (eq_sym E1) Hy) as (l2 & -> & E2).
    destruct (f_head_high l2 z m (eq_sym E2) Hz) as (l3 & -> & _). simpl. by rewrite H, !orb_true_r.
Qed.
End lower_leads.

Lemma space1_letter a : is_i_or_k a → space1 a = false.
Proof. by intros [-> | ->]. Qed.

Lemma space2_high a b :
  space2 a b = true → (128 <=? byte_of a)%N = true ∧ (128 <=? byte_of b)%N = true.
Proof.
  unfold space2. rewrite !andb_true_iff, !orb_true_iff, !N.eqb_eq, !N.leb_le. lia.
Qed.

Lemma space3_high a b c :
  space3 a b c = true →
  (128 <=? byte_of a)%N = true ∧ (128 <=? byte_of b)%N = true ∧ (128 <=? byte_of c)%N = true.
Proof.
  unfold space3. rewrite !orb_true_iff, !andb_true_iff, !orb_true_iff, !andb_true_iff,
    !N.eqb_eq, !N.leb_le. lia.
Qed.

Lemma string_list_inj l s : string_to_list s = l → s = string_of_list l.
Proof. intros <-. by rewrite string_of_to_list. Qed.

(** A trimmed string has no space at its ends, and is left alone. *)
Lemma TrimSpace_ends s :
  let l := string_to_list (TrimSpace s) in space_leads l = false ∧ space_ends l = false.
Proof.
  unfold TrimSpace. cbv zeta. rewrite string_to_of_list.
  set (l := trim_left_bytes (string_to_list s)).
  assert (Hl : space_leads l = false) by apply trim_prefix_spec.
  unfold trim_right_bytes.
  destruct (trim_prefix_spec space1 (λ b a, space2 a b) (λ c b a, space3 a b c) (reverse l))
    as [Hq [k Hk]].
  set (q := trim_prefix _ _ _ (reverse l)) in *. rewrite reverse_involutive.
  split; [|done]. apply (leads_app _ _ _ _ (reverse k)).
  by rewrite <-reverse_app, <-Hk, reverse_involutive.
Qed.

Lemma TrimSpace_id s :
  let l := string_to_list s in space_leads l = false → space_ends l = false → TrimSpace s = s.
Proof.
  cbv zeta. intros H1 H2. unfold TrimSpace, trim_left_bytes, trim_right_bytes.
  rewrite (trim_prefix_id _ _ _ _ H1), (trim_prefix_id _ _ _ _ H2), reverse_involutive.
  apply string_of_to_list.
Qed.

(** The lower case of a trimmed string is trimmed. *)
Lemma TrimSpace_ToLower_TrimSpace s :
  TrimSpace (ToLower (TrimSpace s)) = ToLower (TrimSpace s).
Proof.
  destruct (TrimSpace_ends s) as [H1 H2]. apply TrimSpace_id.
  - unfold ToLower. rewrite string_to_of_list. apply not_true_is_false. intros H.
    apply (leads_lower lower_bytes lower_bytes_head) in H;
      eauto using space1_lower, space1_letter, space2_high, space3_high. congruence.
  - unfold ToLower. rewrite string_to_of_list. apply not_true_is_false.
    rewrite <-(reverse_involutive (string_to_list (TrimSpace s))). intros H.
    apply (leads_lower (λ l, reverse (lower_bytes (reverse l)))) in H;
      eauto using space1_lower, space1_letter; [congruence|..].
    + intros l x m E. apply (f_equal reverse) in E. rewrite reverse_involutive, reverse_cons in E.
      destruct (lower_bytes_end _ _ _ E) as [?|(a & l' & El & -> & Em)]; [by left|right].
      exists a, (reverse l'). apply (f_equal reverse) in El, Em.
      rewrite reverse_involutive in El, Em. rewrite reverse_app in El.
      by rewrite reverse_involutive.
    + intros a b Hab. apply space2_high in Hab. tauto.
    + intros a b c Hab. apply space3_high in Hab. tauto.
Qed.

(** Lower case is stable. *)
Lemma lower_bytes_tail l x m :
  lower_bytes l = x :: m → lower_byte x = x ∧ ∃ l', m = lower_bytes l'.
Proof.
  intros H. split.
  - destruct (lower_bytes_head l x m H) as [[-> | ->]|(a & l' & -> & -> & ->)];
      [done..|apply lower_byte_idemp].
  - destruct l as [|a [|b [|c l]]]; [done|simpl in H..|]; [| |rewrite lower_bytes_3 in H];
      repeat case_match; simplify_eq; eauto; first [by exists [] | by exists [b]].
Qed.

Lemma lower_bytes_head_high l x m :
  lower_bytes l = x :: m → (128 <=? byte_of x)%N = true → ∃ l', l = x :: l' ∧ m = lower_bytes l'.
Proof. apply (f_head_high lower_bytes lower_bytes_head). Qed.

Lemma lower_bytes_idemp l : lower_bytes (lower_bytes l) = lower_bytes l.
Proof.
  remember (length (lower_bytes l)) as n eqn:Hn. revert l Hn.
  induction n as [n IH] using lt_wf_ind. intros l ->.
  destruct (lower_bytes l) as [|x m] eqn:E; [done|].
  destruct (lower_bytes_tail l x m E) as [Hx [l' Hm]].
  assert (Em : lower_bytes m = m) by (subst m; apply (IH (length (lower_bytes l')) (Nat.lt_succ_diag_r _) l' eq_refl)).
  clear IH l' Hm. destruct m as [|y m]; [simpl; by rewrite Hx|].
  assert (H1 : (byte_of x =? 196)%N && (byte_of y =? 176)%N = false).
  { apply not_true_is_false. rewrite andb_true_iff, !N.eqb_eq. intros [X Y].
    destruct (lower_bytes_head_high l x _ E) as (l1 & -> & E1); [by rewrite X|].
    destruct (lower_bytes_head_high l1 y _ (eq_sym E1)) as (l2 & -> & _); [by rewrite Y|].
    destruct l2; [simpl in E|rewrite lower_bytes_3 in E]; rewrite X, Y in E; simpl in E; simplify_eq. }
  destruct m as [|z m]; [simpl; rewrite H1; simpl in Em; congruence|].
  assert (H2 : (byte_of x =? 226)%N && (byte_of y =? 132)%N && (byte_of z =? 170)%N = false).
  { apply not_true_is_false. rewrite !andb_true_iff, !N.eqb_eq. intros [[X Y] Z].
    destruct (lower_bytes_head_high l x _ E) as (l1 & -> & E1); [by rewrite X|].
    destruct (lower_bytes_head_high l1 y _ (eq_sym E1)) as (l2 & -> & E2); [by rewrite Y|].
    destruct (lower_bytes_head_high l2 z _ (eq_sym E2)) as (l3 & -> & _); [by rewrite Z|].
    rewrite lower_bytes_3, X, Y, Z in E. simpl in E. simplify_eq. }
  by rewrite lower_bytes_3, H1, H2, Hx, Em.
Qed.

Lemma ToLower_idemp s : ToLower (ToLower s) = ToLower s.
Proof. unfold ToLower. by rewrite string_to_of_list, lower_bytes_idemp. Qed.

(** [strings.ToLower(strings.TrimSpace(s))] is a normal form. *)
Lemma lower_trim_idemp s :
  ToLower (TrimSpace (ToLower (TrimSpace s))) = ToLower (TrimSpace s).
Proof. by rewrite TrimSpace_ToLower_TrimSpace, ToLower_idemp. Qed.

#[export] Hint Rewrite ToLower_idemp lower_trim_idemp TrimSpace_ToLower_TrimSpace : go.

Example escape_space : PathEscape "a b/c:é" = "a%20b%2Fc:%C3%A9".
Proof. reflexivity. Qed.
