(* ===== verification/RuneFacts.v ===== *)
(** Counting runes: cutting a string between two code points cuts its runes,
    the first runes of a string are their own runes, and trimming takes whole
    code points away. *)

From Stdlib Require Import Ascii.
From stdpp Require Import base gmap strings list pretty sorting numbers.
From S2P Require Import Prelude GoLib GoText.

Open Scope go_scope.
Open Scope Z_scope.

Local Abbreviation byte := Ascii.ascii.

(** ** Cutting between runes *)

Lemma in_range_continuation lo hi b :
  (128 ≤ lo)%N → (hi ≤ 191)%N → continuation b = false → in_range lo hi b = false.
Proof.
  unfold continuation, in_range. rewrite !andb_false_iff, !N.leb_gt. lia.
Qed.

Lemma leads_continuation a b :
  continuation b = false → leads2 a b = false ∧ leads3 a b = false ∧ leads4 a b = false.
Proof.
  intros Hb. unfold leads2, leads3, leads4. rewrite Hb.
  rewrite !(in_range_continuation _ _ b) by (done || lia). by rewrite !andb_false_r.
Qed.

Lemma runes_cons a l :
  runes (a :: l) =
    if (byte_of a <? 128)%N then [a] :: runes l
    else match l with
    | b :: l2 =>
        if leads2 a b then [a; b] :: runes l2
        else match l2 with
        | c :: l3 =>
            if leads3 a b && continuation c then [a; b; c] :: runes l3
            else match l3 with
            | d :: l4 =>
                if leads4 a b && continuation c && continuation d
                then [a; b; c; d] :: runes l4 else RuneError :: runes l
            | [] => RuneError :: runes l
            end
        | [] => RuneError :: runes l
        end
    | [] => RuneError :: runes l
    end.
Proof. by destruct l as [|b [|c [|d l]]]. Qed.

Lemma runes_app (a : list byte) c b :
  continuation c = false → runes (a ++ c :: b) = runes a ++ runes (c :: b).
Proof.
  intros Hc. remember (length a) as n eqn:Hn. revert a Hn.
  induction n as [n IH] using lt_wf_ind. intros a ->.
  assert (IH' : ∀ a', (length a' < length a)%nat → runes (a' ++ c :: b) = runes a' ++ runes (c :: b)).
  { intros a' Ha. by apply (IH _ Ha). }
  clear IH.
  destruct a as [|x a]; [done|].
  cbn [app]. rewrite (runes_cons x a), (runes_cons x (a ++ c :: b)).
  destruct (byte_of x <? 128)%N; [by rewrite IH' by (simpl; lia)|].
  destruct a as [|y a].
  { cbn [app]. destruct (leads_continuation x c Hc) as (->&->&->). by destruct b as [|? [|? ?]]. }
  cbn [app]. destruct (leads2 x y); [by rewrite IH' by (simpl; lia)|].
  pose proof (IH' (y :: a) ltac:(simpl; lia)) as Ey. cbn [app] in Ey. rewrite Ey.
  destruct a as [|z a].
  { cbn [app]. rewrite Hc, !andb_false_r. by destruct b. }
  cbn [app]. destruct (leads3 x y && continuation z); [by rewrite IH' by (simpl; lia)|].
  destruct a as [|w a]; cbn [app].
  { by rewrite Hc, !andb_false_r. }
  destruct (leads4 x y && continuation z && continuation w); [|done].
  by rewrite IH' by (simpl; lia).
Qed.

(** ** Complete runes *)

(** The bytes of one rune, whatever follows. *)
Definition complete (r : list byte) : Prop := ∀ l, runes (r ++ l) = r :: runes l.

Lemma runes_complete l : Forall complete (runes l).
Proof.
  assert (HE : complete RuneError) by done.
  remember (length l) as n eqn:Hn. revert l Hn.
  induction n as [n IH] using lt_wf_ind. intros l ->.
  assert (IH' : ∀ l', (length l' < length l)%nat → Forall complete (runes l')).
  { intros l' Hl. by apply (IH _ Hl). }
  clear IH. destruct l as [|a l]; [constructor|]. rewrite runes_cons.
  destruct (byte_of a <? 128)%N eqn:E1.
  { constructor; [|by apply IH'; simpl; lia]. intros l'. simpl. by rewrite E1. }
  destruct l as [|b l]; [by repeat constructor|]. destruct (leads2 a b) eqn:E2.
  { constructor; [|by apply IH'; simpl; lia]. intros l'. simpl. by rewrite E1, E2. }
  destruct l as [|c l]; [constructor; [done|by apply IH'; simpl; lia]|].
  destruct (leads3 a b && continuation c) eqn:E3.
  { constructor; [|by apply IH'; simpl; lia]. intros l'. simpl. by rewrite E1, E2, E3. }
  destruct l as [|d l]; [constructor; [done|by apply IH'; simpl; lia]|].
  destruct (leads4 a b && continuation c && continuation d) eqn:E4;
    constructor; [|by apply IH'; simpl; lia|done|by apply IH'; simpl; lia].
  intros l'. simpl. by rewrite E1, E2, E3, E4.
Qed.

Lemma runes_concat rs : Forall complete rs → runes (concat rs) = rs.
Proof. induction 1 as [|r rs Hr _ IH]; [done|]. simpl. by rewrite Hr, IH. Qed.

Lemma first_runes_count n s : RuneCountInString (first_runes n s) ≤ Z.of_nat n.
Proof.
  unfold RuneCountInString, first_runes. rewrite string_to_of_list, runes_concat.
  - rewrite length_take. lia.
  - apply Forall_take, runes_complete.
Qed.

(** ** Trimming *)

(** A sequence of spaces. *)
Inductive spaces : list byte → Prop :=
  | spaces_nil : spaces []
  | spaces_1 a l : space1 a = true → spaces l → spaces (a :: l)
  | spaces_2 a b l : space2 a b = true → spaces l → spaces (a :: b :: l)
  | spaces_3 a b c l : space3 a b c = true → spaces l → spaces (a :: b :: c :: l).

Lemma spaces_app l1 l2 : spaces l1 → spaces l2 → spaces (l1 ++ l2).
Proof. induction 1; simpl; eauto using spaces. Qed.

Lemma space_not_continuation l : spaces l → match l with [] => True | a :: _ => continuation a = false end.
Proof.
  destruct 1 as [|a l H _|a b l H _|a b c l H _]; [done|..]; revert H;
    unfold space1, space2, space3, continuation, in_range;
    rewrite ?orb_true_iff, ?andb_true_iff, ?orb_true_iff, ?andb_true_iff, ?N.leb_le, ?N.eqb_eq,
      andb_false_iff, !N.leb_gt; lia.
Qed.

Lemma space1_complete a : space1 a = true → complete [a].
Proof.
  unfold space1. rewrite orb_true_iff, andb_true_iff, !N.leb_le, N.eqb_eq. intros H l. cbn [app].
  rewrite runes_cons. by rewrite (proj2 (N.ltb_lt _ _)) by lia.
Qed.

Lemma space2_complete a b : space2 a b = true → complete [a; b].
Proof.
  unfold space2. rewrite andb_true_iff, orb_true_iff, !N.eqb_eq. intros [Ha Hb] l. cbn [app].
  rewrite runes_cons. unfold leads2, continuation, in_range. rewrite Ha. by destruct Hb as [->| ->].
Qed.

Lemma space3_complete a b c : space3 a b c = true → complete [a; b; c].
Proof.
  intros H l. cbn [app]. rewrite runes_cons.
  assert (Hc : continuation c = true ∧ (224 < byte_of a < 237)%N ∧ continuation b = true).
  { revert H. unfold space3, continuation, in_range.
    rewrite !orb_true_iff, !andb_true_iff, !orb_true_iff, !andb_true_iff, !N.leb_le, !N.eqb_eq. lia. }
  destruct Hc as (->&Ha&Hb).
  replace (byte_of a <? 128)%N with false by (symmetry; apply N.ltb_ge; lia).
  replace (leads2 a b) with false.
  2:{ unfold leads2, in_range. by rewrite (proj2 (N.leb_gt _ 223)), andb_false_r by lia. }
  replace (leads3 a b) with true; [done|]. unfold leads3. rewrite Hb. unfold in_range.
  rewrite (proj2 (N.leb_le 225 _)), (proj2 (N.leb_le _ 236)) by lia. simpl. by rewrite orb_true_r.
Qed.

Lemma spaces_runes k : spaces k → ∃ rs, Forall complete rs ∧ concat rs = k.
Proof.
  induction 1 as [|a l H _ (rs&Hrs&<-)|a b l H _ (rs&Hrs&<-)|a b c l H _ (rs&Hrs&<-)].
  - by exists [].
  - exists ([a] :: rs). split; [|done]. constructor; [by apply space1_complete|done].
  - exists ([a; b] :: rs). split; [|done]. constructor; [by apply space2_complete|done].
  - exists ([a; b; c] :: rs). split; [|done]. constructor; [by apply space3_complete|done].
Qed.

Lemma runes_complete_app rs l : Forall complete rs → runes (concat rs ++ l) = rs ++ runes l.
Proof. induction 1 as [|r rs Hr _ IH]; [done|]. simpl. by rewrite <-app_assoc, Hr, IH. Qed.

(** What [strings.TrimSpace] takes away. *)
Lemma trim_prefix_spaces l : ∃ k, spaces k ∧ l = k ++ trim_left_bytes l.
Proof.
  unfold trim_left_bytes. remember (length l) as n eqn:Hn. revert l Hn.
  induction n as [n IH] using lt_wf_ind. intros l ->.
  assert (IH' : ∀ l', (length l' < length l)%nat →
    ∃ k, spaces k ∧ l' = k ++ trim_prefix space1 space2 space3 l').
  { intros l' Hl. by apply (IH _ Hl). }
  clear IH. destruct l as [|a l]; [exists []; by split; [constructor|]|]. cbn [trim_prefix].
  destruct (space1 a) eqn:E1.
  { destruct (IH' l) as (k&Hk&E); [simpl; lia|]. exists (a :: k). split; [by constructor|]. simpl. by f_equal. }
  destruct l as [|b l]; [exists []; by split; [constructor|]|]. destruct (space2 a b) eqn:E2.
  { destruct (IH' l) as (k&Hk&E); [simpl; lia|]. exists (a :: b :: k). split; [by constructor|].
    simpl. by do 2 f_equal. }
  destruct l as [|c l]; [exists []; by split; [constructor|]|]. destruct (space3 a b c) eqn:E3.
  { destruct (IH' l) as (k&Hk&E); [simpl; lia|]. exists (a :: b :: c :: k). split; [by constructor|].
    simpl. by do 3 f_equal. }
  exists []. by split; [constructor|].
Qed.

Lemma trim_suffix_spaces l : ∃ k, spaces k ∧ l = trim_right_bytes l ++ k.
Proof.
  unfold trim_right_bytes. set (p2 := λ b a, space2 a b). set (p3 := λ c b a, space3 a b c).
  cut (∃ k, spaces (reverse k) ∧ reverse l = k ++ trim_prefix space1 p2 p3 (reverse l)).
  { intros (k&Hk&E). exists (reverse k). split; [done|]. by rewrite <-reverse_app, <-E, reverse_involutive. }
  generalize (reverse l) as m. intros m. clear l. remember (length m) as n eqn:Hn. revert m Hn.
  induction n as [n IH] using lt_wf_ind. intros m ->.
  assert (IH' : ∀ r m', (length m' < length m)%nat → m = r ++ m' → spaces (reverse r) →
    ∃ k, spaces (reverse k) ∧ m = k ++ trim_prefix space1 p2 p3 m').
  { intros r m' Hm E Hr. destruct (IH _ Hm m' eq_refl) as (k&Hk&E'). exists (r ++ k).
    rewrite reverse_app, <-app_assoc, <-E'. split; [by apply spaces_app|done]. }
  assert (Hnil : ∃ k, spaces (reverse k) ∧ m = k ++ m) by (exists []; by split; [constructor|]).
  clear IH. destruct m as [|a m]; [done|]. cbn [trim_prefix].
  destruct (space1 a) eqn:E1.
  { apply (IH' [a]); [simpl; lia|done|by repeat constructor]. }
  destruct m as [|b m]; [done|]. destruct (p2 a b) eqn:E2.
  { apply (IH' [a; b]); [simpl; lia|done|by repeat constructor]. }
  destruct m as [|c m]; [done|]. destruct (p3 a b c) eqn:E3; [|done].
  apply (IH' [a; b; c]); [simpl; lia|done|]. apply (spaces_3 c b a); [done|constructor].
Qed.

Lemma TrimSpace_split s :
  ∃ k1 k2, spaces k1 ∧ spaces k2 ∧ string_to_list s = k1 ++ string_to_list (TrimSpace s) ++ k2.
Proof.
  unfold TrimSpace. cbv zeta. rewrite string_to_of_list.
  destruct (trim_prefix_spaces (string_to_list s)) as (k1&H1&E1).
  destruct (trim_suffix_spaces (trim_left_bytes (string_to_list s))) as (k2&H2&E2).
  exists k1, k2. by rewrite <-E2.
Qed.

Lemma TrimSpace_count s : RuneCountInString (TrimSpace s) ≤ RuneCountInString s.
Proof.
  unfold RuneCountInString. destruct (TrimSpace_split s) as (k1&k2&H1&H2&->).
  generalize (string_to_list (TrimSpace s)) as l. intros l.
  apply spaces_runes in H1 as (rs&Hrs&<-). rewrite runes_complete_app, length_app by done.
  apply space_not_continuation in H2. destruct k2 as [|c k2]; [rewrite app_nil_r; lia|].
  rewrite runes_app, length_app by done. lia.
Qed.

(** A visible first byte is kept. *)
Lemma spaces_visible a l : (33 ≤ byte_of a < 128)%N → ¬ spaces (a :: l).
Proof.
  intros Ha H. inversion H as [|? ? Hs|? ? ? Hs|? ? ? ? Hs]; subst; revert Hs.
  - unfold space1. rewrite orb_true_iff, andb_true_iff, !N.leb_le, N.eqb_eq. lia.
  - intros [?%N.leb_le _]%space2_high. lia.
  - intros (?%N.leb_le&_)%space3_high. lia.
Qed.

Lemma TrimSpace_head a s :
  (33 ≤ byte_of a < 128)%N → ∃ s', TrimSpace (String a s) = String a s'.
Proof.
  intros Ha. destruct (TrimSpace_split (String a s)) as (k1&k2&H1&H2&Es).
  change (string_to_list (String a s)) with (a :: string_to_list s) in Es.
  destruct k1 as [|b k1].
  - destruct (TrimSpace (String a s)) as [|b s']; simpl in Es.
    + destruct k2 as [|b k2]; [done|]. injection Es as <- _. by apply spaces_visible in H2.
    + injection Es as <- _. by exists s'.
  - injection Es as <- _. by apply spaces_visible in H1.
Qed.
