(* ===== verification/Regexp.v ===== *)
(** Regular expressions: what a pattern of Go's regexp package denotes, for the
    operators the patterns of the program use.  A pattern anchored at both ends
    accepts a string exactly when the string is a word of the expression. *)

From Stdlib Require Import Ascii.
From stdpp Require Import base strings list.
From S2P Require Import Prelude GoLib GoPath.

Inductive regexp :=
  | Empty
  | Class_ (p : Ascii.ascii → bool)
  | Cat (r1 r2 : regexp)
  | Alt (r1 r2 : regexp)
  | Star (r : regexp).

Definition Char (c : Ascii.ascii) : regexp := Class_ (Ascii.eqb c).
(** [r?] and [r+]. *)
Definition Opt (r : regexp) : regexp := Alt Empty r.
Definition Plus (r : regexp) : regexp := Cat r (Star r).

Inductive matches : regexp → list Ascii.ascii → Prop :=
  | matches_empty : matches Empty []
  | matches_class p c : p c = true → matches (Class_ p) [c]
  | matches_cat r1 r2 l1 l2 : matches r1 l1 → matches r2 l2 → matches (Cat r1 r2) (l1 ++ l2)
  | matches_left r1 r2 l : matches r1 l → matches (Alt r1 r2) l
  | matches_right r1 r2 l : matches r2 l → matches (Alt r1 r2) l
  | matches_nil r : matches (Star r) []
  | matches_cons r l1 l2 : matches r l1 → matches (Star r) l2 → matches (Star r) (l1 ++ l2).

#[export] Hint Constructors matches : go.

Lemma matches_Empty l : matches Empty l ↔ l = [].
Proof. split; [by inversion 1|intros ->; constructor]. Qed.

Lemma matches_Class p l : matches (Class_ p) l ↔ ∃ c, l = [c] ∧ p c = true.
Proof. split; [inversion 1; subst; eauto|intros (c & -> & ?); by constructor]. Qed.

Lemma matches_Char c l : matches (Char c) l ↔ l = [c].
Proof.
  unfold Char. rewrite matches_Class. setoid_rewrite Ascii.eqb_eq. naive_solver.
Qed.

Lemma matches_Cat r1 r2 l :
  matches (Cat r1 r2) l ↔ ∃ l1 l2, l = l1 ++ l2 ∧ matches r1 l1 ∧ matches r2 l2.
Proof. split; [inversion 1; subst; eauto|intros (? & ? & -> & ? & ?); by constructor]. Qed.

Lemma matches_Alt r1 r2 l : matches (Alt r1 r2) l ↔ matches r1 l ∨ matches r2 l.
Proof. split; [inversion 1; subst; eauto|intros [?|?]; eauto with go]. Qed.

Lemma matches_Char_Cat c r l : matches (Cat (Char c) r) l ↔ ∃ l', l = c :: l' ∧ matches r l'.
Proof.
  rewrite matches_Cat. setoid_rewrite matches_Char. split.
  - intros (? & l' & -> & -> & ?). by exists l'.
  - intros (l' & -> & ?). by exists [c], l'.
Qed.

Lemma matches_Star_words r l :
  matches (Star r) l ↔ ∃ ls, l = concat ls ∧ Forall (matches r) ls.
Proof.
  split.
  - remember (Star r) as r' eqn:E. induction 1; simplify_eq.
    + by exists [].
    + destruct (IHmatches2 eq_refl) as (ls & -> & ?). exists (l1 :: ls). auto.
  - intros (ls & -> & H). induction H; simpl; eauto with go.
Qed.

Lemma matches_Star_Class p l : matches (Star (Class_ p)) l ↔ forallb p l = true.
Proof.
  split.
  - remember (Star (Class_ p)) as r eqn:E. induction 1 as [| | | | | |r l1 l2 H1 _ H2 IH]; simplify_eq; [done|].
    apply matches_Class in H1 as (c & -> & Hc). simpl. by rewrite Hc, IH.
  - induction l as [|c l IH]; simpl; [constructor|]. intros [Hc Hl]%andb_true_iff.
    apply (matches_cons _ [c]); eauto with go.
Qed.

(** ** Words separated by a byte *)

Section separated.
  Context (sep : Ascii.ascii).

(** The words with the separator between them. *)
Fixpoint join_bytes (words : list (list Ascii.ascii)) : list Ascii.ascii :=
  match words with
  | [] => []
  | [w] => w
  | w :: words => w ++ sep :: join_bytes words
  end.

Lemma split_bytes_cons l : ∃ w ws, split_bytes sep l = w :: ws.
Proof.
  destruct l as [|c l]; simpl; [by eauto|]. destruct (Ascii.eqb c sep); [by eauto|].
  destruct (split_bytes sep l); eauto.
Qed.

Lemma join_split_bytes l : join_bytes (split_bytes sep l) = l.
Proof.
  induction l as [|c l IH]; simpl; [done|].
  destruct (split_bytes_cons l) as (w & ws & E). rewrite E in *.
  destruct (Ascii.eqb_spec c sep) as [->|Hc]; cbn; [by rewrite <-IH|].
  destruct ws; cbn in *; by rewrite <-IH.
Qed.

Lemma split_bytes_free l : Forall (λ w, sep ∉ w) (split_bytes sep l).
Proof.
  induction l as [|c l IH]; simpl.
  { constructor; [apply not_elem_of_nil|done]. }
  destruct (Ascii.eqb_spec c sep) as [->|Hc].
  { constructor; [apply not_elem_of_nil|done]. }
  destruct (split_bytes_cons l) as (w & ws & E). rewrite E in *.
  inversion IH; subst. constructor; [|done]. rewrite not_elem_of_cons. auto.
Qed.

Lemma split_bytes_word w : sep ∉ w → split_bytes sep w = [w].
Proof.
  induction w as [|c w IH]; simpl; [done|]. intros [Hc Hw]%not_elem_of_cons.
  rewrite (proj2 (Ascii.eqb_neq c sep)) by congruence. by rewrite IH.
Qed.

Lemma split_bytes_app w l : sep ∉ w → split_bytes sep (w ++ sep :: l) = w :: split_bytes sep l.
Proof.
  induction w as [|c w IH]; simpl; [by rewrite Ascii.eqb_refl|].
  intros [Hc Hw]%not_elem_of_cons. rewrite (proj2 (Ascii.eqb_neq c sep)) by congruence.
  by rewrite IH.
Qed.

Lemma split_join_bytes words :
  words ≠ [] → Forall (λ w, sep ∉ w) words → split_bytes sep (join_bytes words) = words.
Proof.
  intros Hne H. induction H as [|w words Hw Hws IH]; [done|].
  destruct words as [|w' words]; [by apply split_bytes_word|].
  change (join_bytes (w :: w' :: words)) with (w ++ sep :: join_bytes (w' :: words)).
  rewrite split_bytes_app by done. by rewrite IH.
Qed.

(** Words of [r] separated by the byte: [r(sep r)*]. *)
Lemma matches_separated r l :
  (∀ w, matches r w → sep ∉ w) →
  matches (Cat r (Star (Cat (Char sep) r))) l ↔ Forall (matches r) (split_bytes sep l).
Proof.
  intros Hfree. rewrite matches_Cat. setoid_rewrite matches_Star_words. split.
  - intros (w & l' & -> & Hw & ls & -> & Hls).
    assert (Forall (matches r) (split_bytes sep (w ++ concat ls))) as H; [|done].
    revert w Hw. induction Hls as [|v ls Hv Hls IH]; intros w Hw; simpl.
    + rewrite app_nil_r, split_bytes_word; auto.
    + apply matches_Char_Cat in Hv as (v' & -> & Hv'). simpl.
      rewrite split_bytes_app by auto. auto.
  - intros H. rewrite <-(join_split_bytes l). destruct (split_bytes_cons l) as (w & ws & E).
    rewrite E in *. inversion H as [|? ? Hw Hws]; subst. clear E H.
    exists w, (concat ((λ v, sep :: v) <$> ws)). split_and!; [|done|].
    + clear Hw. revert w. induction Hws as [|v ws Hv Hws IH]; intros w; [by rewrite app_nil_r|].
      change (join_bytes (w :: v :: ws)) with (w ++ sep :: join_bytes (v :: ws)).
      by rewrite IH, fmap_cons.
    + eexists. split; [done|]. apply Forall_fmap. eapply Forall_impl; [done|].
      intros v Hv. simpl. apply matches_Char_Cat. by exists v.
Qed.

End separated.
