(* ===== verification/Graph.v ===== *)
(** Dependency graphs: a node is a name, an edge leads from a node to a node it
    depends on.  The planner and the pipeline validator keep such graphs as a
    Go map from a name to the list of its dependencies.  The file holds the
    theory their algorithms share: reachability, acyclicity, the length of the
    longest chain below a node. *)

From stdpp Require Import base gmap strings list relations sorting numbers.
From S2P Require Import Prelude.

Abbreviation DepGraph := (gmap string (list string)) (only parsing).

(** Reading an absent key of the map gives no dependencies. *)
Definition depsOf (g : DepGraph) (x : string) : list string := default [] (g !! x).

Definition edge (g : DepGraph) (x y : string) : Prop := y ∈ depsOf g x.

Definition acyclic (g : DepGraph) : Prop := ∀ x, ¬ tc (edge g) x x.

(** [d] is the length of the longest chain of dependencies below [x]. *)
Definition longest (g : DepGraph) (x : string) (d : nat) : Prop :=
  (∃ y, nsteps (edge g) d x y) ∧ ∀ n y, nsteps (edge g) n x y → (n ≤ d)%nat.

Section graph.
  Context (g : DepGraph).
  Implicit Types x y z : string.

Lemma edge_dom x y : edge g x y → x ∈ dom g.
Proof.
  unfold edge, depsOf. rewrite elem_of_dom. destruct (g !! x) as [l|]; simpl; [by eauto|].
  by rewrite elem_of_nil.
Qed.

Lemma longest_unique x d d' : longest g x d → longest g x d' → d = d'.
Proof.
  intros [[y Hy] Hmax] [[y' Hy'] Hmax'].
  pose proof (Hmax _ _ Hy'). pose proof (Hmax' _ _ Hy). lia.
Qed.

Lemma longest_edge x y d e : longest g x d → edge g x y → longest g y e → (e < d)%nat.
Proof.
  intros [_ Hmax] Hxy [[z Hz] _]. pose proof (Hmax (S e) z (nsteps_l _ _ _ _ _ Hxy Hz)). lia.
Qed.

(** The longest chain of a node is one more than the longest of its dependencies. *)
Lemma longest_deps x d :
  (∀ y, edge g x y → ∃ e, longest g y e ∧ (e < d)%nat) →
  (d = 0%nat ∨ ∃ y e, edge g x y ∧ longest g y e ∧ d = S e) →
  longest g x d.
Proof.
  intros Hall Hex. split.
  - destruct Hex as [->|(y & e & Hxy & [[z Hz] _] & ->)]; [exists x; constructor|].
    exists z. by eapply nsteps_l.
  - intros n z Hn. destruct Hn as [|n x y z Hxy Hyz]; [lia|].
    destruct (Hall y Hxy) as (e & [_ Hmax] & He). specialize (Hmax _ _ Hyz). lia.
Qed.

(** In an acyclic graph the nodes of a chain with an edge are distinct. *)
Lemma acyclic_chain n x y :
  acyclic g → nsteps (edge g) n x y →
  ∃ l, length l = n ∧ NoDup l ∧ ∀ z, z ∈ l → z ∈ dom g ∧ rtc (edge g) x z.
Proof.
  intros Hac Hn. induction Hn as [x|n x y z Hxy Hyz (l & <- & Hnd & Hl)].
  { exists []. split_and!; [done|constructor|]. intros z Hz. by apply elem_of_nil in Hz. }
  exists (x :: l). split_and!; [done| |].
  - apply list.NoDup_cons. split; [|done]. intros Hx. destruct (Hl _ Hx) as [_ Hr].
    apply (Hac x). by eapply tc_rtc_r; [apply tc_once|].
  - intros w [->|Hw]%elem_of_cons.
    + split; [by eapply edge_dom|done].
    + destruct (Hl _ Hw). split; [done|]. by eapply rtc_l.
Qed.

Lemma acyclic_chain_bound n x y :
  acyclic g → nsteps (edge g) n x y → (n ≤ size g)%nat.
Proof.
  intros Hac Hn. destruct (acyclic_chain n x y Hac Hn) as (l & <- & Hnd & Hl).
  rewrite <-size_dom, <-(size_list_to_set (C:=gset string) l Hnd). apply subseteq_size.
  intros z Hz%elem_of_list_to_set. by apply Hl.
Qed.

Lemma bounded_acc b x : (∀ n y, nsteps (edge g) n x y → (n ≤ b)%nat) → Acc (flip (edge g)) x.
Proof.
  revert x. induction b as [|b IH]; intros x Hb; constructor; intros y Hxy; unfold flip in Hxy.
  - pose proof (Hb 1%nat y (nsteps_once _ _ Hxy)). lia.
  - apply IH. intros n z Hn. pose proof (Hb (S n) z (nsteps_l _ _ _ _ _ Hxy Hn)). lia.
Qed.

Lemma acyclic_acc x : acyclic g → Acc (flip (edge g)) x.
Proof.
  intros Hac. apply (bounded_acc (size g)). intros n y. by apply acyclic_chain_bound.
Qed.

Lemma acc_acyclic : (∀ x, Acc (flip (edge g)) x) → acyclic g.
Proof.
  intros Hacc x. induction (Hacc x) as [x _ IH]. intros Hx.
  inversion Hx as [a b Hxx|a y b Hxy Hyx]; subst; [by apply (IH x)|].
  apply (IH y Hxy). by eapply tc_r.
Qed.

(** Every node of an acyclic graph has a longest chain. *)
Lemma acyclic_longest x : acyclic g → ∃ d, longest g x d ∧ (d ≤ size g)%nat.
Proof.
  intros Hac.
  assert (∃ d, longest g x d) as [d Hd].
  { induction (acyclic_acc x Hac) as [x _ IH]. unfold flip in IH.
    assert (∀ l : list string, (∀ y, y ∈ l → edge g x y) →
      ∃ d, (∀ y, y ∈ l → ∃ e, longest g y e ∧ (e < d)%nat) ∧
           (d = 0%nat ∨ ∃ y e, edge g x y ∧ longest g y e ∧ d = S e)) as Hlist.
    { induction l as [|y l IHl]; intros Hl.
      - exists 0%nat. split; [|by left]. intros y Hy. by apply elem_of_nil in Hy.
      - destruct IHl as (d & Hd & Hex); [intros; apply Hl; by right|].
        destruct (IH y) as [e He]; [apply Hl; by left|].
        destruct (decide (d ≤ e)%nat) as [Hde|Hde].
        + exists (S e). split.
          * intros z [->|Hz]%elem_of_cons; [exists e; auto with lia|].
            destruct (Hd z Hz) as (e' & He' & ?). exists e'. auto with lia.
          * right. exists y, e. split_and!; [apply Hl; by left|done|done].
        + exists d. split; [|done].
          intros z [->|Hz]%elem_of_cons; [exists e; auto with lia|by apply Hd]. }
    destruct (Hlist (depsOf g x)) as (d & Hd & Hex); [done|].
    exists d. by apply longest_deps. }
  exists d. split; [done|]. destruct Hd as [[y Hy] _]. by eapply acyclic_chain_bound.
Qed.

(** A numbering that decreases along the edges excludes cycles. *)
Lemma ranked_acyclic (rank : string → nat) :
  (∀ x y, edge g x y → (rank y < rank x)%nat) → acyclic g.
Proof.
  intros Hrank.
  assert (∀ x y, tc (edge g) x y → (rank y < rank x)%nat) as Htc.
  { intros x y. induction 1 as [x y Hxy|x y z Hxy _ IH]; [by apply Hrank|].
    specialize (Hrank x y Hxy). lia. }
  intros x Hx. specialize (Htc x x Hx). lia.
Qed.

End graph.

(** A map of the nodes that keeps edges keeps cycles. *)
Lemma acyclic_map (f : string → string) (g h : DepGraph) :
  (∀ x y, edge g x y → edge h (f x) (f y)) → acyclic h → acyclic g.
Proof.
  intros Hf Hh x Hx. apply (Hh (f x)).
  assert (∀ a b, tc (edge g) a b → tc (edge h) (f a) (f b)) as Htc; [|by apply Htc].
  intros a b. induction 1 as [a b Hab|a b c Hab _ IH]; [by apply tc_once, Hf|].
  eapply tc_l; [by apply Hf|done].
Qed.
