(* ===== verification/Domain.v ===== *)
(** The domain package: the records the program stores and passes around,
    the lifecycle tables of builds, steps and execution jobs, and the
    normalisation of build triggers and metadata
    (backend/internal/domain). *)

From Stdlib Require Import Ascii.
From stdpp Require Import base gmap strings list pretty sorting numbers.
From S2P Require Import Prelude GoLib.

Open Scope go_scope.
Open Scope Z_scope.

(** ** Statuses

    The Go types are strings with named constants.  A status that is none of
    the constants (the zero value among them) is the last constructor. *)

Inductive BuildStatus :=
  | BuildStatusPending
  | BuildStatusQueued
  | BuildStatusPreparing
  | BuildStatusRunning
  | BuildStatusSuccess
  | BuildStatusFailed
  | BuildStatusCanceled
  | BuildStatusOther (s : string).

Inductive BuildStepStatus :=
  | BuildStepStatusPending
  | BuildStepStatusRunning
  | BuildStepStatusSuccess
  | BuildStepStatusFailed
  | BuildStepStatusCanceled
  | BuildStepStatusOther (s : string).

Inductive ExecutionJobStatus :=
  | ExecutionJobStatusQueued
  | ExecutionJobStatusRunning
  | ExecutionJobStatusSuccess
  | ExecutionJobStatusFailed
  | ExecutionJobStatusCanceled
  | ExecutionJobStatusOther (s : string).

Inductive ExecutionFailureKind :=
  | ExecutionFailureKindExecution
  | ExecutionFailureKindTimeout
  | ExecutionFailureKindWorkspace
  | ExecutionFailureKindOther (s : string).

#[export] Instance BuildStatus_eq_dec : EqDecision BuildStatus.
Proof. solve_decision. Defined.
#[export] Instance BuildStepStatus_eq_dec : EqDecision BuildStepStatus.
Proof. solve_decision. Defined.
#[export] Instance ExecutionJobStatus_eq_dec : EqDecision ExecutionJobStatus.
Proof. solve_decision. Defined.
#[export] Instance ExecutionFailureKind_eq_dec : EqDecision ExecutionFailureKind.
Proof. solve_decision. Defined.

(** The string a build status is. *)
Definition BuildStatus_string (s : BuildStatus) : string :=
  match s with
  | BuildStatusPending => "pending"
  | BuildStatusQueued => "queued"
  | BuildStatusPreparing => "preparing"
  | BuildStatusRunning => "running"
  | BuildStatusSuccess => "success"
  | BuildStatusFailed => "failed"
  | BuildStatusCanceled => "canceled"
  | BuildStatusOther s => s
  end.

(** ** Lifecycle tables (lifecycle.go) *)

Definition IsTerminalBuildStatus (status : BuildStatus) : bool :=
  (status == BuildStatusSuccess) || (status == BuildStatusFailed)
  || (status == BuildStatusCanceled).

Definition IsTerminalStepStatus (status : BuildStepStatus) : bool :=
  (status == BuildStepStatusSuccess) || (status == BuildStepStatusFailed)
  || (status == BuildStepStatusCanceled).

Definition IsTerminalExecutionJobStatus (status : ExecutionJobStatus) : bool :=
  (status == ExecutionJobStatusSuccess) || (status == ExecutionJobStatusFailed)
  || (status == ExecutionJobStatusCanceled).

Definition CanCancelBuild (status : BuildStatus) : bool :=
  (status == BuildStatusQueued) || (status == BuildStatusPreparing)
  || (status == BuildStatusRunning).

Definition CanTransitionBuild (from to : BuildStatus) : bool :=
  match from with
  | BuildStatusPending => to == BuildStatusQueued
  | BuildStatusQueued => (to == BuildStatusPreparing) || (to == BuildStatusCanceled)
  | BuildStatusPreparing =>
      (to == BuildStatusRunning) || (to == BuildStatusFailed) || (to == BuildStatusCanceled)
  | BuildStatusRunning =>
      (to == BuildStatusSuccess) || (to == BuildStatusFailed) || (to == BuildStatusCanceled)
  | _ => false
  end.

Definition CanTransitionStep (from to : BuildStepStatus) : bool :=
  match from with
  | BuildStepStatusPending => to == BuildStepStatusRunning
  | BuildStepStatusRunning => (to == BuildStepStatusSuccess) || (to == BuildStepStatusFailed)
  | _ => false
  end.

Definition CanCancelStep (from : BuildStepStatus) : bool :=
  (from == BuildStepStatusPending) || (from == BuildStepStatusRunning).

Definition CanCancelExecutionJob (from : ExecutionJobStatus) : bool :=
  (from == ExecutionJobStatusQueued) || (from == ExecutionJobStatusRunning).

(** ** Priorities and node names (priority.go, node_id.go) *)

Definition MinPriority : Z := 1.
Definition MaxPriority : Z := 10.
Definition DefaultPriority : Z := 5.

Definition NormalizePriority (priority : Z) : Z :=
  if priority == 0 then DefaultPriority else priority.

Definition ValidPriority (priority : Z) : bool :=
  (MinPriority <=? priority) && (priority <=? MaxPriority).

Definition FallbackNodeID (stepIndex : Z) : string := "node-" +:+ Sprintf_03d stepIndex.

(** ** Optional strings *)

Definition trimOptional (value : option string) : option string :=
  match value with
  | None => None
  | Some v => let trimmed := TrimSpace v in if trimmed == "" then None else Some trimmed
  end.

(** ** Sources and images *)

(** source_spec.go. *)
Record SourceSpec := mkSourceSpec {
  ss_RepositoryURL : string;
  ss_Ref : option string;
  ss_CommitSHA : option string;
}.

#[export] Instance eta_SourceSpec : Eta SourceSpec := λ r,
  mkSourceSpec (ss_RepositoryURL r) (ss_Ref r) (ss_CommitSHA r).

Definition NewSourceSpec (repositoryURL ref commitSHA : string) : option SourceSpec :=
  let repo := TrimSpace repositoryURL in
  if repo == "" then None
  else
    let result := mkSourceSpec repo None None in
    let trimmedRef := TrimSpace ref in
    let result := if trimmedRef != "" then result <| ss_Ref := Some trimmedRef |> else result in
    let trimmedCommit := TrimSpace commitSHA in
    let result :=
      if trimmedCommit != "" then result <| ss_CommitSHA := Some trimmedCommit |> else result in
    Some result.

(** [ExecutionKind] and [ImageSourceKind] are strings; the empty string is the
    zero value. *)
Abbreviation ExecutionKind := string (only parsing).
Definition ExecutionKindShell : ExecutionKind := "shell".
Definition ExecutionKindImageBuild : ExecutionKind := "image_build".
Abbreviation ImageSourceKind := string (only parsing).
Definition ImageSourceKindExternal : ImageSourceKind := "external".
Definition ImageSourceKindManaged : ImageSourceKind := "managed".

(** An artifact an image build consumes (image_build.go). *)
Record ImageBuildArtifactInput := mkImageBuildArtifactInput {
  ai_Name : string;
  ai_Destination : string;
  ai_Platform : string;
}.

#[export] Instance eta_ImageBuildArtifactInput : Eta ImageBuildArtifactInput := λ r,
  mkImageBuildArtifactInput (ai_Name r) (ai_Destination r) (ai_Platform r).

(** image_build.go. *)
Record RemoteImageBuildSpec := mkRemoteImageBuildSpec {
  ri_ContextPath : string;
  ri_DockerfilePath : string;
  ri_Target : string;
  ri_BuildArgs : gmap string string;
  ri_TargetImageReference : string;
  ri_ArtifactInputs : list ImageBuildArtifactInput;
}.

#[export] Instance eta_RemoteImageBuildSpec : Eta RemoteImageBuildSpec := λ r,
  mkRemoteImageBuildSpec (ri_ContextPath r) (ri_DockerfilePath r) (ri_Target r)
    (ri_BuildArgs r) (ri_TargetImageReference r) (ri_ArtifactInputs r).

(** ** Caches (cache.go) *)

Abbreviation CachePolicy := string (only parsing).
Definition CachePolicyPullPush : CachePolicy := "pull-push".
Definition CachePolicyPull : CachePolicy := "pull".
Definition CachePolicyPush : CachePolicy := "push".
Definition CachePolicyOff : CachePolicy := "off".

(** The cache configuration of a step. *)
Record StepCacheConfig := mkStepCacheConfig {
  cc_Preset : string;
  cc_Policy : CachePolicy;
  cc_ComponentPolicies : gmap string CachePolicy;
}.

#[export] Instance eta_StepCacheConfig : Eta StepCacheConfig := λ r,
  mkStepCacheConfig (cc_Preset r) (cc_Policy r) (cc_ComponentPolicies r).

Definition NormalizeCachePolicy (value : CachePolicy) : CachePolicy :=
  let trimmed := ToLower (TrimSpace value) in
  if (trimmed == CachePolicyPull) || (trimmed == CachePolicyPush)
     || (trimmed == CachePolicyOff) || (trimmed == CachePolicyPullPush)
  then trimmed
  else CachePolicyPullPush.

(** A nil map and an empty one are the same value of the model: the code
    tells them apart in no place it models. *)
Definition StepCacheConfig_Clone (c : option StepCacheConfig) : option StepCacheConfig :=
  match c with
  | None => None
  | Some c =>
      Some (mkStepCacheConfig (TrimSpace (cc_Preset c)) (cc_Policy c)
              (NormalizeCachePolicy <$> cc_ComponentPolicies c))
  end.

(** ** Build triggers (build_trigger.go) *)

Abbreviation BuildTriggerType := string (only parsing).
Definition BuildTriggerTypeManual : BuildTriggerType := "manual".
Definition BuildTriggerTypeRerun : BuildTriggerType := "rerun".
Definition BuildTriggerTypeWebhook : BuildTriggerType := "webhook".
Definition BuildTriggerTypeArtifact : BuildTriggerType := "artifact".
Definition BuildTriggerTypeSchedule : BuildTriggerType := "schedule".
Definition BuildTriggerTypeAPI : BuildTriggerType := "api".
Abbreviation BuildTriggerKind := string (only parsing).
Definition BuildTriggerKindManual : BuildTriggerKind := "manual".
Definition BuildTriggerKindWebhook : BuildTriggerKind := "webhook".
Definition BuildTriggerKindArtifact : BuildTriggerKind := "artifact".
Abbreviation PullRequestSourceMode := string (only parsing).
Definition PullRequestSourceModeHead : PullRequestSourceMode := "head".

(** The pull request a build was triggered by. *)
Record PullRequestSnapshot := mkPullRequestSnapshot {
  pr_Number : Z;
  pr_Action : string;
  pr_URL : string;
  pr_BaseRef : string;
  pr_BaseSHA : string;
  pr_HeadRef : string;
  pr_HeadSHA : string;
  pr_SourceMode : PullRequestSourceMode;
}.

#[export] Instance eta_PullRequestSnapshot : Eta PullRequestSnapshot := λ r,
  mkPullRequestSnapshot (pr_Number r) (pr_Action r) (pr_URL r) (pr_BaseRef r) (pr_BaseSHA r)
    (pr_HeadRef r) (pr_HeadSHA r) (pr_SourceMode r).

(** Why and how a build was created. *)
Record BuildTrigger := mkBuildTrigger {
  tr_Kind : BuildTriggerKind;
  tr_SCMProvider : option string;
  tr_EventType : option string;
  tr_RepositoryOwner : option string;
  tr_RepositoryName : option string;
  tr_RepositoryURL : option string;
  tr_RawRef : option string;
  tr_Ref : option string;
  tr_RefType : option string;
  tr_RefName : option string;
  tr_Deleted : option bool;
  tr_CommitSHA : option string;
  tr_DeliveryID : option string;
  tr_Actor : option string;
  tr_ProducerProjectID : option string;
  tr_ProducerJobID : option string;
  tr_ProducerBuildID : option string;
  tr_ArtifactID : option string;
  tr_ArtifactPath : option string;
  tr_ArtifactName : option string;
  tr_ArtifactSizeBytes : option Z;
  tr_ArtifactChecksumSHA256 : option string;
  tr_PullRequest : option PullRequestSnapshot;
}.

#[export] Instance eta_BuildTrigger : Eta BuildTrigger := λ r,
  mkBuildTrigger (tr_Kind r) (tr_SCMProvider r) (tr_EventType r) (tr_RepositoryOwner r)
    (tr_RepositoryName r) (tr_RepositoryURL r) (tr_RawRef r) (tr_Ref r) (tr_RefType r)
    (tr_RefName r) (tr_Deleted r) (tr_CommitSHA r) (tr_DeliveryID r) (tr_Actor r)
    (tr_ProducerProjectID r) (tr_ProducerJobID r) (tr_ProducerBuildID r) (tr_ArtifactID r)
    (tr_ArtifactPath r) (tr_ArtifactName r) (tr_ArtifactSizeBytes r)
    (tr_ArtifactChecksumSHA256 r) (tr_PullRequest r).

(** The zero value of [BuildTrigger]. *)
Definition zero_BuildTrigger : BuildTrigger := mkBuildTrigger "" None None None None None
    None None None None None None None None None None None None None None None None None.

Definition isSupportedPullRequestAction (action : string) : bool :=
  (action == "opened") || (action == "reopened") || (action == "synchronize").

Definition normalizePullRequestSnapshot (snapshot : PullRequestSnapshot) : PullRequestSnapshot :=
  mkPullRequestSnapshot (pr_Number snapshot)
    (ToLower (TrimSpace (pr_Action snapshot))) (TrimSpace (pr_URL snapshot))
    (TrimSpace (pr_BaseRef snapshot)) (TrimSpace (pr_BaseSHA snapshot))
    (TrimSpace (pr_HeadRef snapshot)) (TrimSpace (pr_HeadSHA snapshot))
    (TrimSpace (pr_SourceMode snapshot)).

Definition NormalizeBuildTrigger (i : BuildTrigger) : BuildTrigger :=
  let trimmedKind := TrimSpace (tr_Kind i) in
  let i := i <| tr_Kind := if trimmedKind == "" then BuildTriggerKindManual else trimmedKind |> in
  let i := i <| tr_SCMProvider := trimOptional (tr_SCMProvider i) |> in
  let i := i <| tr_EventType := trimOptional (tr_EventType i) |> in
  let i := i <| tr_RepositoryOwner := trimOptional (tr_RepositoryOwner i) |> in
  let i := i <| tr_RepositoryName := trimOptional (tr_RepositoryName i) |> in
  let i := i <| tr_RepositoryURL := trimOptional (tr_RepositoryURL i) |> in
  let i := i <| tr_RawRef := trimOptional (tr_RawRef i) |> in
  let i := i <| tr_Ref := trimOptional (tr_Ref i) |> in
  let i := i <| tr_RefType := trimOptional (tr_RefType i) |> in
  let i := i <| tr_RefName := trimOptional (tr_RefName i) |> in
  let i := i <| tr_CommitSHA := trimOptional (tr_CommitSHA i) |> in
  let i := i <| tr_DeliveryID := trimOptional (tr_DeliveryID i) |> in
  let i := i <| tr_Actor := trimOptional (tr_Actor i) |> in
  let i := i <| tr_ProducerProjectID := trimOptional (tr_ProducerProjectID i) |> in
  let i := i <| tr_ProducerJobID := trimOptional (tr_ProducerJobID i) |> in
  let i := i <| tr_ProducerBuildID := trimOptional (tr_ProducerBuildID i) |> in
  let i := i <| tr_ArtifactID := trimOptional (tr_ArtifactID i) |> in
  let i := i <| tr_ArtifactPath := trimOptional (tr_ArtifactPath i) |> in
  let i := i <| tr_ArtifactName := trimOptional (tr_ArtifactName i) |> in
  let i := i <| tr_ArtifactChecksumSHA256 := trimOptional (tr_ArtifactChecksumSHA256 i) |> in
  let i := i <| tr_PullRequest := normalizePullRequestSnapshot <$> tr_PullRequest i |> in
  let i := match tr_RefName i, tr_Ref i with
           | None, Some ref => i <| tr_RefName := Some ref |>
           | _, _ => i
           end in
  match tr_Ref i, tr_RefName i with
  | None, Some refName => i <| tr_Ref := Some refName |>
  | _, _ => i
  end.

(** build.go. *)
Record Build := mkBuild {
  b_ID : string;
  b_BuildNumber : Z;
  b_ProjectID : string;
  b_JobID : option string;
  b_Priority : Z;
  b_Status : BuildStatus;
  b_CreatedAt : Time;
  b_QueuedAt : option Time;
  b_StartedAt : option Time;
  b_FinishedAt : option Time;
  b_CurrentStepIndex : Z;
  b_AttemptNumber : Z;
  b_RerunOfBuildID : option string;
  b_RerunFromStepIdx : option Z;
  b_ErrorMessage : option string;
  b_ApplicationVersion : option string;
  b_RegisteredRepositoryID : option string;
  b_SCMConnectionID : option string;
  b_ProviderRepositoryID : option string;
  b_PipelineConfigYAML : option string;
  b_PipelineName : option string;
  b_PipelineSource : option string;
  b_PipelinePath : option string;
  b_Source : option SourceSpec;
  b_RepoURL : option string;
  b_Ref : option string;
  b_CommitSHA : option string;
  b_SourceRef : option string;
  b_SourceSHA : option string;
  b_SourceAuthorName : option string;
  b_SourceAuthorEmail : option string;
  b_SourceCommitterName : option string;
  b_SourceCommitterEmail : option string;
  b_TriggerType : BuildTriggerType;
  b_TriggeredBy : option string;
  b_Trigger : BuildTrigger;
  b_RequestedImageRef : option string;
  b_ResolvedImageRef : option string;
  b_ImageSourceKind : ImageSourceKind;
  b_ManagedImageID : option string;
  b_ManagedImageVersionID : option string;
}.

#[export] Instance eta_Build : Eta Build := λ r,
  mkBuild (b_ID r) (b_BuildNumber r) (b_ProjectID r) (b_JobID r) (b_Priority r) (b_Status r)
    (b_CreatedAt r) (b_QueuedAt r) (b_StartedAt r) (b_FinishedAt r) (b_CurrentStepIndex r)
    (b_AttemptNumber r) (b_RerunOfBuildID r) (b_RerunFromStepIdx r) (b_ErrorMessage r)
    (b_ApplicationVersion r) (b_RegisteredRepositoryID r) (b_SCMConnectionID r)
    (b_ProviderRepositoryID r) (b_PipelineConfigYAML r) (b_PipelineName r)
    (b_PipelineSource r) (b_PipelinePath r) (b_Source r) (b_RepoURL r) (b_Ref r)
    (b_CommitSHA r) (b_SourceRef r) (b_SourceSHA r) (b_SourceAuthorName r)
    (b_SourceAuthorEmail r) (b_SourceCommitterName r) (b_SourceCommitterEmail r)
    (b_TriggerType r) (b_TriggeredBy r) (b_Trigger r) (b_RequestedImageRef r)
    (b_ResolvedImageRef r) (b_ImageSourceKind r) (b_ManagedImageID r)
    (b_ManagedImageVersionID r).

(** The zero value of [Build]. *)
Definition zero_Build : Build := mkBuild "" 0 "" None 0 (BuildStatusOther "") zero_time None
    None None 0 0 None None None None None None None None None None None None None None None
    None None None None None None "" None zero_BuildTrigger None None "" None None.

Definition ValidateRepositoryIdentitySnapshot
    (registeredRepositoryID scmConnectionID providerRepositoryID : option string)
    : option error :=
  let values := [registeredRepositoryID; scmConnectionID; providerRepositoryID] in
  let fix loop (vs : list (option string)) (present : Z) : error + Z :=
    match vs with
    | [] => inr present
    | Some value :: vs' =>
        let present := present + 1 in
        if TrimSpace value == ""
        then inl (Errorf "repository identity snapshot fields are required when present")
        else loop vs' present
    | None :: vs' => loop vs' present
    end in
  match loop values 0 with
  | inl err => Some err
  | inr present =>
      if (present != 0) && (present != Z.of_nat (length values))
      then Some (Errorf "repository identity snapshot must be all present or all absent")
      else None
  end.

Definition Build_ValidateRepositoryIdentitySnapshot (b : Build) : option error :=
  ValidateRepositoryIdentitySnapshot (b_RegisteredRepositoryID b) (b_SCMConnectionID b)
    (b_ProviderRepositoryID b).

(** [NormalizeBuildMetadata] in the order of its code: the trimming of the
    fields, then the defaults of the source ref, of the source commit, of the
    requester and of the trigger type. *)
Definition trimBuildMetadata (trigger : BuildTrigger) (i : Build) : Build :=
  i <| b_Trigger := trigger |>
    <| b_SourceRef := trimOptional (b_SourceRef i) |>
    <| b_SourceSHA := trimOptional (b_SourceSHA i) |>
    <| b_SourceAuthorName := trimOptional (b_SourceAuthorName i) |>
    <| b_SourceAuthorEmail := trimOptional (b_SourceAuthorEmail i) |>
    <| b_SourceCommitterName := trimOptional (b_SourceCommitterName i) |>
    <| b_SourceCommitterEmail := trimOptional (b_SourceCommitterEmail i) |>
    <| b_TriggeredBy := trimOptional (b_TriggeredBy i) |>.

Definition defaultSourceRef (trigger : BuildTrigger) (i : Build) : Build :=
  match b_SourceRef i with
  | Some _ => i
  | None =>
      match b_Source i ≫= ss_Ref with
      | Some ref => i <| b_SourceRef := trimOptional (Some ref) |>
      | None =>
          match b_Ref i with
          | Some ref => i <| b_SourceRef := trimOptional (Some ref) |>
          | None => i <| b_SourceRef := trimOptional (tr_Ref trigger) |>
          end
      end
  end.

Definition defaultSourceSHA (trigger : BuildTrigger) (i : Build) : Build :=
  match b_SourceSHA i with
  | Some _ => i
  | None =>
      match b_Source i ≫= ss_CommitSHA with
      | Some sha => i <| b_SourceSHA := trimOptional (Some sha) |>
      | None =>
          match b_CommitSHA i with
          | Some sha => i <| b_SourceSHA := trimOptional (Some sha) |>
          | None => i <| b_SourceSHA := trimOptional (tr_CommitSHA trigger) |>
          end
      end
  end.

Definition defaultTriggeredBy (trigger : BuildTrigger) (i : Build) : Build :=
  match b_TriggeredBy i with
  | Some _ => i
  | None => i <| b_TriggeredBy := trimOptional (tr_Actor trigger) |>
  end.

Definition defaultTriggerType (trigger : BuildTrigger) (i : Build) : Build :=
  let trimmedTriggerType := TrimSpace (b_TriggerType i) in
  if trimmedTriggerType == "" then
    match b_RerunOfBuildID i with
    | Some _ => i <| b_TriggerType := BuildTriggerTypeRerun |>
    | None =>
        if tr_Kind trigger == BuildTriggerKindWebhook
        then i <| b_TriggerType := BuildTriggerTypeWebhook |>
        else if TrimSpace (tr_Kind trigger) != ""
        then i <| b_TriggerType := TrimSpace (tr_Kind trigger) |>
        else i <| b_TriggerType := BuildTriggerTypeManual |>
    end
  else i <| b_TriggerType := trimmedTriggerType |>.

Definition NormalizeBuildMetadata (i : Build) : Build :=
  let trigger := NormalizeBuildTrigger (b_Trigger i) in
  let i := trimBuildMetadata trigger i in
  let i := defaultSourceRef trigger i in
  let i := defaultSourceSHA trigger i in
  let i := defaultTriggeredBy trigger i in
  defaultTriggerType trigger i.

(** ** Steps and execution jobs (build_step.go, execution_job.go) *)

(** build_step.go. *)
Record BuildStep := mkBuildStep {
  st_ID : string;
  st_BuildID : string;
  st_StepIndex : Z;
  st_NodeID : string;
  st_GroupName : option string;
  st_DependsOnNodes : list string;
  st_Name : string;
  st_ExecutionKind : ExecutionKind;
  st_RemoteImageBuild : option RemoteImageBuildSpec;
  st_Image : string;
  st_Command : string;
  st_Args : list string;
  st_Env : gmap string string;
  st_WorkingDir : string;
  st_TimeoutSeconds : Z;
  st_ArtifactPaths : list string;
  st_Cache : option StepCacheConfig;
  st_Status : BuildStepStatus;
  st_WorkerID : option string;
  st_ClaimToken : option string;
  st_ClaimedAt : option Time;
  st_LeaseExpiresAt : option Time;
  st_StartedAt : option Time;
  st_FinishedAt : option Time;
  st_ExitCode : option Z;
  st_Stdout : option string;
  st_Stderr : option string;
  st_ErrorMessage : option string;
  st_RequestedImageRef : option string;
  st_ResolvedImageRef : option string;
  st_ImageSourceKind : ImageSourceKind;
  st_ManagedImageID : option string;
  st_ManagedImageVersionID : option string;
}.

#[export] Instance eta_BuildStep : Eta BuildStep := λ r,
  mkBuildStep (st_ID r) (st_BuildID r) (st_StepIndex r) (st_NodeID r) (st_GroupName r)
    (st_DependsOnNodes r) (st_Name r) (st_ExecutionKind r) (st_RemoteImageBuild r)
    (st_Image r) (st_Command r) (st_Args r) (st_Env r) (st_WorkingDir r)
    (st_TimeoutSeconds r) (st_ArtifactPaths r) (st_Cache r) (st_Status r) (st_WorkerID r)
    (st_ClaimToken r) (st_ClaimedAt r) (st_LeaseExpiresAt r) (st_StartedAt r)
    (st_FinishedAt r) (st_ExitCode r) (st_Stdout r) (st_Stderr r) (st_ErrorMessage r)
    (st_RequestedImageRef r) (st_ResolvedImageRef r) (st_ImageSourceKind r)
    (st_ManagedImageID r) (st_ManagedImageVersionID r).

(** The zero value of [BuildStep]. *)
Definition zero_BuildStep : BuildStep := mkBuildStep "" "" 0 "" None [] "" "" None "" "" []
    ∅ "" 0 [] None (BuildStepStatusOther "") None None None None None None None None None
    None None None "" None None.

(** The durable source identity of a job. *)
Record SourceSnapshotRef := mkSourceSnapshotRef {
  sr_RepositoryURL : string;
  sr_CommitSHA : string;
  sr_RefName : option string;
  sr_ArchiveURI : option string;
  sr_ArchiveDigest : option string;
}.

#[export] Instance eta_SourceSnapshotRef : Eta SourceSnapshotRef := λ r,
  mkSourceSnapshotRef (sr_RepositoryURL r) (sr_CommitSHA r) (sr_RefName r) (sr_ArchiveURI r)
    (sr_ArchiveDigest r).

(** The zero value of [SourceSnapshotRef]. *)
Definition zero_SourceSnapshotRef : SourceSnapshotRef := mkSourceSnapshotRef "" "" None None
    None.

(** A pointer to an output artifact. *)
Record ArtifactRef := mkArtifactRef {
  ar_Name : string;
  ar_URI : string;
  ar_Digest : option string;
  ar_MediaType : option string;
  ar_SizeBytes : option Z;
  ar_SourceStep : option Z;
}.

#[export] Instance eta_ArtifactRef : Eta ArtifactRef := λ r,
  mkArtifactRef (ar_Name r) (ar_URI r) (ar_Digest r) (ar_MediaType r) (ar_SizeBytes r)
    (ar_SourceStep r).

(** One phase of an execution (execution_timing.go). *)
Record ExecutionPhaseTiming := mkExecutionPhaseTiming {
  pt_Name : string;
  pt_StartedAt : option Time;
  pt_FinishedAt : option Time;
}.

#[export] Instance eta_ExecutionPhaseTiming : Eta ExecutionPhaseTiming := λ r,
  mkExecutionPhaseTiming (pt_Name r) (pt_StartedAt r) (pt_FinishedAt r).

Abbreviation ExecutionTiming := (list ExecutionPhaseTiming) (only parsing).

(** execution_job.go. *)
Record ExecutionJob := mkExecutionJob {
  j_ID : string;
  j_BuildID : string;
  j_StepID : string;
  j_NodeID : string;
  j_GroupName : option string;
  j_DependsOnNodeIDs : list string;
  j_Name : string;
  j_StepIndex : Z;
  j_AttemptNumber : Z;
  j_RetryOfJobID : option string;
  j_LineageRootJobID : option string;
  j_Status : ExecutionJobStatus;
  j_QueueName : option string;
  j_Image : string;
  j_WorkingDir : string;
  j_Command : list string;
  j_Environment : gmap string string;
  j_TimeoutSeconds : option Z;
  j_PipelineFilePath : option string;
  j_ContextDir : option string;
  j_Source : SourceSnapshotRef;
  j_SpecVersion : Z;
  j_SpecDigest : option string;
  j_ResolvedSpecJSON : string;
  j_ClaimToken : option string;
  j_ClaimedBy : option string;
  j_ClaimExpiresAt : option Time;
  j_CreatedAt : Time;
  j_StartedAt : option Time;
  j_FinishedAt : option Time;
  j_ErrorMessage : option string;
  j_FailureKind : option ExecutionFailureKind;
  j_ExitCode : option Z;
  j_OutputRefs : list ArtifactRef;
  j_Timing : option ExecutionTiming;
}.

#[export] Instance eta_ExecutionJob : Eta ExecutionJob := λ r,
  mkExecutionJob (j_ID r) (j_BuildID r) (j_StepID r) (j_NodeID r) (j_GroupName r)
    (j_DependsOnNodeIDs r) (j_Name r) (j_StepIndex r) (j_AttemptNumber r) (j_RetryOfJobID r)
    (j_LineageRootJobID r) (j_Status r) (j_QueueName r) (j_Image r) (j_WorkingDir r)
    (j_Command r) (j_Environment r) (j_TimeoutSeconds r) (j_PipelineFilePath r)
    (j_ContextDir r) (j_Source r) (j_SpecVersion r) (j_SpecDigest r) (j_ResolvedSpecJSON r)
    (j_ClaimToken r) (j_ClaimedBy r) (j_ClaimExpiresAt r) (j_CreatedAt r) (j_StartedAt r)
    (j_FinishedAt r) (j_ErrorMessage r) (j_FailureKind r) (j_ExitCode r) (j_OutputRefs r)
    (j_Timing r).

(** The zero value of [ExecutionJob]. *)
Definition zero_ExecutionJob : ExecutionJob := mkExecutionJob "" "" "" "" None [] "" 0 0
    None None (ExecutionJobStatusOther "") None "" "" [] ∅ None None None
    zero_SourceSnapshotRef 0 None "" None None None zero_time None None None None None []
    None.

