(* ===== verification/NodeNames.v ===== *)
(** The names [FallbackNodeID] gives to the nodes of a build: [node-000],
    [node-001] and so on.  They are distinct and trimming does not change them. *)

From Stdlib Require Import Ascii.
From stdpp Require Import base gmap strings list pretty sorting numbers.
From S2P Require Import Prelude GoLib Domain.

Open Scope go_scope.
Open Scope Z_scope.

(** ** Strings without white space *)

(** A printable ASCII character other than the space. *)
Definition visible (c : Ascii.ascii) : Prop := (33 ≤ byte_of c < 128)%N.

Lemma visible_not_space a b c :
  visible a → space1 a = false ∧ space2 a b = false ∧ space2 b a = false
    ∧ space3 a b c = false ∧ space3 c b a = false.
Proof.
  unfold visible, space1, space2, space3. intros [H1 H2].
  destruct (N.eqb_spec (byte_of a) 194), (N.eqb_spec (byte_of a) 225),
    (N.eqb_spec (byte_of a) 226), (N.eqb_spec (byte_of a) 227); try lia.
  destruct (N.leb_spec 9 (byte_of a)), (N.leb_spec (byte_of a) 13),
    (N.eqb_spec (byte_of a) 32), (N.eqb_spec (byte_of a) 133), (N.eqb_spec (byte_of a) 160),
    (N.eqb_spec (byte_of a) 128), (N.leb_spec 128 (byte_of a)), (N.eqb_spec (byte_of a) 159),
    (N.eqb_spec (byte_of a) 168), (N.eqb_spec (byte_of a) 169), (N.eqb_spec (byte_of a) 175);
    try lia.
Qed.

Lemma visible_leads p1 p2 p3 l :
  Forall visible l →
  (∀ a, visible a → p1 a = false) → (∀ a b, visible a → p2 a b = false) →
  (∀ a b c, visible a → p3 a b c = false) → leads p1 p2 p3 l = false.
Proof.
  intros Hl H1 H2 H3. destruct Hl as [|a l Ha Hl]; [done|]. simpl.
  rewrite H1 by done. destruct Hl as [|b l Hb Hl]; [done|]. simpl.
  rewrite H2 by done. destruct Hl as [|c l Hc Hl]; [done|]. by apply H3.
Qed.

Lemma TrimSpace_visible s : Forall visible (string_to_list s) → TrimSpace s = s.
Proof.
  intros Hs. unfold TrimSpace, trim_left_bytes.
  rewrite trim_prefix_id.
  - unfold trim_right_bytes.
    rewrite trim_prefix_id; [by rewrite reverse_involutive, string_of_to_list|].
    apply visible_leads; [by apply Forall_reverse|intros a Ha|intros a b Ha|intros a b c Ha].
    + by destruct (visible_not_space a a a Ha).
    + by destruct (visible_not_space a b a Ha) as (_ & _ & ? & _).
    + by destruct (visible_not_space a b c Ha) as (_ & _ & _ & _ & ?).
  - apply visible_leads; [done|intros a Ha|intros a b Ha|intros a b c Ha].
    + by destruct (visible_not_space a a a Ha).
    + by destruct (visible_not_space a b a Ha) as (_ & ? & _).
    + by destruct (visible_not_space a b c Ha) as (_ & _ & _ & ? & _).
Qed.

(** ** Decimal numerals *)

Definition digit_value (c : Ascii.ascii) : N := (byte_of c - 48)%N.

(** The number a string of digits denotes, after the digits of [acc]. *)
Definition digits_value (acc : N) (s : string) : N :=
  foldl (λ a c, (a * 10 + digit_value c)%N) acc (string_to_list s).

Lemma digit_char x : (x < 10)%N → digit_value (pretty_N_char x) = x.
Proof.
  intros Hx. assert (x = 0 ∨ x = 1 ∨ x = 2 ∨ x = 3 ∨ x = 4 ∨ x = 5 ∨ x = 6 ∨ x = 7 ∨ x = 8 ∨ x = 9)%N
    as Hcases by lia. by destruct_or!; subst.
Qed.

Lemma digit_visible x : visible (pretty_N_char x).
Proof. unfold visible. destruct x as [|[[[[]|[]|]|[[]|[]|]|]|[[[]|[]|]|[[]|[]|]|]|]]; split; vm_compute; congruence. Qed.

Lemma digits_value_go x s : digits_value 0 (pretty_N_go x s) = digits_value x s.
Proof.
  revert s. induction (N.lt_wf_0 x) as [x _ IH]. intros s.
  destruct (decide (0 < x)%N) as [Hx|Hx]; [|by replace x with 0%N by lia].
  rewrite pretty_N_go_step by done. rewrite IH by (by apply N.div_lt).
  unfold digits_value at 1. simpl. rewrite digit_char by (by apply N.mod_lt).
  rewrite N.mul_comm, <-N.div_mod by done. done.
Qed.

Lemma visible_go x s :
  Forall visible (string_to_list s) → Forall visible (string_to_list (pretty_N_go x s)).
Proof.
  revert s. induction (N.lt_wf_0 x) as [x _ IH]. intros s Hs.
  destruct (decide (0 < x)%N) as [Hx|Hx]; [|by replace x with 0%N by lia].
  rewrite pretty_N_go_step by done. apply IH; [by apply N.div_lt|].
  simpl. constructor; [apply digit_visible|done].
Qed.

Lemma digits_value_pretty (x : N) : digits_value 0 (pretty x) = x.
Proof. unfold pretty, pretty_N. case_decide; [by subst|]. by rewrite digits_value_go. Qed.

Lemma visible_pretty (x : N) : Forall visible (string_to_list (pretty x)).
Proof.
  unfold pretty, pretty_N. case_decide; [by repeat constructor|]. by apply visible_go.
Qed.

Lemma string_to_list_app s t : string_to_list (s +:+ t) = string_to_list s ++ string_to_list t.
Proof. induction s as [|c s IH]; simpl; [done|]. by f_equal. Qed.

Lemma digits_value_pad width s : digits_value 0 (pad_zeros width s) = digits_value 0 s.
Proof.
  unfold pad_zeros, digits_value. rewrite string_to_list_app, string_to_of_list, foldl_app.
  f_equal. induction (width - String.length s)%nat as [|n IH]; [done|exact IH].
Qed.

Lemma visible_pad width s :
  Forall visible (string_to_list s) → Forall visible (string_to_list (pad_zeros width s)).
Proof.
  intros Hs. unfold pad_zeros. rewrite string_to_list_app, string_to_of_list.
  apply Forall_app. split; [|done]. apply Forall_replicate. vm_compute. done.
Qed.

(** ** The names *)

Lemma Sprintf_03d_nonneg n : 0 ≤ n → Sprintf_03d n = pad_zeros 3 (pretty (Z.to_N n)).
Proof.
  intros Hn. unfold Sprintf_03d. destruct (Z.ltb_spec n 0); [lia|].
  destruct n as [|p|p]; [done|done|lia].
Qed.

Lemma FallbackNodeID_inj m n :
  0 ≤ m → 0 ≤ n → FallbackNodeID m = FallbackNodeID n → m = n.
Proof.
  unfold FallbackNodeID. intros Hm Hn E. rewrite !Sprintf_03d_nonneg in E by done.
  injection E as E. apply (f_equal (digits_value 0)) in E.
  change (digits_value 0 (pad_zeros 3 (pretty (Z.to_N m)))
    = digits_value 0 (pad_zeros 3 (pretty (Z.to_N n)))) in E.
  rewrite !digits_value_pad, !digits_value_pretty in E. lia.
Qed.

Lemma visible_Sprintf n : Forall visible (string_to_list (Sprintf_03d n)).
Proof.
  unfold Sprintf_03d. destruct (Z.ltb_spec n 0) as [Hn|Hn].
  - simpl. constructor; [split; vm_compute; congruence|]. apply visible_pad.
    destruct n as [|p|p]; [done|lia|]. apply (visible_pretty (Npos p)).
  - apply visible_pad. destruct n as [|p|p]; [|apply (visible_pretty (Npos p))|lia].
    repeat constructor; vm_compute; congruence.
Qed.

Lemma FallbackNodeID_trimmed n : TrimSpace (FallbackNodeID n) = FallbackNodeID n.
Proof.
  unfold FallbackNodeID. apply TrimSpace_visible. rewrite string_to_list_app. apply Forall_app.
  split; [repeat constructor; vm_compute; congruence|]. apply visible_Sprintf.
Qed.

Lemma FallbackNodeID_nonempty n : FallbackNodeID n ≠ "".
Proof. done. Qed.
