(* ===== verification/Repository.v ===== *)
(** The repository package: the requests, outcomes and errors that services
    and stores exchange, and the pure decisions on step completion
    (backend/internal/repository). *)

From stdpp Require Import base gmap strings list numbers.
From S2P Require Import Prelude GoLib Domain.

Open Scope go_scope.
Open Scope Z_scope.

Definition ErrBuildNotFound : error := Sentinel "repository.ErrBuildNotFound".
Definition ErrInvalidBuildStatusTransition : error :=
  Sentinel "repository.ErrInvalidBuildStatusTransition".
Definition ErrInvalidBuildStepTransition : error :=
  Sentinel "repository.ErrInvalidBuildStepTransition".
Definition ErrApplicationVersionConflict : error :=
  Sentinel "repository.ErrApplicationVersionConflict".
Definition ErrExecutionJobNotFound : error := Sentinel "repository.ErrExecutionJobNotFound".

(** The fields to update on a build step (build_repository.go). *)
Record StepUpdate := mkStepUpdate {
  u_Status : BuildStepStatus;
  u_WorkerID : option string;
  u_ExitCode : option Z;
  u_Stdout : option string;
  u_Stderr : option string;
  u_ErrorMessage : option string;
  u_StartedAt : option Time;
  u_FinishedAt : option Time;
}.

#[export] Instance eta_StepUpdate : Eta StepUpdate := λ r,
  mkStepUpdate (u_Status r) (u_WorkerID r) (u_ExitCode r) (u_Stdout r) (u_Stderr r)
    (u_ErrorMessage r) (u_StartedAt r) (u_FinishedAt r).

(** The zero value of [StepUpdate]. *)
Definition zero_StepUpdate : StepUpdate := mkStepUpdate (BuildStepStatusOther "") None None
    None None None None None.

(** A worker's claim on a step or a job. *)
Record StepClaim := mkStepClaim {
  c_WorkerID : string;
  c_ClaimToken : string;
  c_ClaimedAt : Time;
  c_LeaseExpiresAt : Time;
}.

#[export] Instance eta_StepClaim : Eta StepClaim := λ r,
  mkStepClaim (c_WorkerID r) (c_ClaimToken r) (c_ClaimedAt r) (c_LeaseExpiresAt r).

Inductive StepCompletionOutcome :=
  | StepCompletionCompleted
  | StepCompletionDuplicateTerminal
  | StepCompletionStaleClaim
  | StepCompletionInvalidTransition
  | StepCompletionOutcomeOther (s : string).

#[export] Instance StepCompletionOutcome_eq_dec : EqDecision StepCompletionOutcome.
Proof. solve_decision. Defined.

(** A final worker step result submission. *)
Record CompleteStepRequest := mkCompleteStepRequest {
  rq_BuildID : string;
  rq_StepIndex : Z;
  rq_ClaimToken : string;
  rq_RequireClaim : bool;
  rq_Update : StepUpdate;
}.

#[export] Instance eta_CompleteStepRequest : Eta CompleteStepRequest := λ r,
  mkCompleteStepRequest (rq_BuildID r) (rq_StepIndex r) (rq_ClaimToken r)
    (rq_RequireClaim r) (rq_Update r).

(** The persisted step and the classification of the request. *)
Record CompleteStepResult := mkCompleteStepResult {
  rs_Step : BuildStep;
  rs_Outcome : StepCompletionOutcome;
}.

#[export] Instance eta_CompleteStepResult : Eta CompleteStepResult := λ r,
  mkCompleteStepResult (rs_Step r) (rs_Outcome r).

(** The zero value of [CompleteStepResult]. *)
Definition zero_CompleteStepResult : CompleteStepResult :=
  mkCompleteStepResult zero_BuildStep (StepCompletionOutcomeOther "").

(** Both halves of a successful completion (execution_job_repository.go). *)
Record CompleteSuccessfulStepAndJobRequest := mkCompleteSuccessfulStepAndJobRequest {
  cs_JobID : string;
  cs_ClaimToken : string;
  cs_FinishedAt : Time;
  cs_ExitCode : Z;
  cs_StepRequest : CompleteStepRequest;
}.

#[export] Instance eta_CompleteSuccessfulStepAndJobRequest : Eta CompleteSuccessfulStepAndJobRequest := λ r,
  mkCompleteSuccessfulStepAndJobRequest (cs_JobID r) (cs_ClaimToken r) (cs_FinishedAt r)
    (cs_ExitCode r) (cs_StepRequest r).

(** Both halves of a failed completion (execution_job_repository.go). *)
Record CompleteFailedStepAndJobRequest := mkCompleteFailedStepAndJobRequest {
  cf_JobID : string;
  cf_ClaimToken : string;
  cf_FinishedAt : Time;
  cf_ErrorMessage : string;
  cf_FailureKind : ExecutionFailureKind;
  cf_ExitCode : option Z;
  cf_StepRequest : CompleteStepRequest;
}.

#[export] Instance eta_CompleteFailedStepAndJobRequest : Eta CompleteFailedStepAndJobRequest := λ r,
  mkCompleteFailedStepAndJobRequest (cf_JobID r) (cf_ClaimToken r) (cf_FinishedAt r)
    (cf_ErrorMessage r) (cf_FailureKind r) (cf_ExitCode r) (cf_StepRequest r).

(** Pagination of list queries. *)
Record ListParams := mkListParams {
  lp_Limit : Z;
  lp_Offset : Z;
  lp_ProjectID : string;
}.

#[export] Instance eta_ListParams : Eta ListParams := λ r,
  mkListParams (lp_Limit r) (lp_Offset r) (lp_ProjectID r).

(** Filters of the queue listing. *)
Record QueueListParams := mkQueueListParams {
  qp_ProjectID : string;
  qp_Status : string;
}.

#[export] Instance eta_QueueListParams : Eta QueueListParams := λ r,
  mkQueueListParams (qp_ProjectID r) (qp_Status r).

(** Resolved source identity of a build. *)
Record SourceProvenanceUpdate := mkSourceProvenanceUpdate {
  sp_CommitSHA : string;
  sp_AuthorName : string;
  sp_AuthorEmail : string;
  sp_CommitterName : string;
  sp_CommitterEmail : string;
}.

#[export] Instance eta_SourceProvenanceUpdate : Eta SourceProvenanceUpdate := λ r,
  mkSourceProvenanceUpdate (sp_CommitSHA r) (sp_AuthorName r) (sp_AuthorEmail r)
    (sp_CommitterName r) (sp_CommitterEmail r).

Definition DefaultPageLimit : Z := 50.
Definition MaxPageLimit : Z := 200.

Definition ClampPageParams (p : ListParams) : Z * Z :=
  let limit := lp_Limit p in
  let limit := if limit <=? 0 then DefaultPageLimit else limit in
  let limit := if MaxPageLimit <? limit then MaxPageLimit else limit in
  let offset := lp_Offset p in
  let offset := if offset <? 0 then 0 else offset in
  (limit, offset).

(** ** Completion decisions (completion_decision.go) *)

(** Whether a completion request may mutate state. *)
Record StepCompletionDecision := mkStepCompletionDecision {
  sd_Outcome : StepCompletionOutcome;
  sd_AllowUpdate : bool;
}.

#[export] Instance eta_StepCompletionDecision : Eta StepCompletionDecision := λ r,
  mkStepCompletionDecision (sd_Outcome r) (sd_AllowUpdate r).

(** How build state should move after a step completes. *)
Record BuildAdvancementDecision := mkBuildAdvancementDecision {
  ad_FailBuild : bool;
  ad_SucceedBuild : bool;
  ad_AdvanceCurrentStepIndex : bool;
  ad_NextStepIndex : Z;
}.

#[export] Instance eta_BuildAdvancementDecision : Eta BuildAdvancementDecision := λ r,
  mkBuildAdvancementDecision (ad_FailBuild r) (ad_SucceedBuild r)
    (ad_AdvanceCurrentStepIndex r) (ad_NextStepIndex r).

(** The zero value of [BuildAdvancementDecision]. *)
Definition zero_BuildAdvancementDecision : BuildAdvancementDecision := mkBuildAdvancementDecision
    false false false 0.

Definition DecideStepCompletion (currentStatus targetStatus : BuildStepStatus)
    (claimRequired claimMatches : bool) : StepCompletionDecision :=
  if negb (CanTransitionStep BuildStepStatusRunning targetStatus)
  then mkStepCompletionDecision StepCompletionInvalidTransition false
  else if currentStatus != BuildStepStatusRunning then
    if IsTerminalStepStatus currentStatus
    then mkStepCompletionDecision StepCompletionDuplicateTerminal false
    else mkStepCompletionDecision StepCompletionInvalidTransition false
  else if claimRequired && negb claimMatches
  then mkStepCompletionDecision StepCompletionStaleClaim false
  else mkStepCompletionDecision StepCompletionCompleted true.

Definition ClassifyCompletionConflict (currentStatus : BuildStepStatus) (claimRequired : bool)
    : StepCompletionOutcome :=
  if IsTerminalStepStatus currentStatus then StepCompletionDuplicateTerminal
  else if claimRequired && (currentStatus == BuildStepStatusRunning)
  then StepCompletionStaleClaim
  else StepCompletionInvalidTransition.

Definition DecideBuildAdvancement (completedStepStatus : BuildStepStatus)
    (completedStepIndex : Z) (hasNext : bool) : BuildAdvancementDecision :=
  let next := int64_add completedStepIndex 1 in
  if completedStepStatus == BuildStepStatusFailed
  then zero_BuildAdvancementDecision <| ad_FailBuild := true |>
  else if completedStepStatus == BuildStepStatusSuccess then
    if hasNext
    then zero_BuildAdvancementDecision <| ad_AdvanceCurrentStepIndex := true |>
           <| ad_NextStepIndex := next |>
    else zero_BuildAdvancementDecision <| ad_SucceedBuild := true |>
           <| ad_NextStepIndex := next |>
  else zero_BuildAdvancementDecision.
