(* ===== verification/BuildRepo.v ===== *)
(** The in-memory build store: builds, their steps, build numbering, claims,
    leases and step completion (backend/internal/repository/memory/build_repository.go).

    Every method takes the repository's lock for its whole body, so a method is
    one function from the store to the store and its results.  [time.Now] and
    [uuid.NewString] are arguments.  A Go slice read from the store aliases it:
    where a method writes through the alias before it returns early, the model
    returns the store with that write. *)

From stdpp Require Import base gmap strings list pretty sorting numbers.
From S2P Require Import Prelude GoLib Domain Repository.

Open Scope go_scope.
Open Scope Z_scope.

(** The store: builds and steps by build id, and the next build numbers. *)
Record BuildRepository := mkBuildRepository {
  br_builds : gmap string Build;
  br_buildSteps : gmap string (list BuildStep);
  br_nextAnonymousNumber : Z;
  br_nextNumberByJob : gmap string Z;
}.

#[export] Instance eta_BuildRepository : Eta BuildRepository := λ r,
  mkBuildRepository (br_builds r) (br_buildSteps r) (br_nextAnonymousNumber r)
    (br_nextNumberByJob r).

Definition NewBuildRepository : BuildRepository := mkBuildRepository ∅ ∅ 1 ∅.

(** Reading a Go map at a missing key gives the zero value. *)
Definition stepsOf (r : BuildRepository) (id : string) : list BuildStep :=
  default [] (br_buildSteps r !! id).

Definition readOptionalStringPtr (value : string) : option string :=
  let trimmed := TrimSpace value in
  if trimmed == "" then None else Some trimmed.

Definition readOptionalString (value : option string) : string := default "" value.

Definition cloneBuildApplicationVersion (build : Build) : Build :=
  match b_ApplicationVersion build with
  | None => build
  | Some version => build <| b_ApplicationVersion := Some version |>
  end.

(** The copy of a step: slices and maps are copied, the cache configuration
    goes through [Clone], which also normalises it. *)
Definition cloneStep (step : BuildStep) : BuildStep :=
  match st_Cache step with
  | Some cache => step <| st_Cache := StepCacheConfig_Clone (Some cache) |>
  | None => step
  end.

Definition storeBuildLocked (r : BuildRepository) (build : Build) : BuildRepository :=
  r <| br_builds := <[b_ID build := cloneBuildApplicationVersion build]> (br_builds r) |>.

(** ** Build numbers *)

Definition normalizeBuildJobID (jobID : option string) : option string :=
  match jobID with
  | None => None
  | Some jobID =>
      let trimmed := TrimSpace jobID in
      if trimmed == "" then None else Some trimmed
  end.

Definition nextBuildNumberLocked (r : BuildRepository) (jobID : option string)
    : BuildRepository * Z :=
  match normalizeBuildJobID jobID with
  | Some normalizedJobID =>
      let next := default 0 (br_nextNumberByJob r !! normalizedJobID) in
      let next := if next <=? 0 then 1 else next in
      (r <| br_nextNumberByJob := <[normalizedJobID := int64_add next 1]> (br_nextNumberByJob r) |>,
       next)
  | None =>
      let r := if br_nextAnonymousNumber r <=? 0 then r <| br_nextAnonymousNumber := 1 |> else r in
      let next := br_nextAnonymousNumber r in
      (r <| br_nextAnonymousNumber := int64_add (br_nextAnonymousNumber r) 1 |>, next)
  end.

Definition observeBuildNumberLocked (r : BuildRepository) (jobID : option string)
    (buildNumber : Z) : BuildRepository :=
  if buildNumber <=? 0 then r
  else match normalizeBuildJobID jobID with
  | Some normalizedJobID =>
      if default 0 (br_nextNumberByJob r !! normalizedJobID) <=? buildNumber
      then r <| br_nextNumberByJob :=
             <[normalizedJobID := int64_add buildNumber 1]> (br_nextNumberByJob r) |>
      else r
  | None =>
      if br_nextAnonymousNumber r <=? buildNumber
      then r <| br_nextAnonymousNumber := int64_add buildNumber 1 |>
      else r
  end.

Definition assignBuildNumberLocked (r : BuildRepository) (build : Build)
    : BuildRepository * Build :=
  if 0 <? b_BuildNumber build
  then (observeBuildNumberLocked r (b_JobID build) (b_BuildNumber build), build)
  else
    let '(r, number) := nextBuildNumberLocked r (b_JobID build) in
    (r, build <| b_BuildNumber := number |>).

(** ** Creation *)

(** The defaults of a new build, in the order of the code: id, attempt and
    number, then priority, trigger and metadata. *)
Definition numberedBuild (newID : string) (build : Build) (r : BuildRepository)
    : BuildRepository * Build :=
  let build := if b_ID build == "" then build <| b_ID := newID |> else build in
  let build := if b_AttemptNumber build <=? 0 then build <| b_AttemptNumber := 1 |> else build in
  assignBuildNumberLocked r build.

Definition normalizedBuild (build : Build) : Build :=
  let build := build <| b_Priority := NormalizePriority (b_Priority build) |> in
  let build := build <| b_Trigger := NormalizeBuildTrigger (b_Trigger build) |> in
  NormalizeBuildMetadata build.

Definition BuildRepository_Create (newID : string) (build : Build) (r : BuildRepository)
    : BuildRepository * Build * option error :=
  let '(r, build) := numberedBuild newID build r in
  let build := normalizedBuild build in
  match Build_ValidateRepositoryIdentitySnapshot build with
  | Some err => (r, zero_Build, Some err)
  | None => (storeBuildLocked r build, cloneBuildApplicationVersion build, None)
  end.

(** The steps stored for a build: each with an id, the build's id and a copy
    of the rest, in the order of their indices. *)
Definition attachSteps (newStepIDs : nat → string) (buildID : string) (steps : list BuildStep)
    : list BuildStep :=
  let cloned := imap (λ i step,
    let step := if st_ID step == "" then step <| st_ID := newStepIDs i |> else step in
    let step := step <| st_BuildID := buildID |> in
    cloneStep step) steps in
  sort_slice (λ x y, st_StepIndex x <? st_StepIndex y) cloned.

Definition storeSteps (r : BuildRepository) (id : string) (steps : list BuildStep)
    : BuildRepository :=
  r <| br_buildSteps := <[id := steps]> (br_buildSteps r) |>.

(** The assignments that queue a build; an earlier queue time is kept. *)
Definition queuedBuild (now : Time) (build : Build) : Build :=
  let build := build <| b_Status := BuildStatusQueued |> in
  let build := build <| b_CurrentStepIndex := 0 |> in
  let build := build <| b_ErrorMessage := None |> in
  match b_QueuedAt build with
  | None => build <| b_QueuedAt := Some now |>
  | Some _ => build
  end.

Definition BuildRepository_CreateQueuedBuild (newID : string) (newStepIDs : nat → string)
    (now : Time) (build : Build) (steps : list BuildStep) (r : BuildRepository)
    : BuildRepository * Build * option error :=
  let '(r, build) := numberedBuild newID build r in
  let build := normalizedBuild build in
  match Build_ValidateRepositoryIdentitySnapshot build with
  | Some err => (r, zero_Build, Some err)
  | None =>
      let build := queuedBuild now build in
      let r := storeBuildLocked r build in
      let r := storeSteps r (b_ID build) (attachSteps newStepIDs (b_ID build) steps) in
      (r, cloneBuildApplicationVersion build, None)
  end.

Definition BuildRepository_QueueBuild (newStepIDs : nat → string) (now : Time) (id : string)
    (steps : list BuildStep) (r : BuildRepository) : BuildRepository * Build * option error :=
  match br_builds r !! id with
  | None => (r, zero_Build, Some ErrBuildNotFound)
  | Some build =>
      let build := queuedBuild now build in
      let r := storeBuildLocked r build in
      let r := storeSteps r id (attachSteps newStepIDs id steps) in
      (r, cloneBuildApplicationVersion build, None)
  end.

(** ** Cancellation *)

Definition cancelStep (reasonPtr : option string) (canceledAt : Time) (step : BuildStep)
    : BuildStep :=
  let step := step <| st_Status := BuildStepStatusCanceled |> in
  let step := step <| st_ClaimToken := None |> in
  let step := step <| st_ClaimedAt := None |> in
  let step := step <| st_LeaseExpiresAt := None |> in
  let step := match st_StartedAt step with
              | None => step <| st_StartedAt := Some canceledAt |>
              | Some _ => step
              end in
  let step := match st_FinishedAt step with
              | None => step <| st_FinishedAt := Some canceledAt |>
              | Some _ => step
              end in
  match reasonPtr with
  | Some _ => step <| st_ErrorMessage := reasonPtr |>
  | None => step
  end.

(** The loop over the steps: the new steps and how many were canceled. *)
Fixpoint cancelSteps (reasonPtr : option string) (canceledAt : Time) (steps : list BuildStep)
    : list BuildStep * Z :=
  match steps with
  | [] => ([], 0)
  | step :: rest =>
      let '(rest', updatedSteps) := cancelSteps reasonPtr canceledAt rest in
      if negb (CanCancelStep (st_Status step)) then (step :: rest', updatedSteps)
      else (cancelStep reasonPtr canceledAt step :: rest', updatedSteps + 1)
  end.

Definition cancelReason (reason : string) : option string :=
  let trimmedReason := TrimSpace reason in
  if trimmedReason != "" then Some trimmedReason else None.

(** The build a cancellation stores. *)
Definition canceledBuild (reasonPtr : option string) (canceledAt : Time) (build : Build) : Build :=
  let build := build <| b_Status := BuildStatusCanceled |> in
  let build := match b_FinishedAt build with
               | None => build <| b_FinishedAt := Some canceledAt |>
               | Some _ => build
               end in
  build <| b_ErrorMessage := reasonPtr |>.

Definition BuildRepository_CancelBuild (id reason : string) (canceledAt : Time)
    (r : BuildRepository) : BuildRepository * (Build * Z) * option error :=
  match br_builds r !! id with
  | None => (r, (zero_Build, 0), Some ErrBuildNotFound)
  | Some build =>
      if negb (CanCancelBuild (b_Status build))
      then (r, (zero_Build, 0), Some ErrInvalidBuildStatusTransition)
      else
        let reasonPtr := cancelReason reason in
        let '(steps, updatedSteps) := cancelSteps reasonPtr canceledAt (stepsOf r id) in
        let r := storeSteps r id steps in
        let build := canceledBuild reasonPtr canceledAt build in
        (storeBuildLocked r build, (cloneBuildApplicationVersion build, updatedSteps), None)
  end.

(** ** Listing *)

(** The order of iteration over a Go map is not specified; the listings sort
    what they collect. *)
Definition buildsInAnyOrder (r : BuildRepository) : list Build :=
  (map_to_list (br_builds r)).*2.

Definition buildNewestFirst (x y : Build) : bool :=
  if Equal (b_CreatedAt x) (b_CreatedAt y) then string_lt (b_ID x) (b_ID y)
  else After (b_CreatedAt x) (b_CreatedAt y).

Definition BuildRepository_List (r : BuildRepository) : list Build :=
  sort_slice buildNewestFirst (cloneBuildApplicationVersion <$> buildsInAnyOrder r).

Definition BuildRepository_ListActive (r : BuildRepository) : list Build :=
  sort_slice buildNewestFirst
    (cloneBuildApplicationVersion <$>
      filter (λ build, Is_true ((b_Status build == BuildStatusPreparing)
        || (b_Status build == BuildStatusQueued) || (b_Status build == BuildStatusRunning)))
      (buildsInAnyOrder r)).

Definition BuildRepository_ListPaged (params : ListParams) (r : BuildRepository) : list Build :=
  let all := BuildRepository_List r in
  let all := if TrimSpace (lp_ProjectID params) != ""
             then filter (λ build, b_ProjectID build = lp_ProjectID params) all
             else all in
  let '(limit, offset) := ClampPageParams params in
  if Z.of_nat (length all) <=? offset then []
  else
    let end_ := int64_add offset limit in
    let end_ := if Z.of_nat (length all) <? end_ then Z.of_nat (length all) else end_ in
    take (Z.to_nat (end_ - offset)) (drop (Z.to_nat offset) all).

Definition queueStatusRank (status : BuildStatus) : Z :=
  match status with
  | BuildStatusQueued => 0
  | BuildStatusRunning => 1
  | _ => 2
  end.

Definition queueOrderTime (build : Build) : Time := default (b_CreatedAt build) (b_QueuedAt build).
Definition runningOrderTime (build : Build) : Time := default (b_CreatedAt build) (b_StartedAt build).

(** What the comparison falls back on. *)
Definition queueTieBreak (left right : Build) : bool :=
  if negb (Equal (b_CreatedAt left) (b_CreatedAt right))
  then Before (b_CreatedAt left) (b_CreatedAt right)
  else string_lt (b_ID left) (b_ID right).

Definition queueLess (left right : Build) : bool :=
  if b_Status left != b_Status right
  then queueStatusRank (b_Status left) <? queueStatusRank (b_Status right)
  else if (b_Status left == BuildStatusQueued)
          && (b_Priority left != b_Priority right)
  then b_Priority right <? b_Priority left
  else if (b_Status left == BuildStatusQueued)
          && negb (Equal (queueOrderTime left) (queueOrderTime right))
  then Before (queueOrderTime left) (queueOrderTime right)
  else if (b_Status left == BuildStatusRunning)
          && negb (Equal (runningOrderTime left) (runningOrderTime right))
  then Before (runningOrderTime left) (runningOrderTime right)
  else queueTieBreak left right.

Definition queueSelected (params : QueueListParams) (build : Build) : bool :=
  let statusFilter := TrimSpace (qp_Status params) in
  let projectIDFilter := TrimSpace (qp_ProjectID params) in
  ((b_Status build == BuildStatusQueued) || (b_Status build == BuildStatusRunning))
  && negb ((projectIDFilter != "") && (b_ProjectID build != projectIDFilter))
  && negb ((statusFilter != "") && (BuildStatus_string (b_Status build) != statusFilter)).

(** A queue entry of this store holds the build alone. *)
Definition BuildRepository_ListQueue (params : QueueListParams) (r : BuildRepository)
    : list Build :=
  sort_slice queueLess
    (cloneBuildApplicationVersion <$>
      filter (λ build, Is_true (queueSelected params build)) (buildsInAnyOrder r)).

Definition BuildRepository_ListByJobID (jobID : string) (r : BuildRepository) : list Build :=
  sort_slice buildNewestFirst
    (cloneBuildApplicationVersion <$>
      filter (λ build, b_JobID build = Some jobID) (buildsInAnyOrder r)).

(** Which of two builds of a job the latest-build map keeps. *)
Definition isLaterBuild (build existing : Build) : bool :=
  After (b_CreatedAt build) (b_CreatedAt existing)
  || (Equal (b_CreatedAt build) (b_CreatedAt existing) && string_lt (b_ID build) (b_ID existing)).

Definition keepLatest (wanted : list string) (latest : gmap string Build) (build : Build)
    : gmap string Build :=
  match b_JobID build with
  | None => latest
  | Some jobID =>
      if negb (bool_decide (jobID ∈ wanted)) then latest
      else match latest !! jobID with
      | None => <[jobID := cloneBuildApplicationVersion build]> latest
      | Some existing =>
          if isLaterBuild build existing
          then <[jobID := cloneBuildApplicationVersion build]> latest
          else latest
      end
  end.

Definition BuildRepository_ListLatestByJobIDs (jobIDs : list string) (r : BuildRepository)
    : gmap string Build :=
  if bool_decide (length jobIDs = 0%nat) then ∅
  else
    let wanted := filter (λ jobID, TrimSpace jobID ≠ "") jobIDs in
    foldl (keepLatest wanted) ∅ (buildsInAnyOrder r).

(** ** Single builds *)

Definition BuildRepository_GetByID (id : string) (r : BuildRepository) : Build * option error :=
  match br_builds r !! id with
  | None => (zero_Build, Some ErrBuildNotFound)
  | Some build => (cloneBuildApplicationVersion build, None)
  end.

Definition BuildRepository_SetApplicationVersionIfUnset (id version : string)
    (r : BuildRepository) : BuildRepository * Build * option error :=
  match br_builds r !! id with
  | None => (r, zero_Build, Some ErrBuildNotFound)
  | Some build =>
      let trimmed := TrimSpace version in
      if trimmed == "" then (r, zero_Build, Some ErrApplicationVersionConflict)
      else match b_ApplicationVersion build with
      | Some current =>
          if current == trimmed then (r, cloneBuildApplicationVersion build, None)
          else (r, zero_Build, Some ErrApplicationVersionConflict)
      | None =>
          let build := build <| b_ApplicationVersion := Some trimmed |> in
          (storeBuildLocked r build, cloneBuildApplicationVersion build, None)
      end
  end.

Definition BuildRepository_UpdateStatus (now : Time) (id : string) (status : BuildStatus)
    (errorMessage : option string) (r : BuildRepository)
    : BuildRepository * Build * option error :=
  match br_builds r !! id with
  | None => (r, zero_Build, Some ErrBuildNotFound)
  | Some build =>
      let build := build <| b_Status := status |> in
      let build := if (status == BuildStatusQueued) && (b_QueuedAt build == None)
                   then build <| b_QueuedAt := Some now |> else build in
      let build := if (status == BuildStatusRunning) && (b_StartedAt build == None)
                   then build <| b_StartedAt := Some now |> else build in
      let build := if IsTerminalBuildStatus status
                   then build <| b_FinishedAt := Some now |> else build in
      let build := if (status == BuildStatusFailed) || (status == BuildStatusCanceled)
                   then build <| b_ErrorMessage := errorMessage |>
                   else build <| b_ErrorMessage := None |> in
      (storeBuildLocked r build, cloneBuildApplicationVersion build, None)
  end.

Definition BuildRepository_UpdateSourceProvenance (id : string) (update : SourceProvenanceUpdate)
    (r : BuildRepository) : BuildRepository * Build * option error :=
  match br_builds r !! id with
  | None => (r, zero_Build, Some ErrBuildNotFound)
  | Some build =>
      let trimmed := TrimSpace (sp_CommitSHA update) in
      let build := if trimmed == ""
        then build <| b_CommitSHA := None |> <| b_SourceSHA := None |>
        else build <| b_CommitSHA := Some trimmed |> <| b_SourceSHA := Some trimmed |> in
      let build := build <| b_SourceAuthorName := readOptionalStringPtr (sp_AuthorName update) |> in
      let build := build <| b_SourceAuthorEmail := readOptionalStringPtr (sp_AuthorEmail update) |> in
      let build := build <| b_SourceCommitterName := readOptionalStringPtr (sp_CommitterName update) |> in
      let build := build <| b_SourceCommitterEmail := readOptionalStringPtr (sp_CommitterEmail update) |> in
      let build := build <| b_Source := NewSourceSpec (readOptionalString (b_RepoURL build))
        (readOptionalString (b_Ref build)) (readOptionalString (b_CommitSHA build)) |> in
      (storeBuildLocked r build, cloneBuildApplicationVersion build, None)
  end.

Definition BuildRepository_UpdateSourceCommitSHA (id commitSHA : string) (r : BuildRepository)
    : BuildRepository * Build * option error :=
  BuildRepository_UpdateSourceProvenance id (mkSourceProvenanceUpdate commitSHA "" "" "" "") r.

Definition BuildRepository_UpdateImageExecution (id : string) (requestedRef resolvedRef : option string)
    (sourceKind : ImageSourceKind) (managedImageID managedImageVersionID : option string)
    (r : BuildRepository) : BuildRepository * Build * option error :=
  match br_builds r !! id with
  | None => (r, zero_Build, Some ErrBuildNotFound)
  | Some build =>
      let build := build <| b_RequestedImageRef := requestedRef |> in
      let build := build <| b_ResolvedImageRef := resolvedRef |> in
      let build := build <| b_ImageSourceKind := sourceKind |> in
      let build := build <| b_ManagedImageID := managedImageID |> in
      let build := build <| b_ManagedImageVersionID := managedImageVersionID |> in
      (storeBuildLocked r build, cloneBuildApplicationVersion build, None)
  end.

Definition BuildRepository_UpdateCurrentStepIndex (id : string) (currentStepIndex : Z)
    (r : BuildRepository) : BuildRepository * Build * option error :=
  match br_builds r !! id with
  | None => (r, zero_Build, Some ErrBuildNotFound)
  | Some build =>
      let build := build <| b_CurrentStepIndex := currentStepIndex |> in
      (storeBuildLocked r build, cloneBuildApplicationVersion build, None)
  end.

Definition BuildRepository_GetStepsByBuildID (buildID : string) (r : BuildRepository)
    : list BuildStep * option error :=
  match br_builds r !! buildID with
  | None => ([], Some ErrBuildNotFound)
  | Some _ =>
      (sort_slice (λ x y, st_StepIndex x <? st_StepIndex y) (cloneStep <$> stepsOf r buildID), None)
  end.

(** ** Which steps may run *)

(** The node a step is, as the dependencies of other steps name it. *)
Definition effectiveNodeID (step : BuildStep) : string :=
  let nodeID := TrimSpace (st_NodeID step) in
  if nodeID == "" then FallbackNodeID (st_StepIndex step) else nodeID.

Definition stepStatusByNodeID (steps : list BuildStep) : gmap string BuildStepStatus :=
  foldl (λ statusByNode step, <[effectiveNodeID step := st_Status step]> statusByNode) ∅ steps.

Definition isStepRunnable (step : BuildStep) (steps : list BuildStep)
    (statusByNode : gmap string BuildStepStatus) : bool :=
  if TrimSpace (st_NodeID step) != ""
  then forallb (λ dep, statusByNode !! TrimSpace dep == Some BuildStepStatusSuccess)
         (st_DependsOnNodes step)
  else forallb (λ previous,
         (st_StepIndex step <=? st_StepIndex previous)
         || (st_Status previous == BuildStepStatusSuccess)) steps.

(** Counts of the steps of a build by status. *)
Record buildStepProgressStats := mkbuildStepProgressStats {
  ps_totalCount : Z;
  ps_successCount : Z;
  ps_failedCount : Z;
  ps_pendingCount : Z;
  ps_runningCount : Z;
}.

#[export] Instance eta_buildStepProgressStats : Eta buildStepProgressStats := λ r,
  mkbuildStepProgressStats (ps_totalCount r) (ps_successCount r) (ps_failedCount r)
    (ps_pendingCount r) (ps_runningCount r).

Definition countStep (stats : buildStepProgressStats) (step : BuildStep)
    : buildStepProgressStats :=
  match st_Status step with
  | BuildStepStatusSuccess => stats <| ps_successCount := ps_successCount stats + 1 |>
  | BuildStepStatusFailed => stats <| ps_failedCount := ps_failedCount stats + 1 |>
  | BuildStepStatusPending => stats <| ps_pendingCount := ps_pendingCount stats + 1 |>
  | BuildStepStatusRunning => stats <| ps_runningCount := ps_runningCount stats + 1 |>
  | _ => stats
  end.

Definition loadBuildStepProgressStats (steps : list BuildStep) : buildStepProgressStats :=
  foldl countStep (mkbuildStepProgressStats (Z.of_nat (length steps)) 0 0 0 0) steps.

(** ** Claims and leases *)

(** The loops over the steps act on the first one with the wanted index. *)
Definition findStep (stepIndex : Z) (steps : list BuildStep) : option (nat * BuildStep) :=
  list_find (λ step, st_StepIndex step = stepIndex) steps.

Definition BuildRepository_ClaimStepIfPending (buildID : string) (stepIndex : Z)
    (workerID : option string) (startedAt : Time) (r : BuildRepository)
    : BuildRepository * (BuildStep * bool) * option error :=
  match br_builds r !! buildID with
  | None => (r, (zero_BuildStep, false), Some ErrBuildNotFound)
  | Some _ =>
      if negb (CanTransitionStep BuildStepStatusPending BuildStepStatusRunning)
      then (r, (zero_BuildStep, false), Some ErrInvalidBuildStepTransition)
      else
        let steps := stepsOf r buildID in
        match findStep stepIndex steps with
        | None => (r, (zero_BuildStep, false), None)
        | Some (idx, step) =>
            if st_Status step != BuildStepStatusPending then (r, (zero_BuildStep, false), None)
            else if negb (isStepRunnable step steps (stepStatusByNodeID steps))
            then (r, (zero_BuildStep, false), None)
            else
              let step := step <| st_Status := BuildStepStatusRunning |> in
              let step := match workerID with
                          | Some _ => step <| st_WorkerID := workerID |>
                          | None => step
                          end in
              let step := step <| st_StartedAt := Some startedAt |> in
              (storeSteps r buildID (<[idx := step]> steps), (cloneStep step, true), None)
        end
  end.

(** The step a claim leaves behind, new and taken over. *)
Definition reclaimedStep (claim : StepClaim) (step : BuildStep) : BuildStep :=
  let step := step <| st_WorkerID := Some (c_WorkerID claim) |> in
  let step := step <| st_ClaimToken := Some (c_ClaimToken claim) |> in
  let step := step <| st_ClaimedAt := Some (c_ClaimedAt claim) |> in
  step <| st_LeaseExpiresAt := Some (c_LeaseExpiresAt claim) |>.

Definition claimedStep (claim : StepClaim) (step : BuildStep) : BuildStep :=
  let step := reclaimedStep claim (step <| st_Status := BuildStepStatusRunning |>) in
  match st_StartedAt step with
  | None => step <| st_StartedAt := Some (c_ClaimedAt claim) |>
  | Some _ => step
  end.

Definition BuildRepository_ClaimPendingStep (buildID : string) (stepIndex : Z) (claim : StepClaim)
    (r : BuildRepository) : BuildRepository * (BuildStep * bool) * option error :=
  match br_builds r !! buildID with
  | None => (r, (zero_BuildStep, false), Some ErrBuildNotFound)
  | Some _ =>
      if negb (CanTransitionStep BuildStepStatusPending BuildStepStatusRunning)
      then (r, (zero_BuildStep, false), Some ErrInvalidBuildStepTransition)
      else
        let steps := stepsOf r buildID in
        match findStep stepIndex steps with
        | None => (r, (zero_BuildStep, false), None)
        | Some (idx, step) =>
            if st_Status step != BuildStepStatusPending then (r, (zero_BuildStep, false), None)
            else if negb (isStepRunnable step steps (stepStatusByNodeID steps))
            then (r, (zero_BuildStep, false), None)
            else
              let step := claimedStep claim step in
              (storeSteps r buildID (<[idx := step]> steps), (cloneStep step, true), None)
        end
  end.

Definition BuildRepository_ReclaimExpiredStep (buildID : string) (stepIndex : Z)
    (reclaimBefore : Time) (claim : StepClaim) (r : BuildRepository)
    : BuildRepository * (BuildStep * bool) * option error :=
  match br_builds r !! buildID with
  | None => (r, (zero_BuildStep, false), Some ErrBuildNotFound)
  | Some _ =>
      let steps := stepsOf r buildID in
      match findStep stepIndex steps with
      | None => (r, (zero_BuildStep, false), None)
      | Some (idx, step) =>
          if st_Status step != BuildStepStatusRunning then (r, (zero_BuildStep, false), None)
          else if match st_LeaseExpiresAt step with
                  | None => true
                  | Some lease => After lease reclaimBefore
                  end
          then (r, (zero_BuildStep, false), None)
          else
            let step := reclaimedStep claim step in
            (storeSteps r buildID (<[idx := step]> steps), (cloneStep step, true), None)
      end
  end.

Definition BuildRepository_RenewStepLease (buildID : string) (stepIndex : Z) (claimToken : string)
    (leaseExpiresAt : Time) (r : BuildRepository)
    : BuildRepository * (BuildStep * StepCompletionOutcome) * option error :=
  match br_builds r !! buildID with
  | None => (r, (zero_BuildStep, StepCompletionInvalidTransition), Some ErrBuildNotFound)
  | Some _ =>
      let steps := stepsOf r buildID in
      match findStep stepIndex steps with
      | None => (r, (zero_BuildStep, StepCompletionInvalidTransition), Some ErrBuildNotFound)
      | Some (idx, step) =>
          if IsTerminalStepStatus (st_Status step)
          then (r, (cloneStep step, StepCompletionDuplicateTerminal), None)
          else if st_Status step != BuildStepStatusRunning
          then (r, (zero_BuildStep, StepCompletionInvalidTransition), None)
          else if st_ClaimToken step != Some claimToken
          then (r, (cloneStep step, StepCompletionStaleClaim), None)
          else
            let step := step <| st_LeaseExpiresAt := Some leaseExpiresAt |> in
            (storeSteps r buildID (<[idx := step]> steps),
             (cloneStep step, StepCompletionCompleted), None)
      end
  end.

(** ** Step results *)

(** The assignments a step update makes: an absent field keeps its value, the
    error message is kept only by a failure. *)
Definition applyStepUpdate (update : StepUpdate) (step : BuildStep) : BuildStep :=
  let step := step <| st_Status := u_Status update |> in
  let step := match u_WorkerID update with
              | Some _ => step <| st_WorkerID := u_WorkerID update |> | None => step end in
  let step := match u_ExitCode update with
              | Some _ => step <| st_ExitCode := u_ExitCode update |> | None => step end in
  let step := match u_Stdout update with
              | Some _ => step <| st_Stdout := u_Stdout update |> | None => step end in
  let step := match u_Stderr update with
              | Some _ => step <| st_Stderr := u_Stderr update |> | None => step end in
  let step := if u_Status update == BuildStepStatusFailed
              then step <| st_ErrorMessage := u_ErrorMessage update |>
              else step <| st_ErrorMessage := None |> in
  let step := match u_StartedAt update with
              | Some _ => step <| st_StartedAt := u_StartedAt update |> | None => step end in
  match u_FinishedAt update with
  | Some _ => step <| st_FinishedAt := u_FinishedAt update |> | None => step end.

Definition BuildRepository_UpdateStepByIndex (buildID : string) (stepIndex : Z)
    (update : StepUpdate) (r : BuildRepository) : BuildRepository * BuildStep * option error :=
  match br_builds r !! buildID with
  | None => (r, zero_BuildStep, Some ErrBuildNotFound)
  | Some _ =>
      let steps := stepsOf r buildID in
      match findStep stepIndex steps with
      | None => (r, zero_BuildStep, Some ErrBuildNotFound)
      | Some (idx, step) =>
          let step := applyStepUpdate update step in
          (storeSteps r buildID (<[idx := step]> steps), cloneStep step, None)
      end
  end.

Definition BuildRepository_CompleteStepIfRunning (buildID : string) (stepIndex : Z)
    (update : StepUpdate) (r : BuildRepository)
    : BuildRepository * (BuildStep * bool) * option error :=
  match br_builds r !! buildID with
  | None => (r, (zero_BuildStep, false), Some ErrBuildNotFound)
  | Some _ =>
      let steps := stepsOf r buildID in
      match findStep stepIndex steps with
      | None => (r, (zero_BuildStep, false), None)
      | Some (idx, step) =>
          if st_Status step != BuildStepStatusRunning then (r, (cloneStep step, false), None)
          else if negb (CanTransitionStep (st_Status step) (u_Status update))
          then (r, (zero_BuildStep, false), Some ErrInvalidBuildStepTransition)
          else
            let step := applyStepUpdate update step in
            (storeSteps r buildID (<[idx := step]> steps), (cloneStep step, true), None)
      end
  end.

(** The step a completion leaves behind: updated, and without its claim once
    it is terminal. *)
Definition completedStep (update : StepUpdate) (step : BuildStep) : BuildStep :=
  let step := applyStepUpdate update step in
  if IsTerminalStepStatus (u_Status update)
  then step <| st_ClaimToken := None |> <| st_ClaimedAt := None |>
         <| st_LeaseExpiresAt := None |>
  else step.

Definition progressMessage : string := "build cannot make further progress toward success".

(** A pending step of the build that may run now. *)
Definition runnableExists (steps : list BuildStep) : bool :=
  let statusByNode := stepStatusByNodeID steps in
  existsb (λ candidate,
    (st_Status candidate == BuildStepStatusPending)
    && isStepRunnable candidate steps statusByNode) steps.

(** The build after a step of it completed: [None] is the early return on a
    transition the table forbids. *)
Definition advanceBuild (now : Time) (build : Build) (steps : list BuildStep) (step : BuildStep)
    : option Build :=
  let stats := loadBuildStepProgressStats steps in
  if (0 <? ps_totalCount stats) && (ps_successCount stats =? ps_totalCount stats) then
    if negb (CanTransitionBuild (b_Status build) BuildStatusSuccess) then None
    else Some (build <| b_Status := BuildStatusSuccess |> <| b_FinishedAt := Some now |>
                 <| b_ErrorMessage := None |>)
  else if ps_runningCount stats =? 0 then
    if negb (runnableExists steps)
       && ((0 <? ps_failedCount stats) || (0 <? ps_pendingCount stats)) then
      if negb (CanTransitionBuild (b_Status build) BuildStatusFailed) then None
      else
        let build := build <| b_Status := BuildStatusFailed |> in
        let build := build <| b_FinishedAt := Some now |> in
        Some (build <| b_ErrorMessage :=
                match st_ErrorMessage step with
                | Some message => Some message
                | None => Some progressMessage
                end |>)
    else Some build
  else Some build.

Definition completeStepLocked (now : Time) (request : CompleteStepRequest) (r : BuildRepository)
    : BuildRepository * CompleteStepResult * option error :=
  let invalid := mkCompleteStepResult zero_BuildStep StepCompletionInvalidTransition in
  match br_builds r !! rq_BuildID request with
  | None => (r, invalid, Some ErrBuildNotFound)
  | Some build =>
      let steps := stepsOf r (rq_BuildID request) in
      match findStep (rq_StepIndex request) steps with
      | None => (r, invalid, Some ErrBuildNotFound)
      | Some (idx, step) =>
          let claimMatches :=
            if rq_RequireClaim request
            then st_ClaimToken step == Some (rq_ClaimToken request) else true in
          let update := rq_Update request in
          let completion := DecideStepCompletion (st_Status step) (u_Status update)
                              (rq_RequireClaim request) claimMatches in
          if negb (sd_AllowUpdate completion) then
            if sd_Outcome completion == StepCompletionDuplicateTerminal
            then (r, mkCompleteStepResult (cloneStep step) (sd_Outcome completion), None)
            else if sd_Outcome completion == StepCompletionStaleClaim
            then (r, mkCompleteStepResult (cloneStep step) (sd_Outcome completion), None)
            else (r, mkCompleteStepResult zero_BuildStep (sd_Outcome completion), None)
          else if b_Status build != BuildStatusRunning then (r, invalid, None)
          else
            let step := completedStep update step in
            let steps := <[idx := step]> steps in
            let r := storeSteps r (rq_BuildID request) steps in
            let next := int64_add (rq_StepIndex request) 1 in
            let build := if (u_Status update == BuildStepStatusSuccess)
                            && (b_CurrentStepIndex build <? next)
                         then build <| b_CurrentStepIndex := next |> else build in
            match advanceBuild now build steps step with
            | None => (r, invalid, None)
            | Some build =>
                (storeBuildLocked r build,
                 mkCompleteStepResult (cloneStep step) StepCompletionCompleted, None)
            end
      end
  end.

Definition BuildRepository_CompleteStep (now : Time) (request : CompleteStepRequest)
    (r : BuildRepository) : BuildRepository * CompleteStepResult * option error :=
  completeStepLocked now request r.
