(* ===== verification/BuildRepoFacts.v ===== *)
(** Facts about the in-memory build store: frame properties of its writes,
    the functional behaviour of claims, leases and completions on every
    branch, cancellation, build numbers and listings. *)

From stdpp Require Import base gmap strings list pretty sorting numbers.
From S2P Require Import Prelude GoLib Domain Repository BuildRepo.

Open Scope go_scope.
Open Scope Z_scope.

Implicit Types (r : BuildRepository) (build : Build) (s step : BuildStep)
  (steps : list BuildStep) (k idx : nat) (u : StepUpdate).

(** ** Writes *)

Lemma clone_build_id build : cloneBuildApplicationVersion build = build.
Proof. unfold cloneBuildApplicationVersion. destruct build as []; simpl. by case_match; simplify_eq. Qed.

Lemma clone_step_status step : st_Status (cloneStep step) = st_Status step.
Proof. unfold cloneStep. by case_match. Qed.

Lemma clone_step_index step : st_StepIndex (cloneStep step) = st_StepIndex step.
Proof. unfold cloneStep. by case_match. Qed.

Lemma clone_step_token step : st_ClaimToken (cloneStep step) = st_ClaimToken step.
Proof. unfold cloneStep. by case_match. Qed.

#[export] Hint Rewrite clone_build_id clone_step_status clone_step_index clone_step_token : go.

Lemma storeBuild_builds r build :
  br_builds (storeBuildLocked r build) = <[b_ID build := build]> (br_builds r).
Proof. unfold storeBuildLocked. simpl. by rewrite clone_build_id. Qed.

Lemma storeBuild_steps r build id : stepsOf (storeBuildLocked r build) id = stepsOf r id.
Proof. done. Qed.

Lemma storeSteps_builds r id steps : br_builds (storeSteps r id steps) = br_builds r.
Proof. done. Qed.

Lemma storeSteps_steps r id steps : stepsOf (storeSteps r id steps) id = steps.
Proof. unfold stepsOf, storeSteps. simpl. by rewrite lookup_insert_eq. Qed.

Lemma storeSteps_steps_ne r id id' steps :
  id ≠ id' → stepsOf (storeSteps r id steps) id' = stepsOf r id'.
Proof. intros. unfold stepsOf, storeSteps. simpl. by rewrite lookup_insert_ne. Qed.

#[export] Hint Rewrite storeBuild_builds storeBuild_steps storeSteps_builds storeSteps_steps : go.

(** ** The step a loop acts on *)

Lemma findStep_spec i steps k s :
  findStep i steps = Some (k, s) ↔
  steps !! k = Some s ∧ st_StepIndex s = i ∧
  ∀ j y, steps !! j = Some y → (j < k)%nat → st_StepIndex y ≠ i.
Proof. apply (list_find_Some (λ step, st_StepIndex step = i)). Qed.

Lemma findStep_lookup i steps k s : findStep i steps = Some (k, s) → steps !! k = Some s.
Proof. rewrite findStep_spec. tauto. Qed.

Lemma findStep_index i steps k s : findStep i steps = Some (k, s) → st_StepIndex s = i.
Proof. rewrite findStep_spec. tauto. Qed.

Lemma findStep_insert i steps k s s' :
  findStep i steps = Some (k, s) → st_StepIndex s' = i →
  findStep i (<[k := s']> steps) = Some (k, s').
Proof.
  rewrite !findStep_spec. intros (Hk & Hs & Hlt) Hs'. split_and!.
  - apply list_lookup_insert_eq. by eapply lookup_lt_Some.
  - done.
  - intros j y Hj Hjk. rewrite list_lookup_insert_ne in Hj by lia. by eapply Hlt.
Qed.

Lemma findStep_In i steps k s : findStep i steps = Some (k, s) → s ∈ steps.
Proof. intros H%findStep_lookup. by eapply list_elem_of_lookup_2. Qed.

(** A step that keeps its index keeps every other search. *)
Lemma findStep_insert_ne j steps k s s' :
  steps !! k = Some s → st_StepIndex s' = st_StepIndex s → st_StepIndex s ≠ j →
  findStep j (<[k := s']> steps) = findStep j steps.
Proof.
  intros Hk Hs' Hne. revert k Hk. unfold findStep.
  induction steps as [|x steps IH]; intros [|k] Hk; simplify_eq/=.
  - rewrite !decide_False by congruence. done.
  - rewrite IH by done. done.
Qed.

Lemma applyStepUpdate_status u s : st_Status (applyStepUpdate u s) = u_Status u.
Proof. unfold applyStepUpdate. by repeat case_match. Qed.

Lemma applyStepUpdate_index u s : st_StepIndex (applyStepUpdate u s) = st_StepIndex s.
Proof. unfold applyStepUpdate. by repeat case_match. Qed.

Lemma completedStep_status u s : st_Status (completedStep u s) = u_Status u.
Proof. unfold completedStep. case_match; simpl; apply applyStepUpdate_status. Qed.

Lemma completedStep_index u s : st_StepIndex (completedStep u s) = st_StepIndex s.
Proof. unfold completedStep. case_match; simpl; apply applyStepUpdate_index. Qed.

#[export] Hint Rewrite applyStepUpdate_status applyStepUpdate_index
  completedStep_status completedStep_index : go.

(** ** Progress counts *)

Definition stepsWith (status : BuildStepStatus) (steps : list BuildStep) : list BuildStep :=
  filter (λ s, st_Status s = status) steps.

Lemma stepsWith_nil status steps :
  stepsWith status steps = [] ↔ ∀ s, s ∈ steps → st_Status s ≠ status.
Proof.
  unfold stepsWith. split.
  - intros H s Hs Heq. assert (s ∈ filter (λ s, st_Status s = status) steps) as Hin.
    { by apply list_elem_of_filter. }
    rewrite H in Hin. by apply not_elem_of_nil in Hin.
  - intros H. destruct (filter _ steps) as [|s l] eqn:E; [done|].
    assert (s ∈ filter (λ s, st_Status s = status) steps) as Hin by (rewrite E; left).
    apply list_elem_of_filter in Hin as [Heq Hin]. by destruct (H s Hin).
Qed.

Lemma load_stats_foldl steps t a b c d :
  foldl countStep (mkbuildStepProgressStats t a b c d) steps =
  mkbuildStepProgressStats t
    (a + Z.of_nat (length (stepsWith BuildStepStatusSuccess steps)))
    (b + Z.of_nat (length (stepsWith BuildStepStatusFailed steps)))
    (c + Z.of_nat (length (stepsWith BuildStepStatusPending steps)))
    (d + Z.of_nat (length (stepsWith BuildStepStatusRunning steps))).
Proof.
  revert a b c d. unfold stepsWith. induction steps as [|s steps IH]; intros a b c d.
  - simpl. f_equal; lia.
  - cbn [foldl]. unfold countStep at 2.
    destruct (st_Status s) eqn:E; cbn -[filter]; rewrite IH;
      rewrite !filter_cons, !E; simpl; f_equal; lia.
Qed.

Lemma load_stats steps :
  loadBuildStepProgressStats steps =
  mkbuildStepProgressStats (Z.of_nat (length steps))
    (Z.of_nat (length (stepsWith BuildStepStatusSuccess steps)))
    (Z.of_nat (length (stepsWith BuildStepStatusFailed steps)))
    (Z.of_nat (length (stepsWith BuildStepStatusPending steps)))
    (Z.of_nat (length (stepsWith BuildStepStatusRunning steps))).
Proof. unfold loadBuildStepProgressStats. by rewrite load_stats_foldl. Qed.

Lemma stepsWith_full status steps :
  length (stepsWith status steps) = length steps ↔ ∀ s, s ∈ steps → st_Status s = status.
Proof.
  unfold stepsWith. induction steps as [|s steps IH]; simpl.
  - split; [|done]. intros _ s Hs. by apply not_elem_of_nil in Hs.
  - rewrite filter_cons. case_decide as Hs; simpl.
    + rewrite Nat.succ_inj_wd, IH. setoid_rewrite elem_of_cons. naive_solver.
    + pose proof (length_filter (λ s, st_Status s = status) steps).
      split; [lia|]. intros Hall. destruct Hs. apply Hall. left.
Qed.

(** Every step succeeded, and there is one. *)
Definition allSucceeded (steps : list BuildStep) : Prop :=
  steps ≠ [] ∧ ∀ s, s ∈ steps → st_Status s = BuildStepStatusSuccess.

(** Nothing runs, nothing can start, and something did not succeed. *)
Definition stuck (steps : list BuildStep) : Prop :=
  (∀ s, s ∈ steps → st_Status s ≠ BuildStepStatusRunning) ∧
  runnableExists steps = false ∧
  ∃ s, s ∈ steps ∧ (st_Status s = BuildStepStatusFailed ∨ st_Status s = BuildStepStatusPending).

Lemma stats_all_success steps :
  let stats := loadBuildStepProgressStats steps in
  (0 <? ps_totalCount stats) && (ps_successCount stats =? ps_totalCount stats) = true
  ↔ allSucceeded steps.
Proof.
  rewrite load_stats; simpl. unfold allSucceeded.
  rewrite andb_true_iff, Z.ltb_lt, Z.eqb_eq, <-stepsWith_full.
  destruct steps; simpl; split; intros [??]; split; try done; lia.
Qed.

Lemma stats_stuck steps :
  let stats := loadBuildStepProgressStats steps in
  (ps_runningCount stats =? 0) &&
  (negb (runnableExists steps) && ((0 <? ps_failedCount stats) || (0 <? ps_pendingCount stats)))
    = true
  ↔ stuck steps.
Proof.
  assert (Hex : ∀ status, (0 < Z.of_nat (length (stepsWith status steps)))
    ↔ ∃ s, s ∈ steps ∧ st_Status s = status).
  { intros status. unfold stepsWith. split.
    - destruct (filter _ _) as [|s l] eqn:E; [simpl; lia|]. intros _. exists s.
      assert (s ∈ filter (λ s, st_Status s = status) steps) as Hin by (rewrite E; left).
      by apply list_elem_of_filter in Hin as [??].
    - intros (s & Hs & E). destruct (filter _ steps) eqn:Ef; [|simpl; lia].
      destruct (proj1 (stepsWith_nil status steps) Ef s Hs E). }
  rewrite load_stats; simpl. unfold stuck.
  rewrite !andb_true_iff, Z.eqb_eq, orb_true_iff, !Z.ltb_lt, negb_true_iff, !Hex.
  assert (Z.of_nat (length (stepsWith BuildStepStatusRunning steps)) = 0
    ↔ ∀ s, s ∈ steps → st_Status s ≠ BuildStepStatusRunning) as ->.
  { rewrite <-stepsWith_nil, <-length_zero_iff_nil. lia. }
  naive_solver.
Qed.

Lemma stuck_not_allSucceeded steps : stuck steps → ¬ allSucceeded steps.
Proof. intros (_ & _ & s & Hs & [E|E]) [_ Hall]; rewrite (Hall s Hs) in E; done. Qed.

(** ** How a completion advances the build *)

Definition succeededBuild (now : Time) (build : Build) : Build :=
  build <| b_Status := BuildStatusSuccess |> <| b_FinishedAt := Some now |>
    <| b_ErrorMessage := None |>.

Definition failedBuild (now : Time) (build : Build) (step : BuildStep) : Build :=
  build <| b_Status := BuildStatusFailed |> <| b_FinishedAt := Some now |>
    <| b_ErrorMessage := match st_ErrorMessage step with
                         | Some message => Some message
                         | None => Some progressMessage
                         end |>.

Lemma advance_success now build steps step :
  b_Status build = BuildStatusRunning → allSucceeded steps →
  advanceBuild now build steps step = Some (succeededBuild now build).
Proof.
  intros Hrun H%stats_all_success. unfold advanceBuild. by rewrite H, Hrun.
Qed.

Lemma advance_failed now build steps step :
  b_Status build = BuildStatusRunning → stuck steps →
  advanceBuild now build steps step = Some (failedBuild now build step).
Proof.
  intros Hrun Hst. pose proof (stuck_not_allSucceeded _ Hst) as Hn.
  rewrite <-stats_all_success, not_true_iff_false in Hn.
  apply stats_stuck in Hst as [H1 H2]%andb_true_iff.
  unfold advanceBuild. by rewrite Hn, H1, H2, Hrun.
Qed.

Lemma advance_same now build steps step :
  ¬ allSucceeded steps → ¬ stuck steps → advanceBuild now build steps step = Some build.
Proof.
  rewrite <-stats_all_success, <-stats_stuck, !not_true_iff_false. intros H1 H2.
  unfold advanceBuild. rewrite H1.
  destruct (ps_runningCount _ =? 0); [|done]. simpl in H2. by rewrite H2.
Qed.

Lemma advance_cases now build steps step :
  b_Status build = BuildStatusRunning →
  (allSucceeded steps ∧ advanceBuild now build steps step = Some (succeededBuild now build))
  ∨ (stuck steps ∧ advanceBuild now build steps step = Some (failedBuild now build step))
  ∨ (¬ allSucceeded steps ∧ ¬ stuck steps ∧ advanceBuild now build steps step = Some build).
Proof.
  intros Hrun. set (stats := loadBuildStepProgressStats steps).
  destruct ((0 <? ps_totalCount stats) && (ps_successCount stats =? ps_totalCount stats)) eqn:E1.
  { left. apply stats_all_success in E1. auto using advance_success. }
  destruct ((ps_runningCount stats =? 0) && (negb (runnableExists steps)
    && ((0 <? ps_failedCount stats) || (0 <? ps_pendingCount stats)))) eqn:E2.
  { right; left. apply stats_stuck in E2. auto using advance_failed. }
  right; right.
  assert (¬ allSucceeded steps) by (rewrite <-stats_all_success; subst stats; by rewrite E1).
  assert (¬ stuck steps) by (rewrite <-stats_stuck; subst stats; by rewrite E2).
  auto using advance_same.
Qed.

(** ** Completion of a step *)

(** The build a completion of step [i] advances: its cursor moves past a
    successful step. *)
Definition moveCursor (stepIndex : Z) (update : StepUpdate) (build : Build) : Build :=
  let next := int64_add stepIndex 1 in
  if (u_Status update == BuildStepStatusSuccess) && (b_CurrentStepIndex build <? next)
  then build <| b_CurrentStepIndex := next |> else build.

Lemma moveCursor_status i u build : b_Status (moveCursor i u build) = b_Status build.
Proof. unfold moveCursor. by case_match. Qed.

Lemma moveCursor_id i u build : b_ID (moveCursor i u build) = b_ID build.
Proof. unfold moveCursor. by case_match. Qed.

(** The request is from the step's claimant, or needs no claim. *)
Definition claimHeld (request : CompleteStepRequest) (step : BuildStep) : Prop :=
  rq_RequireClaim request = true → st_ClaimToken step = Some (rq_ClaimToken request).

(** A request the store acts on. *)
Record acceptable (r : BuildRepository) (request : CompleteStepRequest)
    (build : Build) (idx : nat) (step : BuildStep) : Prop := {
  acc_build : br_builds r !! rq_BuildID request = Some build;
  acc_step : findStep (rq_StepIndex request) (stepsOf r (rq_BuildID request)) = Some (idx, step);
  acc_target : CanTransitionStep BuildStepStatusRunning (u_Status (rq_Update request)) = true;
  acc_step_running : st_Status step = BuildStepStatusRunning;
  acc_claim : claimHeld request step;
  acc_build_running : b_Status build = BuildStatusRunning;
}.

Lemma completeStep_accepted now request r build idx step :
  acceptable r request build idx step →
  ∃ build',
    let id := rq_BuildID request in
    let step' := completedStep (rq_Update request) step in
    let steps' := <[idx := step']> (stepsOf r id) in
    advanceBuild now (moveCursor (rq_StepIndex request) (rq_Update request) build) steps' step'
      = Some build' ∧
    completeStepLocked now request r =
      (storeBuildLocked (storeSteps r id steps') build',
       mkCompleteStepResult (cloneStep step') StepCompletionCompleted, None).
Proof.
  intros [Hb Hf Ht Hs Hc Hr]. simpl.
  set (steps' := <[idx := _]> _).
  destruct (advance_cases now (moveCursor (rq_StepIndex request) (rq_Update request) build) steps'
    (completedStep (rq_Update request) step)) as [[_ E]|[[_ E]|(_ & _ & E)]];
    try (by rewrite moveCursor_status);
    eexists; (split; [exact E|]);
    unfold completeStepLocked; rewrite Hb, Hf; unfold DecideStepCompletion; rewrite Ht, Hs; simpl;
    unfold claimHeld in Hc; destruct (rq_RequireClaim request);
    rewrite ?Hc, ?bool_decide_eq_true_2 by done; simpl;
    rewrite Hr; simpl; unfold moveCursor in E; subst steps'; by rewrite E.
Qed.

(** A completion the store does not accept is answered without any write. *)
Lemma completeStep_rejected now request r :
  (∀ build idx step, ¬ acceptable r request build idx step) →
  (completeStepLocked now request r).1.1 = r ∧
  rs_Outcome (completeStepLocked now request r).1.2 ≠ StepCompletionCompleted.
Proof.
  intros Hno. unfold completeStepLocked.
  destruct (br_builds r !! rq_BuildID request) as [build|] eqn:Hb; [|done].
  destruct (findStep _ _) as [[idx step]|] eqn:Hf; [|done].
  specialize (Hno build idx step).
  unfold DecideStepCompletion.
  destruct (CanTransitionStep BuildStepStatusRunning (u_Status (rq_Update request))) eqn:Ht; [|done].
  simpl. destruct (decide (st_Status step = BuildStepStatusRunning)) as [Hs|Hs].
  - rewrite bool_decide_eq_true_2 by done. simpl.
    destruct (rq_RequireClaim request && _) eqn:Hc; [done|]. simpl.
    destruct (decide (b_Status build = BuildStatusRunning)) as [Hr|Hr].
    + destruct Hno. split; try done. intros Hreq. rewrite Hreq in Hc. simpl in Hc.
      apply negb_false_iff, bool_decide_eq_true in Hc. done.
    + by rewrite bool_decide_eq_false_2.
  - rewrite bool_decide_eq_false_2 by done. simpl. by destruct (IsTerminalStepStatus _).
Qed.
