(* ===== verification/LifecycleSpec.v ===== *)
(** The lifecycle of one build, abstractly: what backend/docs/state-machine.md
    promises, as a step relation on the status of a build and the statuses,
    claims and dependencies of its steps.  The concrete store refines it
    (Lifecycle.v); the invariants are proved here by induction on its rules. *)

From stdpp Require Import base gmap strings list numbers.
From S2P Require Import Prelude GoLib Domain.

Open Scope go_scope.
Open Scope Z_scope.

Implicit Types (k : nat).

(** ** States *)

(** A step as the lifecycle sees it. *)
Record StepView := mkStepView {
  sv_index : Z;
  sv_node : string;
  sv_deps : list string;
  sv_status : BuildStepStatus;
  sv_token : option string;
  sv_lease : option Time;
}.

#[export] Instance eta_StepView : Eta StepView := λ v,
  mkStepView (sv_index v) (sv_node v) (sv_deps v) (sv_status v) (sv_token v) (sv_lease v).

#[export] Instance StepView_eq_dec : EqDecision StepView.
Proof. solve_decision. Defined.

Record BuildView := mkBuildView {
  bv_status : BuildStatus;
  bv_steps : list StepView;
}.

(** The name other steps use for a step. *)
Definition view_node (s : StepView) : string :=
  if TrimSpace (sv_node s) == "" then FallbackNodeID (sv_index s) else TrimSpace (sv_node s).

(** The status of a node: that of the last step with this name. *)
Definition node_status (steps : list StepView) (node : string) : option BuildStepStatus :=
  foldl (λ acc s, if view_node s == node then Some (sv_status s) else acc) None steps.

(** A step may start when its declared dependencies succeeded; a step without
    a node name waits for every step with a smaller index. *)
Definition ready (steps : list StepView) (s : StepView) : Prop :=
  if TrimSpace (sv_node s) != ""
  then ∀ dep, dep ∈ sv_deps s → node_status steps (TrimSpace dep) = Some BuildStepStatusSuccess
  else ∀ p, p ∈ steps → sv_index p < sv_index s → sv_status p = BuildStepStatusSuccess.

Definition all_succeeded (steps : list StepView) : Prop :=
  steps ≠ [] ∧ ∀ s, s ∈ steps → sv_status s = BuildStepStatusSuccess.

(** No step runs, no step can start, and one failed or still waits. *)
Definition no_progress (steps : list StepView) : Prop :=
  (∀ s, s ∈ steps → sv_status s ≠ BuildStepStatusRunning) ∧
  (∀ s, s ∈ steps → sv_status s = BuildStepStatusPending → ¬ ready steps s) ∧
  ∃ s, s ∈ steps ∧ (sv_status s = BuildStepStatusFailed ∨ sv_status s = BuildStepStatusPending).

(** What the statuses of the steps say about a running build. *)
Inductive verdict (steps : list StepView) : BuildStatus → Prop :=
  | verdict_success : all_succeeded steps → verdict steps BuildStatusSuccess
  | verdict_failed : no_progress steps → verdict steps BuildStatusFailed
  | verdict_running :
      ¬ all_succeeded steps → ¬ no_progress steps → verdict steps BuildStatusRunning.

(** ** Rules *)

Definition canceled_view (s : StepView) : StepView :=
  if CanCancelStep (sv_status s)
  then s <| sv_status := BuildStepStatusCanceled |> <| sv_token := None |> <| sv_lease := None |>
  else s.

Inductive lifecycle_step : BuildView → BuildView → Prop :=
  | lc_queue steps :
      (∀ s, s ∈ steps → sv_status s = BuildStepStatusPending) →
      lifecycle_step (mkBuildView BuildStatusPending []) (mkBuildView BuildStatusQueued steps)
  | lc_move from to steps :
      CanTransitionBuild from to = true →
      to = BuildStatusPreparing ∨ to = BuildStatusRunning ∨ to = BuildStatusFailed →
      lifecycle_step (mkBuildView from steps) (mkBuildView to steps)
  | lc_claim status steps k s token lease :
      steps !! k = Some s → sv_status s = BuildStepStatusPending → ready steps s →
      lifecycle_step (mkBuildView status steps)
        (mkBuildView status (<[k := s <| sv_status := BuildStepStatusRunning |>
                                      <| sv_token := Some token |>
                                      <| sv_lease := Some lease |>]> steps))
  | lc_reclaim status steps k s old now token lease :
      steps !! k = Some s → sv_status s = BuildStepStatusRunning →
      sv_lease s = Some old → old ≤ now →
      lifecycle_step (mkBuildView status steps)
        (mkBuildView status (<[k := s <| sv_token := Some token |>
                                      <| sv_lease := Some lease |>]> steps))
  | lc_renew status steps k s token lease :
      steps !! k = Some s → sv_status s = BuildStepStatusRunning → sv_token s = Some token →
      lifecycle_step (mkBuildView status steps)
        (mkBuildView status (<[k := s <| sv_lease := Some lease |>]> steps))
  | lc_complete steps k s token result status :
      steps !! k = Some s → sv_status s = BuildStepStatusRunning → sv_token s = Some token →
      CanTransitionStep BuildStepStatusRunning result = true →
      let steps' := <[k := s <| sv_status := result |> <| sv_token := None |>
                             <| sv_lease := None |>]> steps in
      verdict steps' status →
      lifecycle_step (mkBuildView BuildStatusRunning steps) (mkBuildView status steps')
  | lc_cancel status steps :
      CanCancelBuild status = true →
      lifecycle_step (mkBuildView status steps)
        (mkBuildView BuildStatusCanceled (canceled_view <$> steps)).

(** A build starts pending without steps, or queued with pending steps. *)
Definition initial (v : BuildView) : Prop :=
  (bv_status v = BuildStatusPending ∧ bv_steps v = []) ∨
  (bv_status v = BuildStatusQueued ∧
   ∀ s, s ∈ bv_steps v → sv_status s = BuildStepStatusPending).

Definition lifecycle_reachable (v : BuildView) : Prop :=
  ∃ v0, initial v0 ∧ rtc lifecycle_step v0 v.

(** ** Invariant *)

Definition known_status (status : BuildStepStatus) : Prop :=
  match status with BuildStepStatusOther _ => False | _ => True end.

Definition started (status : BuildStepStatus) : Prop :=
  status = BuildStepStatusRunning ∨ status = BuildStepStatusSuccess
  ∨ status = BuildStepStatusFailed.

Record lifecycle_inv (v : BuildView) : Prop := {
  inv_known s : s ∈ bv_steps v → known_status (sv_status s);
  inv_pending : bv_status v = BuildStatusPending → bv_steps v = [];
  inv_success : bv_status v = BuildStatusSuccess → all_succeeded (bv_steps v);
  inv_canceled s : bv_status v = BuildStatusCanceled → s ∈ bv_steps v →
    IsTerminalStepStatus (sv_status s) = true;
  inv_not_canceled s : bv_status v ≠ BuildStatusCanceled → s ∈ bv_steps v →
    sv_status s ≠ BuildStepStatusCanceled;
  inv_started s : s ∈ bv_steps v → started (sv_status s) → ready (bv_steps v) s;
}.

Implicit Types (steps : list StepView) (s : StepView).

(** ** Steps only gain successes *)

(** [s'] is a later state of the step [s]: the same step, still successful if
    [s] was. *)
Definition later (s s' : StepView) : Prop :=
  sv_index s' = sv_index s ∧ sv_node s' = sv_node s ∧ sv_deps s' = sv_deps s ∧
  (sv_status s = BuildStepStatusSuccess → sv_status s' = BuildStepStatusSuccess).

#[export] Instance later_refl : Reflexive later.
Proof. by intros s. Qed.

(** A step that has not ended may move to any status. *)
Lemma later_unfinished s s' :
  sv_status s ≠ BuildStepStatusSuccess → sv_index s' = sv_index s → sv_node s' = sv_node s →
  sv_deps s' = sv_deps s → later s s'.
Proof. by intros. Qed.

Lemma later_node s s' : later s s' → view_node s' = view_node s.
Proof. intros (Hi & Hn & _ & _). unfold view_node. by rewrite Hi, Hn. Qed.

Lemma later_insert steps k s s' :
  steps !! k = Some s → later s s' → Forall2 later steps (<[k := s']> steps).
Proof.
  intros Hk Hs. apply Forall2_same_length_lookup_2.
  - by rewrite length_insert.
  - intros i x y Hx. rewrite list_lookup_insert. case_decide as Hc; intros Hy; simplify_eq; [|done].
    by destruct Hc as [-> ?]; simplify_eq.
Qed.

Lemma node_status_foldl_later steps steps' node a a' :
  Forall2 later steps steps' →
  (a = Some BuildStepStatusSuccess → a' = Some BuildStepStatusSuccess) →
  let f acc s := if view_node s == node then Some (sv_status s) else acc in
  foldl f a steps = Some BuildStepStatusSuccess →
  foldl f a' steps' = Some BuildStepStatusSuccess.
Proof.
  intros H. revert a a'. induction H as [|s s' steps steps' Hs _ IH]; intros a a' Ha; simpl; [done|].
  apply IH. rewrite (later_node _ _ Hs). case_match; [|done].
  intros [= E]. destruct Hs as (_ & _ & _ & Hs). by rewrite Hs.
Qed.

Lemma node_status_later steps steps' node :
  Forall2 later steps steps' →
  node_status steps node = Some BuildStepStatusSuccess →
  node_status steps' node = Some BuildStepStatusSuccess.
Proof. intros H. by apply node_status_foldl_later. Qed.

Lemma ready_later steps steps' s s' :
  Forall2 later steps steps' → later s s' → ready steps s → ready steps' s'.
Proof.
  intros H (Hi & Hn & Hd & _). unfold ready. rewrite Hn, Hd, Hi. case_match.
  - intros Hr dep Hdep. eauto using node_status_later.
  - intros Hr p' [k Hk]%list_elem_of_lookup Hlt.
    destruct (Forall2_lookup_r _ _ _ _ _ H Hk) as (p & Hp & Hpi & _ & _ & Hps).
    apply Hps, Hr; [by eapply list_elem_of_lookup_2|]. by rewrite <-Hpi.
Qed.

Lemma elem_of_insert_view steps k (s x : StepView) :
  x ∈ <[k := s]> steps → x = s ∨ (x ∈ steps ∧ ∃ i, i ≠ k ∧ steps !! i = Some x).
Proof.
  intros [i Hi]%list_elem_of_lookup. rewrite list_lookup_insert in Hi.
  case_decide as Hc; simplify_eq; [by left|].
  destruct (decide (i = k)) as [->|Hne].
  - apply lookup_lt_Some in Hi as Hlt. naive_solver.
  - right. split; [by eapply list_elem_of_lookup_2|eauto].
Qed.

(** A step that starts or ends keeps every started step ready. *)
Lemma started_insert steps k s s' :
  steps !! k = Some s → later s s' →
  (∀ x, x ∈ steps → started (sv_status x) → ready steps x) →
  (started (sv_status s') → ready steps s) →
  ∀ x, x ∈ <[k := s']> steps → started (sv_status x) → ready (<[k := s']> steps) x.
Proof.
  intros Hk Hs Hall Hready x [->|[Hx _]]%elem_of_insert_view Hst.
  - eapply ready_later; eauto using later_insert.
  - eapply (ready_later steps _ x x); eauto using later_insert. reflexivity.
Qed.

(** ** The invariant holds of every reachable state *)

Lemma transition_running_result result :
  CanTransitionStep BuildStepStatusRunning result = true →
  result = BuildStepStatusSuccess ∨ result = BuildStepStatusFailed.
Proof. simpl. rewrite orb_true_iff, !bool_decide_eq_true. done. Qed.

Lemma terminal_step_iff status :
  IsTerminalStepStatus status = true ↔
  status = BuildStepStatusSuccess ∨ status = BuildStepStatusFailed ∨ status = BuildStepStatusCanceled.
Proof. unfold IsTerminalStepStatus. rewrite !orb_true_iff, !bool_decide_eq_true. tauto. Qed.

Lemma can_cancel_step_iff status :
  CanCancelStep status = true ↔ status = BuildStepStatusPending ∨ status = BuildStepStatusRunning.
Proof. unfold CanCancelStep. by rewrite orb_true_iff, !bool_decide_eq_true. Qed.

Lemma canceled_view_status s :
  sv_status (canceled_view s) =
  if CanCancelStep (sv_status s) then BuildStepStatusCanceled else sv_status s.
Proof. unfold canceled_view. by destruct (CanCancelStep _). Qed.

Lemma canceled_view_later s : later s (canceled_view s).
Proof.
  unfold later. rewrite canceled_view_status. unfold canceled_view.
  destruct (CanCancelStep (sv_status s)) eqn:E; split_and!; try done.
  apply can_cancel_step_iff in E as [E|E]; by rewrite E.
Qed.

Lemma canceled_views_later steps : Forall2 later steps (canceled_view <$> steps).
Proof. apply Forall2_fmap_r, Forall_Forall2_diag, Forall_true. apply canceled_view_later. Qed.

Lemma initial_inv v : initial v → lifecycle_inv v.
Proof.
  destruct v as [status steps]. intros [[Hb Hs]|[Hb Hs]]; simpl in *; subst.
  - split; simpl; try done; intros s; rewrite ?elem_of_nil; tauto.
  - split; simpl; try done.
    + intros s Hin. specialize (Hs s Hin). by destruct (sv_status s).
    + intros s _ Hin. specialize (Hs s Hin). by destruct (sv_status s).
    + intros s Hin. specialize (Hs s Hin). intros [?|[?|?]]; congruence.
Qed.

(** Replacing one step by a later state of it, with a known status. *)
Lemma inv_insert status status' steps k s s' :
  lifecycle_inv (mkBuildView status steps) →
  steps !! k = Some s → later s s' →
  (status' = status ∨ status = BuildStatusRunning ∧ verdict (<[k := s']> steps) status') →
  known_status (sv_status s') → sv_status s' ≠ BuildStepStatusCanceled →
  IsTerminalStepStatus (sv_status s) = false →
  (started (sv_status s') → ready steps s) →
  lifecycle_inv (mkBuildView status' (<[k := s']> steps)).
Proof.
  intros [Hkn Hpe Hsu Hca Hnc Hst] Hk Hl Hstatus Hk' Hnc' Hnt Hr. simpl in *.
  assert (Hin : s ∈ steps) by by eapply list_elem_of_lookup_2.
  assert (Hne : steps ≠ []) by by intros ->.
  assert (Hrun : status ≠ BuildStatusSuccess ∧ status ≠ BuildStatusCanceled ∧
    status ≠ BuildStatusPending).
  { split_and!; intros ->.
    - destruct (Hsu eq_refl) as [_ Hs]. by rewrite (Hs s Hin) in Hnt.
    - rewrite (Hca s eq_refl Hin) in Hnt. done.
    - auto. }
  destruct Hrun as (Hns & Hncb & Hnp).
  split; simpl.
  - intros x [->|[Hx _]]%elem_of_insert_view; auto.
  - intros ->. destruct Hstatus as [E|[_ Hv]]; [congruence|inversion Hv].
  - intros ->. destruct Hstatus as [E|[_ Hv]]; [congruence|by inversion Hv].
  - intros x ->. destruct Hstatus as [E|[_ Hv]]; [congruence|inversion Hv].
  - intros x _ [->|[Hx _]]%elem_of_insert_view; auto.
  - by apply started_insert with s.
Qed.

Lemma lifecycle_step_inv v v' : lifecycle_inv v → lifecycle_step v v' → lifecycle_inv v'.
Proof.
  intros Hinv Hstep. destruct Hstep as
    [steps Hp | from to steps Ht Hto | status steps k s token lease Hk Hs Hr
    | status steps k s old now token lease Hk Hs _ _ | status steps k s token lease Hk Hs _
    | steps k s token result status Hk Hs _ Ht steps' Hv | status steps Hc].
  - apply initial_inv. by right.
  - destruct Hinv as [Hkn Hpe Hsu Hca Hnc Hst]. simpl in *.
    assert (from ≠ BuildStatusCanceled) by by intros ->.
    split; simpl; try done; intros; destruct Hto as [->|[->| ->]]; try done; auto.
  - apply (inv_insert status status steps k s); try done; rewrite ?Hs; auto.
    by apply later_unfinished; rewrite ?Hs.
  - apply (inv_insert status status steps k s); try done; simpl; rewrite ?Hs; try done; auto.
    intros _. apply Hinv; [by eapply list_elem_of_lookup_2|]. rewrite Hs. by left.
  - apply (inv_insert status status steps k s); try done; simpl; rewrite ?Hs; try done; auto.
    intros _. apply Hinv; [by eapply list_elem_of_lookup_2|]. rewrite Hs. by left.
  - apply transition_running_result in Ht.
    apply (inv_insert BuildStatusRunning status steps k s); try done; simpl; rewrite ?Hs; try done; auto.
    + by apply later_unfinished; rewrite ?Hs.
    + by destruct Ht as [->| ->].
    + by destruct Ht as [->| ->].
    + intros _. apply Hinv; [by eapply list_elem_of_lookup_2|]. rewrite Hs. by left.
  - destruct Hinv as [Hkn Hpe Hsu Hca Hnc Hst]. simpl in *. split; simpl; try done.
    + intros x (s & -> & Hs)%list_elem_of_fmap. rewrite canceled_view_status.
      destruct (CanCancelStep _); [done|auto].
    + intros x _ (s & -> & Hs)%list_elem_of_fmap. rewrite canceled_view_status.
      destruct (CanCancelStep _) eqn:E; [done|].
      specialize (Hkn s Hs). destruct (sv_status s); done.
    + intros x (s & -> & Hs)%list_elem_of_fmap. rewrite canceled_view_status.
      destruct (CanCancelStep _) eqn:E; [by intros [?|[?|?]]|]. intros Hst'.
      eapply ready_later; eauto using canceled_views_later, canceled_view_later.
Qed.

Lemma lifecycle_reachable_inv v : lifecycle_reachable v → lifecycle_inv v.
Proof.
  intros (v0 & Hv0%initial_inv & Hrtc). induction Hrtc; eauto using lifecycle_step_inv.
Qed.

(** ** Ended builds and steps stay as they are *)

Lemma canceled_view_terminal s :
  IsTerminalStepStatus (sv_status s) = true → canceled_view s = s.
Proof.
  intros H%terminal_step_iff. unfold canceled_view.
  by destruct H as [->|[->| ->]].
Qed.

Lemma insert_unfinished steps k k' s s' x :
  steps !! k = Some s → IsTerminalStepStatus (sv_status s) = false →
  steps !! k' = Some x → IsTerminalStepStatus (sv_status x) = true →
  <[k := s']> steps !! k' = Some x.
Proof.
  intros Hk Hs Hk' Hx. destruct (decide (k = k')) as [<-|Hne]; [congruence|].
  by rewrite list_lookup_insert_ne.
Qed.

(** A terminal step keeps its place and everything the lifecycle reads of it. *)
Lemma lifecycle_step_terminal_step v v' k s :
  lifecycle_step v v' → bv_steps v !! k = Some s → IsTerminalStepStatus (sv_status s) = true →
  bv_steps v' !! k = Some s.
Proof.
  intros Hstep Hk Ht. destruct Hstep; simpl in *; try done.
  - apply insert_unfinished with s0; [done| |done|done]. by rewrite H0.
  - apply insert_unfinished with s0; [done| |done|done]. by rewrite H0.
  - apply insert_unfinished with s0; [done| |done|done]. by rewrite H0.
  - apply insert_unfinished with s0; [done| |done|done]. by rewrite H0.
  - by rewrite list_lookup_fmap, Hk; simpl; rewrite canceled_view_terminal.
Qed.

Lemma lifecycle_step_terminal_build v v' :
  lifecycle_step v v' → IsTerminalBuildStatus (bv_status v) = true →
  bv_status v' = bv_status v.
Proof.
  intros Hstep Ht. destruct Hstep; simpl in *; try done.
  - destruct from; done.
  - by destruct status.
Qed.

(** The statuses of the steps decide the verdict. *)
Lemma verdict_unique steps status status' :
  verdict steps status → verdict steps status' → status = status'.
Proof.
  assert (Hex : ∀ steps, all_succeeded steps → no_progress steps → False).
  { intros ss [_ Hall] (_ & _ & s & Hs & [E|E]); rewrite (Hall s Hs) in E; done. }
  intros [?|?|??] H2; inversion H2; subst; try done; try tauto; exfalso; eauto.
Qed.
