(* ===== verification/Lifecycle.v ===== *)
(** The build store refines the abstract lifecycle.

    [store_step] lists the calls that change the store, each with the guard its
    callers check first (backend/internal/service/build and service/worker).
    Every such step is, for every build, a lifecycle step or no step at all, so
    the invariants of LifecycleSpec.v hold of every store the calls produce. *)

From stdpp Require Import base gmap strings list pretty sorting numbers.
From S2P Require Import Prelude GoLib Domain Repository BuildRepo BuildRepoFacts LifecycleSpec.

Open Scope go_scope.
Open Scope Z_scope.

Implicit Types (r : BuildRepository) (build : Build) (s step : BuildStep)
  (steps : list BuildStep) (k idx : nat) (u : StepUpdate).

(** ** Views of the store *)

Definition step_view (s : BuildStep) : StepView :=
  mkStepView (st_StepIndex s) (st_NodeID s) (st_DependsOnNodes s) (st_Status s)
    (st_ClaimToken s) (st_LeaseExpiresAt s).

Definition build_view (r : BuildRepository) (id : string) : option BuildView :=
  (λ build, mkBuildView (b_Status build) (step_view <$> stepsOf r id)) <$> br_builds r !! id.

(** ** Steps of the store *)

(** A build and steps a creator hands over. *)
Definition fresh_id (r : BuildRepository) (newID : string) (build : Build) : Prop :=
  let id := if b_ID build == "" then newID else b_ID build in
  br_builds r !! id = None ∧ br_buildSteps r !! id = None.

Definition pending_steps (steps : list BuildStep) : Prop :=
  ∀ s, s ∈ steps → st_Status s = BuildStepStatusPending.

(** The calls of the services, with their arguments. *)
Inductive StoreCall :=
  | CallCreate (newID : string) (build : Build)
  | CallCreateQueued (newID : string) (newStepIDs : nat → string) (now : Time) (build : Build)
      (steps : list BuildStep)
  | CallQueue (newStepIDs : nat → string) (now : Time) (id : string) (steps : list BuildStep)
  | CallUpdateStatus (now : Time) (id : string) (status : BuildStatus) (message : option string)
  | CallCancel (id reason : string) (now : Time)
  | CallClaim (id : string) (i : Z) (claim : StepClaim)
  | CallReclaim (id : string) (i : Z) (now : Time) (claim : StepClaim)
  | CallRenew (id : string) (i : Z) (token : string) (lease : Time)
  | CallComplete (now : Time) (request : CompleteStepRequest)
  | CallSetVersion (id version : string)
  | CallProvenance (id : string) (update : SourceProvenanceUpdate)
  | CallImage (id : string) (requestedRef resolvedRef : option string) (kind : ImageSourceKind)
      (imageID versionID : option string)
  | CallCursor (id : string) (i : Z).

Definition run_call (c : StoreCall) (r : BuildRepository) : BuildRepository :=
  match c with
  | CallCreate newID build => (BuildRepository_Create newID build r).1.1
  | CallCreateQueued newID newStepIDs now build steps =>
      (BuildRepository_CreateQueuedBuild newID newStepIDs now build steps r).1.1
  | CallQueue newStepIDs now id steps => (BuildRepository_QueueBuild newStepIDs now id steps r).1.1
  | CallUpdateStatus now id status message =>
      (BuildRepository_UpdateStatus now id status message r).1.1
  | CallCancel id reason now => (BuildRepository_CancelBuild id reason now r).1.1
  | CallClaim id i claim => (BuildRepository_ClaimPendingStep id i claim r).1.1
  | CallReclaim id i now claim => (BuildRepository_ReclaimExpiredStep id i now claim r).1.1
  | CallRenew id i token lease => (BuildRepository_RenewStepLease id i token lease r).1.1
  | CallComplete now request => (BuildRepository_CompleteStep now request r).1.1
  | CallSetVersion id version => (BuildRepository_SetApplicationVersionIfUnset id version r).1.1
  | CallProvenance id update => (BuildRepository_UpdateSourceProvenance id update r).1.1
  | CallImage id requestedRef resolvedRef kind imageID versionID =>
      (BuildRepository_UpdateImageExecution id requestedRef resolvedRef kind imageID versionID r).1.1
  | CallCursor id i => (BuildRepository_UpdateCurrentStepIndex id i r).1.1
  end.

(** What the caller of each has checked: a created build has a new id, only a
    pending build is queued, the status of a build moves along the table (and to
    success only by its steps), a completion names its claim. *)
Definition call_guard (r : BuildRepository) (c : StoreCall) : Prop :=
  match c with
  | CallCreate newID build => fresh_id r newID build ∧ b_Status build = BuildStatusPending
  | CallCreateQueued newID _ _ build steps => fresh_id r newID build ∧ pending_steps steps
  | CallQueue _ _ id steps =>
      (∃ build, br_builds r !! id = Some build ∧ b_Status build = BuildStatusPending) ∧
      pending_steps steps
  | CallUpdateStatus _ id status _ =>
      (∃ build, br_builds r !! id = Some build ∧ CanTransitionBuild (b_Status build) status = true) ∧
      (status = BuildStatusPreparing ∨ status = BuildStatusRunning ∨ status = BuildStatusFailed)
  | CallComplete _ request => rq_RequireClaim request = true
  | _ => True
  end.

Definition store_step (r r' : BuildRepository) : Prop :=
  ∃ c, call_guard r c ∧ r' = run_call c r.

Definition store_reachable (r : BuildRepository) : Prop := rtc store_step NewBuildRepository r.

(** ** Readiness, concretely and abstractly *)

Lemma view_node_step s : view_node (step_view s) = effectiveNodeID s.
Proof. done. Qed.

Lemma statusByNode_foldl steps (m : gmap string BuildStepStatus) node :
  foldl (λ acc step, <[effectiveNodeID step := st_Status step]> acc) m steps !! node =
  foldl (λ acc v, if view_node v == node then Some (sv_status v) else acc) (m !! node)
    (step_view <$> steps).
Proof.
  revert m. induction steps as [|s steps IH]; intros m; [done|]. cbn [foldl fmap list_fmap].
  rewrite IH, view_node_step. f_equal.
  destruct (decide (effectiveNodeID s = node)) as [->|Hne].
  - by rewrite lookup_insert_eq, bool_decide_eq_true_2.
  - by rewrite lookup_insert_ne, bool_decide_eq_false_2.
Qed.

Lemma statusByNode_view steps node :
  stepStatusByNodeID steps !! node = node_status (step_view <$> steps) node.
Proof. unfold stepStatusByNodeID. by rewrite statusByNode_foldl, lookup_empty. Qed.

Lemma isStepRunnable_ready s steps :
  isStepRunnable s steps (stepStatusByNodeID steps) = true ↔
  ready (step_view <$> steps) (step_view s).
Proof.
  unfold isStepRunnable, ready. simpl. case_match.
  - rewrite forallb_forall. setoid_rewrite bool_decide_eq_true. setoid_rewrite statusByNode_view.
    setoid_rewrite <-list_elem_of_In. done.
  - rewrite forallb_forall. setoid_rewrite orb_true_iff. setoid_rewrite bool_decide_eq_true.
    setoid_rewrite Z.leb_le. setoid_rewrite <-list_elem_of_In. split.
    + intros Hall p (x & -> & Hx)%list_elem_of_fmap Hlt. simpl in *.
      destruct (Hall x Hx); [lia|done].
    + intros Hall p Hp. destruct (decide (st_StepIndex s ≤ st_StepIndex p)); [by left|right].
      apply (Hall (step_view p)); [by apply list_elem_of_fmap_2|simpl; lia].
Qed.

Lemma runnableExists_true steps :
  runnableExists steps = true ↔
  ∃ s, s ∈ steps ∧ st_Status s = BuildStepStatusPending ∧
    ready (step_view <$> steps) (step_view s).
Proof.
  unfold runnableExists. rewrite existsb_exists. setoid_rewrite andb_true_iff.
  setoid_rewrite bool_decide_eq_true. setoid_rewrite isStepRunnable_ready.
  by setoid_rewrite <-list_elem_of_In.
Qed.

Lemma allSucceeded_view steps : allSucceeded steps ↔ all_succeeded (step_view <$> steps).
Proof.
  unfold allSucceeded, all_succeeded. split; intros [Hne H]; split.
  - by destruct steps.
  - by intros v (s & -> & Hs)%list_elem_of_fmap; apply H.
  - by intros ->.
  - intros s Hs. apply (H (step_view s)). by apply list_elem_of_fmap_2.
Qed.

Lemma stuck_view steps : stuck steps ↔ no_progress (step_view <$> steps).
Proof.
  unfold stuck, no_progress. rewrite <-not_true_iff_false, runnableExists_true.
  split; intros (H1 & H2 & H3); split_and!.
  - intros v (s & -> & Hs)%list_elem_of_fmap. by apply H1.
  - intros v (s & -> & Hs)%list_elem_of_fmap Hp Hr. apply H2. eauto.
  - destruct H3 as (s & Hs & H). exists (step_view s). split; [by apply list_elem_of_fmap_2|done].
  - intros s Hs. apply (H1 (step_view s)). by apply list_elem_of_fmap_2.
  - intros (s & Hs & Hp & Hr). apply (H2 (step_view s)); [by apply list_elem_of_fmap_2|done..].
  - destruct H3 as (v & (s & -> & Hs)%list_elem_of_fmap & H). eauto.
Qed.

(** The build a completion advances carries the verdict of its steps. *)
Lemma advance_verdict now build steps step build' :
  b_Status build = BuildStatusRunning → advanceBuild now build steps step = Some build' →
  verdict (step_view <$> steps) (b_Status build').
Proof.
  intros Hrun Ha.
  destruct (advance_cases now build steps step Hrun) as [[H E]|[[H E]|(H1 & H2 & E)]];
    rewrite E in Ha; injection Ha as <-; simpl.
  - by apply verdict_success, allSucceeded_view.
  - by apply verdict_failed, stuck_view.
  - rewrite Hrun. apply verdict_running; by rewrite <-?allSucceeded_view, <-?stuck_view.
Qed.

(** ** Views after a write *)

Lemma build_view_Some r id build :
  br_builds r !! id = Some build →
  build_view r id = Some (mkBuildView (b_Status build) (step_view <$> stepsOf r id)).
Proof. intros H. unfold build_view. by rewrite H. Qed.

Lemma build_view_storeBuild r build :
  build_view (storeBuildLocked r build) (b_ID build) =
  Some (mkBuildView (b_Status build) (step_view <$> stepsOf r (b_ID build))).
Proof. unfold build_view. by rewrite storeBuild_builds, lookup_insert_eq. Qed.

Lemma build_view_storeBuild_ne r build id :
  b_ID build ≠ id → build_view (storeBuildLocked r build) id = build_view r id.
Proof. intros H. unfold build_view. by rewrite storeBuild_builds, lookup_insert_ne. Qed.

Lemma build_view_storeSteps_ne r id id' steps :
  id ≠ id' → build_view (storeSteps r id steps) id' = build_view r id'.
Proof. intros H. unfold build_view. by rewrite storeSteps_builds, storeSteps_steps_ne. Qed.

Lemma view_insert steps k s' :
  step_view <$> <[k := s']> steps = <[k := step_view s']> (step_view <$> steps).
Proof. apply list_fmap_insert. Qed.

Lemma view_lookup steps k s :
  steps !! k = Some s → (step_view <$> steps) !! k = Some (step_view s).
Proof. intros H. by rewrite list_lookup_fmap, H. Qed.

(** ** One step of the store, seen by each build *)

Inductive view_step : option BuildView → option BuildView → Prop :=
  | vs_same o : view_step o o
  | vs_new v : initial v → view_step None (Some v)
  | vs_step v v' : lifecycle_step v v' → view_step (Some v) (Some v').

(** A build is stored under its own id. *)
Definition ids_ok (r : BuildRepository) : Prop :=
  ∀ id build, br_builds r !! id = Some build → b_ID build = id.

Definition evolves (r r' : BuildRepository) : Prop :=
  ids_ok r' ∧ ∀ id, view_step (build_view r id) (build_view r' id).

Lemma evolves_refl r : ids_ok r → evolves r r.
Proof. intros H. split; [done|]. intros id. apply vs_same. Qed.

(** The store keeps its builds and steps: only build numbers move. *)
Lemma evolves_frame r r' :
  ids_ok r → br_builds r' = br_builds r → br_buildSteps r' = br_buildSteps r → evolves r r'.
Proof.
  intros H Hb Hs. split; [by intros id build; rewrite Hb; apply H|].
  intros id. replace (build_view r' id) with (build_view r id); [apply vs_same|].
  unfold build_view, stepsOf. by rewrite Hb, Hs.
Qed.

Lemma ids_ok_storeBuild r build : ids_ok r → ids_ok (storeBuildLocked r build).
Proof.
  intros H id b. rewrite storeBuild_builds, lookup_insert_Some. intros [[<- <-]|[_ ?]]; auto.
Qed.

(** Writing the steps and the record of one build. *)
Lemma evolves_write r steps build :
  ids_ok r →
  view_step (build_view r (b_ID build))
    (Some (mkBuildView (b_Status build) (step_view <$> steps))) →
  evolves r (storeBuildLocked (storeSteps r (b_ID build) steps) build).
Proof.
  intros H Hv. split; [by apply ids_ok_storeBuild|]. intros id.
  destruct (decide (b_ID build = id)) as [<-|Hne].
  - by rewrite build_view_storeBuild, storeSteps_steps.
  - rewrite build_view_storeBuild_ne, build_view_storeSteps_ne by done. apply vs_same.
Qed.

Lemma evolves_steps r id build steps :
  ids_ok r → br_builds r !! id = Some build →
  lifecycle_step (mkBuildView (b_Status build) (step_view <$> stepsOf r id))
    (mkBuildView (b_Status build) (step_view <$> steps)) →
  evolves r (storeSteps r id steps).
Proof.
  intros H Hb Hv. split; [done|]. intros id'. destruct (decide (id = id')) as [<-|Hne].
  - rewrite (build_view_Some r id build Hb), (build_view_Some _ id build), storeSteps_steps by done.
    by apply vs_step.
  - rewrite build_view_storeSteps_ne by done. apply vs_same.
Qed.

Lemma evolves_build r id build build' :
  ids_ok r → br_builds r !! id = Some build → b_ID build' = b_ID build →
  (b_Status build' = b_Status build ∨
   lifecycle_step (mkBuildView (b_Status build) (step_view <$> stepsOf r id))
     (mkBuildView (b_Status build') (step_view <$> stepsOf r id))) →
  evolves r (storeBuildLocked r build').
Proof.
  intros H Hb Hid Hv. rewrite (H _ _ Hb) in Hid. subst id.
  split; [by apply ids_ok_storeBuild|]. intros id.
  destruct (decide (b_ID build' = id)) as [<-|Hne].
  - rewrite build_view_storeBuild, (build_view_Some _ _ _ Hb).
    destruct Hv as [->|Hv]; [apply vs_same|by apply vs_step].
  - rewrite build_view_storeBuild_ne by done. apply vs_same.
Qed.

(** ** Creation and queueing *)

Lemma attachSteps_elem newStepIDs id steps s :
  s ∈ attachSteps newStepIDs id steps → ∃ s0, s0 ∈ steps ∧ st_Status s = st_Status s0.
Proof.
  unfold attachSteps. rewrite elem_of_sort_slice, elem_of_lookup_imap.
  intros (i & s0 & -> & Hi). exists s0. split; [by eapply list_elem_of_lookup_2|].
  rewrite clone_step_status. by case_match.
Qed.

Lemma attachSteps_pending newStepIDs id steps v :
  pending_steps steps → v ∈ step_view <$> attachSteps newStepIDs id steps →
  sv_status v = BuildStepStatusPending.
Proof.
  intros Hp (s & -> & (s0 & Hs0 & E)%attachSteps_elem)%list_elem_of_fmap. simpl. rewrite E. auto.
Qed.

Lemma assignBuildNumber_frame r build :
  let r' := (assignBuildNumberLocked r build).1 in
  br_builds r' = br_builds r ∧ br_buildSteps r' = br_buildSteps r.
Proof.
  unfold assignBuildNumberLocked, observeBuildNumberLocked, nextBuildNumberLocked.
  by repeat case_match; simplify_eq/=.
Qed.

Lemma assignBuildNumber_build r build :
  let build' := (assignBuildNumberLocked r build).2 in
  b_ID build' = b_ID build ∧ b_Status build' = b_Status build ∧ b_JobID build' = b_JobID build.
Proof.
  unfold assignBuildNumberLocked, nextBuildNumberLocked. by repeat case_match; simplify_eq/=.
Qed.

(** Two builds that agree on what the lifecycle and the numbering read. *)
Definition same_core (build build' : Build) : Prop :=
  b_ID build' = b_ID build ∧ b_Status build' = b_Status build ∧
  b_BuildNumber build' = b_BuildNumber build ∧ b_JobID build' = b_JobID build ∧
  b_QueuedAt build' = b_QueuedAt build ∧ b_Priority build' = b_Priority build ∧
  b_AttemptNumber build' = b_AttemptNumber build ∧
  b_RerunOfBuildID build' = b_RerunOfBuildID build ∧
  b_RerunFromStepIdx build' = b_RerunFromStepIdx build.

Lemma same_core_trans b b' b'' : same_core b b' → same_core b' b'' → same_core b b''.
Proof. unfold same_core. intuition congruence. Qed.

Lemma trimBuildMetadata_core t build : same_core build (trimBuildMetadata t build).
Proof. by split_and!. Qed.

Lemma defaultSourceRef_core t build : same_core build (defaultSourceRef t build).
Proof. unfold defaultSourceRef. by repeat case_match; split_and!. Qed.

Lemma defaultSourceSHA_core t build : same_core build (defaultSourceSHA t build).
Proof. unfold defaultSourceSHA. by repeat case_match; split_and!. Qed.

Lemma defaultTriggeredBy_core t build : same_core build (defaultTriggeredBy t build).
Proof. unfold defaultTriggeredBy. by case_match; split_and!. Qed.

Lemma defaultTriggerType_core t build : same_core build (defaultTriggerType t build).
Proof. unfold defaultTriggerType. by repeat case_match; split_and!. Qed.

Lemma NormalizeBuildMetadata_core build : same_core build (NormalizeBuildMetadata build).
Proof.
  unfold NormalizeBuildMetadata. generalize (NormalizeBuildTrigger (b_Trigger build)); intros t.
  eapply same_core_trans; [apply (trimBuildMetadata_core t)|].
  eapply same_core_trans; [apply (defaultSourceRef_core t)|].
  eapply same_core_trans; [apply (defaultSourceSHA_core t)|].
  eapply same_core_trans; [apply (defaultTriggeredBy_core t)|].
  apply defaultTriggerType_core.
Qed.

(** The number depends on the job and the number of the build only. *)
Lemma assign_ext r b b' :
  b_JobID b' = b_JobID b → b_BuildNumber b' = b_BuildNumber b →
  (assignBuildNumberLocked r b').1 = (assignBuildNumberLocked r b).1 ∧
  b_BuildNumber (assignBuildNumberLocked r b').2 = b_BuildNumber (assignBuildNumberLocked r b).2.
Proof.
  intros Hj Hn. unfold assignBuildNumberLocked. rewrite Hj, Hn.
  destruct (0 <? b_BuildNumber b); [done|]. by destruct (nextBuildNumberLocked r (b_JobID b)).
Qed.

(** What a created build has of the build the caller passed. *)
Definition created_from (r : BuildRepository) (newID : string) (build build' : Build) : Prop :=
  b_ID build' = (if b_ID build == "" then newID else b_ID build) ∧
  b_JobID build' = b_JobID build ∧
  b_BuildNumber build' = b_BuildNumber (assignBuildNumberLocked r build).2.

Lemma numberedBuild_spec newID build r r1 b1 :
  numberedBuild newID build r = (r1, b1) →
  r1 = (assignBuildNumberLocked r build).1 ∧ created_from r newID build b1 ∧
  b_Status b1 = b_Status build.
Proof.
  unfold numberedBuild. set (b0 := if b_ID build == "" then _ else build).
  set (b' := if b_AttemptNumber b0 <=? 0 then _ else b0). intros E.
  assert (H : b_ID b' = (if b_ID build == "" then newID else b_ID build) ∧
    b_JobID b' = b_JobID build ∧ b_BuildNumber b' = b_BuildNumber build ∧
    b_Status b' = b_Status build).
  { unfold b', b0. destruct (_ == _), (_ <=? _); done. }
  destruct H as (Hid & Hj & Hn & Hst). destruct (assign_ext r build b' Hj Hn) as [E1 E2].
  destruct (assignBuildNumber_build r b') as (Hid' & Hst' & Hj').
  rewrite E in E1, E2, Hid', Hst', Hj'. simpl in *. unfold created_from.
  split_and!; congruence.
Qed.

Lemma normalizedBuild_spec r newID build b1 :
  created_from r newID build b1 →
  created_from r newID build (normalizedBuild b1) ∧
  b_Status (normalizedBuild b1) = b_Status b1.
Proof.
  unfold normalizedBuild, created_from.
  set (b2 := b1 <| b_Priority := NormalizePriority (b_Priority b1) |>).
  set (b3 := b2 <| b_Trigger := NormalizeBuildTrigger (b_Trigger b2) |>).
  destruct (NormalizeBuildMetadata_core b3) as (-> & -> & -> & -> & _). done.
Qed.

Lemma Create_store newID build r :
  let r' := (BuildRepository_Create newID build r).1.1 in
  let r1 := (assignBuildNumberLocked r build).1 in
  r' = r1 ∨ ∃ build1, created_from r newID build build1 ∧ b_Status build1 = b_Status build ∧
    r' = storeBuildLocked r1 build1.
Proof.
  unfold BuildRepository_Create. destruct (numberedBuild newID build r) as [r1 b1] eqn:E. cbv zeta.
  apply numberedBuild_spec in E as (-> & Hc & Hst).
  destruct (normalizedBuild_spec r newID build b1 Hc) as [Hc' Hst'].
  destruct (Build_ValidateRepositoryIdentitySnapshot (normalizedBuild b1)); [by left|right].
  exists (normalizedBuild b1). by rewrite Hst', Hst.
Qed.

Lemma CreateQueuedBuild_store newID newStepIDs now build steps r :
  let r' := (BuildRepository_CreateQueuedBuild newID newStepIDs now build steps r).1.1 in
  let r1 := (assignBuildNumberLocked r build).1 in
  let id := if b_ID build == "" then newID else b_ID build in
  r' = r1 ∨ ∃ build1, created_from r newID build build1 ∧ b_Status build1 = BuildStatusQueued ∧
    r' = storeSteps (storeBuildLocked r1 build1) id (attachSteps newStepIDs id steps).
Proof.
  unfold BuildRepository_CreateQueuedBuild.
  destruct (numberedBuild newID build r) as [r1 b1] eqn:E. cbv zeta.
  apply numberedBuild_spec in E as (-> & Hc & _).
  destruct (normalizedBuild_spec r newID build b1 Hc) as [Hc' _]. clear Hc.
  generalize dependent (normalizedBuild b1). intros b2 (Hid & Hj & Hn).
  destruct (Build_ValidateRepositoryIdentitySnapshot b2); [by left|right].
  assert (H : created_from r newID build (queuedBuild now b2) ∧
    b_Status (queuedBuild now b2) = BuildStatusQueued).
  { unfold queuedBuild, created_from. simpl. by destruct (b_QueuedAt b2). }
  destruct H as [Hc Hst]. exists (queuedBuild now b2). split_and!; [done|done|].
  destruct Hc as (-> & _). done.
Qed.

(** ** Each call is a step of the lifecycle *)

Lemma build_view_frame r r' id :
  br_builds r' = br_builds r → br_buildSteps r' = br_buildSteps r →
  build_view r' id = build_view r id.
Proof. intros Hb Hs. unfold build_view, stepsOf. by rewrite Hb, Hs. Qed.

Lemma evolves_trans_frame r r1 r' :
  br_builds r1 = br_builds r → br_buildSteps r1 = br_buildSteps r → evolves r1 r' → evolves r r'.
Proof.
  intros Hb Hs [Hids Hv]. split; [done|]. intros id. rewrite <-(build_view_frame r r1) by done.
  apply Hv.
Qed.

Lemma ids_ok_frame r r1 : ids_ok r → br_builds r1 = br_builds r → ids_ok r1.
Proof. intros H E id build. rewrite E. apply H. Qed.

Lemma evolves_create r newID build :
  ids_ok r → fresh_id r newID build → b_Status build = BuildStatusPending →
  evolves r (BuildRepository_Create newID build r).1.1.
Proof.
  intros Hids [Hfb Hfs] Hst.
  destruct (assignBuildNumber_frame r build) as [Hb Hs].
  set (r1 := (assignBuildNumberLocked r build).1) in *.
  destruct (Create_store newID build r) as [->|(b1 & (Hid & _) & Hst1 & ->)]; fold r1.
  { by apply evolves_frame. }
  apply (evolves_trans_frame r r1); [done..|]. split.
  - apply ids_ok_storeBuild. by eapply ids_ok_frame.
  - intros id. destruct (decide (b_ID b1 = id)) as [<-|Hne].
    + rewrite build_view_storeBuild. unfold build_view, stepsOf. rewrite Hb, Hs, Hid.
      rewrite Hfb, Hfs. apply vs_new. left. simpl. by rewrite Hst1, Hst.
    + rewrite build_view_storeBuild_ne by done. apply vs_same.
Qed.

Lemma evolves_create_queued r newID newStepIDs now build steps :
  ids_ok r → fresh_id r newID build → pending_steps steps →
  evolves r (BuildRepository_CreateQueuedBuild newID newStepIDs now build steps r).1.1.
Proof.
  intros Hids [Hfb Hfs] Hp.
  destruct (assignBuildNumber_frame r build) as [Hb Hs].
  set (r1 := (assignBuildNumberLocked r build).1) in *.
  destruct (CreateQueuedBuild_store newID newStepIDs now build steps r)
    as [->|(b1 & (Hid & _) & Hst1 & ->)]; fold r1.
  { by apply evolves_frame. }
  apply (evolves_trans_frame r r1); [done..|]. rewrite <-Hid. split.
  - apply (ids_ok_storeBuild r1). by eapply ids_ok_frame.
  - intros id. destruct (decide (b_ID b1 = id)) as [<-|Hne].
    + rewrite (build_view_Some (storeSteps _ _ _) _ b1), storeSteps_steps
        by (by rewrite storeSteps_builds, storeBuild_builds, lookup_insert_eq).
      unfold build_view at 1. rewrite Hb, Hid, Hfb. apply vs_new. right. simpl.
      split; [done|]. intros v. by apply attachSteps_pending.
    + rewrite build_view_storeSteps_ne, build_view_storeBuild_ne by done. apply vs_same.
Qed.

Lemma queuedBuild_id now build :
  b_ID (queuedBuild now build) = b_ID build ∧ b_Status (queuedBuild now build) = BuildStatusQueued.
Proof. unfold queuedBuild. simpl. by destruct (b_QueuedAt build). Qed.

Lemma evolves_queue r newStepIDs now id steps build :
  ids_ok r → br_builds r !! id = Some build → b_Status build = BuildStatusPending →
  stepsOf r id = [] → pending_steps steps →
  evolves r (BuildRepository_QueueBuild newStepIDs now id steps r).1.1.
Proof.
  intros Hids Hb Hst Hno Hp. unfold BuildRepository_QueueBuild. rewrite Hb. simpl.
  destruct (queuedBuild_id now build) as [Hid3 Hst3]. rewrite (Hids _ _ Hb) in Hid3.
  set (b3 := queuedBuild now build) in *.
  split; [by apply (ids_ok_storeBuild r)|]. intros id'. destruct (decide (id = id')) as [<-|Hne].
  - rewrite (build_view_Some r id build), Hno, Hst by done.
    rewrite (build_view_Some (storeSteps _ _ _) _ b3), storeSteps_steps, Hst3
      by (by rewrite storeSteps_builds, storeBuild_builds, Hid3, lookup_insert_eq).
    apply vs_step, lc_queue. intros v. by apply attachSteps_pending.
  - rewrite build_view_storeSteps_ne, build_view_storeBuild_ne by congruence. apply vs_same.
Qed.

(** [UpdateStatus] in one equation. *)
Lemma UpdateStatus_found now id status message r build :
  br_builds r !! id = Some build →
  ∃ build', b_ID build' = b_ID build ∧ b_Status build' = status ∧
    BuildRepository_UpdateStatus now id status message r = (storeBuildLocked r build', build', None).
Proof.
  intros Hb. unfold BuildRepository_UpdateStatus. rewrite Hb.
  set (b1 := build <| b_Status := status |>).
  set (b2 := if (_ && _) then b1 <| b_QueuedAt := Some now |> else b1).
  set (b3 := if (_ && _) then b2 <| b_StartedAt := Some now |> else b2).
  set (b4 := if IsTerminalBuildStatus status then b3 <| b_FinishedAt := Some now |> else b3).
  assert (H4 : b_ID b4 = b_ID build ∧ b_Status b4 = status).
  { unfold b4, b3, b2, b1. destruct (_ && (b_QueuedAt _ == None)); simpl;
      destruct (_ && _); destruct (IsTerminalBuildStatus status); done. }
  clearbody b4. rewrite clone_build_id. eexists. split_and!; [| |reflexivity].
  - destruct H4 as [<- _]. by destruct (_ || _).
  - destruct H4 as [_ Hs]. by destruct (_ || _).
Qed.

Lemma evolves_transition r now id build status message :
  ids_ok r → br_builds r !! id = Some build → CanTransitionBuild (b_Status build) status = true →
  status = BuildStatusPreparing ∨ status = BuildStatusRunning ∨ status = BuildStatusFailed →
  evolves r (BuildRepository_UpdateStatus now id status message r).1.1.
Proof.
  intros Hids Hb Ht Hto. destruct (UpdateStatus_found now id status message r build Hb)
    as (b' & Hid & Hst & ->). simpl.
  apply (evolves_build r id build); try done. right. rewrite Hst. by apply lc_move.
Qed.

(** *** Cancellation *)

Lemma cancelSteps_spec reasonPtr canceledAt steps :
  cancelSteps reasonPtr canceledAt steps =
  ((λ s, if CanCancelStep (st_Status s) then cancelStep reasonPtr canceledAt s else s) <$> steps,
   Z.of_nat (length (filter (λ s, CanCancelStep (st_Status s) = true) steps))).
Proof.
  induction steps as [|s steps IH]; [done|]. cbn [cancelSteps]. rewrite IH, filter_cons.
  case_decide as E; simpl.
  - rewrite E. simpl. f_equal. lia.
  - apply not_true_is_false in E. by rewrite E.
Qed.

Lemma cancelStep_view reasonPtr canceledAt s :
  step_view (cancelStep reasonPtr canceledAt s) =
  (step_view s) <| sv_status := BuildStepStatusCanceled |> <| sv_token := None |>
    <| sv_lease := None |>.
Proof.
  unfold cancelStep. destruct s as []; cbn. by repeat case_match.
Qed.

Lemma cancelStep_status reasonPtr canceledAt s :
  st_Status (cancelStep reasonPtr canceledAt s) = BuildStepStatusCanceled.
Proof. unfold cancelStep. destruct s as []; cbn. by repeat case_match. Qed.

Lemma cancelSteps_view reasonPtr canceledAt steps :
  step_view <$> (cancelSteps reasonPtr canceledAt steps).1 =
  canceled_view <$> (step_view <$> steps).
Proof.
  rewrite cancelSteps_spec. simpl. rewrite <-!list_fmap_compose. apply list_fmap_ext.
  intros _ s _. simpl. unfold canceled_view. simpl.
  destruct (CanCancelStep (st_Status s)); [|done]. by rewrite cancelStep_view.
Qed.

Lemma canceledBuild_id reason now build :
  b_ID (canceledBuild reason now build) = b_ID build ∧
  b_Status (canceledBuild reason now build) = BuildStatusCanceled.
Proof. unfold canceledBuild. simpl. by destruct (b_FinishedAt build). Qed.

Lemma CancelBuild_store id reason now r build :
  br_builds r !! id = Some build → CanCancelBuild (b_Status build) = true →
  let cancelled := cancelSteps (cancelReason reason) now (stepsOf r id) in
  BuildRepository_CancelBuild id reason now r =
    (storeBuildLocked (storeSteps r id cancelled.1) (canceledBuild (cancelReason reason) now build),
     (canceledBuild (cancelReason reason) now build, cancelled.2), None).
Proof.
  intros Hb Hc. unfold BuildRepository_CancelBuild. rewrite Hb, Hc. simpl.
  destruct (cancelSteps _ _ _). by rewrite clone_build_id.
Qed.

Lemma evolves_cancel r id reason now :
  ids_ok r → evolves r (BuildRepository_CancelBuild id reason now r).1.1.
Proof.
  intros Hids. destruct (br_builds r !! id) as [build|] eqn:Hb.
  2: { unfold BuildRepository_CancelBuild. rewrite Hb. by apply evolves_refl. }
  destruct (CanCancelBuild (b_Status build)) eqn:Hc.
  2: { unfold BuildRepository_CancelBuild. rewrite Hb, Hc. by apply evolves_refl. }
  rewrite (CancelBuild_store id reason now r build) by done. simpl.
  destruct (canceledBuild_id (cancelReason reason) now build) as [Hid Hst]. rewrite (Hids _ _ Hb) in Hid.
  rewrite <-Hid at 1. apply evolves_write; [done|].
  rewrite Hid, Hst, (build_view_Some r id build Hb), cancelSteps_view.
  by apply vs_step, lc_cancel.
Qed.

(** *** Claims and leases *)

(** A step a worker may claim, and one whose lease ran out. *)
Record claimable (r : BuildRepository) (id : string) (i : Z) (build : Build) (idx : nat)
    (step : BuildStep) : Prop := {
  cl_build : br_builds r !! id = Some build;
  cl_step : findStep i (stepsOf r id) = Some (idx, step);
  cl_pending : st_Status step = BuildStepStatusPending;
  cl_ready : ready (step_view <$> stepsOf r id) (step_view step);
}.

Record reclaimable (r : BuildRepository) (id : string) (i : Z) (now : Time) (build : Build)
    (idx : nat) (step : BuildStep) (lease : Time) : Prop := {
  rc_build : br_builds r !! id = Some build;
  rc_step : findStep i (stepsOf r id) = Some (idx, step);
  rc_running : st_Status step = BuildStepStatusRunning;
  rc_lease : st_LeaseExpiresAt step = Some lease;
  rc_expired : lease ≤ now;
}.

Lemma ClaimPendingStep_accepted r id i claim build idx step :
  claimable r id i build idx step →
  BuildRepository_ClaimPendingStep id i claim r =
    (storeSteps r id (<[idx := claimedStep claim step]> (stepsOf r id)),
     (cloneStep (claimedStep claim step), true), None).
Proof.
  intros [Hb Hf Hp Hr]. unfold BuildRepository_ClaimPendingStep. rewrite Hb, Hf. simpl.
  rewrite Hp, bool_decide_eq_true_2 by done. simpl.
  apply isStepRunnable_ready in Hr. by rewrite Hr.
Qed.

Lemma ClaimPendingStep_rejected r id i claim :
  (∀ build idx step, ¬ claimable r id i build idx step) →
  (BuildRepository_ClaimPendingStep id i claim r).1 = (r, (zero_BuildStep, false)).
Proof.
  intros Hno. unfold BuildRepository_ClaimPendingStep.
  destruct (br_builds r !! id) as [build|] eqn:Hb; [|done]. simpl.
  destruct (findStep i (stepsOf r id)) as [[idx step]|] eqn:Hf; [|done].
  destruct (decide (st_Status step = BuildStepStatusPending)) as [Hp|Hp].
  - rewrite Hp. simpl. destruct (isStepRunnable _ _ _) eqn:Hr; [|done].
    apply isStepRunnable_ready in Hr. by destruct (Hno build idx step).
  - by rewrite bool_decide_eq_false_2.
Qed.

Lemma ReclaimExpiredStep_accepted r id i now claim build idx step lease :
  reclaimable r id i now build idx step lease →
  BuildRepository_ReclaimExpiredStep id i now claim r =
    (storeSteps r id (<[idx := reclaimedStep claim step]> (stepsOf r id)),
     (cloneStep (reclaimedStep claim step), true), None).
Proof.
  intros [Hb Hf Hp Hl Hle]. unfold BuildRepository_ReclaimExpiredStep. rewrite Hb, Hf, Hp, Hl.
  unfold After. simpl. by destruct (Z.ltb_spec now lease); [lia|].
Qed.

Lemma ReclaimExpiredStep_rejected r id i now claim :
  (∀ build idx step lease, ¬ reclaimable r id i now build idx step lease) →
  (BuildRepository_ReclaimExpiredStep id i now claim r).1 = (r, (zero_BuildStep, false)).
Proof.
  intros Hno. unfold BuildRepository_ReclaimExpiredStep.
  destruct (br_builds r !! id) as [build|] eqn:Hb; [|done]. simpl.
  destruct (findStep i (stepsOf r id)) as [[idx step]|] eqn:Hf; [|done].
  destruct (decide (st_Status step = BuildStepStatusRunning)) as [Hp|Hp].
  - rewrite Hp. simpl. destruct (st_LeaseExpiresAt step) as [lease|] eqn:Hl; [|done].
    unfold After. destruct (Z.ltb_spec now lease); [done|].
    by destruct (Hno build idx step lease).
  - by rewrite bool_decide_eq_false_2.
Qed.

(** A lease its holder may extend. *)
Record renewable (r : BuildRepository) (id : string) (i : Z) (token : string) (build : Build)
    (idx : nat) (step : BuildStep) : Prop := {
  rn_build : br_builds r !! id = Some build;
  rn_step : findStep i (stepsOf r id) = Some (idx, step);
  rn_running : st_Status step = BuildStepStatusRunning;
  rn_token : st_ClaimToken step = Some token;
}.

Lemma RenewStepLease_accepted r id i token lease build idx step :
  renewable r id i token build idx step →
  let step' := step <| st_LeaseExpiresAt := Some lease |> in
  BuildRepository_RenewStepLease id i token lease r =
    (storeSteps r id (<[idx := step']> (stepsOf r id)),
     (cloneStep step', StepCompletionCompleted), None).
Proof.
  intros [Hb Hf Hs Ht]. unfold BuildRepository_RenewStepLease. rewrite Hb, Hf, Hs, Ht. simpl.
  by rewrite bool_decide_eq_true_2.
Qed.

Lemma RenewStepLease_rejected r id i token lease :
  (∀ build idx step, ¬ renewable r id i token build idx step) →
  (BuildRepository_RenewStepLease id i token lease r).1.1 = r ∧
  (BuildRepository_RenewStepLease id i token lease r).1.2.2 ≠ StepCompletionCompleted.
Proof.
  intros Hno. unfold BuildRepository_RenewStepLease.
  destruct (br_builds r !! id) as [build|] eqn:Hb; [|done]. simpl.
  destruct (findStep i (stepsOf r id)) as [[idx step]|] eqn:Hf; [|done].
  destruct (IsTerminalStepStatus (st_Status step)); [done|].
  destruct (decide (st_Status step = BuildStepStatusRunning)) as [Hp|Hp].
  2: { by rewrite bool_decide_eq_false_2. }
  rewrite Hp. simpl. destruct (decide (st_ClaimToken step = Some token)) as [Ht|Ht].
  - by destruct (Hno build idx step).
  - by rewrite bool_decide_eq_false_2.
Qed.

Lemma findStep_view i steps idx s :
  findStep i steps = Some (idx, s) → (step_view <$> steps) !! idx = Some (step_view s).
Proof. intros H%findStep_lookup. by apply view_lookup. Qed.

Lemma claimedStep_view claim s :
  step_view (claimedStep claim s) =
  (step_view s) <| sv_status := BuildStepStatusRunning |>
    <| sv_token := Some (c_ClaimToken claim) |> <| sv_lease := Some (c_LeaseExpiresAt claim) |>.
Proof. unfold claimedStep. simpl. by destruct (st_StartedAt s). Qed.

Lemma claimedStep_status claim s : st_Status (claimedStep claim s) = BuildStepStatusRunning.
Proof. unfold claimedStep. simpl. by destruct (st_StartedAt s). Qed.

Lemma claimedStep_token claim s : st_ClaimToken (claimedStep claim s) = Some (c_ClaimToken claim).
Proof. unfold claimedStep. simpl. by destruct (st_StartedAt s). Qed.

Lemma claimedStep_index claim s : st_StepIndex (claimedStep claim s) = st_StepIndex s.
Proof. unfold claimedStep. simpl. by destruct (st_StartedAt s). Qed.

Lemma applyStepUpdate_view u s :
  step_view (applyStepUpdate u s) = (step_view s) <| sv_status := u_Status u |>.
Proof.
  unfold applyStepUpdate. destruct s as [], u as []; cbn. by repeat case_match.
Qed.

Lemma completedStep_view u s :
  IsTerminalStepStatus (u_Status u) = true →
  step_view (completedStep u s) =
  (step_view s) <| sv_status := u_Status u |> <| sv_token := None |> <| sv_lease := None |>.
Proof.
  intros Ht. unfold completedStep. rewrite Ht. pose proof (applyStepUpdate_view u s) as H.
  destruct (applyStepUpdate u s) as [], s as []. unfold step_view in *. simpl in *. by simplify_eq.
Qed.

(** A guard on the step a call addresses holds of one step or of none. *)
Lemma addressed_step r id i (P : Build → BuildStep → Prop) `{!∀ b s, Decision (P b s)} :
  (∃ build idx step, br_builds r !! id = Some build ∧
     findStep i (stepsOf r id) = Some (idx, step) ∧ P build step) ∨
  (∀ build idx step, br_builds r !! id = Some build →
     findStep i (stepsOf r id) = Some (idx, step) → ¬ P build step).
Proof.
  destruct (br_builds r !! id) as [build|]; [|by right].
  destruct (findStep i (stepsOf r id)) as [[idx step]|]; [|by right].
  destruct (decide (P build step)); [left; by exists build, idx, step|].
  right. by intros; simplify_eq.
Qed.

Lemma claimable_or r id i :
  (∃ build idx step, claimable r id i build idx step) ∨
  (∀ build idx step, ¬ claimable r id i build idx step).
Proof.
  destruct (addressed_step r id i (λ _ step, st_Status step = BuildStepStatusPending ∧
    isStepRunnable step (stepsOf r id) (stepStatusByNodeID (stepsOf r id)) = true))
    as [(build & idx & step & Hb & Hf & Hp & Hr)|Hno].
  - left. exists build, idx, step. split; try done. by apply isStepRunnable_ready.
  - right. intros build idx step [Hb Hf Hp Hr]. apply (Hno build idx step); try done.
    by rewrite isStepRunnable_ready.
Qed.

Lemma reclaimable_or r id i now :
  (∃ build idx step lease, reclaimable r id i now build idx step lease) ∨
  (∀ build idx step lease, ¬ reclaimable r id i now build idx step lease).
Proof.
  destruct (addressed_step r id i (λ _ step, st_Status step = BuildStepStatusRunning ∧
    from_option (λ lease, lease <=? now) false (st_LeaseExpiresAt step) = true))
    as [(build & idx & step & Hb & Hf & Hp & Hr)|Hno].
  - left. destruct (st_LeaseExpiresAt step) as [lease|] eqn:Hl; [|done].
    exists build, idx, step, lease. by split; try apply Z.leb_le.
  - right. intros build idx step lease [Hb Hf Hp Hl Hle]. apply (Hno build idx step); try done.
    rewrite Hl. split; [done|]. by apply Z.leb_le.
Qed.

Lemma renewable_or r id i token :
  (∃ build idx step, renewable r id i token build idx step) ∨
  (∀ build idx step, ¬ renewable r id i token build idx step).
Proof.
  destruct (addressed_step r id i (λ _ step, st_Status step = BuildStepStatusRunning ∧
    st_ClaimToken step = Some token)) as [(build & idx & step & Hb & Hf & Hp & Ht)|Hno].
  - left. by exists build, idx, step.
  - right. intros build idx step [Hb Hf Hp Ht]. by apply (Hno build idx step).
Qed.

#[export] Hint Rewrite claimedStep_status claimedStep_token claimedStep_index cancelStep_status : go.

#[export] Instance claimHeld_dec request step : Decision (claimHeld request step).
Proof. unfold claimHeld. apply _. Defined.

Lemma acceptable_or r request :
  (∃ build idx step, acceptable r request build idx step) ∨
  (∀ build idx step, ¬ acceptable r request build idx step).
Proof.
  destruct (addressed_step r (rq_BuildID request) (rq_StepIndex request) (λ build step,
    CanTransitionStep BuildStepStatusRunning (u_Status (rq_Update request)) = true ∧
    st_Status step = BuildStepStatusRunning ∧ claimHeld request step ∧
    b_Status build = BuildStatusRunning)) as [(build & idx & step & Hb & Hf & ?&?&?&?)|Hno].
  - left. by exists build, idx, step.
  - right. intros build idx step [Hb Hf Ht Hs Hc Hr]. by apply (Hno build idx step).
Qed.

Lemma evolves_claim r id i claim :
  ids_ok r → evolves r (BuildRepository_ClaimPendingStep id i claim r).1.1.
Proof.
  intros Hids. destruct (claimable_or r id i) as [(build & idx & step & H)|Hno].
  2: { rewrite ClaimPendingStep_rejected by done. by apply evolves_refl. }
  rewrite (ClaimPendingStep_accepted r id i claim build idx step H). simpl.
  destruct H as [Hb Hf%findStep_view Hp Hr].
  apply (evolves_steps r id build); [done..|]. rewrite view_insert, claimedStep_view.
  by apply lc_claim.
Qed.

Lemma evolves_reclaim r id i now claim :
  ids_ok r → evolves r (BuildRepository_ReclaimExpiredStep id i now claim r).1.1.
Proof.
  intros Hids. destruct (reclaimable_or r id i now) as [(build & idx & step & lease & H)|Hno].
  2: { rewrite ReclaimExpiredStep_rejected by done. by apply evolves_refl. }
  rewrite (ReclaimExpiredStep_accepted r id i now claim build idx step lease H). simpl.
  destruct H as [Hb Hf%findStep_view Hp Hl Hle].
  apply (evolves_steps r id build); [done..|]. rewrite view_insert.
  by apply (lc_reclaim _ _ idx (step_view step) lease now).
Qed.

Lemma evolves_renew r id i token lease :
  ids_ok r → evolves r (BuildRepository_RenewStepLease id i token lease r).1.1.
Proof.
  intros Hids. destruct (renewable_or r id i token) as [(build & idx & step & H)|Hno].
  2: { destruct (RenewStepLease_rejected r id i token lease Hno) as [-> _]. by apply evolves_refl. }
  rewrite (RenewStepLease_accepted r id i token lease build idx step H). simpl.
  destruct H as [Hb Hf%findStep_view Hs Ht].
  apply (evolves_steps r id build); [done..|]. rewrite view_insert.
  by apply (lc_renew _ _ idx (step_view step) token).
Qed.

(** *** Completion *)

Lemma advance_id now build steps step build' :
  advanceBuild now build steps step = Some build' → b_ID build' = b_ID build.
Proof. unfold advanceBuild. intros. by repeat case_match; simplify_eq/=. Qed.

Lemma evolves_complete r now request :
  ids_ok r → rq_RequireClaim request = true →
  evolves r (BuildRepository_CompleteStep now request r).1.1.
Proof.
  intros Hids Hreq. destruct (acceptable_or r request) as [(build & idx & step & H)|Hno].
  2: { unfold BuildRepository_CompleteStep. destruct (completeStep_rejected now request r Hno)
         as [-> _]. by apply evolves_refl. }
  destruct (completeStep_accepted now request r build idx step H) as (build' & Ha & E).
  unfold BuildRepository_CompleteStep. rewrite E. simpl. clear E.
  destruct H as [Hb Hf%findStep_view Ht Hs Hc Hr]. specialize (Hc Hreq).
  assert (Hid : b_ID build' = rq_BuildID request).
  { by rewrite (advance_id _ _ _ _ _ Ha), moveCursor_id, (Hids _ _ Hb). }
  assert (Hterm : IsTerminalStepStatus (u_Status (rq_Update request)) = true).
  { apply transition_running_result in Ht. by destruct Ht as [->| ->]. }
  rewrite <-Hid at 1. apply evolves_write; [done|].
  rewrite Hid, (build_view_Some r _ build Hb), Hr.
  apply advance_verdict in Ha; [|by rewrite moveCursor_status].
  rewrite view_insert, completedStep_view in Ha |- * by done.
  by apply vs_step, (lc_complete _ idx (step_view step) (rq_ClaimToken request)).
Qed.

(** *** Calls that do not touch the lifecycle *)

Lemma evolves_version r id version :
  ids_ok r → evolves r (BuildRepository_SetApplicationVersionIfUnset id version r).1.1.
Proof.
  intros Hids. unfold BuildRepository_SetApplicationVersionIfUnset.
  destruct (br_builds r !! id) as [build|] eqn:Hb; [|by apply evolves_refl].
  repeat case_match; simpl; try by apply evolves_refl.
  apply (evolves_build r id build); try done. by left.
Qed.

Lemma evolves_provenance r id update :
  ids_ok r → evolves r (BuildRepository_UpdateSourceProvenance id update r).1.1.
Proof.
  intros Hids. unfold BuildRepository_UpdateSourceProvenance.
  destruct (br_builds r !! id) as [build|] eqn:Hb; [|by apply evolves_refl].
  destruct (TrimSpace (sp_CommitSHA update) == "");
    (apply (evolves_build r id build); [done|done|done|by left]).
Qed.

Lemma evolves_image r id requestedRef resolvedRef kind imageID versionID :
  ids_ok r →
  evolves r (BuildRepository_UpdateImageExecution id requestedRef resolvedRef kind imageID
    versionID r).1.1.
Proof.
  intros Hids. unfold BuildRepository_UpdateImageExecution.
  destruct (br_builds r !! id) as [build|] eqn:Hb; [|by apply evolves_refl].
  apply (evolves_build r id build); [done|done|done|by left].
Qed.

Lemma evolves_cursor r id i :
  ids_ok r → evolves r (BuildRepository_UpdateCurrentStepIndex id i r).1.1.
Proof.
  intros Hids. unfold BuildRepository_UpdateCurrentStepIndex.
  destruct (br_builds r !! id) as [build|] eqn:Hb; [|by apply evolves_refl].
  apply (evolves_build r id build); [done|done|done|by left].
Qed.

(** ** Simulation *)

(** The builds of the store are reachable states of the lifecycle. *)
Record store_ok (r : BuildRepository) : Prop := {
  ok_ids : ids_ok r;
  ok_views id v : build_view r id = Some v → lifecycle_reachable v;
}.

Lemma store_ok_pending r id build :
  store_ok r → br_builds r !! id = Some build → b_Status build = BuildStatusPending →
  stepsOf r id = [].
Proof.
  intros [_ Hv] Hb Hp. specialize (Hv id _ (build_view_Some r id build Hb)).
  apply lifecycle_reachable_inv in Hv. pose proof (inv_pending _ Hv Hp) as E.
  by apply fmap_nil_inv in E.
Qed.

Lemma call_evolves r c : store_ok r → call_guard r c → evolves r (run_call c r).
Proof.
  intros Hok. pose proof (ok_ids r Hok) as Hids. destruct c; simpl.
  - intros [? ?]. by apply evolves_create.
  - intros [? ?]. by apply evolves_create_queued.
  - intros [(build & Hb & Hp) Hs]. apply (evolves_queue r _ _ _ _ build); try done.
    by apply (store_ok_pending r id build).
  - intros [(build & Hb & Ht) Hto]. by apply (evolves_transition r _ _ build).
  - intros _. by apply evolves_cancel.
  - intros _. by apply evolves_claim.
  - intros _. by apply evolves_reclaim.
  - intros _. by apply evolves_renew.
  - by apply evolves_complete.
  - intros _. by apply evolves_version.
  - intros _. by apply evolves_provenance.
  - intros _. by apply evolves_image.
  - intros _. by apply evolves_cursor.
Qed.

Lemma lifecycle_reachable_step v v' :
  lifecycle_reachable v → lifecycle_step v v' → lifecycle_reachable v'.
Proof. intros (v0 & H0 & Hr) Hs. exists v0. split; [done|]. by eapply rtc_r. Qed.

Lemma store_ok_step r c : store_ok r → call_guard r c → store_ok (run_call c r).
Proof.
  intros Hok Hg. destruct (call_evolves r c Hok Hg) as [Hids Hv]. split; [done|].
  intros id v' Hv'. specialize (Hv id). rewrite Hv' in Hv. inversion Hv as [o E| |v0 v1 Hs E]; subst.
  - by apply (ok_views r Hok id).
  - by exists v'.
  - eapply lifecycle_reachable_step; [|done]. by apply (ok_views r Hok id).
Qed.

Lemma store_reachable_ok r : store_reachable r → store_ok r.
Proof.
  intros H. unfold store_reachable in H. revert r H. apply rtc_ind_r.
  - split; [by intros ??|]. intros id v. done.
  - intros r1 r2 _ (c & Hg & ->) Hok. by apply store_ok_step.
Qed.
