(* ===== verification/LifecycleThms.v ===== *)
(** What the lifecycle of builds guarantees: the properties of the build store
    under any sequence of the calls of Lifecycle.v, and a run of a build of two
    dependent steps on which they are instantiated. *)

From stdpp Require Import base gmap strings list pretty sorting numbers.
From S2P Require Import Prelude GoLib Domain Repository BuildRepo BuildRepoFacts LifecycleSpec.
From S2P Require Import Lifecycle.

Open Scope go_scope.
Open Scope Z_scope.

Implicit Types (r : BuildRepository) (build : Build) (s step : BuildStep)
  (steps : list BuildStep) (k idx : nat) (u : StepUpdate) (c : StoreCall).

(** ** Runs *)

Definition run_calls (cs : list StoreCall) (r : BuildRepository) : BuildRepository :=
  foldl (λ r c, run_call c r) r cs.

(** Every call of the run meets its guard when it is made. *)
Fixpoint run_guarded (r : BuildRepository) (cs : list StoreCall) : Prop :=
  match cs with
  | [] => True
  | c :: cs => call_guard r c ∧ run_guarded (run_call c r) cs
  end.

Lemma run_calls_rtc cs r : run_guarded r cs → rtc store_step r (run_calls cs r).
Proof.
  revert r. induction cs as [|c cs IH]; intros r; [done|]. simpl. intros [Hg Hrest].
  eapply rtc_l; [by exists c|]. by apply IH.
Qed.

(** A build of two steps, the second after the first, up to the claim of the
    first by the worker "w". *)
Definition ex_build : Build := zero_Build <| b_ID := "b1" |> <| b_ProjectID := "p" |>.
Definition ex_step (i : Z) (node : string) (deps : list string) : BuildStep :=
  zero_BuildStep <| st_StepIndex := i |> <| st_NodeID := node |> <| st_DependsOnNodes := deps |>
    <| st_Status := BuildStepStatusPending |>.
Definition ex_claim (token : string) (claimedAt lease : Time) : StepClaim :=
  mkStepClaim "w" token claimedAt lease.
Definition ex_request (i : Z) (token : string) (status : BuildStepStatus) : CompleteStepRequest :=
  mkCompleteStepRequest "b1" i token true (zero_StepUpdate <| u_Status := status |>).

Definition ex_calls : list StoreCall :=
  [CallCreateQueued "id" (λ _, "s") 0 ex_build [ex_step 0 "a" []; ex_step 1 "b" ["a"]];
   CallUpdateStatus 1 "b1" BuildStatusPreparing None;
   CallUpdateStatus 2 "b1" BuildStatusRunning None;
   CallClaim "b1" 0 (ex_claim "t1" 3 100)].
Definition ex_running : BuildRepository := run_calls ex_calls NewBuildRepository.

(** The run goes on: the first step succeeds, the second is claimed and succeeds. *)
Definition ex_calls_done : list StoreCall :=
  ex_calls ++
  [CallComplete 5 (ex_request 0 "t1" BuildStepStatusSuccess);
   CallClaim "b1" 1 (ex_claim "t2" 6 100);
   CallComplete 7 (ex_request 1 "t2" BuildStepStatusSuccess)].
Definition ex_done : BuildRepository := run_calls ex_calls_done NewBuildRepository.

(** Or it is canceled. *)
Definition ex_canceled : BuildRepository :=
  run_calls (ex_calls ++ [CallCancel "b1" " stop " 9]) NewBuildRepository.

Ltac solve_guard :=
  repeat lazymatch goal with
  | |- True => exact I
  | |- fresh_id _ _ _ => split; vm_compute; reflexivity
  | |- _ ∧ _ => split
  | |- ∃ build : Build, _ => eexists; split; vm_compute; reflexivity
  | |- pending_steps _ =>
      let s := fresh in let H := fresh in
      intros s H; rewrite ?elem_of_cons, ?elem_of_nil in H; naive_solver
  | |- _ => vm_compute; tauto
  end.

Lemma ex_running_reachable : store_reachable ex_running.
Proof. apply run_calls_rtc. unfold ex_calls. cbn [run_guarded call_guard]. solve_guard. Qed.

Lemma ex_done_reachable : store_reachable ex_done.
Proof. apply run_calls_rtc. unfold ex_calls_done, ex_calls. cbn [app run_guarded call_guard]. solve_guard. Qed.

Lemma ex_canceled_reachable : store_reachable ex_canceled.
Proof. apply run_calls_rtc. unfold ex_calls. cbn [app run_guarded call_guard]. solve_guard. Qed.

Example ex_running_status : b_Status <$> br_builds ex_running !! "b1" = Some BuildStatusRunning.
Proof. vm_compute. reflexivity. Qed.
Example ex_done_status : b_Status <$> br_builds ex_done !! "b1" = Some BuildStatusSuccess.
Proof. vm_compute. reflexivity. Qed.

(** ** Refinement and invariants *)

Lemma store_step_ok r r' : store_ok r → store_step r r' → store_ok r'.
Proof. intros Hok (c & Hg & ->). by apply store_ok_step. Qed.

Lemma store_view_inv r id v : store_reachable r → build_view r id = Some v → lifecycle_inv v.
Proof. intros Hr Hv. by eapply lifecycle_reachable_inv, ok_views; [apply store_reachable_ok|]. Qed.

Lemma reachable_build_inv r id build :
  store_reachable r → br_builds r !! id = Some build →
  lifecycle_inv (mkBuildView (b_Status build) (step_view <$> stepsOf r id)).
Proof. intros Hr Hb. by apply (store_view_inv r id), build_view_Some. Qed.

Lemma step_view_elem s steps : s ∈ steps → step_view s ∈ step_view <$> steps.
Proof. by apply list_elem_of_fmap_2. Qed.






Definition ex_done_second : BuildStep := default zero_BuildStep (stepsOf ex_done "b1" !! 1%nat).

Lemma ex_done_second_elem : ex_done_second ∈ stepsOf ex_done "b1".
Proof. apply (list_elem_of_lookup_2 _ 1). vm_compute. reflexivity. Qed.




(** The later states of a terminal step and of a terminal build. *)
Lemma view_step_terminal_step v o' k (s : StepView) :
  view_step (Some v) o' → bv_steps v !! k = Some s → IsTerminalStepStatus (sv_status s) = true →
  ∃ v', o' = Some v' ∧ bv_steps v' !! k = Some s.
Proof.
  intros Hv Hk Ht. inversion Hv; subst; [by exists v|].
  eexists. split; [done|]. by eapply lifecycle_step_terminal_step.
Qed.

Lemma view_step_terminal_build v o' :
  view_step (Some v) o' → IsTerminalBuildStatus (bv_status v) = true →
  ∃ v', o' = Some v' ∧ bv_status v' = bv_status v.
Proof.
  intros Hv Ht. inversion Hv; subst; [by exists v|].
  eexists. split; [done|]. by eapply lifecycle_step_terminal_build.
Qed.


