(* ===== verification/Leases.v ===== *)
(** Claims, leases and completions of the build store: who may complete a step,
    what a completion does, and what a worker can rely on while it holds a
    lease (the claim half of build_repository.go). *)

From stdpp Require Import base gmap strings list pretty sorting numbers.
From S2P Require Import Prelude GoLib Domain Repository BuildRepo BuildRepoFacts LifecycleSpec.
From S2P Require Import Lifecycle LifecycleThms.

Open Scope go_scope.
Open Scope Z_scope.

Implicit Types (r : BuildRepository) (build : Build) (s step : BuildStep)
  (steps : list BuildStep) (k idx : nat) (u : StepUpdate) (c : StoreCall).

(** ** A held lease *)

(** Step [i] of the running build [id] runs under the claim [token], whose
    lease ends at [lease]. *)
Record held (r : BuildRepository) (id : string) (i : Z) (token : string) (lease : Time) : Prop := {
  held_build : ∃ build, br_builds r !! id = Some build ∧ b_Status build = BuildStatusRunning;
  held_step : ∃ idx step, findStep i (stepsOf r id) = Some (idx, step) ∧
    st_Status step = BuildStepStatusRunning ∧ st_ClaimToken step = Some token ∧
    st_LeaseExpiresAt step = Some lease;
}.

(** A call of somebody else: it neither cancels nor moves the build, takes the
    step over only once the lease ended, and does not know the token. *)
Definition foreign (id : string) (i : Z) (token : string) (lease : Time) (c : StoreCall) : Prop :=
  match c with
  | CallUpdateStatus _ id' _ _ => id' ≠ id
  | CallCancel id' _ _ => id' ≠ id
  | CallReclaim id' i' now _ => id' = id → i' = i → now < lease
  | CallRenew id' i' token' _ => id' = id → i' = i → token' ≠ token
  | CallComplete _ request =>
      rq_BuildID request = id → rq_StepIndex request = i → rq_ClaimToken request ≠ token
  | _ => True
  end.

Section held.
  Context (id : string) (i : Z) (token : string) (lease : Time).
  Abbreviation Held r := (held r id i token lease).

Lemma held_frame r r' :
  br_builds r' = br_builds r → br_buildSteps r' = br_buildSteps r → Held r → Held r'.
Proof. intros Hb Hs [Hbuild Hstep]. split; unfold stepsOf in *; by rewrite ?Hb, ?Hs. Qed.

Lemma held_storeBuild r build :
  (b_ID build = id → b_Status build = BuildStatusRunning) → Held r →
  Held (storeBuildLocked r build).
Proof.
  intros Hid [(b & Hb & Hrun) Hstep]. split; [|done]. rewrite storeBuild_builds.
  destruct (decide (b_ID build = id)) as [E|Hne].
  - exists build. rewrite E, lookup_insert_eq. auto.
  - exists b. by rewrite lookup_insert_ne.
Qed.

Lemma held_steps_ne r id' steps : id' ≠ id → Held r → Held (storeSteps r id' steps).
Proof. intros Hne [Hb Hs]. split; [done|]. by rewrite storeSteps_steps_ne. Qed.

(** Writing another step of the build. *)
Lemma held_steps_insert r id' i' k s s' :
  (id' = id → i' ≠ i) → findStep i' (stepsOf r id') = Some (k, s) → st_StepIndex s' = i' →
  Held r → Held (storeSteps r id' (<[k := s']> (stepsOf r id'))).
Proof.
  intros Hne Hf Hi' HH. destruct (decide (id' = id)) as [->|Hid]; [|by apply held_steps_ne].
  destruct HH as [Hb (idx & step & Hf' & Hstep)]. split; [done|].
  rewrite storeSteps_steps. exists idx, step.
  rewrite (findStep_insert_ne i _ k s s'); [done|by eapply findStep_lookup|..].
  - by rewrite Hi', (findStep_index _ _ _ _ Hf).
  - rewrite (findStep_index _ _ _ _ Hf). by apply Hne.
Qed.

Lemma held_fresh r newID build :
  fresh_id r newID build → Held r → (if b_ID build == "" then newID else b_ID build) ≠ id.
Proof. intros [Hf _] [(b & Hb & _) _] E. rewrite E in Hf. congruence. Qed.

(** The build the update of one field stores is as it was for the lifecycle. *)
Lemma held_update r id' build build' :
  ids_ok r → br_builds r !! id' = Some build → b_ID build' = b_ID build →
  b_Status build' = b_Status build → Held r → Held (storeBuildLocked r build').
Proof.
  intros Hids Hb Hid Hst HH. apply held_storeBuild; [|done]. intros E.
  rewrite Hst. rewrite (Hids _ _ Hb) in Hid. subst. destruct HH as [(b & Hb' & Hr) _]. congruence.
Qed.

Lemma held_create r newID build :
  fresh_id r newID build → Held r → Held (run_call (CallCreate newID build) r).
Proof.
  intros Hf HH. simpl. pose proof (held_fresh _ _ _ Hf HH) as Hne.
  destruct (assignBuildNumber_frame r build) as [Hb Hs].
  destruct (Create_store newID build r) as [->|(b1 & (Hid & _) & _ & ->)].
  - by apply (held_frame r).
  - apply held_storeBuild; [congruence|]. by apply (held_frame r).
Qed.

Lemma held_create_queued r newID newStepIDs now build steps :
  fresh_id r newID build → Held r →
  Held (run_call (CallCreateQueued newID newStepIDs now build steps) r).
Proof.
  intros Hf HH. cbn [run_call]. pose proof (held_fresh _ _ _ Hf HH) as Hne.
  destruct (assignBuildNumber_frame r build) as [Hb Hs].
  destruct (CreateQueuedBuild_store newID newStepIDs now build steps r)
    as [->|(b1 & (Hid & _) & _ & ->)].
  - by apply (held_frame r).
  - apply held_steps_ne; [done|]. apply held_storeBuild; [congruence|]. by apply (held_frame r).
Qed.

Lemma held_queue r newStepIDs now id' steps build :
  ids_ok r → br_builds r !! id' = Some build → b_Status build = BuildStatusPending →
  Held r → Held (run_call (CallQueue newStepIDs now id' steps) r).
Proof.
  intros Hids Hb Hp HH. assert (id' ≠ id) as Hne.
  { intros ->. destruct HH as [(b & Hb' & Hr) _]. congruence. }
  simpl. unfold BuildRepository_QueueBuild. rewrite Hb. apply held_steps_ne; [done|].
  apply held_storeBuild; [|done]. destruct (queuedBuild_id now build) as [-> _].
  intros E. by rewrite (Hids _ _ Hb) in E.
Qed.

Lemma held_complete r now request :
  ids_ok r → foreign id i token lease (CallComplete now request) →
  rq_RequireClaim request = true → Held r → Held (run_call (CallComplete now request) r).
Proof.
  intros Hids Hfor Hreq HH. simpl. unfold BuildRepository_CompleteStep.
  destruct (acceptable_or r request) as [(build & k & s & H)|Hno].
  2: { by destruct (completeStep_rejected now request r Hno) as [-> _]. }
  destruct (completeStep_accepted now request r build k s H) as (build' & Ha & ->). simpl.
  destruct H as [Hb Hf Ht Hs Hc Hr]. specialize (Hc Hreq).
  assert (Hother : rq_BuildID request = id → rq_StepIndex request ≠ i).
  { intros E1 E2. destruct HH as [_ (k' & s' & Hf' & _ & Htok & _)].
    rewrite E1, E2 in Hf. simplify_eq. by apply Hfor. }
  assert (HH' : Held (storeSteps r (rq_BuildID request)
    (<[k := completedStep (rq_Update request) s]> (stepsOf r (rq_BuildID request))))).
  { apply (held_steps_insert r _ (rq_StepIndex request) k s); try done.
    rewrite completedStep_index. by eapply findStep_index. }
  apply held_storeBuild; [|done]. intros E.
  rewrite (advance_id _ _ _ _ _ Ha), moveCursor_id, (Hids _ _ Hb) in E.
  destruct HH' as [_ (k' & s' & Hf' & Hrun & _)]. rewrite E, storeSteps_steps in Hf'.
  apply findStep_In in Hf'. rewrite E in Ha. set (steps := <[k := _]> _) in *.
  destruct (advance_cases now (moveCursor (rq_StepIndex request) (rq_Update request) build) steps
    (completedStep (rq_Update request) s) ltac:(by rewrite moveCursor_status))
    as [[[_ Hall] _]|[[(Hn & _) _]|(_ & _ & Ha')]].
  - rewrite (Hall s' Hf') in Hrun. done.
  - by destruct (Hn s' Hf').
  - rewrite Ha' in Ha. injection Ha as <-. by rewrite moveCursor_status.
Qed.

Lemma held_claim r id' i' claim : Held r → Held (run_call (CallClaim id' i' claim) r).
Proof.
  intros HH. simpl. destruct (claimable_or r id' i') as [(build & k & s & H)|Hno].
  2: { by rewrite ClaimPendingStep_rejected. }
  rewrite (ClaimPendingStep_accepted _ _ _ _ _ _ _ H). simpl. destruct H as [Hb Hf Hp _].
  apply (held_steps_insert r _ i' k s); try done.
  - intros -> ->. destruct HH as [_ (k' & s' & Hf' & Hrun & _)]. congruence.
  - rewrite claimedStep_index. by apply (findStep_index _ _ _ _ Hf).
Qed.

Lemma held_reclaim r id' i' now claim :
  foreign id i token lease (CallReclaim id' i' now claim) → Held r →
  Held (run_call (CallReclaim id' i' now claim) r).
Proof.
  intros Hfor HH. simpl in *. destruct (reclaimable_or r id' i' now) as [(build & k & s & l & H)|Hno].
  2: { by rewrite ReclaimExpiredStep_rejected. }
  rewrite (ReclaimExpiredStep_accepted _ _ _ _ _ _ _ _ _ H). simpl. destruct H as [Hb Hf Hp Hl Hle].
  apply (held_steps_insert r _ i' k s); try done.
  - intros -> ->. destruct HH as [_ (k' & s' & Hf' & _ & _ & Hl')]. simplify_eq.
    specialize (Hfor eq_refl eq_refl). lia.
  - by rewrite <-(findStep_index _ _ _ _ Hf).
Qed.

Lemma held_renew r id' i' token' lease' :
  foreign id i token lease (CallRenew id' i' token' lease') → Held r →
  Held (run_call (CallRenew id' i' token' lease') r).
Proof.
  intros Hfor HH. simpl in *. destruct (renewable_or r id' i' token') as [(build & k & s & H)|Hno].
  2: { by destruct (RenewStepLease_rejected r id' i' token' lease' Hno) as [-> _]. }
  rewrite (RenewStepLease_accepted _ _ _ _ lease' _ _ _ H). simpl. destruct H as [Hb Hf Hp Ht].
  apply (held_steps_insert r _ i' k s); try done.
  - intros -> ->. destruct HH as [_ (k' & s' & Hf' & _ & Ht' & _)]. simplify_eq.
    by apply (Hfor eq_refl eq_refl).
  - by rewrite <-(findStep_index _ _ _ _ Hf).
Qed.
End held.

Lemma held_call id i token lease r c :
  store_ok r → call_guard r c → foreign id i token lease c → held r id i token lease →
  held (run_call c r) id i token lease.
Proof.
  intros Hok Hg Hfor HH. pose proof (ok_ids r Hok) as Hids. destruct c; simpl in Hg.
  - destruct Hg. by apply held_create.
  - destruct Hg. by apply held_create_queued.
  - destruct Hg as [(build & Hb & Hp) _]. by apply held_queue with build.
  - destruct Hg as [(build & Hb & _) _]. simpl in *.
    destruct (UpdateStatus_found now id0 status message r build Hb) as (b' & Hid & _ & ->). simpl.
    apply held_storeBuild; [|done]. intros E. rewrite (Hids _ _ Hb) in Hid. congruence.
  - simpl in *. destruct (br_builds r !! id0) as [build|] eqn:Hb.
    2: { unfold BuildRepository_CancelBuild. by rewrite Hb. }
    destruct (CanCancelBuild (b_Status build)) eqn:Hc.
    2: { unfold BuildRepository_CancelBuild. by rewrite Hb, Hc. }
    rewrite (CancelBuild_store id0 reason now r build) by done. simpl.
    destruct (canceledBuild_id (cancelReason reason) now build) as [Hid _]. rewrite (Hids _ _ Hb) in Hid.
    apply held_storeBuild; [congruence|]. by apply held_steps_ne.
  - by apply held_claim.
  - by apply held_reclaim.
  - by apply held_renew.
  - by apply held_complete.
  - simpl. unfold BuildRepository_SetApplicationVersionIfUnset.
    destruct (br_builds r !! id0) as [build|] eqn:Hb; [|done].
    repeat case_match; try done. by apply (held_update _ _ _ _ r id0 build).
  - simpl. unfold BuildRepository_UpdateSourceProvenance.
    destruct (br_builds r !! id0) as [build|] eqn:Hb; [|done].
    destruct (TrimSpace (sp_CommitSHA update) == ""); by apply (held_update _ _ _ _ r id0 build).
  - simpl. unfold BuildRepository_UpdateImageExecution.
    destruct (br_builds r !! id0) as [build|] eqn:Hb; [|done].
    by apply (held_update _ _ _ _ r id0 build).
  - simpl. unfold BuildRepository_UpdateCurrentStepIndex.
    destruct (br_builds r !! id0) as [build|] eqn:Hb; [|done].
    by apply (held_update _ _ _ _ r id0 build).
Qed.

Lemma held_run id i token lease cs r :
  store_ok r → run_guarded r cs → Forall (foreign id i token lease) cs →
  held r id i token lease → held (run_calls cs r) id i token lease.
Proof.
  revert r. induction cs as [|c cs IH]; intros r Hok Hg Hfor HH; [done|].
  simpl in Hg. destruct Hg as [Hg Hrest]. inversion Hfor; subst.
  apply IH; [by apply store_ok_step|done|done|]. by apply held_call.
Qed.

Lemma held_acceptable r request lease :
  held r (rq_BuildID request) (rq_StepIndex request) (rq_ClaimToken request) lease →
  CanTransitionStep BuildStepStatusRunning (u_Status (rq_Update request)) = true →
  ∃ build idx step, acceptable r request build idx step.
Proof.
  intros [(build & Hb & Hr) (idx & step & Hf & Hs & Ht & _)] Hto.
  exists build, idx, step. split; try done. by intros _.
Qed.

(** Steps that are neither all successful nor stuck: one runs or can start. *)
Lemma not_stuck_progress steps :
  steps ≠ [] →
  (∀ s, s ∈ steps → known_status (st_Status s) ∧ st_Status s ≠ BuildStepStatusCanceled) →
  ¬ allSucceeded steps → ¬ stuck steps →
  ∃ s, s ∈ steps ∧
    (st_Status s = BuildStepStatusRunning ∨
     st_Status s = BuildStepStatusPending ∧
       isStepRunnable s steps (stepStatusByNodeID steps) = true).
Proof.
  intros Hne Hknown Hnall Hnstuck.
  set (busy := λ s, (st_Status s == BuildStepStatusRunning) ||
    ((st_Status s == BuildStepStatusPending) && isStepRunnable s steps (stepStatusByNodeID steps))).
  destruct (existsb busy steps) eqn:E.
  { apply existsb_exists in E as (s & Hs%list_elem_of_In & Hb). exists s. split; [done|].
    unfold busy in Hb. bool_to_prop. destruct Hb as [Hb|Hb]; bool_to_prop; auto. }
  assert (Hidle : ∀ s, s ∈ steps → busy s = false).
  { intros s Hs%list_elem_of_In. apply not_true_iff_false. intros Hb.
    apply not_true_iff_false in E. apply E, existsb_exists. eauto. }
  destruct Hnstuck. split_and!.
  - intros s Hs. specialize (Hidle s Hs). unfold busy in Hidle. by bool_to_prop.
  - unfold runnableExists. apply not_true_iff_false.
    intros (s & Hs%list_elem_of_In & Hb)%existsb_exists. specialize (Hidle s Hs).
    unfold busy in Hidle. rewrite Hb, orb_true_r in Hidle. done.
  - destruct (existsb (λ s, (st_Status s == BuildStepStatusFailed)
      || (st_Status s == BuildStepStatusPending)) steps) eqn:E'.
    { apply existsb_exists in E' as (s & Hs%list_elem_of_In & Hb). exists s. split; [done|].
      rewrite orb_true_iff, !bool_decide_eq_true in Hb. done. }
    destruct Hnall. split; [done|]. intros s Hs. destruct (Hknown s Hs) as [Hk Hnc].
    assert ((st_Status s == BuildStepStatusFailed) || (st_Status s == BuildStepStatusPending)
      = false) as Hnf.
    { apply not_true_iff_false. intros Hb. apply not_true_iff_false in E'. apply E', existsb_exists.
      exists s. by rewrite <-list_elem_of_In. }
    specialize (Hidle s Hs). unfold busy in Hidle. bool_to_prop. by destruct (st_Status s).
Qed.

(** ** The example run holds its lease *)

Lemma ex_running_held : held ex_running "b1" 0 "t1" 100.
Proof.
  split.
  - eexists. split; vm_compute; reflexivity.
  - eexists _, _. split_and!; vm_compute; reflexivity.
Qed.

(** Another worker tries to claim and to reclaim the step and to complete it
    with another token. *)
Definition ex_foreign : list StoreCall :=
  [CallClaim "b1" 0 (ex_claim "t9" 10 200);
   CallReclaim "b1" 0 99 (ex_claim "t9" 99 200);
   CallComplete 99 (ex_request 0 "t9" BuildStepStatusFailed);
   CallRenew "b1" 0 "t9" 1000;
   CallCursor "b1" 0].

Definition ex_reclaimed : BuildRepository :=
  run_call (CallReclaim "b1" 0 100 (ex_claim "t2" 100 200)) ex_running.

(** ** Properties *)


(** How a completion is answered, by the step and the build it finds. *)
Lemma completeStep_answer now request r build idx step :
  br_builds r !! rq_BuildID request = Some build →
  findStep (rq_StepIndex request) (stepsOf r (rq_BuildID request)) = Some (idx, step) →
  let decision := DecideStepCompletion (st_Status step) (u_Status (rq_Update request))
    (rq_RequireClaim request)
    (if rq_RequireClaim request then st_ClaimToken step == Some (rq_ClaimToken request) else true) in
  (completeStepLocked now request r).2 = None ∧
  rs_Outcome (completeStepLocked now request r).1.2 =
    if sd_AllowUpdate decision then
      if b_Status build == BuildStatusRunning then StepCompletionCompleted
      else StepCompletionInvalidTransition
    else sd_Outcome decision.
Proof.
  intros Hb Hf decision. unfold completeStepLocked. rewrite Hb, Hf. fold decision.
  destruct (sd_AllowUpdate decision); simpl.
  - destruct (decide (b_Status build = BuildStatusRunning)) as [Hr|Hr].
    2: { by rewrite bool_decide_eq_false_2. }
    rewrite bool_decide_eq_true_2 by done. simpl. set (steps' := <[idx := _]> _).
    destruct (advance_cases now (moveCursor (rq_StepIndex request) (rq_Update request) build) steps'
      (completedStep (rq_Update request) step) ltac:(by rewrite moveCursor_status))
      as [[? E]|[[? E]|(? & ? & E)]]; unfold moveCursor in E; by rewrite E.
  - by repeat case_match.
Qed.

(** C22: the answer to a completion of a step the store has, in every case: it
    completes exactly the requests of the claim holder on a running step of a
    running build, tells a repeated request of an ended step from a request
    with a stale claim, and rejects the rest. *)
Theorem CompleteStep_outcome now request r build idx step :
  br_builds r !! rq_BuildID request = Some build →
  findStep (rq_StepIndex request) (stepsOf r (rq_BuildID request)) = Some (idx, step) →
  let outcome := rs_Outcome (BuildRepository_CompleteStep now request r).1.2 in
  let valid := CanTransitionStep BuildStepStatusRunning (u_Status (rq_Update request)) = true in
  (BuildRepository_CompleteStep now request r).2 = None ∧
  (outcome = StepCompletionCompleted ↔ acceptable r request build idx step) ∧
  (outcome = StepCompletionDuplicateTerminal ↔
     valid ∧ IsTerminalStepStatus (st_Status step) = true) ∧
  (outcome = StepCompletionStaleClaim ↔
     valid ∧ st_Status step = BuildStepStatusRunning ∧ ¬ claimHeld request step).
Proof.
  intros Hb Hf. cbv zeta. unfold BuildRepository_CompleteStep.
  destruct (completeStep_answer now request r build idx step Hb Hf) as [-> ->].
  assert (Hacc : acceptable r request build idx step ↔
    CanTransitionStep BuildStepStatusRunning (u_Status (rq_Update request)) = true ∧
    st_Status step = BuildStepStatusRunning ∧ claimHeld request step ∧
    b_Status build = BuildStatusRunning).
  { split; [by intros []|]. intros (?&?&?&?). by split. }
  rewrite Hacc. clear Hacc. unfold claimHeld, DecideStepCompletion.
  destruct (CanTransitionStep _ _); simpl; [|by intuition].
  destruct (decide (st_Status step = BuildStepStatusRunning)) as [E|E].
  2: { rewrite bool_decide_eq_false_2 by done. simpl.
       destruct (IsTerminalStepStatus _) eqn:Et; simpl; intuition congruence. }
  rewrite bool_decide_eq_true_2, E by done. simpl.
  assert (Ht : IsTerminalStepStatus BuildStepStatusRunning = false) by done.
  destruct (rq_RequireClaim request); simpl.
  - destruct (bool_decide_reflect (st_ClaimToken step = Some (rq_ClaimToken request))); simpl;
      destruct (bool_decide_reflect (b_Status build = BuildStatusRunning));
      intuition congruence.
  - destruct (bool_decide_reflect (b_Status build = BuildStatusRunning)); intuition congruence.
Qed.


Lemma CompleteStep_outcome_witness :
  rs_Outcome (BuildRepository_CompleteStep 5 (ex_request 0 "t9" BuildStepStatusSuccess)
    ex_running).1.2 = StepCompletionStaleClaim.
Proof.
  destruct (br_builds ex_running !! "b1") as [build|] eqn:Hb; [|vm_compute in Hb; discriminate Hb].
  destruct (findStep 0 (stepsOf ex_running "b1")) as [[idx step]|] eqn:Hf;
    [|vm_compute in Hf; discriminate Hf].
  apply (CompleteStep_outcome 5 (ex_request 0 "t9" BuildStepStatusSuccess) ex_running build idx step);
    [exact Hb|exact Hf|].
  vm_compute in Hf. injection Hf as <- <-.
  split_and!; [reflexivity|reflexivity|]. intros Hc. specialize (Hc eq_refl).
  vm_compute in Hc. discriminate Hc.
Defined.

(** C23: no completion strands a build.  After an accepted completion, a build
    that is still running has a step that runs, or a pending step a worker can
    claim at once. *)
Theorem completion_keeps_progress now request r build idx step build' :
  let r' := (BuildRepository_CompleteStep now request r).1.1 in
  let steps' := stepsOf r' (rq_BuildID request) in
  store_reachable r → acceptable r request build idx step →
  br_builds r' !! rq_BuildID request = Some build' → b_Status build' = BuildStatusRunning →
  ∃ s, s ∈ steps' ∧
    (st_Status s = BuildStepStatusRunning ∨
     st_Status s = BuildStepStatusPending ∧
       isStepRunnable s steps' (stepStatusByNodeID steps') = true).
Proof.
  cbv zeta. intros Hr%store_reachable_ok H Hb' Hrun'.
  destruct (completeStep_accepted now request r build idx step H) as (b1 & Ha & E).
  unfold BuildRepository_CompleteStep in *. rewrite E in Hb' |- *. simpl in Hb' |- *. clear E.
  destruct H as [Hb Hf Ht Hs Hc Hrun].
  rewrite storeBuild_steps, storeSteps_steps. set (steps' := <[idx := _]> _) in *.
  assert (Hid : b_ID b1 = rq_BuildID request)
    by by rewrite (advance_id _ _ _ _ _ Ha), moveCursor_id, (ok_ids _ Hr _ _ Hb).
  rewrite clone_build_id, <-Hid, lookup_insert_eq in Hb'. injection Hb' as <-.
  assert (Hv : ¬ allSucceeded steps' ∧ ¬ stuck steps').
  { destruct (advance_cases now (moveCursor (rq_StepIndex request) (rq_Update request) build) steps'
      (completedStep (rq_Update request) step) ltac:(by rewrite moveCursor_status))
      as [[? E]|[[? E]|(? & ? & E)]]; [..|done]; rewrite E in Ha; by simplify_eq. }
  apply not_stuck_progress; [| |apply Hv..].
  - intros Hnil. apply (f_equal length) in Hnil. unfold steps' in Hnil.
    rewrite length_insert in Hnil. apply findStep_lookup, lookup_lt_Some in Hf. simpl in Hnil. lia.
  - intros s [k Hk]%list_elem_of_lookup. unfold steps' in Hk.
    rewrite list_lookup_insert in Hk. case_decide as Hi; simplify_eq.
    + rewrite completedStep_status.
      apply transition_running_result in Ht as [-> | ->]; done.
    + apply list_elem_of_lookup_2, step_view_elem in Hk.
      pose proof (ok_views _ Hr _ _ (build_view_Some _ _ _ Hb)) as Hinv%lifecycle_reachable_inv.
      split; [by apply (inv_known _ Hinv) in Hk|].
      apply (inv_not_canceled _ Hinv) in Hk; [done|]. simpl. by rewrite Hrun.
Qed.

Lemma completion_keeps_progress_witness :
  let r' := (BuildRepository_CompleteStep 5 (ex_request 0 "t1" BuildStepStatusSuccess) ex_running).1.1 in
  b_Status <$> br_builds r' !! "b1" = Some BuildStatusRunning ∧
  ∃ s, s ∈ stepsOf r' "b1" ∧
    (st_Status s = BuildStepStatusRunning ∨
     st_Status s = BuildStepStatusPending ∧
       isStepRunnable s (stepsOf r' "b1") (stepStatusByNodeID (stepsOf r' "b1")) = true).
Proof.
  cbv zeta. assert (Hacc : ∃ build idx step,
    acceptable ex_running (ex_request 0 "t1" BuildStepStatusSuccess) build idx step)
    by (eapply held_acceptable; [exact ex_running_held|reflexivity]).
  split; [vm_compute; reflexivity|]. destruct Hacc as (build & idx & step & Hacc).
  eapply (completion_keeps_progress 5 (ex_request 0 "t1" BuildStepStatusSuccess));
    [exact ex_running_reachable|exact Hacc|vm_compute; reflexivity|reflexivity].
Defined.



(** C18: a claim taken over is dead.  After another worker reclaimed the expired
    step with a token of its own, the former holder can neither complete the
    step nor renew the lease: it is told its claim is stale and the store stays
    as it is. *)
Theorem reclaim_fences_former_holder r id i now claim build idx step lease token t request lease' :
  reclaimable r id i now build idx step lease →
  c_ClaimToken claim ≠ token →
  rq_BuildID request = id → rq_StepIndex request = i → rq_RequireClaim request = true →
  rq_ClaimToken request = token →
  CanTransitionStep BuildStepStatusRunning (u_Status (rq_Update request)) = true →
  let r' := (BuildRepository_ReclaimExpiredStep id i now claim r).1.1 in
  (BuildRepository_CompleteStep t request r').1.1 = r' ∧
  rs_Outcome (BuildRepository_CompleteStep t request r').1.2 = StepCompletionStaleClaim ∧
  (BuildRepository_RenewStepLease id i token lease' r').1.1 = r' ∧
  (BuildRepository_RenewStepLease id i token lease' r').1.2.2 = StepCompletionStaleClaim.
Proof.
  intros H Htok <- <- Hreq <- Hto. cbv zeta.
  rewrite (ReclaimExpiredStep_accepted _ _ _ _ claim _ _ _ _ H). simpl.
  destruct H as [Hb Hf Hs _ _].
  set (id := rq_BuildID request) in *. set (s' := reclaimedStep claim step).
  set (r' := storeSteps r id _).
  assert (Hf' : findStep (rq_StepIndex request) (stepsOf r' id) = Some (idx, s')).
  { unfold r'. rewrite storeSteps_steps. apply findStep_insert with step; [done|].
    by rewrite <-(findStep_index _ _ _ _ Hf). }
  assert (Hs' : st_Status s' = BuildStepStatusRunning) by done.
  assert (Ht' : (st_ClaimToken s' == Some (rq_ClaimToken request)) = false).
  { apply bool_decide_eq_false. simpl. congruence. }
  unfold BuildRepository_CompleteStep, completeStepLocked, BuildRepository_RenewStepLease.
  fold id. rewrite (Hb : br_builds r' !! id = Some build), Hf'.
  unfold DecideStepCompletion. rewrite Hs', Hreq, Hto, Ht'. done.
Qed.

Lemma reclaim_fences_former_holder_witness :
  (BuildRepository_ReclaimExpiredStep "b1" 0 100 (ex_claim "t2" 100 200) ex_running).1.2.2 = true ∧
  rs_Outcome (BuildRepository_CompleteStep 101 (ex_request 0 "t1" BuildStepStatusSuccess)
    ex_reclaimed).1.2 = StepCompletionStaleClaim.
Proof.
  split; [vm_compute; reflexivity|].
  eapply (reclaim_fences_former_holder ex_running "b1" 0 100 (ex_claim "t2" 100 200) _ _ _ 100 "t1"
    101 (ex_request 0 "t1" BuildStepStatusSuccess) 0); [|discriminate|reflexivity..].
  split; [vm_compute; reflexivity..|lia].
Defined.

(** A pending step is claimed at most once, and only when it may run.  The
    first claim succeeds exactly on a pending, runnable step; every later claim
    of that step, by anybody, is refused and changes nothing. *)
Theorem claim_is_exclusive r id i claim claim2 :
  let result := BuildRepository_ClaimPendingStep id i claim r in
  (result.1.2.2 = true ↔ ∃ build idx step, claimable r id i build idx step) ∧
  (result.1.2.2 = true →
     (∃ idx step, findStep i (stepsOf result.1.1 id) = Some (idx, step) ∧
        st_Status step = BuildStepStatusRunning ∧
        st_ClaimToken step = Some (c_ClaimToken claim)) ∧
     (BuildRepository_ClaimPendingStep id i claim2 result.1.1).1
       = (result.1.1, (zero_BuildStep, false))) ∧
  (result.1.2.2 = false → result.1.1 = r).
Proof.
  cbv zeta. destruct (claimable_or r id i) as [(build & idx & step & H)|Hno].
  - rewrite (ClaimPendingStep_accepted _ _ _ claim _ _ _ H). simpl.
    assert (Hf' : findStep i (stepsOf (storeSteps r id
      (<[idx := claimedStep claim step]> (stepsOf r id))) id) = Some (idx, claimedStep claim step)).
    { destruct H as [_ Hf _ _]. rewrite storeSteps_steps. apply findStep_insert with step; [done|].
      rewrite claimedStep_index. by apply (findStep_index _ _ _ _ Hf). }
    split_and!; [by split; eauto| |done]. intros _. split.
    { exists idx, (claimedStep claim step). by rewrite claimedStep_status, claimedStep_token. }
    apply ClaimPendingStep_rejected. intros b k s [_ Hf Hp _]. rewrite Hf' in Hf.
    injection Hf as _ <-. by rewrite claimedStep_status in Hp.
  - rewrite ClaimPendingStep_rejected by done. simpl. split_and!; [split; [done|]|done|done].
    intros (build & idx & step & H). by destruct (Hno build idx step).
Qed.

(** Cancellation.  Exactly a queued, preparing or running build can be
    canceled; the call then ends every step that has not ended, counts them,
    leaves the ended ones alone and records the trimmed reason.  Otherwise the
    store is unchanged and the caller gets the error. *)
Theorem CancelBuild_spec r id reason now :
  let result := BuildRepository_CancelBuild id reason now r in
  let open s := CanCancelStep (st_Status s) in
  match br_builds r !! id with
  | Some build =>
      if CanCancelBuild (b_Status build) then
        result.2 = None ∧
        result.1.1 = storeBuildLocked (storeSteps r id
          ((λ s, if open s then cancelStep (cancelReason reason) now s else s) <$> stepsOf r id))
          (canceledBuild (cancelReason reason) now build) ∧
        result.1.2.2 = Z.of_nat (length (filter (λ s, open s = true) (stepsOf r id))) ∧
        (∀ s, s ∈ stepsOf result.1.1 id → CanCancelStep (st_Status s) = false)
      else result.1.1 = r ∧ result.2 = Some ErrInvalidBuildStatusTransition
  | None => result.1.1 = r ∧ result.2 = Some ErrBuildNotFound
  end.
Proof.
  cbv zeta. destruct (br_builds r !! id) as [build|] eqn:Hb.
  2: { unfold BuildRepository_CancelBuild. by rewrite Hb. }
  destruct (CanCancelBuild (b_Status build)) eqn:Hc.
  2: { unfold BuildRepository_CancelBuild. by rewrite Hb, Hc. }
  rewrite (CancelBuild_store id reason now r build) by done. rewrite cancelSteps_spec. simpl.
  split_and!; [done..|]. intros s. rewrite storeBuild_steps, storeSteps_steps.
  intros (s0 & -> & _)%list_elem_of_fmap.
  destruct (CanCancelStep (st_Status s0)) eqn:E; [|done].
  by rewrite cancelStep_status.
Qed.
