(* ===== verification/Numbering.v ===== *)
(** Build numbers: within a job every build has a number of its own
    (assignBuildNumberLocked and its callers in build_repository.go). *)

From stdpp Require Import base gmap strings list pretty sorting numbers.
From S2P Require Import Prelude GoLib Domain Repository BuildRepo BuildRepoFacts LifecycleSpec.
From S2P Require Import Lifecycle LifecycleThms.

Open Scope go_scope.
Open Scope Z_scope.

Implicit Types (r : BuildRepository) (build : Build) (steps : list BuildStep) (c : StoreCall).

(** The number the store gives the next build of a job. *)
Definition nextNumber (r : BuildRepository) (jobID : option string) : Z :=
  let next := match normalizeBuildJobID jobID with
              | Some normalizedJobID => default 0 (br_nextNumberByJob r !! normalizedJobID)
              | None => br_nextAnonymousNumber r
              end in
  if next <=? 0 then 1 else next.

Definition same_job (build build' : Build) : Prop :=
  normalizeBuildJobID (b_JobID build) = normalizeBuildJobID (b_JobID build').

Lemma nextNumber_frame r r' jobID :
  br_nextAnonymousNumber r' = br_nextAnonymousNumber r →
  br_nextNumberByJob r' = br_nextNumberByJob r → nextNumber r' jobID = nextNumber r jobID.
Proof. intros H1 H2. unfold nextNumber. by rewrite H1, H2. Qed.

Lemma nextNumber_pos r jobID : 1 ≤ nextNumber r jobID.
Proof. unfold nextNumber. case_match; destruct (_ <=? 0) eqn:E; bool_to_prop; lia. Qed.

(** A build without a number gets the next one of its job. *)
Lemma assign_unnumbered r build :
  b_BuildNumber build ≤ 0 → nextNumber r (b_JobID build) < max_int64 →
  let '(r', build') := assignBuildNumberLocked r build in
  b_BuildNumber build' = nextNumber r (b_JobID build) ∧
  (∀ jobID, nextNumber r' jobID =
    if decide (normalizeBuildJobID jobID = normalizeBuildJobID (b_JobID build))
    then nextNumber r (b_JobID build) + 1 else nextNumber r jobID).
Proof.
  intros Hn Hmax. pose proof (nextNumber_pos r (b_JobID build)) as Hpos.
  unfold assignBuildNumberLocked. destruct (Z.ltb_spec 0 (b_BuildNumber build)); [lia|].
  unfold nextBuildNumberLocked, nextNumber in *.
  destruct (normalizeBuildJobID (b_JobID build)) as [job|] eqn:Ej; simpl.
  - set (n := if _ <=? 0 then 1 else _) in *. split; [done|]. intros jobID.
    rewrite int64_add_id by (unfold is_int64, min_int64, max_int64 in *; lia).
    destruct (normalizeBuildJobID jobID) as [job'|] eqn:Ej'; [|by rewrite decide_False].
    case_decide as E; simplify_eq.
    + rewrite lookup_insert_eq. simpl. destruct (Z.leb_spec (n + 1) 0); [lia|done].
    + by rewrite lookup_insert_ne by congruence.
  - set (r0 := if br_nextAnonymousNumber r <=? 0 then _ else r).
    assert (E0 : br_nextAnonymousNumber r0 =
      (if br_nextAnonymousNumber r <=? 0 then 1 else br_nextAnonymousNumber r))
      by (unfold r0; by destruct (_ <=? 0)).
    assert (Ej0 : br_nextNumberByJob r0 = br_nextNumberByJob r)
      by (unfold r0; by destruct (_ <=? 0)).
    rewrite E0, Ej0. split; [done|]. intros jobID.
    set (n := if _ <=? 0 then 1 else _) in *.
    rewrite int64_add_id by (unfold is_int64, min_int64, max_int64 in *; lia).
    destruct (normalizeBuildJobID jobID) as [job'|] eqn:Ej'; [by rewrite decide_False|].
    rewrite decide_True by done. destruct (Z.leb_spec (n + 1) 0); [lia|done].
Qed.

(** What the numbers of a store satisfy after [n] calls. *)
Record numbers_ok (n : nat) (r : BuildRepository) : Prop := {
  num_below id build : br_builds r !! id = Some build →
    1 ≤ b_BuildNumber build < nextNumber r (b_JobID build);
  num_counter jobID : nextNumber r jobID ≤ 1 + Z.of_nat n;
  num_unique id id' build build' :
    br_builds r !! id = Some build → br_builds r !! id' = Some build' →
    same_job build build' → b_BuildNumber build = b_BuildNumber build' → id = id';
}.

(** The callers leave the numbering to the store. *)
Definition unnumbered (c : StoreCall) : Prop :=
  match c with
  | CallCreate _ build => b_BuildNumber build ≤ 0
  | CallCreateQueued _ _ _ build _ => b_BuildNumber build ≤ 0
  | _ => True
  end.

Lemma nextNumber_same r jobID jobID' :
  normalizeBuildJobID jobID = normalizeBuildJobID jobID' →
  nextNumber r jobID = nextNumber r jobID'.
Proof. unfold nextNumber. by intros ->. Qed.

(** Every build keeps its number and its job, and the counters stay. *)
Definition keeps_numbers (r r' : BuildRepository) : Prop :=
  (∀ jobID, nextNumber r' jobID = nextNumber r jobID) ∧
  ∀ id build', br_builds r' !! id = Some build' →
    ∃ build, br_builds r !! id = Some build ∧
      b_BuildNumber build' = b_BuildNumber build ∧ b_JobID build' = b_JobID build.

Lemma keeps_numbers_refl r : keeps_numbers r r.
Proof. split; [done|]. intros id build' H. by exists build'. Qed.

Lemma keeps_numbers_store r id build build' :
  ids_ok r → br_builds r !! id = Some build → b_ID build' = b_ID build →
  b_BuildNumber build' = b_BuildNumber build → b_JobID build' = b_JobID build →
  keeps_numbers r (storeBuildLocked r build').
Proof.
  intros Hids Hb Hid Hn Hj. split; [done|]. rewrite (Hids _ _ Hb) in Hid.
  intros id' b. rewrite storeBuild_builds, lookup_insert_Some.
  intros [[<- <-]|[_ H]]; [exists build; by rewrite Hid|by exists b].
Qed.

Lemma keeps_numbers_ok n r r' : numbers_ok n r → keeps_numbers r r' → numbers_ok (S n) r'.
Proof.
  intros [Hb Hc Hu] [Hn Hk]. split.
  - intros id build' H. destruct (Hk id build' H) as (build & H0 & -> & ->). rewrite Hn. eauto.
  - intros jobID. rewrite Hn. specialize (Hc jobID). lia.
  - intros id1 id2 b1 b2 H1 H2. destruct (Hk _ _ H1) as (b1' & H1' & E1 & J1).
    destruct (Hk _ _ H2) as (b2' & H2' & E2 & J2). unfold same_job. rewrite E1, E2, J1, J2. eauto.
Qed.

(** A created build takes the next number of its job. *)
Lemma create_numbers n r newID build build1 :
  numbers_ok n r → Z.of_nat n < 2 ^ 62 → b_BuildNumber build ≤ 0 → fresh_id r newID build →
  let r1 := (assignBuildNumberLocked r build).1 in
  numbers_ok (S n) r1 ∧
  (created_from r newID build build1 → numbers_ok (S n) (storeBuildLocked r1 build1)).
Proof.
  intros [Hb Hc Hu] Hlt Hn Hfresh.
  pose proof (assignBuildNumber_frame r build) as [Hbuilds _].
  pose proof (Hc (b_JobID build)) as Hcj. pose proof (nextNumber_pos r (b_JobID build)) as Hpos.
  assert (Hmax : nextNumber r (b_JobID build) < max_int64) by (unfold max_int64; lia).
  pose proof (assign_unnumbered r build Hn Hmax) as Ha.
  destruct (assignBuildNumberLocked r build) as [r1 b1] eqn:Ea. simpl in *.
  destruct Ha as [Hn1 Hnext].
  assert (Hle : ∀ jobID, nextNumber r jobID ≤ nextNumber r1 jobID).
  { intros jobID. rewrite Hnext. destruct (decide (normalizeBuildJobID jobID = _)) as [E|E]; [|lia].
    rewrite (nextNumber_same r _ _ E). lia. }
  assert (Hr1 : numbers_ok (S n) r1).
  { split.
    - intros id b. rewrite Hbuilds. intros H. specialize (Hb id b H). specialize (Hle (b_JobID b)).
      lia.
    - intros jobID. rewrite Hnext.
      destruct (decide (normalizeBuildJobID jobID = _)); [lia|]. specialize (Hc jobID). lia.
    - intros id1 id2 b2 b3. rewrite Hbuilds. apply Hu. }
  split; [done|]. intros (Hid & Hj & Hnum). rewrite Ea in Hnum. simpl in Hnum. destruct Hr1 as [Hb1 Hc1 Hu1].
  assert (Hnew : nextNumber (storeBuildLocked r1 build1) = nextNumber r1) by done.
  assert (Hfr : ∀ id b, br_builds r1 !! id = Some b → same_job b build1 →
    b_BuildNumber b < b_BuildNumber build1).
  { intros id b. rewrite Hbuilds. intros H E. rewrite Hnum, Hn1.
    specialize (Hb id b H). unfold same_job in E. rewrite Hj in E.
    rewrite (nextNumber_same r _ _ E) in Hb. lia. }
  split; rewrite ?Hnew; [|done|].
  - intros id b. rewrite storeBuild_builds, lookup_insert_Some. intros [[_ <-]|[_ H]]; [|by eauto].
    rewrite Hnum, Hn1, Hj, Hnext, decide_True by done. lia.
  - intros id1 id2 b2 b3. rewrite storeBuild_builds, !lookup_insert_Some.
    intros [[<- <-]|[Hne1 H1]] [[<- <-]|[Hne2 H2]]; [done| | |by apply Hu1].
    + intros E Enum. specialize (Hfr _ _ H2 (eq_sym E)). lia.
    + intros E Enum. specialize (Hfr _ _ H1 E). lia.
Qed.

Lemma advance_numbers now build steps step build' :
  advanceBuild now build steps step = Some build' →
  b_BuildNumber build' = b_BuildNumber build ∧ b_JobID build' = b_JobID build.
Proof. unfold advanceBuild. intros. by repeat case_match; simplify_eq/=. Qed.

Lemma UpdateStatus_numbers now id status message r build :
  ids_ok r → br_builds r !! id = Some build →
  keeps_numbers r (BuildRepository_UpdateStatus now id status message r).1.1.
Proof.
  intros Hids Hb. unfold BuildRepository_UpdateStatus. rewrite Hb.
  set (b1 := build <| b_Status := status |>).
  set (b2 := if (_ && _) then b1 <| b_QueuedAt := Some now |> else b1).
  set (b3 := if (_ && _) then b2 <| b_StartedAt := Some now |> else b2).
  set (b4 := if IsTerminalBuildStatus status then b3 <| b_FinishedAt := Some now |> else b3).
  assert (H4 : b_ID b4 = b_ID build ∧ b_BuildNumber b4 = b_BuildNumber build ∧ b_JobID b4 = b_JobID build).
  { unfold b4, b3, b2, b1. destruct (_ && (b_QueuedAt _ == None)); simpl;
      destruct (_ && _); destruct (IsTerminalBuildStatus status); done. }
  clearbody b4. simpl. destruct H4 as (Hid & Hn & Hj).
  apply (keeps_numbers_store r id build); [done|done|..]; by destruct (_ || _).
Qed.

Lemma complete_numbers now request r :
  ids_ok r → keeps_numbers r (BuildRepository_CompleteStep now request r).1.1.
Proof.
  intros Hids. unfold BuildRepository_CompleteStep.
  destruct (acceptable_or r request) as [(build & idx & step & H)|Hno].
  2: { destruct (completeStep_rejected now request r Hno) as [-> _]. apply keeps_numbers_refl. }
  destruct (completeStep_accepted now request r build idx step H) as (build' & Ha & ->). simpl.
  destruct H as [Hb _ _ _ _ _]. pose proof (advance_id _ _ _ _ _ Ha) as Hid.
  destruct (advance_numbers _ _ _ _ _ Ha) as [Hn Hj].
  rewrite moveCursor_id in Hid.
  apply (keeps_numbers_store (storeSteps r _ _) (rq_BuildID request) build); [done|done|done|..].
  - rewrite Hn. unfold moveCursor. by case_match.
  - rewrite Hj. unfold moveCursor. by case_match.
Qed.

Lemma call_numbers r c :
  ids_ok r → call_guard r c →
  match c with CallCreate _ _ | CallCreateQueued _ _ _ _ _ => True
  | _ => keeps_numbers r (run_call c r) end.
Proof.
  intros Hids Hg. destruct c; simpl in *; try done.
  - destruct Hg as [(build & Hb & _) _]. unfold BuildRepository_QueueBuild. rewrite Hb. simpl.
    apply (keeps_numbers_store r id build); [done|done|..];
      unfold queuedBuild; simpl; by destruct (b_QueuedAt build).
  - destruct Hg as [(build & Hb & _) _]. by apply UpdateStatus_numbers with build.
  - destruct (br_builds r !! id) as [build|] eqn:Hb.
    2: { unfold BuildRepository_CancelBuild. rewrite Hb. apply keeps_numbers_refl. }
    destruct (CanCancelBuild (b_Status build)) eqn:Hc.
    2: { unfold BuildRepository_CancelBuild. rewrite Hb, Hc. apply keeps_numbers_refl. }
    rewrite (CancelBuild_store id reason now r build) by done. simpl.
    apply (keeps_numbers_store (storeSteps r _ _) id build); [done|done|..];
      unfold canceledBuild; simpl; by destruct (b_FinishedAt build).
  - destruct (claimable_or r id i) as [(build & idx & step & H)|Hno].
    + rewrite (ClaimPendingStep_accepted _ _ _ _ _ _ _ H). apply (keeps_numbers_refl r).
    + rewrite ClaimPendingStep_rejected by done. apply keeps_numbers_refl.
  - destruct (reclaimable_or r id i now) as [(build & idx & step & lease & H)|Hno].
    + rewrite (ReclaimExpiredStep_accepted _ _ _ _ _ _ _ _ _ H). apply (keeps_numbers_refl r).
    + rewrite ReclaimExpiredStep_rejected by done. apply keeps_numbers_refl.
  - destruct (renewable_or r id i token) as [(build & idx & step & H)|Hno].
    + rewrite (RenewStepLease_accepted _ _ _ _ _ _ _ _ H). apply (keeps_numbers_refl r).
    + destruct (RenewStepLease_rejected r id i token lease Hno) as [-> _]. apply keeps_numbers_refl.
  - by apply complete_numbers.
  - unfold BuildRepository_SetApplicationVersionIfUnset.
    destruct (br_builds r !! id) as [build|] eqn:Hb; [|apply keeps_numbers_refl].
    repeat case_match; try apply keeps_numbers_refl.
    by apply (keeps_numbers_store r id build).
  - unfold BuildRepository_UpdateSourceProvenance.
    destruct (br_builds r !! id) as [build|] eqn:Hb; [|apply keeps_numbers_refl].
    destruct (TrimSpace (sp_CommitSHA update) == "");
      by apply (keeps_numbers_store r id build).
  - unfold BuildRepository_UpdateImageExecution.
    destruct (br_builds r !! id) as [build|] eqn:Hb; [|apply keeps_numbers_refl].
    by apply (keeps_numbers_store r id build).
  - unfold BuildRepository_UpdateCurrentStepIndex.
    destruct (br_builds r !! id) as [build|] eqn:Hb; [|apply keeps_numbers_refl].
    by apply (keeps_numbers_store r id build).
Qed.

Lemma call_numbers_ok n r c :
  ids_ok r → numbers_ok n r → call_guard r c → unnumbered c → Z.of_nat n < 2 ^ 62 →
  numbers_ok (S n) (run_call c r).
Proof.
  intros Hids Hok Hg Hu Hlt. pose proof (call_numbers r c Hids Hg) as Hk.
  destruct c; try by apply (keeps_numbers_ok n r).
  - destruct Hg as [Hf _]. simpl in *.
    destruct (Create_store newID build r) as [->|(b1 & Hc & _ & ->)].
    + by apply (create_numbers n r newID build build).
    + by apply (create_numbers n r newID build b1).
  - destruct Hg as [Hf _]. cbn [run_call unnumbered] in *.
    destruct (CreateQueuedBuild_store newID newStepIDs now build steps r) as [->|(b1 & Hc & _ & ->)].
    + by apply (create_numbers n r newID build build).
    + destruct (create_numbers n r newID build b1 Hok Hlt Hu Hf) as [_ Hnew].
      destruct (Hnew Hc) as [Hb1 Hc1 Hu1]. by split.
Qed.

Lemma run_numbers_ok cs n r :
  store_ok r → numbers_ok n r → run_guarded r cs → Forall unnumbered cs →
  Z.of_nat (n + length cs) < 2 ^ 62 → numbers_ok (n + length cs) (run_calls cs r).
Proof.
  revert n r. induction cs as [|c cs IH]; intros n r Hok Hn Hg Hu Hlt.
  - by rewrite Nat.add_0_r.
  - simpl in Hg. destruct Hg as [Hg Hrest]. inversion Hu; subst. simpl in Hlt |- *.
    rewrite Nat.add_succ_r. apply (IH (S n)); [by apply store_ok_step| |done|done|simpl; lia].
    apply call_numbers_ok; try done; [by apply ok_ids|lia].
Qed.

Lemma numbers_ok_new : numbers_ok 0 NewBuildRepository.
Proof. split; [done| |done]. intros jobID. unfold nextNumber. simpl.
  destruct (normalizeBuildJobID jobID); rewrite ?lookup_empty; simpl; lia.
Qed.

(** The calls of a second build of the example's (anonymous) job. *)
Definition ex_calls_two : list StoreCall :=
  ex_calls ++
  [CallCreateQueued "b2" (λ _, "s") 9 (zero_Build <| b_ProjectID := "q" |>) [];
   CallCreate "b3" (zero_Build <| b_Status := BuildStatusPending |> <| b_JobID := Some "j" |>)].

Lemma ex_two_guarded : run_guarded NewBuildRepository ex_calls_two.
Proof.
  unfold ex_calls_two, ex_calls. cbn [app run_guarded call_guard]. solve_guard.
Qed.


