(* ===== verification/Listings.v ===== *)
(** The listings of the build store: each is a function of the set of builds,
    whatever order Go iterates its map in, sorted as documented, and cut into
    pages without gaps (List, ListPaged, ListQueue and ListLatestByJobIDs of
    build_repository.go). *)

From stdpp Require Import base gmap strings list pretty sorting numbers.
From S2P Require Import Prelude GoLib Domain Repository BuildRepo BuildRepoFacts LifecycleSpec.
From S2P Require Import Lifecycle LifecycleThms.

Open Scope go_scope.
Open Scope Z_scope.

Implicit Types (r : BuildRepository) (build : Build).

(** ** Builds in some order *)

(** An order in which Go may hand out the builds of the map. *)
Definition iteration (r : BuildRepository) (l : list Build) : Prop := l ≡ₚ buildsInAnyOrder r.

Lemma elem_of_builds r build :
  build ∈ buildsInAnyOrder r ↔ ∃ id, br_builds r !! id = Some build.
Proof.
  unfold buildsInAnyOrder. rewrite list_elem_of_fmap. split.
  - intros ([id b] & -> & H%elem_of_map_to_list). eauto.
  - intros [id H%elem_of_map_to_list]. by exists (id, build).
Qed.

(** Builds stored under their own ids are told apart by them. *)
Lemma builds_id_inj r b b' :
  ids_ok r → b ∈ buildsInAnyOrder r → b' ∈ buildsInAnyOrder r → b_ID b = b_ID b' → b = b'.
Proof.
  intros Hids [id H]%elem_of_builds [id' H']%elem_of_builds E.
  rewrite (Hids _ _ H), (Hids _ _ H') in E. congruence.
Qed.

Lemma clone_builds (l : list Build) : cloneBuildApplicationVersion <$> l = l.
Proof. induction l as [|b l IH]; [done|].
  rewrite fmap_cons, clone_build_id. by f_equal.
Qed.

(** ** The order of a listing *)

Lemma buildNewestFirst_lex x y :
  buildNewestFirst x y =
  lex_less (λ x y, b_CreatedAt y <? b_CreatedAt x) (λ x y, string_lt (b_ID x) (b_ID y)) x y.
Proof.
  unfold buildNewestFirst, lex_less, Equal, After.
  destruct (Z.eqb_spec (b_CreatedAt x) (b_CreatedAt y)),
    (Z.ltb_spec (b_CreatedAt y) (b_CreatedAt x)), (Z.ltb_spec (b_CreatedAt x) (b_CreatedAt y));
    simpl; try done; lia.
Qed.

#[export] Instance buildNewestFirst_swo : StrictWeakOrder buildNewestFirst.
Proof.
  pose proof (lex_less_swo (λ x y : Build, b_CreatedAt y <? b_CreatedAt x)
    (λ x y, string_lt (b_ID x) (b_ID y)) _ _) as [Hi Ht Hc].
  split.
  - intros x. by rewrite buildNewestFirst_lex.
  - intros x y z. rewrite !buildNewestFirst_lex. apply Ht.
  - intros x y z. rewrite !buildNewestFirst_lex. apply Hc.
Qed.

Lemma buildNewestFirst_separates x y :
  buildNewestFirst x y = false → buildNewestFirst y x = false → b_ID x = b_ID y.
Proof.
  rewrite !buildNewestFirst_lex. intros H1 H2.
  destruct (lex_less_incomparable _ _ _ _ H1 H2) as [_ [??]]. by apply string_lt_antisym.
Qed.

(** Sorting what was selected from the map does not depend on its order. *)
Lemma sort_iteration less `{!StrictWeakOrder less} (P : Build → Prop) `{!∀ b, Decision (P b)} r l :
  (∀ x y, less x y = false → less y x = false → b_ID x = b_ID y) →
  ids_ok r → iteration r l →
  sort_slice less (filter P l) = sort_slice less (filter P (buildsInAnyOrder r)).
Proof.
  intros Hsep Hids Hl. apply sort_slice_perm_eq; [done| |by rewrite Hl].
  intros x y Hx Hy H1 H2. apply list_elem_of_filter in Hx as [_ Hx], Hy as [_ Hy].
  rewrite Hl in Hx, Hy. apply (builds_id_inj r); auto.
Qed.

(** *** The queue *)

Definition queuePriorityKey (b : Build) : Z :=
  if b_Status b == BuildStatusQueued then b_Priority b else 0.
Definition queueTimeKey (b : Build) : Z :=
  if b_Status b == BuildStatusQueued then queueOrderTime b else runningOrderTime b.

(** The queue order as a lexicographic one. *)
Definition queueOrder : Build → Build → bool :=
  lex_less (λ x y, queueStatusRank (b_Status x) <? queueStatusRank (b_Status y))
  (lex_less (λ x y, queuePriorityKey y <? queuePriorityKey x)
  (lex_less (λ x y, queueTimeKey x <? queueTimeKey y)
  (lex_less (λ x y, b_CreatedAt x <? b_CreatedAt y)
            (λ x y, string_lt (b_ID x) (b_ID y))))).

#[export] Instance queueOrder_swo : StrictWeakOrder queueOrder.
Proof. apply lex_less_swo; [apply _|]. repeat apply lex_less_swo; apply _. Qed.

Definition queue_status (b : Build) : Prop :=
  b_Status b = BuildStatusQueued ∨ b_Status b = BuildStatusRunning.

Lemma queueLess_order x y : queue_status x → queue_status y → queueLess x y = queueOrder x y.
Proof.
  unfold queueLess, queueOrder, queueTieBreak, lex_less, queuePriorityKey, queueTimeKey,
    Equal, Before.
  intros [Hx|Hx] [Hy|Hy]; rewrite Hx, Hy; simpl; try done.
  - destruct (bool_decide_reflect (b_Priority x = b_Priority y)) as [->|Hp]; simpl.
    + rewrite Z.ltb_irrefl. simpl.
      destruct (Z.eqb_spec (queueOrderTime x) (queueOrderTime y)) as [->|Ht]; simpl.
      * rewrite Z.ltb_irrefl. simpl.
        destruct (Z.eqb_spec (b_CreatedAt x) (b_CreatedAt y)) as [->|Hc]; simpl.
        -- by rewrite Z.ltb_irrefl.
        -- destruct (Z.ltb_spec (b_CreatedAt x) (b_CreatedAt y)),
             (Z.ltb_spec (b_CreatedAt y) (b_CreatedAt x)); simpl; try done; lia.
      * destruct (Z.ltb_spec (queueOrderTime x) (queueOrderTime y)),
          (Z.ltb_spec (queueOrderTime y) (queueOrderTime x)); simpl; try done; lia.
    + destruct (Z.ltb_spec (b_Priority x) (b_Priority y)),
        (Z.ltb_spec (b_Priority y) (b_Priority x)); simpl; try done; lia.
  - destruct (Z.eqb_spec (runningOrderTime x) (runningOrderTime y)) as [->|Ht]; simpl.
    + rewrite Z.ltb_irrefl. simpl.
      destruct (Z.eqb_spec (b_CreatedAt x) (b_CreatedAt y)) as [->|Hc]; simpl.
      * by rewrite Z.ltb_irrefl.
      * destruct (Z.ltb_spec (b_CreatedAt x) (b_CreatedAt y)),
          (Z.ltb_spec (b_CreatedAt y) (b_CreatedAt x)); simpl; try done; lia.
    + destruct (Z.ltb_spec (runningOrderTime x) (runningOrderTime y)),
        (Z.ltb_spec (runningOrderTime y) (runningOrderTime x)); simpl; try done; lia.
Qed.

Lemma queueOrder_separates x y :
  queueOrder x y = false → queueOrder y x = false → b_ID x = b_ID y.
Proof.
  unfold queueOrder. intros H1 H2.
  do 4 (destruct (lex_less_incomparable _ _ _ _ H1 H2) as [_ [H1' H2']]; clear H1 H2;
        rename H1' into H1; rename H2' into H2).
  by apply string_lt_antisym.
Qed.

Lemma queueSelected_status params b : queueSelected params b = true → queue_status b.
Proof.
  unfold queueSelected, queue_status. rewrite !andb_true_iff, orb_true_iff, !bool_decide_eq_true.
  tauto.
Qed.

Lemma selected_status params (l : list Build) :
  Forall queue_status (filter (λ b, Is_true (queueSelected params b)) l).
Proof.
  apply Forall_forall. intros b Hb. rewrite <-list_elem_of_In in Hb.
  apply list_elem_of_filter in Hb as [Hb%Is_true_eq_true _]. by eapply queueSelected_status.
Qed.

Lemma ListQueue_sorted_by_order params r :
  BuildRepository_ListQueue params r =
  sort_slice queueOrder (filter (λ b, Is_true (queueSelected params b)) (buildsInAnyOrder r)).
Proof.
  unfold BuildRepository_ListQueue. rewrite clone_builds.
  apply (sort_slice_ext queue_status); [apply queueLess_order|apply selected_status].
Qed.

(** *** Pages *)

Definition projectBuilds (projectID : string) (r : BuildRepository) : list Build :=
  if TrimSpace projectID != ""
  then filter (λ build, b_ProjectID build = projectID) (BuildRepository_List r)
  else BuildRepository_List r.

Lemma ClampPageParams_bounds params :
  1 ≤ (ClampPageParams params).1 ≤ MaxPageLimit ∧ 0 ≤ (ClampPageParams params).2.
Proof.
  unfold ClampPageParams, DefaultPageLimit, MaxPageLimit. simpl.
  destruct (Z.leb_spec (lp_Limit params) 0); simpl;
    repeat match goal with |- context [?a <? ?b] => destruct (Z.ltb_spec a b) end; simpl; lia.
Qed.

Lemma ListPaged_take params r :
  Z.of_nat (length (projectBuilds (lp_ProjectID params) r)) + MaxPageLimit ≤ max_int64 →
  BuildRepository_ListPaged params r =
  take (Z.to_nat (ClampPageParams params).1)
    (drop (Z.to_nat (ClampPageParams params).2) (projectBuilds (lp_ProjectID params) r)).
Proof.
  intros Hmax. unfold BuildRepository_ListPaged. fold (projectBuilds (lp_ProjectID params) r).
  set (all := projectBuilds _ r) in *.
  destruct (ClampPageParams_bounds params) as [[Hl1 Hl2] Ho].
  destruct (ClampPageParams params) as [limit offset]. simpl in *.
  destruct (Z.leb_spec (Z.of_nat (length all)) offset).
  { rewrite drop_ge by lia. by rewrite take_nil. }
  rewrite int64_add_id by (unfold is_int64, min_int64, MaxPageLimit in *; lia).
  destruct (Z.ltb_spec (Z.of_nat (length all)) (offset + limit)).
  - rewrite !take_ge; [done|rewrite length_drop; lia|rewrite length_drop; lia].
  - f_equal. lia.
Qed.

(** *** The latest build of a job *)

Lemma isLaterBuild_newest b b' : isLaterBuild b b' = buildNewestFirst b b'.
Proof.
  unfold isLaterBuild, buildNewestFirst, Equal, After.
  destruct (Z.eqb_spec (b_CreatedAt b) (b_CreatedAt b')) as [E|E]; simpl.
  - by rewrite E, Z.ltb_irrefl.
  - by rewrite orb_false_r.
Qed.

Section latest.
  Context (wanted : list string).

(** The invariant of the loop: the map holds, for every wanted job seen so far,
    a build of it no other seen build precedes. *)
Definition latest_ok (seen : list Build) (latest : gmap string Build) : Prop :=
  ∀ jobID b, latest !! jobID = Some b →
    jobID ∈ wanted ∧ b ∈ seen ∧ b_JobID b = Some jobID ∧
    ∀ b', b' ∈ seen → b_JobID b' = Some jobID → buildNewestFirst b' b = false.

Definition latest_complete (seen : list Build) (latest : gmap string Build) : Prop :=
  ∀ b jobID, b ∈ seen → b_JobID b = Some jobID → jobID ∈ wanted → is_Some (latest !! jobID).

Lemma latest_keep seen latest build :
  latest_ok seen latest → latest_complete seen latest →
  (∀ jobID, b_JobID build = Some jobID → jobID ∈ wanted →
    ∃ existing, latest !! jobID = Some existing ∧ buildNewestFirst build existing = false) →
  latest_ok (build :: seen) latest ∧ latest_complete (build :: seen) latest.
Proof.
  intros Hok Hcomp Hnew. split.
  - intros jobID b Hb. destruct (Hok jobID b Hb) as (Hw & ? & ? & Hlast).
    split_and!; [done|by right|done|]. intros b' [->|Hin]%elem_of_cons Hj; [|by auto].
    destruct (Hnew jobID Hj Hw) as (existing & He & Hn). congruence.
  - intros b jobID [->|Hin]%elem_of_cons Hj Hw; [|by eauto].
    destruct (Hnew jobID Hj Hw) as (existing & He & _). by eexists.
Qed.

Lemma latest_put seen latest build jobID :
  latest_ok seen latest → latest_complete seen latest →
  b_JobID build = Some jobID → jobID ∈ wanted →
  (∀ b, b ∈ seen → b_JobID b = Some jobID → buildNewestFirst b build = false) →
  latest_ok (build :: seen) (<[jobID := build]> latest) ∧
  latest_complete (build :: seen) (<[jobID := build]> latest).
Proof.
  intros Hok Hcomp Hj Hw Hlast. split.
  - intros jobID' b. rewrite lookup_insert_Some. intros [[<- <-]|[Hne Hb]].
    + split_and!; [done|by left|done|].
      intros b' [->|Hin]%elem_of_cons; [by rewrite less_irrefl|by auto].
    + destruct (Hok jobID' b Hb) as (? & ? & ? & Hlast'). split_and!; [done|by right|done|].
      intros b' [->|Hin]%elem_of_cons; [congruence|by auto].
  - intros b jobID' Hb Hj' Hw'. destruct (decide (jobID = jobID')) as [<-|Hne].
    + rewrite lookup_insert_eq. by eexists.
    + rewrite lookup_insert_ne by done. apply elem_of_cons in Hb as [->|Hin]; [congruence|eauto].
Qed.

Lemma keepLatest_step seen latest build :
  latest_ok seen latest → latest_complete seen latest →
  latest_ok (build :: seen) (keepLatest wanted latest build) ∧
  latest_complete (build :: seen) (keepLatest wanted latest build).
Proof.
  intros Hok Hcomp. unfold keepLatest.
  destruct (b_JobID build) as [job|] eqn:Ej; [|apply latest_keep; [done|done|congruence]].
  destruct (bool_decide_reflect (job ∈ wanted)) as [Hw|Hw]; simpl;
    [|apply latest_keep; [done|done|congruence]].
  rewrite clone_build_id. destruct (latest !! job) as [existing|] eqn:El.
  - destruct (Hok job existing El) as (_ & _ & _ & Hlast). rewrite isLaterBuild_newest.
    destruct (buildNewestFirst build existing) eqn:E.
    + apply latest_put; [done..|]. intros b Hb Hj. specialize (Hlast b Hb Hj).
      destruct (buildNewestFirst b build) eqn:E'; [|done].
      by rewrite (less_trans _ _ _ E' E) in Hlast.
    + apply latest_keep; [done|done|]. intros. simplify_eq. eauto.
  - apply latest_put; [done..|]. intros b Hb Hj. destruct (Hcomp b job Hb Hj Hw). congruence.
Qed.

Lemma keepLatest_loop l seen latest :
  latest_ok seen latest → latest_complete seen latest →
  latest_ok (reverse l ++ seen) (foldl (keepLatest wanted) latest l) ∧
  latest_complete (reverse l ++ seen) (foldl (keepLatest wanted) latest l).
Proof.
  revert seen latest. induction l as [|b l IH]; intros seen latest Hok Hcomp; [done|].
  rewrite reverse_cons, <-app_assoc. simpl. by apply IH; apply keepLatest_step.
Qed.
End latest.

(** The builds the loop ends with. *)
Lemma keepLatest_spec wanted l jobID b :
  (∀ x y, x ∈ l → y ∈ l → b_ID x = b_ID y → x = y) →
  foldl (keepLatest wanted) ∅ l !! jobID = Some b ↔
  jobID ∈ wanted ∧ b ∈ l ∧ b_JobID b = Some jobID ∧
  ∀ b', b' ∈ l → b_JobID b' = Some jobID → b' ≠ b → buildNewestFirst b b' = true.
Proof.
  intros Hinj. assert (latest_ok wanted [] ∅) as H0 by (intros j x; by rewrite lookup_empty).
  assert (latest_complete wanted [] ∅) as H1 by (intros x j Hx; by apply not_elem_of_nil in Hx).
  destruct (keepLatest_loop wanted l [] ∅ H0 H1) as [Hok Hcomp]. clear H0 H1.
  rewrite app_nil_r in Hok, Hcomp.
  assert (Hrev : ∀ x, x ∈ reverse l ↔ x ∈ l) by (intros x; by rewrite reverse_Permutation).
  assert (Hlatest : ∀ b1, foldl (keepLatest wanted) ∅ l !! jobID = Some b1 →
    jobID ∈ wanted ∧ b1 ∈ l ∧ b_JobID b1 = Some jobID ∧
    ∀ b', b' ∈ l → b_JobID b' = Some jobID → b' ≠ b1 → buildNewestFirst b1 b' = true).
  { intros b1 H1. destruct (Hok jobID b1 H1) as (Hw & Hin%Hrev & Hj & Hlast).
    split_and!; try done. intros b' Hb' Hj' Hne.
    destruct (buildNewestFirst b1 b') eqn:E; [done|]. destruct Hne. apply Hinj; [done..|].
    apply buildNewestFirst_separates; [|done]. by apply Hlast; [apply Hrev|]. }
  split; [apply Hlatest|]. intros (Hw & Hin & Hj & Hlast).
  destruct (Hcomp b jobID) as [b1 H1]; [by apply Hrev|done..|].
  destruct (Hlatest b1 H1) as (_ & Hin1 & Hj1 & Hlast1).
  destruct (decide (b_ID b1 = b_ID b)) as [E|Hid]; [by rewrite <-(Hinj b1 b)|].
  assert (Hne : b1 ≠ b) by congruence.
  specialize (Hlast b1 Hin1 Hj1 Hne). specialize (Hlast1 b Hin Hj (not_eq_sym Hne)).
  by rewrite (less_asym _ _ _ Hlast) in Hlast1.
Qed.

(** ** Properties *)

(** The pages of a listing cover it.  A page holds at most the clamped
    limit; pages taken one after the other, each [limit] further, are the
    listing without a gap or a repetition, and the page size is between 1 and
    200 whatever the caller asks for. *)
Theorem ListPaged_covers params limit n r :
  ClampPageParams (params <| lp_Offset := 0 |>) = (limit, 0) →
  Z.of_nat (length (projectBuilds (lp_ProjectID params) r)) + MaxPageLimit ≤ max_int64 →
  concat (map (λ k, BuildRepository_ListPaged (params <| lp_Offset := Z.of_nat k * limit |>) r)
    (seq 0 n)) =
  take (n * Z.to_nat limit) (projectBuilds (lp_ProjectID params) r) ∧
  1 ≤ limit ≤ MaxPageLimit.
Proof.
  intros Hc Hmax. pose proof (ClampPageParams_bounds (params <| lp_Offset := 0 |>)) as [Hl _].
  rewrite Hc in Hl. split; [|done]. simpl in Hl.
  assert (Hpage : ∀ k, BuildRepository_ListPaged (params <| lp_Offset := Z.of_nat k * limit |>) r
    = take (Z.to_nat limit) (drop (k * Z.to_nat limit) (projectBuilds (lp_ProjectID params) r))).
  { intros k. rewrite ListPaged_take by done.
    assert (ClampPageParams (params <| lp_Offset := Z.of_nat k * limit |>)
      = (limit, Z.of_nat k * limit)) as ->.
    { unfold ClampPageParams in *. simpl in *. injection Hc as Hc. rewrite Hc. f_equal.
      destruct (Z.ltb_spec (Z.of_nat k * limit) 0); [nia|done]. }
    simpl. by replace (Z.to_nat (Z.of_nat k * limit)) with (k * Z.to_nat limit)%nat by lia. }
  induction n as [|n IH]; [done|].
  rewrite seq_S, map_app, concat_app, IH. simpl. rewrite app_nil_r, Hpage.
  set (all := projectBuilds _ r). set (m := Z.to_nat limit).
  replace (m + n * m)%nat with (n * m + m)%nat by lia. by rewrite take_take_drop.
Qed.

Lemma ListPaged_covers_witness :
  concat (map (λ k, BuildRepository_ListPaged (mkListParams 500 (Z.of_nat k * 200) "") ex_running)
    (seq 0 1)) = BuildRepository_List ex_running.
Proof.
  destruct (ListPaged_covers (mkListParams 500 0 "") 200 1 ex_running) as [H _];
    [reflexivity|vm_compute; discriminate|].
  etransitivity; [exact H|vm_compute; reflexivity].
Defined.

(** The queue listing is a function of the stored builds.  In whatever order
    Go iterates the map, the entries are the queued and running builds that
    match the filters, queued ones first, by priority, then by the time they
    queued or started, then by creation and id. *)
Theorem ListQueue_deterministic params r l :
  ids_ok r → iteration r l →
  let queue := BuildRepository_ListQueue params r in
  queue = sort_slice queueLess
    (cloneBuildApplicationVersion <$> filter (λ b, Is_true (queueSelected params b)) l) ∧
  StronglySorted (not_after queueOrder) queue ∧
  (∀ b, b ∈ queue ↔ queueSelected params b = true ∧ ∃ id, br_builds r !! id = Some b) ∧
  (∀ x y, x ∈ queue → y ∈ queue → queueLess x y = queueOrder x y).
Proof.
  intros Hids Hl. cbv zeta. rewrite ListQueue_sorted_by_order, clone_builds.
  rewrite (sort_slice_ext queue_status queueLess queueOrder)
    by (apply queueLess_order || apply selected_status).
  rewrite (sort_iteration queueOrder (λ b, Is_true (queueSelected params b)) r l queueOrder_separates)
    by done.
  assert (Hin : ∀ b, b ∈ sort_slice queueOrder
    (filter (λ b, Is_true (queueSelected params b)) (buildsInAnyOrder r)) ↔
    queueSelected params b = true ∧ ∃ id, br_builds r !! id = Some b).
  { intros b. by rewrite elem_of_sort_slice, list_elem_of_filter, elem_of_builds, Is_true_true. }
  split_and!; [done|by apply sort_slice_sorted, _|done|].
  intros x y Hx%Hin Hy%Hin. apply queueLess_order; by eapply queueSelected_status, Hx || apply (queueSelected_status params), Hy.
Qed.

(** The latest builds of a set of jobs are found whatever order the map is
    iterated in: the entry of a job is its newest build (the smaller id between
    builds of one instant), and every wanted job that has a build has an entry. *)
Theorem ListLatestByJobIDs_spec jobIDs r l :
  ids_ok r → iteration r l →
  let wanted := filter (λ jobID, TrimSpace jobID ≠ "") jobIDs in
  let result := BuildRepository_ListLatestByJobIDs jobIDs r in
  result = foldl (keepLatest wanted) ∅ l ∧
  (∀ jobID b, result !! jobID = Some b ↔
    jobID ∈ wanted ∧ b ∈ l ∧ b_JobID b = Some jobID ∧
    ∀ b', b' ∈ l → b_JobID b' = Some jobID → b' ≠ b → buildNewestFirst b b' = true).
Proof.
  intros Hids Hl. cbv zeta. set (wanted := filter _ jobIDs).
  assert (Hinj : ∀ x y, x ∈ buildsInAnyOrder r → y ∈ buildsInAnyOrder r → b_ID x = b_ID y → x = y)
    by (intros; by apply (builds_id_inj r)).
  assert (Hres : BuildRepository_ListLatestByJobIDs jobIDs r =
    foldl (keepLatest wanted) ∅ (buildsInAnyOrder r)).
  { unfold BuildRepository_ListLatestByJobIDs. destruct jobIDs as [|j jobIDs]; [|done].
    rewrite bool_decide_eq_true_2 by done.
    symmetry. apply map_eq. intros jobID. rewrite lookup_empty.
    destruct (foldl _ _ _ !! _) as [b|] eqn:E; [|done].
    apply keepLatest_spec in E as [Hw _]; [|done]. by apply not_elem_of_nil in Hw. }
  assert (Hinj' : ∀ x y, x ∈ l → y ∈ l → b_ID x = b_ID y → x = y)
    by (intros x y; rewrite Hl; apply Hinj).
  assert (Heq : foldl (keepLatest wanted) ∅ l = foldl (keepLatest wanted) ∅ (buildsInAnyOrder r)).
  { apply map_eq. intros jobID. apply option_eq. intros b.
    rewrite !keepLatest_spec by done. by setoid_rewrite Hl. }
  rewrite Hres, <-Heq. split; [done|]. intros jobID b. by apply keepLatest_spec.
Qed.

(** *** Witnesses: the builds of the example handed out in the other order. *)

Definition ex_two : BuildRepository :=
  run_calls
    [CallCreateQueued "id" (λ _, "s") 5 (ex_build <| b_JobID := Some "j" |> <| b_Priority := 3 |>) [];
     CallCreateQueued "b2" (λ _, "s") 4 (zero_Build <| b_JobID := Some "j" |> <| b_Priority := 7 |>) []]
    NewBuildRepository.

Lemma ex_two_ids : ids_ok ex_two.
Proof.
  apply ok_ids, store_reachable_ok, run_calls_rtc. cbn [run_guarded call_guard]. solve_guard.
Qed.

Lemma ex_two_iteration : iteration ex_two (reverse (buildsInAnyOrder ex_two)).
Proof. apply reverse_Permutation. Qed.

Lemma ListQueue_deterministic_witness :
  b_ID <$> sort_slice queueLess (cloneBuildApplicationVersion <$>
    filter (λ b, Is_true (queueSelected (mkQueueListParams "" "") b))
      (reverse (buildsInAnyOrder ex_two))) = ["b2"; "b1"].
Proof.
  rewrite <-(proj1 (ListQueue_deterministic (mkQueueListParams "" "") ex_two _ ex_two_ids
    ex_two_iteration)).
  vm_compute. reflexivity.
Defined.

Lemma ListLatestByJobIDs_spec_witness :
  b_ID <$> foldl (keepLatest ["j"]) ∅ (reverse (buildsInAnyOrder ex_two)) !! "j" = Some "b1".
Proof.
  destruct (ListLatestByJobIDs_spec ["j"] ex_two _ ex_two_ids ex_two_iteration) as [H _].
  change (filter (λ jobID, TrimSpace jobID ≠ "") ["j"]) with ["j"] in H.
  rewrite <-H. vm_compute. reflexivity.
Defined.
