(* ===== verification/ExecJobRepo.v ===== *)
(** The in-memory store of execution jobs and of their outputs
    (backend/internal/repository/memory/execution_job_repository.go and
    execution_job_output_repository.go).

    A job is one attempt of a step.  Workers claim jobs here and complete a job
    and its step together.  As in BuildRepo.v a method is a function of the
    store; [ClaimNextRunnableJob] releases the lock while it reads the builds,
    so it takes the store of either critical section. *)

From stdpp Require Import base gmap strings list pretty sorting numbers.
From S2P Require Import Prelude GoLib Domain Repository BuildRepo.

Open Scope go_scope.
Open Scope Z_scope.

(** ** The builds a job store reads *)

(** What the job store asks of a build repository: [GetByID]. *)
Class BuildReader (B : Type) := build_GetByID : string → B → Build * option error.

#[export] Instance memory_BuildReader : BuildReader BuildRepository := BuildRepository_GetByID.

(** ** State *)

Record ExecutionJobRepository := mkExecutionJobRepository {
  ej_jobsByID : gmap string ExecutionJob;
  ej_jobsByStep : gmap string (list string);
  ej_jobsByBuild : gmap string (list string);
}.

#[export] Instance eta_ExecutionJobRepository : Eta ExecutionJobRepository := λ r,
  mkExecutionJobRepository (ej_jobsByID r) (ej_jobsByStep r) (ej_jobsByBuild r).

Definition NewExecutionJobRepository : ExecutionJobRepository := mkExecutionJobRepository ∅ ∅ ∅.

(** Where a build stands in the claim order. *)
Record buildClaimOrder := mkbuildClaimOrder {
  co_priority : Z;
  co_queuedAt : Time;
  co_status : BuildStatus;
}.

#[export] Instance eta_buildClaimOrder : Eta buildClaimOrder := λ o,
  mkbuildClaimOrder (co_priority o) (co_queuedAt o) (co_status o).

Definition zero_buildClaimOrder : buildClaimOrder :=
  mkbuildClaimOrder 0 zero_time (BuildStatusOther "").

Definition idsByStep (r : ExecutionJobRepository) (stepID : string) : list string :=
  default [] (ej_jobsByStep r !! stepID).
Definition idsByBuild (r : ExecutionJobRepository) (buildID : string) : list string :=
  default [] (ej_jobsByBuild r !! buildID).
Definition jobAt (r : ExecutionJobRepository) (id : string) : ExecutionJob :=
  default zero_ExecutionJob (ej_jobsByID r !! id).

(** ** Copies *)

Definition cloneArtifactRefs (refs : list ArtifactRef) : list ArtifactRef :=
  if bool_decide (length refs = 0%nat) then [] else refs.

Definition clonePhase (phase : ExecutionPhaseTiming) : ExecutionPhaseTiming :=
  mkExecutionPhaseTiming (pt_Name phase) (pt_StartedAt phase) (pt_FinishedAt phase).

Definition cloneExecutionTiming (timing : option ExecutionTiming) : option ExecutionTiming :=
  match timing with
  | None => None
  | Some phases => Some (clonePhase <$> phases)
  end.

Definition cloneExecutionJob (job : ExecutionJob) : ExecutionJob :=
  let job := job <| j_OutputRefs := cloneArtifactRefs (j_OutputRefs job) |> in
  job <| j_Timing := cloneExecutionTiming (j_Timing job) |>.

Definition normalizeAttemptNumber (value : Z) : Z := if value <? 1 then 1 else value.

(** ** Creation *)

Definition storeJob (r : ExecutionJobRepository) (job : ExecutionJob) : ExecutionJobRepository :=
  r <| ej_jobsByID := <[j_ID job := job]> (ej_jobsByID r) |>.

Definition jobBefore (left right : ExecutionJob) : bool :=
  if j_AttemptNumber left =? j_AttemptNumber right then
    if Equal (j_CreatedAt left) (j_CreatedAt right) then string_lt (j_ID left) (j_ID right)
    else Before (j_CreatedAt left) (j_CreatedAt right)
  else j_AttemptNumber left <? j_AttemptNumber right.

Definition jobBeforeInBuild (left right : ExecutionJob) : bool :=
  if j_StepIndex left =? j_StepIndex right then jobBefore left right
  else j_StepIndex left <? j_StepIndex right.

Definition sortBuild (buildID : string) (r : ExecutionJobRepository) : ExecutionJobRepository :=
  r <| ej_jobsByBuild := <[buildID :=
    sort_slice (λ i j, jobBeforeInBuild (jobAt r i) (jobAt r j)) (idsByBuild r buildID)]>
      (ej_jobsByBuild r) |>.

Definition sortStep (stepID : string) (r : ExecutionJobRepository) : ExecutionJobRepository :=
  r <| ej_jobsByStep := <[stepID :=
    sort_slice (λ i j, jobBefore (jobAt r i) (jobAt r j)) (idsByStep r stepID)]>
      (ej_jobsByStep r) |>.

(** The loop over the created jobs, with the builds and steps it has sorted. *)
Fixpoint sortBuildAndStepJobs (buildSeen stepSeen : list string) (jobs : list ExecutionJob)
    (r : ExecutionJobRepository) : ExecutionJobRepository :=
  match jobs with
  | [] => r
  | job :: rest =>
      let r := if bool_decide (j_BuildID job ∈ buildSeen) then r else sortBuild (j_BuildID job) r in
      let r := if bool_decide (j_StepID job ∈ stepSeen) then r else sortStep (j_StepID job) r in
      sortBuildAndStepJobs (j_BuildID job :: buildSeen) (j_StepID job :: stepSeen) rest r
  end.

Definition sortBuildAndStepJobsLocked (jobs : list ExecutionJob) (r : ExecutionJobRepository)
    : ExecutionJobRepository := sortBuildAndStepJobs [] [] jobs r.

Definition createdJob (job : ExecutionJob) : ExecutionJob :=
  let job := job <| j_AttemptNumber := normalizeAttemptNumber (j_AttemptNumber job) |> in
  if TrimSpace (j_NodeID job) == ""
  then job <| j_NodeID := FallbackNodeID (j_StepIndex job) |> else job.

(** A created job is stored and its id appended to the two indices. *)
Definition addJob (r : ExecutionJobRepository) (job : ExecutionJob) : ExecutionJobRepository :=
  let r := storeJob r (cloneExecutionJob job) in
  let r := r <| ej_jobsByStep := <[j_StepID job := idsByStep r (j_StepID job) ++ [j_ID job]]>
                                  (ej_jobsByStep r) |> in
  r <| ej_jobsByBuild := <[j_BuildID job := idsByBuild r (j_BuildID job) ++ [j_ID job]]>
                          (ej_jobsByBuild r) |>.

Definition CreateJobsForBuild (jobs : list ExecutionJob) (r : ExecutionJobRepository)
    : ExecutionJobRepository * list ExecutionJob :=
  let created := createdJob <$> jobs in
  let r := foldl addJob r created in
  (sortBuildAndStepJobsLocked jobs r, cloneExecutionJob <$> created).

(** ** Reads *)

Definition GetJobsByBuildID (buildID : string) (r : ExecutionJobRepository) : list ExecutionJob :=
  (λ id, cloneExecutionJob (jobAt r id)) <$> idsByBuild r buildID.

Definition GetJobByID (id : string) (r : ExecutionJobRepository) : ExecutionJob * option error :=
  match ej_jobsByID r !! id with
  | None => (zero_ExecutionJob, Some ErrExecutionJobNotFound)
  | Some job => (cloneExecutionJob job, None)
  end.

(** The last of the ids of a step is its latest attempt. *)
Definition GetJobByStepID (stepID : string) (r : ExecutionJobRepository)
    : ExecutionJob * option error :=
  match list.last (idsByStep r stepID) with
  | None => (zero_ExecutionJob, Some ErrExecutionJobNotFound)
  | Some id => (cloneExecutionJob (jobAt r id), None)
  end.

Definition GetJobTiming (jobID : string) (r : ExecutionJobRepository)
    : option ExecutionTiming * option error :=
  match ej_jobsByID r !! jobID with
  | None => (None, Some ErrExecutionJobNotFound)
  | Some job => (cloneExecutionTiming (j_Timing job), None)
  end.

Definition GetJobTimings (jobIDs : list string) (r : ExecutionJobRepository)
    : gmap string (option ExecutionTiming) :=
  foldl (λ timings jobID,
    match ej_jobsByID r !! jobID with
    | Some job =>
        match j_Timing job with
        | Some _ => <[jobID := cloneExecutionTiming (j_Timing job)]> timings
        | None => timings
        end
    | None => timings
    end) ∅ jobIDs.

(** ** Which jobs may run *)

Definition jobNodeID (job : ExecutionJob) : string :=
  let nodeID := TrimSpace (j_NodeID job) in
  if nodeID == "" then FallbackNodeID (j_StepIndex job) else nodeID.

(** Whether a job replaces the one found so far as the latest of its node. *)
Definition isLaterJob (job existing : ExecutionJob) : bool :=
  (j_AttemptNumber existing <? j_AttemptNumber job)
  || ((j_AttemptNumber job =? j_AttemptNumber existing)
      && After (j_CreatedAt job) (j_CreatedAt existing)).

Definition keepLatestJob (jobsByID : gmap string ExecutionJob)
    (latest : gmap string ExecutionJob) (id : string) : gmap string ExecutionJob :=
  match jobsByID !! id with
  | None => latest
  | Some job =>
      match latest !! jobNodeID job with
      | None => <[jobNodeID job := job]> latest
      | Some existing =>
          if isLaterJob job existing then <[jobNodeID job := job]> latest else latest
      end
  end.

Definition latestJobsByNodeID (jobIDs : list string) (jobsByID : gmap string ExecutionJob)
    : gmap string ExecutionJob := foldl (keepLatestJob jobsByID) ∅ jobIDs.

Definition isJobRunnable (job : ExecutionJob) (latestByNode : gmap string ExecutionJob) : bool :=
  forallb (λ dep,
    match latestByNode !! TrimSpace dep with
    | None => false
    | Some upstream => j_Status upstream == ExecutionJobStatusSuccess
    end) (j_DependsOnNodeIDs job).

Definition isClaimCandidate (job : ExecutionJob) (latestByNode : gmap string ExecutionJob)
    (now : Time) : bool :=
  if negb (isJobRunnable job latestByNode) then false
  else if j_Status job == ExecutionJobStatusQueued then true
  else (j_Status job == ExecutionJobStatusRunning)
       && match j_ClaimExpiresAt job with
          | None => false
          | Some expires => negb (After expires now)
          end.

(** ** Claims *)

(** The job a claim leaves behind. *)
Definition claimedJob (claim : StepClaim) (job : ExecutionJob) : ExecutionJob :=
  let job := job <| j_Status := ExecutionJobStatusRunning |> in
  let job := job <| j_ClaimedBy := Some (c_WorkerID claim) |> in
  let job := job <| j_ClaimToken := Some (c_ClaimToken claim) |> in
  let job := job <| j_ClaimExpiresAt := Some (c_LeaseExpiresAt claim) |> in
  match j_StartedAt job with
  | None => job <| j_StartedAt := Some (c_ClaimedAt claim) |>
  | Some _ => job
  end.

(** The jobs of the map in the order Go iterates it. *)
Definition jobsInAnyOrder (r : ExecutionJobRepository) : list ExecutionJob :=
  (map_to_list (ej_jobsByID r)).*2.

Definition latestOfBuild (r : ExecutionJobRepository) (buildID : string) : gmap string ExecutionJob :=
  latestJobsByNodeID (idsByBuild r buildID) (ej_jobsByID r).

Definition claimCandidatesLocked (now : Time) (r : ExecutionJobRepository) : list ExecutionJob :=
  filter (λ job, Is_true (isClaimCandidate job (latestOfBuild r (j_BuildID job)) now))
    (jobsInAnyOrder r).

Definition defaultBuildClaimOrder : buildClaimOrder :=
  mkbuildClaimOrder DefaultPriority zero_time BuildStatusRunning.

(** The order of one of the candidates' builds; without a build repository, or
    when the build cannot be read, it is the default one. *)
Definition buildClaimOrderOf `{!BuildReader B} (builds : option B) (buildID : string)
    : buildClaimOrder :=
  match builds with
  | None => defaultBuildClaimOrder
  | Some builds =>
      match build_GetByID buildID builds with
      | (_, Some _) => defaultBuildClaimOrder
      | (build, None) =>
          mkbuildClaimOrder (NormalizePriority (b_Priority build))
            (default (b_CreatedAt build) (b_QueuedAt build)) (b_Status build)
      end
  end.

Definition loadBuildClaimOrders `{!BuildReader B} (builds : option B) (buildIDs : list string)
    : gmap string buildClaimOrder :=
  list_to_map ((λ buildID, (buildID, buildClaimOrderOf builds buildID)) <$> buildIDs).

Definition orderOf (orders : gmap string buildClaimOrder) (buildID : string) : buildClaimOrder :=
  default zero_buildClaimOrder (orders !! buildID).

Definition candidateLess (orders : gmap string buildClaimOrder) (x y : ExecutionJob) : bool :=
  let left := orderOf orders (j_BuildID x) in
  let right := orderOf orders (j_BuildID y) in
  if negb (co_priority left =? co_priority right) then co_priority right <? co_priority left
  else if negb (Equal (co_queuedAt left) (co_queuedAt right))
  then Before (co_queuedAt left) (co_queuedAt right)
  else if Equal (j_CreatedAt x) (j_CreatedAt y) then
    if j_StepIndex x =? j_StepIndex y then
      if j_AttemptNumber x =? j_AttemptNumber y then string_lt (j_ID x) (j_ID y)
      else j_AttemptNumber x <? j_AttemptNumber y
    else j_StepIndex x <? j_StepIndex y
  else Before (j_CreatedAt x) (j_CreatedAt y).

Definition eligibleBuildStatus (status : BuildStatus) : bool :=
  (status == BuildStatusQueued) || (status == BuildStatusRunning).

(** The second critical section: the first candidate that can still be claimed. *)
Fixpoint claimFirst (orders : gmap string buildClaimOrder) (claim : StepClaim)
    (candidates : list ExecutionJob) (r : ExecutionJobRepository)
    : ExecutionJobRepository * (ExecutionJob * bool) :=
  match candidates with
  | [] => (r, (zero_ExecutionJob, false))
  | candidate :: rest =>
      if negb (eligibleBuildStatus (co_status (orderOf orders (j_BuildID candidate))))
      then claimFirst orders claim rest r
      else match ej_jobsByID r !! j_ID candidate with
      | None => claimFirst orders claim rest r
      | Some job =>
          if negb (isClaimCandidate job (latestOfBuild r (j_BuildID job)) (c_ClaimedAt claim))
          then claimFirst orders claim rest r
          else
            let job := claimedJob claim job in
            (storeJob r job, (cloneExecutionJob job, true))
      end
  end.

(** [r0] is the store of the first critical section, [r] that of the second. *)
Definition ClaimNextRunnableJob `{!BuildReader B} (builds : option B) (claim : StepClaim)
    (r0 r : ExecutionJobRepository)
    : ExecutionJobRepository * (ExecutionJob * bool) * option error :=
  let candidates := claimCandidatesLocked (c_ClaimedAt claim) r0 in
  if bool_decide (length candidates = 0%nat) then (r, (zero_ExecutionJob, false), None)
  else
    let buildOrders := loadBuildClaimOrders builds (j_BuildID <$> candidates) in
    let candidates := sort_slice (candidateLess buildOrders) candidates in
    (claimFirst buildOrders claim candidates r, None).

Definition ClaimJobByStepID `{!BuildReader B} (builds : option B) (stepID : string)
    (claim : StepClaim) (r : ExecutionJobRepository)
    : ExecutionJobRepository * (ExecutionJob * bool) * option error :=
  match list.last (idsByStep r stepID) with
  | None => (r, (zero_ExecutionJob, false), Some ErrExecutionJobNotFound)
  | Some id =>
      match ej_jobsByID r !! id with
      | None => (r, (zero_ExecutionJob, false), Some ErrExecutionJobNotFound)
      | Some job =>
          if (j_Status job != ExecutionJobStatusQueued) && (j_Status job != ExecutionJobStatusRunning)
          then (r, (cloneExecutionJob job, false), None)
          else
            let buildRuns :=
              match builds with
              | None => true
              | Some builds =>
                  match build_GetByID (j_BuildID job) builds with
                  | (_, Some _) => false
                  | (build, None) => b_Status build == BuildStatusRunning
                  end
              end in
            if negb buildRuns then (r, (cloneExecutionJob job, false), None)
            else
              let job := claimedJob claim job in
              (r <| ej_jobsByID := <[id := job]> (ej_jobsByID r) |>,
               (cloneExecutionJob job, true), None)
      end
  end.

(** ** Updates under a claim *)

(** What stands in the way of an update of a job under a claim. *)
Definition claimObstacle (job : ExecutionJob) (claimToken : string)
    : option StepCompletionOutcome :=
  if IsTerminalExecutionJobStatus (j_Status job) then Some StepCompletionDuplicateTerminal
  else if j_Status job != ExecutionJobStatusRunning then Some StepCompletionInvalidTransition
  else if j_ClaimToken job != Some claimToken then Some StepCompletionStaleClaim
  else None.

(** The common shape of [RenewJobLease], [UpdateJobTiming] and
    [completeJobLocked]: refuse, or store the updated job. *)
Definition updateClaimedJob (jobID claimToken : string) (update : ExecutionJob → ExecutionJob)
    (r : ExecutionJobRepository)
    : ExecutionJobRepository * (ExecutionJob * StepCompletionOutcome) * option error :=
  match ej_jobsByID r !! jobID with
  | None => (r, (zero_ExecutionJob, StepCompletionInvalidTransition), Some ErrExecutionJobNotFound)
  | Some job =>
      match claimObstacle job claimToken with
      | Some outcome => (r, (cloneExecutionJob job, outcome), None)
      | None =>
          let job := update job in
          (r <| ej_jobsByID := <[jobID := job]> (ej_jobsByID r) |>,
           (cloneExecutionJob job, StepCompletionCompleted), None)
      end
  end.

Definition RenewJobLease (jobID claimToken : string) (leaseExpiresAt : Time)
    (r : ExecutionJobRepository)
    : ExecutionJobRepository * (ExecutionJob * StepCompletionOutcome) * option error :=
  updateClaimedJob jobID claimToken
    (λ job, job <| j_ClaimExpiresAt := Some leaseExpiresAt |>) r.

Definition UpdateJobTiming (jobID claimToken : string) (timing : ExecutionTiming)
    (r : ExecutionJobRepository)
    : ExecutionJobRepository * (ExecutionJob * StepCompletionOutcome) * option error :=
  updateClaimedJob jobID claimToken
    (λ job, job <| j_Timing := cloneExecutionTiming (Some timing) |>) r.

(** The job a completion leaves behind. *)
Definition completedJob (finishedAt : Time) (status : ExecutionJobStatus)
    (errorMessage : option string) (failureKind : option ExecutionFailureKind)
    (exitCode : option Z) (outputRefs : list ArtifactRef) (job : ExecutionJob) : ExecutionJob :=
  let job := job <| j_Status := status |> in
  let job := job <| j_FinishedAt := Some finishedAt |> in
  let job := job <| j_ErrorMessage := errorMessage |> in
  let job := job <| j_FailureKind := failureKind |> in
  let job := job <| j_ExitCode := exitCode |> in
  let job := job <| j_OutputRefs := cloneArtifactRefs outputRefs |> in
  let job := job <| j_ClaimToken := None |> in
  let job := job <| j_ClaimedBy := None |> in
  job <| j_ClaimExpiresAt := None |>.

Definition completeJobLocked (jobID claimToken : string) (finishedAt : Time)
    (status : ExecutionJobStatus) (errorMessage : option string)
    (failureKind : option ExecutionFailureKind) (exitCode : option Z)
    (outputRefs : list ArtifactRef) (r : ExecutionJobRepository)
    : ExecutionJobRepository * (ExecutionJob * StepCompletionOutcome) * option error :=
  updateClaimedJob jobID claimToken
    (completedJob finishedAt status errorMessage failureKind exitCode outputRefs) r.

Definition CompleteJobSuccess (jobID claimToken : string) (finishedAt : Time) (exitCode : Z)
    (outputRefs : list ArtifactRef) (r : ExecutionJobRepository)
    : ExecutionJobRepository * (ExecutionJob * StepCompletionOutcome) * option error :=
  completeJobLocked jobID claimToken finishedAt ExecutionJobStatusSuccess None None
    (Some exitCode) outputRefs r.

Definition CompleteJobFailure (jobID claimToken : string) (finishedAt : Time)
    (errorMessage : string) (failureKind : ExecutionFailureKind) (exitCode : option Z)
    (outputRefs : list ArtifactRef) (r : ExecutionJobRepository)
    : ExecutionJobRepository * (ExecutionJob * StepCompletionOutcome) * option error :=
  completeJobLocked jobID claimToken finishedAt ExecutionJobStatusFailed (Some errorMessage)
    (Some failureKind) exitCode outputRefs r.

(** ** A job and its step together *)

(** The claim on the job is the caller's and its lease has not ended at [now]. *)
Definition liveClaim (now : Time) (claimToken : string) (job : ExecutionJob) : bool :=
  (j_Status job == ExecutionJobStatusRunning) && (j_ClaimToken job == Some claimToken)
  && match j_ClaimExpiresAt job with
     | None => false
     | Some expires => After expires now
     end.

(** The shape [CompleteSuccessfulStepAndJob] and [CompleteFailedStepAndJob]
    share; [builds] is [None] when the job store has no in-memory build store,
    [now1] and [now2] are the readings of the clock in either store, and
    [complete] completes the job. *)
Definition completeStepAndJob (now1 now2 : Time) (jobID claimToken : string)
    (stepRequest : CompleteStepRequest)
    (complete : ExecutionJobRepository →
      ExecutionJobRepository * (ExecutionJob * StepCompletionOutcome) * option error)
    (builds : option BuildRepository) (r : ExecutionJobRepository)
    : (ExecutionJobRepository * option BuildRepository)
      * (CompleteStepResult * ExecutionJob * StepCompletionOutcome) * option error :=
  match ej_jobsByID r !! jobID with
  | None => (r, builds, (zero_CompleteStepResult, zero_ExecutionJob,
               StepCompletionInvalidTransition), Some ErrExecutionJobNotFound)
  | Some job =>
      if IsTerminalExecutionJobStatus (j_Status job)
      then (r, builds, (zero_CompleteStepResult, cloneExecutionJob job,
              StepCompletionDuplicateTerminal), None)
      else if negb (liveClaim now1 claimToken job)
      then (r, builds, (zero_CompleteStepResult, cloneExecutionJob job,
              StepCompletionStaleClaim), None)
      else match builds with
      | None => (r, None, (zero_CompleteStepResult, zero_ExecutionJob,
                   StepCompletionInvalidTransition), Some ErrBuildNotFound)
      | Some b =>
          let '(b, stepResult, stepErr) := completeStepLocked now2 stepRequest b in
          match stepErr with
          | Some err => (r, Some b, (stepResult, zero_ExecutionJob, rs_Outcome stepResult), Some err)
          | None =>
              if rs_Outcome stepResult != StepCompletionCompleted
              then (r, Some b, (stepResult, zero_ExecutionJob, rs_Outcome stepResult), None)
              else
                let '(r, (jobResult, outcome), jobErr) := complete r in
                (r, Some b, (stepResult, jobResult, outcome), jobErr)
          end
      end
  end.

Definition CompleteSuccessfulStepAndJob (now1 now2 : Time)
    (request : CompleteSuccessfulStepAndJobRequest) (builds : option BuildRepository)
    (r : ExecutionJobRepository)
    : (ExecutionJobRepository * option BuildRepository)
      * (CompleteStepResult * ExecutionJob * StepCompletionOutcome) * option error :=
  completeStepAndJob now1 now2 (cs_JobID request) (cs_ClaimToken request) (cs_StepRequest request)
    (completeJobLocked (cs_JobID request) (cs_ClaimToken request) (cs_FinishedAt request)
       ExecutionJobStatusSuccess None None (Some (cs_ExitCode request)) []) builds r.

Definition CompleteFailedStepAndJob (now1 now2 : Time)
    (request : CompleteFailedStepAndJobRequest) (builds : option BuildRepository)
    (r : ExecutionJobRepository)
    : (ExecutionJobRepository * option BuildRepository)
      * (CompleteStepResult * ExecutionJob * StepCompletionOutcome) * option error :=
  completeStepAndJob now1 now2 (cf_JobID request) (cf_ClaimToken request) (cf_StepRequest request)
    (completeJobLocked (cf_JobID request) (cf_ClaimToken request) (cf_FinishedAt request)
       ExecutionJobStatusFailed (Some (cf_ErrorMessage request)) (Some (cf_FailureKind request))
       (cf_ExitCode request) []) builds r.

(** ** Cancellation *)

Definition canceledJob (reason : string) (canceledAt : Time) (job : ExecutionJob) : ExecutionJob :=
  let job := job <| j_Status := ExecutionJobStatusCanceled |> in
  let job := job <| j_FailureKind := None |> in
  let job := job <| j_ClaimToken := None |> in
  let job := job <| j_ClaimedBy := None |> in
  let job := job <| j_ClaimExpiresAt := None |> in
  let job := match j_StartedAt job with
             | None => job <| j_StartedAt := Some canceledAt |> | Some _ => job end in
  let job := match j_FinishedAt job with
             | None => job <| j_FinishedAt := Some canceledAt |> | Some _ => job end in
  if TrimSpace reason != "" then job <| j_ErrorMessage := Some (TrimSpace reason) |> else job.

Definition cancelJob (reason : string) (canceledAt : Time)
    (acc : ExecutionJobRepository * Z) (id : string) : ExecutionJobRepository * Z :=
  let '(r, updated) := acc in
  match ej_jobsByID r !! id with
  | None => (r, updated)
  | Some job =>
      if negb (CanCancelExecutionJob (j_Status job)) then (r, updated)
      else (r <| ej_jobsByID := <[id := canceledJob reason canceledAt job]> (ej_jobsByID r) |>,
            updated + 1)
  end.

Definition CancelJobsForBuild (buildID reason : string) (canceledAt : Time)
    (r : ExecutionJobRepository) : ExecutionJobRepository * Z :=
  foldl (cancelJob reason canceledAt) (r, 0) (idsByBuild r buildID).

(** ** Outputs *)

(** [ExecutionJobOutputStatus] is a string. *)
Abbreviation ExecutionJobOutputStatus := string (only parsing).
Definition ExecutionJobOutputStatusDeclared : ExecutionJobOutputStatus := "declared".
Definition ExecutionJobOutputStatusAvailable : ExecutionJobOutputStatus := "available".
Definition ExecutionJobOutputStatusMissing : ExecutionJobOutputStatus := "missing".

Record ExecutionJobOutput := mkExecutionJobOutput {
  jo_ID : string;
  jo_JobID : string;
  jo_BuildID : string;
  jo_Name : string;
  jo_Kind : string;
  jo_DeclaredPath : string;
  jo_DestinationURI : option string;
  jo_ContentType : option string;
  jo_SizeBytes : option Z;
  jo_Digest : option string;
  jo_Status : ExecutionJobOutputStatus;
  jo_CreatedAt : Time;
}.

Record ExecutionJobOutputRepository := mkExecutionJobOutputRepository {
  eo_outputsByID : gmap string ExecutionJobOutput;
  eo_outputsByBuild : gmap string (list string);
  eo_outputsByJob : gmap string (list string);
}.

#[export] Instance eta_ExecutionJobOutputRepository : Eta ExecutionJobOutputRepository := λ r,
  mkExecutionJobOutputRepository (eo_outputsByID r) (eo_outputsByBuild r) (eo_outputsByJob r).

Definition NewExecutionJobOutputRepository : ExecutionJobOutputRepository :=
  mkExecutionJobOutputRepository ∅ ∅ ∅.

Definition addOutput (r : ExecutionJobOutputRepository) (output : ExecutionJobOutput)
    : ExecutionJobOutputRepository :=
  let r := r <| eo_outputsByID := <[jo_ID output := output]> (eo_outputsByID r) |> in
  let r := r <| eo_outputsByBuild := <[jo_BuildID output :=
    default [] (eo_outputsByBuild r !! jo_BuildID output) ++ [jo_ID output]]>
      (eo_outputsByBuild r) |> in
  r <| eo_outputsByJob := <[jo_JobID output :=
    default [] (eo_outputsByJob r !! jo_JobID output) ++ [jo_ID output]]>
      (eo_outputsByJob r) |>.

Definition CreateMany (outputs : list ExecutionJobOutput) (r : ExecutionJobOutputRepository)
    : ExecutionJobOutputRepository * list ExecutionJobOutput :=
  (foldl addOutput r outputs, outputs).

Definition outputBefore (x y : ExecutionJobOutput) : bool :=
  if Equal (jo_CreatedAt x) (jo_CreatedAt y) then string_lt (jo_ID x) (jo_ID y)
  else Before (jo_CreatedAt x) (jo_CreatedAt y).

Definition collectOrdered (ids : list string) (r : ExecutionJobOutputRepository)
    : list ExecutionJobOutput :=
  sort_slice outputBefore (omap (λ id, eo_outputsByID r !! id) ids).

Definition ListByBuildID (buildID : string) (r : ExecutionJobOutputRepository)
    : list ExecutionJobOutput := collectOrdered (default [] (eo_outputsByBuild r !! buildID)) r.

Definition ListByJobID (jobID : string) (r : ExecutionJobOutputRepository)
    : list ExecutionJobOutput := collectOrdered (default [] (eo_outputsByJob r !! jobID)) r.
