(* ===== verification/ExecJobFacts.v ===== *)
(** Correctness of the job store: indices, claims, the life of a job, and the
    completion of a job together with its step. *)

From stdpp Require Import base gmap strings list pretty sorting numbers.
From S2P Require Import Prelude GoLib Domain Repository BuildRepo BuildRepoFacts LifecycleSpec.
From S2P Require Import Lifecycle LifecycleThms Leases ExecJobRepo.

Open Scope go_scope.
Open Scope Z_scope.

Implicit Types (r : ExecutionJobRepository) (b : BuildRepository) (job : ExecutionJob)
  (orders : gmap string buildClaimOrder) (claim : StepClaim).

(** ** Copies *)

Lemma clone_refs (refs : list ArtifactRef) : cloneArtifactRefs refs = refs.
Proof. unfold cloneArtifactRefs. case_bool_decide; [by destruct refs|done]. Qed.

Lemma clone_timing (timing : option ExecutionTiming) : cloneExecutionTiming timing = timing.
Proof.
  destruct timing as [l|]; [|done]. simpl. f_equal. rewrite <-(list_fmap_id l) at 2.
  apply list_fmap_ext. by intros ? [] ?.
Qed.

Lemma clone_job job : cloneExecutionJob job = job.
Proof. unfold cloneExecutionJob. rewrite clone_refs. simpl. rewrite clone_timing. by destruct job. Qed.

#[export] Hint Rewrite clone_refs clone_timing clone_job : go.

(** ** Orders *)

Lemma jobBefore_lex x y :
  jobBefore x y = lex_less (λ x y, j_AttemptNumber x <? j_AttemptNumber y)
    (lex_less (λ x y, j_CreatedAt x <? j_CreatedAt y) (λ x y, string_lt (j_ID x) (j_ID y))) x y.
Proof.
  unfold jobBefore, Equal, Before. lex_key j_AttemptNumber x y. by lex_key j_CreatedAt x y.
Qed.

Lemma jobBeforeInBuild_lex x y :
  jobBeforeInBuild x y = lex_less (λ x y, j_StepIndex x <? j_StepIndex y) jobBefore x y.
Proof. unfold jobBeforeInBuild. by lex_key j_StepIndex x y. Qed.

#[export] Instance jobBefore_swo : StrictWeakOrder jobBefore.
Proof. eapply swo_ext; [apply jobBefore_lex|]. repeat apply lex_less_swo; apply _. Qed.

#[export] Instance jobBeforeInBuild_swo : StrictWeakOrder jobBeforeInBuild.
Proof. eapply swo_ext; [apply jobBeforeInBuild_lex|]. apply lex_less_swo; apply _. Qed.

Definition orderPriority orders job : Z := co_priority (orderOf orders (j_BuildID job)).
Definition orderQueuedAt orders job : Z := co_queuedAt (orderOf orders (j_BuildID job)).

(** Candidates by the priority of their build (higher first), the time it was
    queued, then the creation, step, attempt and id of the job. *)
Definition candidateOrder orders : ExecutionJob → ExecutionJob → bool :=
  lex_less (λ x y, orderPriority orders y <? orderPriority orders x)
  (lex_less (λ x y, orderQueuedAt orders x <? orderQueuedAt orders y)
  (lex_less (λ x y, j_CreatedAt x <? j_CreatedAt y)
  (lex_less (λ x y, j_StepIndex x <? j_StepIndex y)
  (lex_less (λ x y, j_AttemptNumber x <? j_AttemptNumber y)
            (λ x y, string_lt (j_ID x) (j_ID y)))))).

Lemma candidateLess_lex orders x y : candidateLess orders x y = candidateOrder orders x y.
Proof.
  unfold candidateLess, candidateOrder, Equal, Before. rewrite !if_negb.
  fold (orderPriority orders x) (orderPriority orders y) (orderQueuedAt orders x)
    (orderQueuedAt orders y).
  lex_key (orderPriority orders) x y. lex_key (orderQueuedAt orders) x y.
  lex_key j_CreatedAt x y. lex_key j_StepIndex x y. by lex_key j_AttemptNumber x y.
Qed.

#[export] Instance candidateLess_swo orders : StrictWeakOrder (candidateLess orders).
Proof. eapply swo_ext; [apply candidateLess_lex|]. repeat apply lex_less_swo; apply _. Qed.

Lemma candidateLess_separates orders x y :
  candidateLess orders x y = false → candidateLess orders y x = false → j_ID x = j_ID y.
Proof.
  rewrite !candidateLess_lex. unfold candidateOrder. intros H1 H2.
  do 5 (destruct (lex_less_incomparable _ _ _ _ H1 H2) as [_ [H1' H2']]; clear H1 H2;
        rename H1' into H1; rename H2' into H2).
  by apply string_lt_antisym.
Qed.

(** ** Claims *)

(** Jobs are stored under their ids. *)
Definition jobs_ok (r : ExecutionJobRepository) : Prop :=
  ∀ id job, ej_jobsByID r !! id = Some job → j_ID job = id.

Definition claimableJob (now : Time) (r : ExecutionJobRepository) (job : ExecutionJob) : bool :=
  isClaimCandidate job (latestOfBuild r (j_BuildID job)) now.

(** Whether the second critical section takes a candidate. *)
Definition takes orders claim r (candidate : ExecutionJob) : bool :=
  eligibleBuildStatus (co_status (orderOf orders (j_BuildID candidate))) &&
  match ej_jobsByID r !! j_ID candidate with
  | None => false
  | Some job => claimableJob (c_ClaimedAt claim) r job
  end.

Lemma claimFirst_skip orders claim c candidates r :
  takes orders claim r c = false →
  claimFirst orders claim (c :: candidates) r = claimFirst orders claim candidates r.
Proof.
  unfold takes, claimableJob. cbn [claimFirst]. destruct (eligibleBuildStatus _); [|done]. simpl.
  destruct (ej_jobsByID r !! j_ID c) as [job|]; [|done]. intros Hc. by rewrite Hc.
Qed.

Lemma claimFirst_takes orders claim candidates r :
  match list_find (λ c, takes orders claim r c = true) candidates with
  | Some (_, c) => ∃ job, ej_jobsByID r !! j_ID c = Some job ∧
      claimableJob (c_ClaimedAt claim) r job = true ∧
      claimFirst orders claim candidates r =
        (storeJob r (claimedJob claim job), (claimedJob claim job, true))
  | None => claimFirst orders claim candidates r = (r, (zero_ExecutionJob, false))
  end.
Proof.
  induction candidates as [|c candidates IH]; [done|]. cbn [list_find].
  case_decide as Ht.
  - unfold takes, claimableJob in *. apply andb_true_iff in Ht as [He Hj].
    cbn [claimFirst]. rewrite He. simpl.
    destruct (ej_jobsByID r !! j_ID c) as [job|]; [|done]. rewrite Hj. simpl.
    exists job. by rewrite clone_job.
  - rewrite (claimFirst_skip orders claim c candidates r) by by apply not_true_is_false.
    by destruct (list_find _ candidates) as [[? ?]|].
Qed.

Lemma elem_of_jobs r job : job ∈ jobsInAnyOrder r ↔ ∃ id, ej_jobsByID r !! id = Some job.
Proof.
  unfold jobsInAnyOrder. rewrite list_elem_of_fmap. split.
  - intros ([id j] & -> & H%elem_of_map_to_list). eauto.
  - intros [id H%elem_of_map_to_list]. by exists (id, job).
Qed.

Lemma jobs_id_inj r x y :
  jobs_ok r → x ∈ jobsInAnyOrder r → y ∈ jobsInAnyOrder r → j_ID x = j_ID y → x = y.
Proof.
  intros Hok [id H]%elem_of_jobs [id' H']%elem_of_jobs E.
  rewrite (Hok _ _ H), (Hok _ _ H') in E. congruence.
Qed.

Lemma elem_of_candidates now r job :
  job ∈ claimCandidatesLocked now r ↔
  claimableJob now r job = true ∧ ∃ id, ej_jobsByID r !! id = Some job.
Proof. unfold claimCandidatesLocked. by rewrite list_elem_of_filter, elem_of_jobs, Is_true_true. Qed.

(** The call, with the candidates sorted once and for all. *)
Definition sortedCandidates `{!BuildReader B} (builds : option B) (claim : StepClaim)
    (r : ExecutionJobRepository) : list ExecutionJob :=
  let candidates := claimCandidatesLocked (c_ClaimedAt claim) r in
  sort_slice (candidateLess (loadBuildClaimOrders builds (j_BuildID <$> candidates))) candidates.

Definition candidateOrders `{!BuildReader B} (builds : option B) (claim : StepClaim)
    (r : ExecutionJobRepository) : gmap string buildClaimOrder :=
  loadBuildClaimOrders builds (j_BuildID <$> claimCandidatesLocked (c_ClaimedAt claim) r).

Lemma ClaimNextRunnableJob_first `{!BuildReader B} (builds : option B) claim r0 r :
  ClaimNextRunnableJob builds claim r0 r =
  (claimFirst (candidateOrders builds claim r0) claim (sortedCandidates builds claim r0) r, None).
Proof.
  unfold ClaimNextRunnableJob, sortedCandidates, candidateOrders.
  destruct (claimCandidatesLocked _ r0) eqn:E; done.
Qed.

(** The order of a candidate's build. *)
Lemma orderOf_loaded `{!BuildReader B} (builds : option B) (ids : list string) id :
  id ∈ ids → orderOf (loadBuildClaimOrders builds ids) id = buildClaimOrderOf builds id.
Proof.
  intros Hin. unfold orderOf, loadBuildClaimOrders. induction ids as [|id' ids IH].
  - by apply not_elem_of_nil in Hin.
  - cbn [fmap list_fmap list_to_map foldr]. simpl.
    destruct (decide (id' = id)) as [->|Hne]; [by rewrite lookup_insert_eq|].
    rewrite lookup_insert_ne by done. apply IH. apply elem_of_cons in Hin as [->|?]; done.
Qed.

Lemma takes_same `{!BuildReader B} (builds : option B) claim r c :
  jobs_ok r → c ∈ claimCandidatesLocked (c_ClaimedAt claim) r →
  takes (candidateOrders builds claim r) claim r c =
  eligibleBuildStatus (co_status (buildClaimOrderOf builds (j_BuildID c))).
Proof.
  intros Hok Hc. pose proof Hc as [Hcl [id Hid]]%elem_of_candidates.
  unfold takes, candidateOrders. rewrite orderOf_loaded by by apply list_elem_of_fmap_2.
  rewrite (Hok _ _ Hid), Hid, Hcl. apply andb_true_r.
Qed.

(** ** The life of a job *)

(** What never changes about a job. *)
Definition same_key (job job' : ExecutionJob) : Prop :=
  j_ID job' = j_ID job ∧ j_BuildID job' = j_BuildID job ∧ j_StepID job' = j_StepID job ∧
  j_NodeID job' = j_NodeID job ∧ j_DependsOnNodeIDs job' = j_DependsOnNodeIDs job ∧
  j_StepIndex job' = j_StepIndex job ∧ j_AttemptNumber job' = j_AttemptNumber job ∧
  j_CreatedAt job' = j_CreatedAt job.

(** How the status of a job may move: a queued job starts, a running one goes on
    (renewed or taken over), ends, and either may be canceled. *)
Definition job_transition (from to : ExecutionJobStatus) : bool :=
  match from with
  | ExecutionJobStatusQueued =>
      (to == ExecutionJobStatusRunning) || (to == ExecutionJobStatusCanceled)
  | ExecutionJobStatusRunning =>
      (to == ExecutionJobStatusRunning) || IsTerminalExecutionJobStatus to
  | _ => false
  end.

Inductive job_rel : option ExecutionJob → option ExecutionJob → Prop :=
  | jr_same o : job_rel o o
  | jr_move job job' :
      same_key job job' → job_transition (j_Status job) (j_Status job') = true →
      job_rel (Some job) (Some job').

(** The store after a call that creates no job. *)
Record jobs_move (r r' : ExecutionJobRepository) : Prop := {
  jm_step : ej_jobsByStep r' = ej_jobsByStep r;
  jm_build : ej_jobsByBuild r' = ej_jobsByBuild r;
  jm_jobs id : job_rel (ej_jobsByID r !! id) (ej_jobsByID r' !! id);
}.

Lemma jobs_move_refl r : jobs_move r r.
Proof. split; try done. intros id. apply jr_same. Qed.

Lemma jobs_move_insert r id job job' :
  ej_jobsByID r !! id = Some job → same_key job job' →
  job_transition (j_Status job) (j_Status job') = true →
  jobs_move r (r <| ej_jobsByID := <[id := job']> (ej_jobsByID r) |>).
Proof.
  intros Hj Hk Ht. split; [done|done|]. intros id'. simpl.
  destruct (decide (id = id')) as [<-|Hne].
  - rewrite Hj, lookup_insert_eq. by apply jr_move.
  - rewrite lookup_insert_ne by done. apply jr_same.
Qed.

Lemma claimedJob_key claim job :
  same_key job (claimedJob claim job) ∧ j_Status (claimedJob claim job) = ExecutionJobStatusRunning ∧
  j_ClaimToken (claimedJob claim job) = Some (c_ClaimToken claim) ∧
  j_ClaimExpiresAt (claimedJob claim job) = Some (c_LeaseExpiresAt claim).
Proof. unfold claimedJob, same_key. simpl. by destruct (j_StartedAt job). Qed.

Lemma canceledJob_key reason now job :
  same_key job (canceledJob reason now job) ∧
  j_Status (canceledJob reason now job) = ExecutionJobStatusCanceled.
Proof.
  unfold canceledJob.
  set (j1 := job <| j_Status := ExecutionJobStatusCanceled |> <| j_FailureKind := None |>
    <| j_ClaimToken := None |> <| j_ClaimedBy := None |> <| j_ClaimExpiresAt := None |>).
  set (j2 := match j_StartedAt j1 with None => j1 <| j_StartedAt := Some now |> | Some _ => j1 end).
  assert (H2 : same_key job j2 ∧ j_Status j2 = ExecutionJobStatusCanceled).
  { unfold j2. destruct (j_StartedAt j1); subst j1; destruct job; done. }
  clearbody j2. unfold same_key in *. destruct H2 as ((?&?&?&?&?&?&?&?) & ?).
  destruct (j_FinishedAt j2); destruct (TrimSpace reason != ""); simpl; by split_and!.
Qed.

Lemma completedJob_key finishedAt status message kind code refs job :
  same_key job (completedJob finishedAt status message kind code refs job) ∧
  j_Status (completedJob finishedAt status message kind code refs job) = status.
Proof. unfold completedJob. destruct job; by repeat split. Qed.

Lemma claimable_status now r job :
  claimableJob now r job = true →
  isJobRunnable job (latestOfBuild r (j_BuildID job)) = true ∧
  (j_Status job = ExecutionJobStatusQueued ∨
   j_Status job = ExecutionJobStatusRunning ∧
     ∃ expires, j_ClaimExpiresAt job = Some expires ∧ expires ≤ now).
Proof.
  unfold claimableJob, isClaimCandidate. destruct (isJobRunnable _ _); [|done]. simpl.
  destruct (bool_decide_reflect (j_Status job = ExecutionJobStatusQueued)); [by auto|].
  rewrite andb_true_iff, bool_decide_eq_true. intros [Hs He]. split; [done|right].
  split; [done|]. destruct (j_ClaimExpiresAt job) as [e|]; [|done]. exists e. split; [done|].
  unfold After in He. bool_to_prop. lia.
Qed.

Lemma claim_moves r id job claim :
  jobs_ok r → ej_jobsByID r !! id = Some job →
  j_Status job = ExecutionJobStatusQueued ∨ j_Status job = ExecutionJobStatusRunning →
  jobs_move r (r <| ej_jobsByID := <[id := claimedJob claim job]> (ej_jobsByID r) |>).
Proof.
  intros Hok Hj Hs. destruct (claimedJob_key claim job) as (Hk & Hst & _).
  apply jobs_move_insert with job; [done|done|]. rewrite Hst. by destruct Hs as [->| ->].
Qed.

Lemma ClaimNext_moves `{!BuildReader B} (builds : option B) claim r0 r :
  jobs_ok r → jobs_move r (ClaimNextRunnableJob builds claim r0 r).1.1.
Proof.
  intros Hok. rewrite ClaimNextRunnableJob_first. simpl.
  pose proof (claimFirst_takes (candidateOrders builds claim r0) claim
    (sortedCandidates builds claim r0) r) as H.
  destruct (list_find _ _) as [[k c]|]; [|rewrite H; apply jobs_move_refl].
  destruct H as (job & Hj & Hc & ->). simpl. unfold storeJob.
  destruct (claimedJob_key claim job) as ((-> & _) & _). rewrite (Hok _ _ Hj).
  apply claimable_status in Hc as [_ Hs]. apply claim_moves; [done|done|tauto].
Qed.

Lemma ClaimJobByStepID_moves `{!BuildReader B} (builds : option B) stepID claim r :
  jobs_ok r → jobs_move r (ClaimJobByStepID builds stepID claim r).1.1.
Proof.
  intros Hok. unfold ClaimJobByStepID.
  destruct (list.last _) as [id|]; [|apply jobs_move_refl].
  destruct (ej_jobsByID r !! id) as [job|] eqn:Hj; [|apply jobs_move_refl].
  destruct (_ && (j_Status job != ExecutionJobStatusRunning)) eqn:Hs; [apply jobs_move_refl|].
  match goal with |- context [if negb ?runs then _ else _] => destruct runs end;
    [|apply jobs_move_refl]. simpl.
  apply claim_moves; [done|done|].
  apply andb_false_iff in Hs as [Hs|Hs]; apply negb_false_iff, bool_decide_eq_true in Hs; auto.
Qed.

Lemma claimObstacle_None job token :
  claimObstacle job token = None ↔
  j_Status job = ExecutionJobStatusRunning ∧ j_ClaimToken job = Some token.
Proof.
  unfold claimObstacle. split.
  - destruct (IsTerminalExecutionJobStatus _); [done|].
    destruct (bool_decide_reflect (j_Status job = ExecutionJobStatusRunning)); [|done]. simpl.
    destruct (bool_decide_reflect (j_ClaimToken job = Some token)); done.
  - intros [Hs Ht]. rewrite Hs, Ht. simpl. by rewrite bool_decide_eq_true_2.
Qed.

Lemma updateClaimedJob_cases jobID token update r :
  (∃ job, ej_jobsByID r !! jobID = Some job ∧ j_Status job = ExecutionJobStatusRunning ∧
     j_ClaimToken job = Some token ∧
     updateClaimedJob jobID token update r =
       (r <| ej_jobsByID := <[jobID := update job]> (ej_jobsByID r) |>,
        (update job, StepCompletionCompleted), None)) ∨
  ((updateClaimedJob jobID token update r).1.1 = r ∧
   (updateClaimedJob jobID token update r).1.2.2 ≠ StepCompletionCompleted).
Proof.
  unfold updateClaimedJob. destruct (ej_jobsByID r !! jobID) as [job|] eqn:Hj; [|by right].
  destruct (claimObstacle job token) as [outcome|] eqn:Ho.
  - right. split; [done|]. unfold claimObstacle in Ho. by repeat case_match; simplify_eq/=.
  - apply claimObstacle_None in Ho as [Hs Ht]. left. exists job. by rewrite clone_job.
Qed.

Lemma updateClaimedJob_moves jobID token update r :
  (∀ job, same_key job (update job) ∧
    (j_Status job = ExecutionJobStatusRunning →
     job_transition ExecutionJobStatusRunning (j_Status (update job)) = true)) →
  jobs_move r (updateClaimedJob jobID token update r).1.1.
Proof.
  intros Hu. destruct (updateClaimedJob_cases jobID token update r)
    as [(job & Hj & Hs & _ & ->)|[-> _]]; [|apply jobs_move_refl]. simpl.
  destruct (Hu job) as [Hk Ht]. apply jobs_move_insert with job; [done|done|]. rewrite Hs. auto.
Qed.

Lemma completeJobLocked_moves jobID token finishedAt status message kind code refs r :
  IsTerminalExecutionJobStatus status = true →
  jobs_move r (completeJobLocked jobID token finishedAt status message kind code refs r).1.1.
Proof.
  intros Ht. apply updateClaimedJob_moves. intros job.
  destruct (completedJob_key finishedAt status message kind code refs job) as [Hk Hs].
  split; [done|]. intros _. rewrite Hs. simpl. rewrite Ht. apply orb_true_r.
Qed.
