(* ===== verification/ExecJobIndex.v ===== *)
(** The indices of the job store: each lists exactly the jobs of its build or
    step, once, in the documented order, after any sequence of calls. *)

From stdpp Require Import base gmap strings list pretty sorting numbers.
From S2P Require Import Prelude GoLib Domain Repository BuildRepo BuildRepoFacts LifecycleSpec.
From S2P Require Import Lifecycle LifecycleThms Leases ExecJobRepo ExecJobFacts.

Open Scope go_scope.
Open Scope Z_scope.

Implicit Types (r : ExecutionJobRepository) (job : ExecutionJob) (jobs : list ExecutionJob)
  (ids : list string).

(** ** The invariant *)

(** An index lists, once each, the ids of the jobs it is for. *)
Definition indexes (r : ExecutionJobRepository) (P : ExecutionJob → Prop) (ids : list string)
    : Prop :=
  NoDup ids ∧ ∀ id, id ∈ ids ↔ ∃ job, ej_jobsByID r !! id = Some job ∧ P job.

Definition sorted_ids (less : ExecutionJob → ExecutionJob → bool) (r : ExecutionJobRepository)
    (ids : list string) : Prop :=
  StronglySorted (not_after (λ i j, less (jobAt r i) (jobAt r j))) ids.

Record index_weak (r : ExecutionJobRepository) : Prop := {
  ix_jobs : jobs_ok r;
  ix_build buildID : indexes r (λ job, j_BuildID job = buildID) (idsByBuild r buildID);
  ix_step stepID : indexes r (λ job, j_StepID job = stepID) (idsByStep r stepID);
}.

Definition build_sorted r (buildID : string) : Prop :=
  sorted_ids jobBeforeInBuild r (idsByBuild r buildID).
Definition step_sorted r (stepID : string) : Prop := sorted_ids jobBefore r (idsByStep r stepID).

Record index_ok (r : ExecutionJobRepository) : Prop := {
  ok_weak : index_weak r;
  ok_build buildID : build_sorted r buildID;
  ok_step stepID : step_sorted r stepID;
}.

Lemma index_ok_new : index_ok NewExecutionJobRepository.
Proof.
  assert (Hnone : ∀ P, indexes NewExecutionJobRepository P []).
  { intros P. split; [apply NoDup_nil_2|]. intros id. split; [by intros ?%not_elem_of_nil|].
    intros (job & Hj & _). simpl in Hj. by rewrite lookup_empty in Hj. }
  split; [split|..].
  - intros id job Hj. simpl in Hj. by rewrite lookup_empty in Hj.
  - intros b. unfold idsByBuild. simpl. rewrite lookup_empty. apply Hnone.
  - intros s. unfold idsByStep. simpl. rewrite lookup_empty. apply Hnone.
  - intros b. unfold build_sorted, idsByBuild. simpl. rewrite lookup_empty. constructor.
  - intros s. unfold step_sorted, idsByStep. simpl. rewrite lookup_empty. constructor.
Qed.

(** ** Calls that create no job *)

Lemma job_rel_key r r' id : jobs_move r r' → same_key (jobAt r id) (jobAt r' id).
Proof.
  intros H. unfold jobAt. destruct (jm_jobs _ _ H id) as [o|job job' Hk _]; [|done].
  by repeat split.
Qed.

Lemma same_key_sym job job' : same_key job job' → same_key job' job.
Proof. unfold same_key. intuition congruence. Qed.

Lemma jobs_move_lookup r r' id (P : ExecutionJob → Prop) :
  (∀ j j', same_key j j' → P j ↔ P j') → jobs_move r r' →
  ((∃ job', ej_jobsByID r' !! id = Some job' ∧ P job') ↔
   ∃ job, ej_jobsByID r !! id = Some job ∧ P job).
Proof.
  intros HP H. pose proof (jm_jobs _ _ H id) as Hr.
  inversion Hr as [o E1 E2|j j' Hk Ht E1 E2]; subst.
  - done.
  - specialize (HP _ _ Hk). split; intros (x & E & Hx); simplify_eq; eexists; split; eauto; tauto.
Qed.

Lemma jobs_move_ok r r' : jobs_ok r → jobs_move r r' → jobs_ok r'.
Proof.
  intros Hok H id job' Hj'. pose proof (jm_jobs _ _ H id) as Hr. rewrite Hj' in Hr.
  inversion Hr as [o E1 E2|j j' Hk Ht E1 E2]; subst; [by apply Hok|].
  destruct Hk as (-> & _). by apply Hok.
Qed.

Lemma indexes_move r r' P ids :
  (∀ j j', same_key j j' → P j ↔ P j') → jobs_move r r' → indexes r P ids → indexes r' P ids.
Proof.
  intros HP H [Hn Hi]. split; [done|]. intros id. rewrite Hi. symmetry.
  by apply jobs_move_lookup.
Qed.

(** An order that reads the key of a job only. *)
Lemma sorted_move less r r' ids :
  (∀ x y x' y', same_key x x' → same_key y y' → less x y = less x' y') →
  jobs_move r r' → sorted_ids less r ids → sorted_ids less r' ids.
Proof.
  intros Hless H. apply StronglySorted_weaken. intros i j _ _. unfold not_after.
  by rewrite (Hless _ _ (jobAt r' j) (jobAt r' i)) by by apply job_rel_key.
Qed.

Lemma jobBefore_key x y x' y' :
  same_key x x' → same_key y y' → jobBefore x y = jobBefore x' y'.
Proof.
  intros (Hi & _ & _ & _ & _ & _ & Ha & Hc) (Hi' & _ & _ & _ & _ & _ & Ha' & Hc').
  unfold jobBefore. by rewrite Hi, Ha, Hc, Hi', Ha', Hc'.
Qed.

Lemma jobBeforeInBuild_key x y x' y' :
  same_key x x' → same_key y y' → jobBeforeInBuild x y = jobBeforeInBuild x' y'.
Proof.
  intros Hx Hy. unfold jobBeforeInBuild. rewrite (jobBefore_key x y x' y') by done.
  destruct Hx as (_ & _ & _ & _ & _ & -> & _), Hy as (_ & _ & _ & _ & _ & -> & _). done.
Qed.

Lemma index_ok_move r r' : index_ok r → jobs_move r r' → index_ok r'.
Proof.
  intros [[Hj Hb Hs] Hbs Hss] H.
  assert (Eb : ∀ b, idsByBuild r' b = idsByBuild r b) by (intros b; unfold idsByBuild; by rewrite (jm_build _ _ H)).
  assert (Es : ∀ s, idsByStep r' s = idsByStep r s) by (intros s; unfold idsByStep; by rewrite (jm_step _ _ H)).
  split; [split|..].
  - by eapply jobs_move_ok.
  - intros b. rewrite Eb. eapply indexes_move; [|done|done]. intros j j' (_ & -> & _). done.
  - intros s. rewrite Es. eapply indexes_move; [|done|done]. intros j j' (_ & _ & -> & _). done.
  - intros b. unfold build_sorted. rewrite Eb. eapply sorted_move; [apply jobBeforeInBuild_key|done|apply Hbs].
  - intros s. unfold step_sorted. rewrite Es. eapply sorted_move; [apply jobBefore_key|done|apply Hss].
Qed.

(** ** Creation *)

Lemma createdJob_key job :
  j_ID (createdJob job) = j_ID job ∧ j_BuildID (createdJob job) = j_BuildID job ∧
  j_StepID (createdJob job) = j_StepID job.
Proof. unfold createdJob. simpl. by destruct (TrimSpace (j_NodeID job) == ""). Qed.

Section addJob.
  Context (r : ExecutionJobRepository) (job : ExecutionJob).
  Context (Hfresh : ej_jobsByID r !! j_ID job = None).

Lemma addJob_jobs : ej_jobsByID (addJob r job) = <[j_ID job := job]> (ej_jobsByID r).
Proof. unfold addJob, storeJob. simpl. by rewrite clone_job. Qed.

Lemma addJob_build b :
  idsByBuild (addJob r job) b =
  if decide (j_BuildID job = b) then idsByBuild r b ++ [j_ID job] else idsByBuild r b.
Proof.
  unfold addJob, idsByBuild at 1. simpl. rewrite lookup_insert.
  by case_decide as E; [subst|].
Qed.

Lemma addJob_step s :
  idsByStep (addJob r job) s =
  if decide (j_StepID job = s) then idsByStep r s ++ [j_ID job] else idsByStep r s.
Proof.
  unfold addJob, idsByStep at 1. simpl. rewrite lookup_insert.
  by case_decide as E; [subst|].
Qed.

Lemma indexes_add (P : ExecutionJob → Prop) `{!Decision (P job)} ids :
  indexes r P ids →
  indexes (addJob r job) P (if decide (P job) then ids ++ [j_ID job] else ids).
Proof.
  intros [Hn Hi]. assert (Hnot : j_ID job ∉ ids).
  { rewrite Hi. intros (j & Hj & _). congruence. }
  assert (Hadd : ∀ id, (∃ j, ej_jobsByID (addJob r job) !! id = Some j ∧ P j) ↔
    id = j_ID job ∧ P job ∨ id ∈ ids).
  { intros id. rewrite addJob_jobs. destruct (decide (id = j_ID job)) as [->|Hne].
    - rewrite lookup_insert_eq. split; [intros (j & [= <-] & Hp); auto|].
      intros [[_ Hp]|]; [by exists job|done].
    - rewrite lookup_insert_ne by done. rewrite Hi. naive_solver. }
  split.
  - case_decide; [|done]. apply list.NoDup_app. split_and!; [done| |apply NoDup_singleton].
    intros x Hx Hx'%list_elem_of_singleton. by subst.
  - intros id. rewrite Hadd. case_decide as Hp; [rewrite elem_of_app, list_elem_of_singleton|]; tauto.
Qed.

Lemma index_weak_add : index_weak r → index_weak (addJob r job).
Proof.
  intros [Hj Hb Hs]. split.
  - intros id j. rewrite addJob_jobs, lookup_insert_Some. intros [[<- <-]|[_ H]]; auto.
  - intros b. rewrite addJob_build. by apply indexes_add.
  - intros s. rewrite addJob_step. by apply indexes_add.
Qed.

Lemma sorted_add less P ids :
  indexes r P ids → sorted_ids less r ids → sorted_ids less (addJob r job) ids.
Proof.
  intros [_ Hi]. apply StronglySorted_weaken. intros i j Hx Hy. unfold not_after.
  assert (Hat : ∀ id, id ∈ ids → jobAt (addJob r job) id = jobAt r id).
  { intros id (x & Hj & _)%Hi. unfold jobAt. rewrite addJob_jobs, lookup_insert_ne; congruence. }
  by rewrite !Hat.
Qed.
End addJob.

(** The other orders of the indices survive an added job. *)
Lemma addJob_build_sorted r job b :
  ej_jobsByID r !! j_ID job = None → index_weak r → build_sorted r b → j_BuildID job ≠ b →
  build_sorted (addJob r job) b.
Proof.
  intros Hf Hw Hs Hne. unfold build_sorted. rewrite addJob_build, decide_False by done.
  eapply sorted_add; [done|apply (ix_build _ Hw)|done].
Qed.

Lemma addJob_step_sorted r job s :
  ej_jobsByID r !! j_ID job = None → index_weak r → step_sorted r s → j_StepID job ≠ s →
  step_sorted (addJob r job) s.
Proof.
  intros Hf Hw Hs Hne. unfold step_sorted. rewrite addJob_step, decide_False by done.
  eapply sorted_add; [done|apply (ix_step _ Hw)|done].
Qed.

(** The created jobs are new. *)
Definition fresh_jobs (r : ExecutionJobRepository) (jobs : list ExecutionJob) : Prop :=
  NoDup (j_ID <$> jobs) ∧ ∀ job, job ∈ jobs → ej_jobsByID r !! j_ID job = None.

Lemma fresh_jobs_cons r job jobs :
  fresh_jobs r (job :: jobs) →
  ej_jobsByID r !! j_ID job = None ∧ fresh_jobs (addJob r job) jobs.
Proof.
  intros [Hn Hf]. rewrite fmap_cons, list.NoDup_cons in Hn. destruct Hn as [Hnot Hn].
  split; [apply Hf; by left|]. split; [done|]. intros j Hj. rewrite addJob_jobs.
  rewrite lookup_insert_ne; [apply Hf; by right|]. intros E. apply Hnot. rewrite E.
  by apply list_elem_of_fmap_2.
Qed.

(** Which indices may be out of order after the jobs were added. *)
Definition sorted_except (r : ExecutionJobRepository) (jobs : list ExecutionJob) : Prop :=
  (∀ b, build_sorted r b ∨ b ∈ j_BuildID <$> jobs) ∧
  (∀ s, step_sorted r s ∨ s ∈ j_StepID <$> jobs).

Lemma addJobs_weak jobs r done_jobs :
  fresh_jobs r jobs → index_weak r → sorted_except r done_jobs →
  index_weak (foldl addJob r jobs) ∧
  sorted_except (foldl addJob r jobs) (jobs ++ done_jobs).
Proof.
  revert r done_jobs. induction jobs as [|job jobs IH]; intros r done_jobs Hf Hw Hs; [done|].
  destruct (fresh_jobs_cons r job jobs Hf) as [Hnew Hf']. simpl.
  destruct (IH (addJob r job) (job :: done_jobs)) as [Hw' [Hb' Hs']];
    [done|by apply index_weak_add| |].
  - destruct Hs as [Hb Hs]. split.
    + intros b. destruct (decide (j_BuildID job = b)) as [<-|Hne]; [right; by left|].
      destruct (Hb b); [left; by apply addJob_build_sorted|right; by right].
    + intros s. destruct (decide (j_StepID job = s)) as [<-|Hne]; [right; by left|].
      destruct (Hs s); [left; by apply addJob_step_sorted|right; by right].
  - split; [done|]. split.
    + intros b. destruct (Hb' b) as [|Hin]; [by left|right].
      rewrite fmap_app, fmap_cons in Hin. rewrite fmap_cons, fmap_app. set_solver.
    + intros s. destruct (Hs' s) as [|Hin]; [by left|right].
      rewrite fmap_app, fmap_cons in Hin. rewrite fmap_cons, fmap_app. set_solver.
Qed.

(** Sorting one index: the same ids, in order; nothing else changes. *)
Lemma sortBuild_build r b b' :
  idsByBuild (sortBuild b r) b' =
  if decide (b = b') then sort_slice (λ i j, jobBeforeInBuild (jobAt r i) (jobAt r j)) (idsByBuild r b)
  else idsByBuild r b'.
Proof.
  unfold sortBuild, idsByBuild at 1. simpl. rewrite lookup_insert. by case_decide.
Qed.

Lemma sortStep_step r s s' :
  idsByStep (sortStep s r) s' =
  if decide (s = s') then sort_slice (λ i j, jobBefore (jobAt r i) (jobAt r j)) (idsByStep r s)
  else idsByStep r s'.
Proof.
  unfold sortStep, idsByStep at 1. simpl. rewrite lookup_insert. by case_decide.
Qed.

Lemma indexes_perm r P ids ids' : ids ≡ₚ ids' → indexes r P ids → indexes r P ids'.
Proof. intros Hp [Hn Hi]. split; [by rewrite <-Hp|]. intros id. by rewrite <-Hp. Qed.

Lemma sortBuild_spec b r :
  index_weak r →
  index_weak (sortBuild b r) ∧ build_sorted (sortBuild b r) b ∧
  (∀ b', build_sorted r b' → build_sorted (sortBuild b r) b') ∧
  (∀ s, step_sorted r s → step_sorted (sortBuild b r) s).
Proof.
  intros [Hj Hb Hs].
  assert (Hsort : build_sorted (sortBuild b r) b).
  { unfold build_sorted. rewrite sortBuild_build, decide_True by done.
    apply (sort_slice_sorted (λ i j, jobBeforeInBuild (jobAt r i) (jobAt r j))
      (StrictWeakOrder0 := swo_map (jobAt r) jobBeforeInBuild _)). }
  split_and!; [split|..]; try done.
  - intros b'. rewrite sortBuild_build. case_decide as E; [subst|by apply Hb].
    apply (indexes_perm _ _ (idsByBuild r b')); [by rewrite sort_slice_perm|apply Hb].
  - intros b' Hb'. destruct (decide (b = b')) as [<-|Hne]; [done|].
    unfold build_sorted. by rewrite sortBuild_build, decide_False.
Qed.

Lemma sortStep_spec s r :
  index_weak r →
  index_weak (sortStep s r) ∧ step_sorted (sortStep s r) s ∧
  (∀ s', step_sorted r s' → step_sorted (sortStep s r) s') ∧
  (∀ b, build_sorted r b → build_sorted (sortStep s r) b).
Proof.
  intros [Hj Hb Hs].
  assert (Hsort : step_sorted (sortStep s r) s).
  { unfold step_sorted. rewrite sortStep_step, decide_True by done.
    apply (sort_slice_sorted (λ i j, jobBefore (jobAt r i) (jobAt r j))
      (StrictWeakOrder0 := swo_map (jobAt r) jobBefore _)). }
  split_and!; [split|..]; try done.
  - intros s'. rewrite sortStep_step. case_decide as E; [subst|by apply Hs].
    apply (indexes_perm _ _ (idsByStep r s')); [by rewrite sort_slice_perm|apply Hs].
  - intros s' Hs'. destruct (decide (s = s')) as [<-|Hne]; [done|].
    unfold step_sorted. by rewrite sortStep_step, decide_False.
Qed.

(** The loop sorts what the created jobs left out of order. *)
Lemma sortBuildAndStepJobs_spec jobs bs ss r :
  index_weak r →
  (∀ b, build_sorted r b ∨ ((b ∉ bs) ∧ b ∈ (j_BuildID <$> jobs))) →
  (∀ s, step_sorted r s ∨ ((s ∉ ss) ∧ s ∈ (j_StepID <$> jobs))) →
  index_ok (sortBuildAndStepJobs bs ss jobs r).
Proof.
  revert bs ss r. induction jobs as [|job jobs IH]; intros bs ss r Hw Hb Hs; cbn [sortBuildAndStepJobs].
  - split; [done|..].
    + intros b. destruct (Hb b) as [|[_ ?%not_elem_of_nil]]; done.
    + intros s. destruct (Hs s) as [|[_ ?%not_elem_of_nil]]; done.
  - set (r1 := if bool_decide (j_BuildID job ∈ bs) then r else sortBuild (j_BuildID job) r).
    assert (H1 : index_weak r1 ∧ (build_sorted r1 (j_BuildID job)) ∧
      (∀ b, build_sorted r b → build_sorted r1 b) ∧ (∀ s, step_sorted r s → step_sorted r1 s)).
    { unfold r1. case_bool_decide as Hin; [|by apply sortBuild_spec]. split_and!; try done.
      destruct (Hb (j_BuildID job)) as [|[? _]]; done. }
    clearbody r1. destruct H1 as (Hw1 & Hnow1 & Hb1 & Hs1).
    set (r2 := if bool_decide (j_StepID job ∈ ss) then r1 else sortStep (j_StepID job) r1).
    assert (H2 : index_weak r2 ∧ (step_sorted r2 (j_StepID job)) ∧
      (∀ s, step_sorted r1 s → step_sorted r2 s) ∧ (∀ b, build_sorted r1 b → build_sorted r2 b)).
    { unfold r2. case_bool_decide as Hin; [|by apply sortStep_spec]. split_and!; try done.
      destruct (Hs (j_StepID job)) as [|[? _]]; [by apply Hs1|done]. }
    clearbody r2. destruct H2 as (Hw2 & Hnow2 & Hs2 & Hb2).
    apply IH; [done|..].
    + intros b. destruct (Hb b) as [|[Hnot Hin]]; [left; auto|].
      destruct (decide (b = j_BuildID job)) as [->|Hne]; [left; auto|right].
      rewrite fmap_cons in Hin. set_solver.
    + intros s. destruct (Hs s) as [|[Hnot Hin]]; [left; auto|].
      destruct (decide (s = j_StepID job)) as [->|Hne]; [left; auto|right].
      rewrite fmap_cons in Hin. set_solver.
Qed.

Lemma created_ids jobs :
  j_ID <$> (createdJob <$> jobs) = j_ID <$> jobs ∧
  j_BuildID <$> (createdJob <$> jobs) = j_BuildID <$> jobs ∧
  j_StepID <$> (createdJob <$> jobs) = j_StepID <$> jobs.
Proof.
  rewrite <-!list_fmap_compose. split_and!; apply list_fmap_ext; intros _ job _; simpl;
    apply createdJob_key.
Qed.

Lemma CreateJobs_index_ok jobs r :
  index_ok r → fresh_jobs r jobs → index_ok (CreateJobsForBuild jobs r).1.
Proof.
  intros [Hw Hb Hs] [Hn Hf]. destruct (created_ids jobs) as (Ei & Eb & Es).
  assert (Hf' : fresh_jobs r (createdJob <$> jobs)).
  { split; [by rewrite Ei|]. intros j (j0 & -> & Hj)%list_elem_of_fmap.
    destruct (createdJob_key j0) as (-> & _). auto. }
  destruct (addJobs_weak _ r [] Hf' Hw) as [Hw' [Hb' Hs']]; [split; by left|].
  rewrite app_nil_r, Eb, Es in *.
  unfold CreateJobsForBuild, sortBuildAndStepJobsLocked. simpl.
  apply sortBuildAndStepJobs_spec; [done|..].
  - intros b. destruct (Hb' b) as [|?]; [by left|right]. split; [apply not_elem_of_nil|done].
  - intros s. destruct (Hs' s) as [|?]; [by left|right]. split; [apply not_elem_of_nil|done].
Qed.
