(* ===== verification/ExecJobThms.v ===== *)
(** The properties of the job store under any sequence of its calls, and the
    completion of a job together with its step. *)

From stdpp Require Import base gmap strings list pretty sorting numbers.
From S2P Require Import Prelude GoLib Domain Repository BuildRepo BuildRepoFacts LifecycleSpec.
From S2P Require Import Lifecycle LifecycleThms Leases ExecJobRepo ExecJobFacts ExecJobIndex.

Open Scope go_scope.
Open Scope Z_scope.

Implicit Types (r : ExecutionJobRepository) (b : BuildRepository) (job : ExecutionJob)
  (jobs : list ExecutionJob) (claim : StepClaim).

(** ** A job and its step together *)

(** The common contract of the two joint completions, [completed] being the job
    they leave behind. *)
Lemma completeStepAndJob_cases now1 now2 jobID token stepRequest completed b r :
  let complete := updateClaimedJob jobID token completed in
  let result := completeStepAndJob now1 now2 jobID token stepRequest complete (Some b) r in
  (∃ job build idx step,
     ej_jobsByID r !! jobID = Some job ∧ liveClaim now1 token job = true ∧
     acceptable b stepRequest build idx step ∧
     result.1.1.1 = r <| ej_jobsByID := <[jobID := completed job]> (ej_jobsByID r) |> ∧
     result.1.1.2 = Some (BuildRepository_CompleteStep now2 stepRequest b).1.1 ∧
     rs_Outcome result.1.2.1.1 = StepCompletionCompleted ∧
     result.1.2.2 = StepCompletionCompleted ∧ result.2 = None) ∨
  (result.1.1 = (r, Some b) ∧ result.1.2.2 ≠ StepCompletionCompleted).
Proof.
  cbv zeta. unfold completeStepAndJob. destruct (ej_jobsByID r !! jobID) as [job|] eqn:Hj.
  2: { right. done. }
  destruct (IsTerminalExecutionJobStatus (j_Status job)) eqn:Ht; [by right|].
  destruct (liveClaim now1 token job) eqn:Hl; [|by right]. simpl.
  destruct (acceptable_or b stepRequest) as [(build & idx & step & H)|Hno].
  - destruct (completeStep_accepted now2 stepRequest b build idx step H) as (build' & _ & E).
    unfold BuildRepository_CompleteStep. rewrite E. simpl.
    destruct (updateClaimedJob_cases jobID token completed r)
      as [(job' & Hj' & Hs & Htok & ->)|[_ Hne]].
    + left. exists job, build, idx, step. simplify_eq. by split_and!.
    + exfalso. apply Hne. unfold liveClaim in Hl. bool_to_prop.
      unfold updateClaimedJob. rewrite Hj. by rewrite (proj2 (claimObstacle_None job token)).
  - right. destruct (completeStep_rejected now2 stepRequest b Hno) as [E1 E2].
    destruct (completeStepLocked now2 stepRequest b) as [[b' res] err]. simpl in E1, E2. subst b'.
    destruct err; [done|]. by rewrite bool_decide_eq_false_2.
Qed.

(** ** Calls of the job store *)

Inductive JobCall :=
  | JobCreate (jobs : list ExecutionJob)
  | JobClaimNext (builds : option BuildRepository) (claim : StepClaim) (r0 : ExecutionJobRepository)
  | JobClaimByStep (builds : option BuildRepository) (stepID : string) (claim : StepClaim)
  | JobRenew (jobID token : string) (lease : Time)
  | JobTiming (jobID token : string) (timing : ExecutionTiming)
  | JobSuccess (jobID token : string) (now : Time) (exitCode : Z) (refs : list ArtifactRef)
  | JobFailure (jobID token : string) (now : Time) (message : string) (kind : ExecutionFailureKind)
      (exitCode : option Z) (refs : list ArtifactRef)
  | JobStepSuccess (now1 now2 : Time) (request : CompleteSuccessfulStepAndJobRequest)
      (builds : option BuildRepository)
  | JobStepFailure (now1 now2 : Time) (request : CompleteFailedStepAndJobRequest)
      (builds : option BuildRepository)
  | JobCancel (buildID reason : string) (now : Time).

Definition run_job_call (c : JobCall) (r : ExecutionJobRepository) : ExecutionJobRepository :=
  match c with
  | JobCreate jobs => (CreateJobsForBuild jobs r).1
  | JobClaimNext builds claim r0 => (ClaimNextRunnableJob builds claim r0 r).1.1
  | JobClaimByStep builds stepID claim => (ClaimJobByStepID builds stepID claim r).1.1
  | JobRenew jobID token lease => (RenewJobLease jobID token lease r).1.1
  | JobTiming jobID token timing => (UpdateJobTiming jobID token timing r).1.1
  | JobSuccess jobID token now exitCode refs =>
      (CompleteJobSuccess jobID token now exitCode refs r).1.1
  | JobFailure jobID token now message kind exitCode refs =>
      (CompleteJobFailure jobID token now message kind exitCode refs r).1.1
  | JobStepSuccess now1 now2 request builds =>
      (CompleteSuccessfulStepAndJob now1 now2 request builds r).1.1.1
  | JobStepFailure now1 now2 request builds =>
      (CompleteFailedStepAndJob now1 now2 request builds r).1.1.1
  | JobCancel buildID reason now => (CancelJobsForBuild buildID reason now r).1
  end.

(** Jobs are created with ids of their own. *)
Definition job_guard (r : ExecutionJobRepository) (c : JobCall) : Prop :=
  match c with JobCreate jobs => fresh_jobs r jobs | _ => True end.

Definition job_step (r r' : ExecutionJobRepository) : Prop :=
  ∃ c, job_guard r c ∧ r' = run_job_call c r.

Definition jobs_reachable (r : ExecutionJobRepository) : Prop :=
  rtc job_step NewExecutionJobRepository r.

(** *** Every call moves the jobs along their life *)

Lemma jobs_move_updateJob r jobID token update builds now1 now2 stepRequest :
  (∀ job, same_key job (update job) ∧
    (j_Status job = ExecutionJobStatusRunning →
     job_transition ExecutionJobStatusRunning (j_Status (update job)) = true)) →
  jobs_move r (completeStepAndJob now1 now2 jobID token stepRequest
    (updateClaimedJob jobID token update) builds r).1.1.1.
Proof.
  intros Hu. destruct builds as [b|].
  - destruct (completeStepAndJob_cases now1 now2 jobID token stepRequest update b r)
      as [(job & build & idx & step & Hj & Hl & _ & -> & _)|[-> _]]; [|apply jobs_move_refl].
    destruct (Hu job) as [Hk Ht]. apply jobs_move_insert with job; [done|done|].
    unfold liveClaim in Hl. bool_to_prop.
    match goal with H : j_Status job = _ |- _ => rewrite H in * end. auto.
  - unfold completeStepAndJob. destruct (ej_jobsByID r !! jobID); [|apply jobs_move_refl].
    destruct (IsTerminalExecutionJobStatus _); [apply jobs_move_refl|].
    destruct (liveClaim _ _ _); apply jobs_move_refl.
Qed.

Lemma completed_moves status now message kind code refs :
  IsTerminalExecutionJobStatus status = true →
  ∀ job, same_key job (completedJob now status message kind code refs job) ∧
    (j_Status job = ExecutionJobStatusRunning →
     job_transition ExecutionJobStatusRunning
       (j_Status (completedJob now status message kind code refs job)) = true).
Proof.
  intros Ht job. destruct (completedJob_key now status message kind code refs job) as [Hk Hs].
  split; [done|]. intros _. rewrite Hs. simpl. rewrite Ht. apply orb_true_r.
Qed.

(** What a cancellation makes of the job at an id, and whether it counts. *)
Definition canceled_at (reason : string) (now : Time) (o : option ExecutionJob)
    : option ExecutionJob :=
  match o with
  | Some job => if CanCancelExecutionJob (j_Status job) then Some (canceledJob reason now job) else o
  | None => None
  end.

Definition can_cancel_at (r : ExecutionJobRepository) (id : string) : bool :=
  match ej_jobsByID r !! id with
  | Some job => CanCancelExecutionJob (j_Status job)
  | None => false
  end.

Lemma cancelJob_one reason now r n i :
  let '(r', n') := cancelJob reason now (r, n) i in
  (∀ id, ej_jobsByID r' !! id =
    if decide (id = i) then canceled_at reason now (ej_jobsByID r !! id) else ej_jobsByID r !! id) ∧
  ej_jobsByStep r' = ej_jobsByStep r ∧ ej_jobsByBuild r' = ej_jobsByBuild r ∧
  n' = n + (if can_cancel_at r i then 1 else 0).
Proof.
  unfold cancelJob, canceled_at, can_cancel_at.
  destruct (ej_jobsByID r !! i) as [job|] eqn:Ej.
  - destruct (CanCancelExecutionJob (j_Status job)) eqn:Ec; simpl; split_and!; try done; try lia;
      intros id; destruct (decide (id = i)) as [->|Hne]; rewrite ?Ej, ?Ec; try done.
    + by rewrite lookup_insert_eq.
    + by rewrite lookup_insert_ne.
  - split_and!; try done; try lia. intros id.
    destruct (decide (id = i)) as [->|Hne]; [by rewrite Ej|done].
Qed.

(** The cancellation loop, over distinct ids. *)
Lemma cancelJobs_spec reason now ids r n :
  NoDup ids →
  let '(r', n') := foldl (cancelJob reason now) (r, n) ids in
  (∀ id, ej_jobsByID r' !! id =
    if decide (id ∈ ids) then canceled_at reason now (ej_jobsByID r !! id)
    else ej_jobsByID r !! id) ∧
  ej_jobsByStep r' = ej_jobsByStep r ∧ ej_jobsByBuild r' = ej_jobsByBuild r ∧
  n' = n + Z.of_nat (length (filter (λ id, can_cancel_at r id = true) ids)).
Proof.
  revert r n. induction ids as [|i ids IH]; intros r n Hn.
  - cbn [foldl]. split_and!; [|done|done|simpl; lia]. intros id.
    destruct (decide (id ∈ [])) as [H|]; [by apply not_elem_of_nil in H|done].
  - apply list.NoDup_cons in Hn as [Hnot Hn]. cbn [foldl].
    pose proof (cancelJob_one reason now r n i) as H1.
    destruct (cancelJob reason now (r, n) i) as [r1 n1]. destruct H1 as (Hj1 & Hs1 & Hb1 & ->).
    specialize (IH r1 (n + (if can_cancel_at r i then 1 else 0)) Hn).
    destruct (foldl _ _ ids) as [r' n']. destruct IH as (Hj & -> & -> & ->).
    split_and!; [|done|done|].
    + intros id. rewrite Hj, Hj1. destruct (decide (id = i)) as [->|Hne].
      * by rewrite decide_False, decide_True by (done || left).
      * destruct (decide (id ∈ ids)); [rewrite decide_True|rewrite decide_False]; set_solver.
    + rewrite filter_cons.
      rewrite (filter_elem_ext (λ id, can_cancel_at r1 id = true) (λ id, can_cancel_at r id = true) ids).
      2: { intros id Hid. unfold can_cancel_at. rewrite Hj1, decide_False; [done|]. by intros ->. }
      case_decide as Ec; [rewrite Ec; simpl; lia|].
      apply not_true_is_false in Ec. rewrite Ec. lia.
Qed.

Lemma canceled_at_rel reason now o : job_rel o (canceled_at reason now o).
Proof.
  destruct o as [job|]; [|apply jr_same]. simpl.
  destruct (CanCancelExecutionJob (j_Status job)) eqn:E; [|apply jr_same].
  destruct (canceledJob_key reason now job) as [Hk Hs]. apply jr_move; [done|]. rewrite Hs.
  unfold CanCancelExecutionJob in E. rewrite orb_true_iff, !bool_decide_eq_true in E.
  by destruct E as [->| ->].
Qed.

Lemma CancelJobs_moves buildID reason now r :
  index_ok r → jobs_move r (CancelJobsForBuild buildID reason now r).1.
Proof.
  intros Hok. destruct (ix_build _ (ok_weak _ Hok) buildID) as [Hn _].
  pose proof (cancelJobs_spec reason now (idsByBuild r buildID) r 0 Hn) as H.
  unfold CancelJobsForBuild. destruct (foldl _ _ _) as [r' n']. destruct H as (Hj & Hs & Hb & _).
  split; [done|done|]. intros id. simpl. rewrite Hj.
  destruct (decide _); [apply canceled_at_rel|apply jr_same].
Qed.

Lemma job_call_move r c :
  index_ok r → match c with JobCreate _ => True | _ => jobs_move r (run_job_call c r) end.
Proof.
  intros Hok. pose proof (ix_jobs _ (ok_weak _ Hok)) as Hj. destruct c; simpl; try done.
  - by apply ClaimNext_moves.
  - by apply ClaimJobByStepID_moves.
  - apply updateClaimedJob_moves. intros job. split; [by repeat split|].
    intros Hs. simpl. rewrite Hs. done.
  - apply updateClaimedJob_moves. intros job. split; [by repeat split|].
    intros Hs. simpl. rewrite Hs. done.
  - by apply completeJobLocked_moves.
  - by apply completeJobLocked_moves.
  - by apply jobs_move_updateJob, completed_moves.
  - by apply jobs_move_updateJob, completed_moves.
  - by apply CancelJobs_moves.
Qed.

Lemma job_call_ok r c : index_ok r → job_guard r c → index_ok (run_job_call c r).
Proof.
  intros Hok Hg. pose proof (job_call_move r c Hok) as Hm.
  destruct c; try by apply (index_ok_move r). by apply CreateJobs_index_ok.
Qed.

Lemma jobs_reachable_ok r : jobs_reachable r → index_ok r.
Proof.
  intros H. unfold jobs_reachable in H. revert r H. apply rtc_ind_r.
  - apply index_ok_new.
  - intros r1 r2 _ (c & Hg & ->) Hok. by apply job_call_ok.
Qed.

(** Creation leaves the other jobs alone. *)
Lemma sortJobs_jobs jobs bs ss r :
  ej_jobsByID (sortBuildAndStepJobs bs ss jobs r) = ej_jobsByID r.
Proof.
  revert bs ss r. induction jobs as [|job jobs IH]; intros bs ss r; [done|].
  cbn [sortBuildAndStepJobs]. rewrite IH. by repeat case_bool_decide.
Qed.

Lemma addJobs_lookup jobs r id job :
  (∀ j, j ∈ jobs → j_ID j ≠ id) → ej_jobsByID r !! id = Some job →
  ej_jobsByID (foldl addJob r jobs) !! id = Some job.
Proof.
  revert r. induction jobs as [|j jobs IH]; intros r Hne Hj; [done|]. simpl.
  apply IH; [intros; apply Hne; by right|]. rewrite addJob_jobs.
  rewrite lookup_insert_ne; [done|apply Hne; by left].
Qed.

(** ** The example: two jobs of the running build, the first claimed *)

Definition ex_job (id step node : string) (i : Z) (deps : list string) : ExecutionJob :=
  zero_ExecutionJob <| j_ID := id |> <| j_BuildID := "b1" |> <| j_StepID := step |>
    <| j_NodeID := node |> <| j_StepIndex := i |> <| j_DependsOnNodeIDs := deps |>
    <| j_Status := ExecutionJobStatusQueued |>.

Definition ex_jobs_created : ExecutionJobRepository :=
  run_job_call (JobCreate [ex_job "j2" "s2" "b" 1 ["a"]; ex_job "j1" "s1" "a" 0 []])
    NewExecutionJobRepository.

(** The example build while both steps are pending. *)
Definition ex_pending : BuildRepository := run_calls (take 3 ex_calls) NewBuildRepository.

Definition ex_jobs_claimed : ExecutionJobRepository :=
  run_job_call (JobClaimNext (Some ex_pending) (ex_claim "t1" 3 100) ex_jobs_created) ex_jobs_created.

Definition ex_joint : CompleteSuccessfulStepAndJobRequest :=
  mkCompleteSuccessfulStepAndJobRequest "j1" "t1" 5 0 (ex_request 0 "t1" BuildStepStatusSuccess).

Definition ex_joint_failed : CompleteFailedStepAndJobRequest :=
  mkCompleteFailedStepAndJobRequest "j1" "t1" 5 "boom" ExecutionFailureKindExecution (Some 1)
    (ex_request 0 "t1" BuildStepStatusFailed).

Lemma ex_jobs_created_step : job_step NewExecutionJobRepository ex_jobs_created.
Proof.
  eexists. split; [|reflexivity]. split.
  - change (NoDup ["j2"; "j1"]). rewrite !list.NoDup_cons, not_elem_of_cons.
    split_and!; [done|apply not_elem_of_nil|apply not_elem_of_nil|apply NoDup_nil_2].
  - intros job _. apply lookup_empty.
Qed.

Lemma ex_jobs_created_reachable : jobs_reachable ex_jobs_created.
Proof. apply rtc_once, ex_jobs_created_step. Qed.

Lemma ex_jobs_claimed_reachable : jobs_reachable ex_jobs_claimed.
Proof.
  eapply rtc_r; [exact ex_jobs_created_reachable|].
  exists (JobClaimNext (Some ex_pending) (ex_claim "t1" 3 100) ex_jobs_created).
  split; [exact I|reflexivity].
Qed.

Example ex_jobs_claimed_j1 :
  j_ClaimToken <$> ej_jobsByID ex_jobs_claimed !! "j1" = Some (Some "t1").
Proof. vm_compute. reflexivity. Qed.

(** ** Properties *)

(** A job and its step complete together or not at all.  The joint
    completion of a success or of a failure either completes both, for a live
    claim on the job and an acceptable request on the step, exactly as the
    build store's own completion does; or it changes neither store and does
    not report that it completed. *)
Theorem step_and_job_complete_together now1 now2 (success : CompleteSuccessfulStepAndJobRequest)
    (failure : CompleteFailedStepAndJobRequest) b r :
  let atomic jobID token stepRequest status
      (result : (ExecutionJobRepository * option BuildRepository) *
        (CompleteStepResult * ExecutionJob * StepCompletionOutcome) * option error) :=
    (∃ job job' build idx step,
       ej_jobsByID r !! jobID = Some job ∧ liveClaim now1 token job = true ∧
       acceptable b stepRequest build idx step ∧
       same_key job job' ∧ j_Status job' = status ∧
       result.1.1 = (r <| ej_jobsByID := <[jobID := job']> (ej_jobsByID r) |>,
                     Some (BuildRepository_CompleteStep now2 stepRequest b).1.1) ∧
       result.1.2.2 = StepCompletionCompleted ∧ result.2 = None) ∨
    (result.1.1 = (r, Some b) ∧ result.1.2.2 ≠ StepCompletionCompleted) in
  atomic (cs_JobID success) (cs_ClaimToken success) (cs_StepRequest success)
    ExecutionJobStatusSuccess (CompleteSuccessfulStepAndJob now1 now2 success (Some b) r) ∧
  atomic (cf_JobID failure) (cf_ClaimToken failure) (cf_StepRequest failure)
    ExecutionJobStatusFailed (CompleteFailedStepAndJob now1 now2 failure (Some b) r).
Proof.
  cbv zeta. split.
  - destruct (completeStepAndJob_cases now1 now2 (cs_JobID success) (cs_ClaimToken success)
      (cs_StepRequest success) (completedJob (cs_FinishedAt success) ExecutionJobStatusSuccess None
      None (Some (cs_ExitCode success)) []) b r)
      as [(job & build & idx & step & Hj & Hl & Ha & E1 & E2 & _ & Ho & He)|H]; [left|by right].
    eexists job, _, build, idx, step.
    destruct (completedJob_key (cs_FinishedAt success) ExecutionJobStatusSuccess None None
      (Some (cs_ExitCode success)) [] job) as [Hk Hs].
    split_and!; [done|done|done|exact Hk|exact Hs| |exact Ho|exact He].
    rewrite (surjective_pairing _.1.1). by f_equal.
  - destruct (completeStepAndJob_cases now1 now2 (cf_JobID failure) (cf_ClaimToken failure)
      (cf_StepRequest failure) (completedJob (cf_FinishedAt failure) ExecutionJobStatusFailed
      (Some (cf_ErrorMessage failure)) (Some (cf_FailureKind failure)) (cf_ExitCode failure) []) b r)
      as [(job & build & idx & step & Hj & Hl & Ha & E1 & E2 & _ & Ho & He)|H]; [left|by right].
    eexists job, _, build, idx, step.
    destruct (completedJob_key (cf_FinishedAt failure) ExecutionJobStatusFailed
      (Some (cf_ErrorMessage failure)) (Some (cf_FailureKind failure)) (cf_ExitCode failure) [] job)
      as [Hk Hs].
    split_and!; [done|done|done|exact Hk|exact Hs| |exact Ho|exact He].
    rewrite (surjective_pairing _.1.1). by f_equal.
Qed.

Lemma isJobRunnable_true job (latest : gmap string ExecutionJob) :
  isJobRunnable job latest = true ↔
  ∀ dep, dep ∈ j_DependsOnNodeIDs job →
    ∃ upstream, latest !! TrimSpace dep = Some upstream ∧
      j_Status upstream = ExecutionJobStatusSuccess.
Proof.
  unfold isJobRunnable. rewrite forallb_forall. setoid_rewrite <-list_elem_of_In.
  split; intros H dep Hdep; specialize (H dep Hdep).
  - destruct (latest !! TrimSpace dep) as [up|]; [|done]. apply bool_decide_eq_true in H. eauto.
  - destruct H as (up & -> & Hs). by apply bool_decide_eq_true.
Qed.

(** C19: a claim takes only a job nobody holds and whose dependencies are met.
    The store [r0] in which the candidates were found may differ from the store
    [r] in which the claim is made: other workers act in between.  The claimed
    job is, in [r], queued or running under a lease that ended, its upstream
    jobs succeeded, and the claim writes that job alone; without a claim
    nothing changes. *)
Theorem ClaimNextRunnableJob_safe (builds : option BuildRepository) claim r0 r :
  jobs_reachable r →
  let result := ClaimNextRunnableJob builds claim r0 r in
  result.2 = None ∧
  match result.1 with
  | (r', (job', true)) =>
      ∃ id job, ej_jobsByID r !! id = Some job ∧ job' = claimedJob claim job ∧
        r' = r <| ej_jobsByID := <[id := job']> (ej_jobsByID r) |> ∧
        (j_Status job = ExecutionJobStatusQueued ∨
         j_Status job = ExecutionJobStatusRunning ∧
           ∃ expires, j_ClaimExpiresAt job = Some expires ∧ expires ≤ c_ClaimedAt claim) ∧
        (∀ dep, dep ∈ j_DependsOnNodeIDs job →
           ∃ upstream, latestOfBuild r (j_BuildID job) !! TrimSpace dep = Some upstream ∧
             j_Status upstream = ExecutionJobStatusSuccess)
  | (r', (_, false)) => r' = r
  end.
Proof.
  intros Hr%jobs_reachable_ok. pose proof (ix_jobs _ (ok_weak _ Hr)) as Hok. cbv zeta.
  rewrite ClaimNextRunnableJob_first. split; [done|]. simpl.
  pose proof (claimFirst_takes (candidateOrders builds claim r0) claim
    (sortedCandidates builds claim r0) r) as H.
  destruct (list_find _ _) as [[k c]|]; [|by rewrite H].
  destruct H as (job & Hj & Hc & ->). exists (j_ID c), job.
  apply claimable_status in Hc as [Hrun Hs]. split_and!; [done|done| |done|].
  - unfold storeJob. destruct (claimedJob_key claim job) as ((-> & _) & _). by rewrite (Hok _ _ Hj).
  - by apply isJobRunnable_true.
Qed.

Lemma ClaimNextRunnableJob_safe_witness :
  let result := ClaimNextRunnableJob (Some ex_pending) (ex_claim "t9" 50 200) ex_jobs_created
    ex_jobs_claimed in
  result.1.2.2 = false ∧ result.1.1 = ex_jobs_claimed.
Proof.
  cbv zeta. pose proof (ClaimNextRunnableJob_safe (Some ex_pending) (ex_claim "t9" 50 200)
    ex_jobs_created ex_jobs_claimed ex_jobs_claimed_reachable) as [_ H].
  assert (E : (ClaimNextRunnableJob (Some ex_pending) (ex_claim "t9" 50 200) ex_jobs_created
    ex_jobs_claimed).1.2.2 = false) by (vm_compute; reflexivity).
  split; [exact E|].
  destruct (ClaimNextRunnableJob _ _ _ _) as [[r' [j ok]] e]. simpl in E, H. by subst ok.
Defined.

(** A job the claim may take: runnable and free, of a queued or running build. *)
Definition eligibleJob (builds : option BuildRepository) claim r job : bool :=
  claimableJob (c_ClaimedAt claim) r job &&
  eligibleBuildStatus (co_status (buildClaimOrderOf builds (j_BuildID job))).

Lemma elem_of_sortedCandidates (builds : option BuildRepository) claim r job :
  job ∈ sortedCandidates builds claim r ↔
  claimableJob (c_ClaimedAt claim) r job = true ∧ job ∈ jobsInAnyOrder r.
Proof.
  unfold sortedCandidates. by rewrite elem_of_sort_slice, elem_of_candidates, elem_of_jobs.
Qed.

Lemma sortedCandidates_iteration (builds : option BuildRepository) claim r l :
  jobs_ok r → l ≡ₚ jobsInAnyOrder r →
  sort_slice (candidateLess (candidateOrders builds claim r))
    (filter (λ job, Is_true (claimableJob (c_ClaimedAt claim) r job)) l)
  = sortedCandidates builds claim r.
Proof.
  intros Hok Hl. unfold sortedCandidates, claimCandidatesLocked.
  apply sort_slice_perm_eq; [apply _| |by rewrite Hl].
  intros x y Hx Hy H1 H2. apply list_elem_of_filter in Hx as [_ Hx], Hy as [_ Hy].
  rewrite Hl in Hx, Hy. apply (jobs_id_inj r); [done..|].
  by eapply candidateLess_separates.
Qed.

Lemma takes_eligible (builds : option BuildRepository) claim r job :
  jobs_ok r → job ∈ sortedCandidates builds claim r →
  takes (candidateOrders builds claim r) claim r job = eligibleJob builds claim r job.
Proof.
  intros Hok Hj. unfold eligibleJob. pose proof Hj as [-> _]%elem_of_sortedCandidates. simpl.
  apply takes_same; [done|]. unfold sortedCandidates in Hj. by apply elem_of_sort_slice in Hj.
Qed.

(** C25: The claim picks the best candidate, whatever order Go iterates the map
    of jobs in.  Undisturbed, the call claims the first job, in the order of
    build priority, queue time, creation, step, attempt and id, among the
    runnable jobs of queued and running builds, and claims one exactly when
    there is one. *)
Theorem ClaimNextRunnableJob_best (builds : option BuildRepository) claim r l :
  jobs_reachable r → l ≡ₚ jobsInAnyOrder r →
  let orders := candidateOrders builds claim r in
  let ranked := sort_slice (candidateLess orders)
    (filter (λ job, Is_true (claimableJob (c_ClaimedAt claim) r job)) l) in
  let result := (ClaimNextRunnableJob builds claim r r).1 in
  result = claimFirst orders claim ranked r ∧
  match list_find (λ job, eligibleJob builds claim r job = true) ranked with
  | Some (_, job) =>
      result = (storeJob r (claimedJob claim job), (claimedJob claim job, true)) ∧
      eligibleJob builds claim r job = true ∧
      (∀ other, other ∈ l → eligibleJob builds claim r other = true →
         candidateOrder orders other job = false)
  | None => result = (r, (zero_ExecutionJob, false)) ∧
      ∀ job, job ∈ l → eligibleJob builds claim r job = false
  end.
Proof.
  intros Hr%jobs_reachable_ok Hl. pose proof (ix_jobs _ (ok_weak _ Hr)) as Hok. cbv zeta.
  rewrite sortedCandidates_iteration by done. rewrite ClaimNextRunnableJob_first. split; [done|].
  set (orders := candidateOrders builds claim r).
  set (ranked := sortedCandidates builds claim r).
  pose proof (claimFirst_takes orders claim ranked r) as H.
  rewrite (list_find_elem_ext _ (λ job, eligibleJob builds claim r job = true)) in H
    by (intros job Hj; unfold orders; by rewrite takes_eligible).
  assert (Hsorted : StronglySorted (not_after (candidateLess orders)) ranked)
    by (apply sort_slice_sorted, _).
  assert (Hother : ∀ other, other ∈ l → eligibleJob builds claim r other = true → other ∈ ranked).
  { intros other Ho He. apply elem_of_sortedCandidates. rewrite <-Hl. split; [|done].
    unfold eligibleJob in He. by bool_to_prop. }
  destruct (list_find _ ranked) as [[k job]|] eqn:Ef.
  - destruct H as (old & Hold & _ & E).
    apply (list_find_Some (λ job, eligibleJob builds claim r job = true)) in Ef as (Hk & He & Hfirst).
    assert (old = job) as ->.
    { apply list_elem_of_lookup_2, elem_of_sortedCandidates in Hk as [_ [id Hid]%elem_of_jobs].
      rewrite (Hok _ _ Hid) in Hold. congruence. }
    split_and!; [done|done|]. intros other Ho Heo. rewrite <-candidateLess_lex.
    destruct (proj1 (list_elem_of_lookup _ _) (Hother other Ho Heo)) as [j Hj].
    destruct (decide (j < k)%nat) as [Hlt|Hge]; [by destruct (Hfirst j other Hj Hlt)|].
    destruct (decide (j = k)) as [->|Hne]; [simplify_eq; apply less_irrefl|].
    apply (StronglySorted_lookup _ _ k j job other Hsorted Hk Hj). lia.
  - split; [done|]. intros job Hj. apply not_true_is_false. intros He.
    apply (list_find_None (λ job, eligibleJob builds claim r job = true)) in Ef.
    rewrite list.Forall_forall in Ef. by apply (Ef job (Hother job Hj He)).
Qed.

Lemma ClaimNextRunnableJob_best_witness :
  (ClaimNextRunnableJob (Some ex_pending) (ex_claim "t1" 3 100) ex_jobs_created
    ex_jobs_created).1.2.2 = true ∧
  ∃ job, eligibleJob (Some ex_pending) (ex_claim "t1" 3 100) ex_jobs_created job = true.
Proof.
  pose proof (ClaimNextRunnableJob_best (Some ex_pending) (ex_claim "t1" 3 100) ex_jobs_created
    (reverse (jobsInAnyOrder ex_jobs_created)) ex_jobs_created_reachable
    (reverse_Permutation _)) as [_ H].
  destruct (list_find _ _) as [[k job]|] eqn:E.
  - destruct H as (-> & He & _). split; [reflexivity|]. exists job. exact He.
  - vm_compute in E. discriminate E.
Defined.

(** C26: the life of a job.  Any call moves any job only from queued to running,
    from running to running, success or failure, or from queued or running to
    canceled; its identity, its step and its dependencies stay; and a job that
    ended is never changed again. *)
Theorem job_life r c id job :
  jobs_reachable r → job_guard r c → ej_jobsByID r !! id = Some job →
  ∃ job', ej_jobsByID (run_job_call c r) !! id = Some job' ∧
    (job' = job ∨
     same_key job job' ∧ job_transition (j_Status job) (j_Status job') = true ∧
     IsTerminalExecutionJobStatus (j_Status job) = false).
Proof.
  intros Hr%jobs_reachable_ok Hg Hj. pose proof (job_call_move r c Hr) as Hm.
  assert (Hmove : jobs_move r (run_job_call c r) → ∃ job',
    ej_jobsByID (run_job_call c r) !! id = Some job' ∧
    (job' = job ∨ same_key job job' ∧ job_transition (j_Status job) (j_Status job') = true ∧
     IsTerminalExecutionJobStatus (j_Status job) = false)).
  { intros H. pose proof (jm_jobs _ _ H id) as Hrel. rewrite Hj in Hrel.
    inversion Hrel as [o E1 E2|j j' Hk Ht E1 E2]; subst; [exists job; auto|].
    exists j'. split; [done|right]. split_and!; [done..|]. by destruct (j_Status job). }
  destruct c; try by apply Hmove.
  exists job. split; [|by left]. simpl in *. destruct Hg as [_ Hf].
  unfold CreateJobsForBuild, sortBuildAndStepJobsLocked. simpl. rewrite sortJobs_jobs.
  apply addJobs_lookup; [|done]. intros j (j0 & -> & Hj0)%list_elem_of_fmap E.
  destruct (createdJob_key j0) as (Ei & _). rewrite Ei in E. specialize (Hf j0 Hj0). congruence.
Qed.

Lemma job_life_witness :
  ∃ job', ej_jobsByID (run_job_call (JobCancel "b1" "stop" 9) ex_jobs_claimed) !! "j1" = Some job' ∧
    IsTerminalExecutionJobStatus (j_Status job') = true.
Proof.
  destruct (ej_jobsByID ex_jobs_claimed !! "j1") as [job|] eqn:E; [|vm_compute in E; discriminate E].
  destruct (job_life ex_jobs_claimed (JobCancel "b1" "stop" 9) "j1" job ex_jobs_claimed_reachable I E)
    as (job' & Hj' & _).
  exists job'. split; [exact Hj'|]. vm_compute in Hj'. injection Hj' as <-. reflexivity.
Defined.

Lemma jobBefore_separates x y :
  jobBefore x y = false → jobBefore y x = false → j_ID x = j_ID y.
Proof.
  rewrite !jobBefore_lex. intros H1 H2.
  do 2 (destruct (lex_less_incomparable _ _ _ _ H1 H2) as [_ [H1' H2']]; clear H1 H2;
        rename H1' into H1; rename H2' into H2).
  by apply string_lt_antisym.
Qed.

Lemma jobAt_indexed r (P : ExecutionJob → Prop) ids id :
  indexes r P ids → id ∈ ids → ej_jobsByID r !! id = Some (jobAt r id) ∧ P (jobAt r id).
Proof. intros [_ Hi] (job & Hj & Hp)%Hi. unfold jobAt. by rewrite Hj. Qed.

(** The jobs an index points to are the jobs it is for. *)
Lemma indexed_jobs r (P : ExecutionJob → Prop) `{!∀ job, Decision (P job)} ids :
  jobs_ok r → indexes r P ids → filter P (jobsInAnyOrder r) ≡ₚ (jobAt r <$> ids).
Proof.
  intros Hok Hix. pose proof Hix as [Hn Hi]. apply NoDup_Permutation.
  - apply list.NoDup_filter, NoDup_fmap_2_strong; [|apply NoDup_map_to_list].
    intros [i x] [j y] Hx%elem_of_map_to_list Hy%elem_of_map_to_list E. simpl in *. subst.
    f_equal. by rewrite <-(Hok _ _ Hx), <-(Hok _ _ Hy).
  - apply NoDup_fmap_2_strong; [|done]. intros i j Hii Hij E.
    destruct (jobAt_indexed r P ids i Hix Hii) as [H1%Hok _].
    destruct (jobAt_indexed r P ids j Hix Hij) as [H2%Hok _]. congruence.
  - intros job. rewrite list_elem_of_filter, elem_of_jobs, list_elem_of_fmap. split.
    + intros [Hp [id Hj]]. exists id. unfold jobAt at 1. rewrite Hj. split; [done|].
      apply Hi. eauto.
    + intros (id & -> & Hid). destruct (jobAt_indexed r P ids id Hix Hid) as [Hj Hp]. eauto.
Qed.

(** The indices of the job store.  After any sequence of calls,
    [GetJobsByBuildID] lists exactly the jobs of the build, each once, by step,
    attempt, creation and id; and [GetJobByStepID] finds the latest attempt of
    the step: no job of the step comes after it. *)
Theorem job_indices_complete r buildID stepID :
  jobs_reachable r →
  GetJobsByBuildID buildID r = sort_slice jobBeforeInBuild
    (filter (λ job, j_BuildID job = buildID) (jobsInAnyOrder r)) ∧
  match GetJobByStepID stepID r with
  | (latest, None) => (∃ id, ej_jobsByID r !! id = Some latest) ∧ j_StepID latest = stepID ∧
      ∀ id job, ej_jobsByID r !! id = Some job → j_StepID job = stepID → jobBefore latest job = false
  | (_, Some err) => err = ErrExecutionJobNotFound ∧
      ∀ id job, ej_jobsByID r !! id = Some job → j_StepID job ≠ stepID
  end.
Proof.
  intros Hr%jobs_reachable_ok. destruct Hr as [[Hok Hb Hs] Hbs Hss]. split.
  - symmetry. unfold GetJobsByBuildID. rewrite (list_fmap_ext _ (jobAt r)) by (intros; apply clone_job).
    apply sort_slice_unique; [apply _| |by apply indexed_jobs|].
    + intros x y Hx Hy H1 H2. apply list_elem_of_filter in Hx as [_ Hx], Hy as [_ Hy].
      apply (jobs_id_inj r); [done..|]. rewrite jobBeforeInBuild_lex in H1, H2.
      destruct (lex_less_incomparable _ _ _ _ H1 H2) as [_ [??]]. by apply jobBefore_separates.
    + by apply (StronglySorted_fmap (jobAt r) (not_after (λ i j,
        jobBeforeInBuild (jobAt r i) (jobAt r j)))), Hbs.
  - unfold GetJobByStepID. destruct (list.last (idsByStep r stepID)) as [id|] eqn:El.
    + rewrite clone_job. apply last_Some in El as [ids El].
      assert (Hid : id ∈ idsByStep r stepID) by (rewrite El; set_solver).
      destruct (jobAt_indexed r _ _ id (Hs stepID) Hid) as [Hj Hst].
      split_and!; [by eexists|done|]. intros id' job Hj' Hst'.
      assert (Hid' : id' ∈ idsByStep r stepID) by (apply (Hs stepID); eauto).
      assert (Eat : jobAt r id' = job) by (unfold jobAt; by rewrite Hj').
      rewrite El, elem_of_app, list_elem_of_singleton in Hid'.
      destruct Hid' as [Hid' | ->]; [|rewrite Eat; apply less_irrefl].
      pose proof (Hss stepID) as Hsort. unfold step_sorted in Hsort. rewrite El in Hsort.
      rewrite <-Eat. apply (StronglySorted_app_1_elem_of _ ids [id] id' id Hsort Hid').
      by apply list_elem_of_singleton.
    + split; [done|]. intros id job Hj Hst. apply last_None in El.
      assert (Hid : id ∈ idsByStep r stepID) by (apply (Hs stepID); eauto).
      rewrite El in Hid. by apply not_elem_of_nil in Hid.
Qed.

Lemma job_indices_complete_witness :
  j_ID <$> GetJobsByBuildID "b1" ex_jobs_created = ["j1"; "j2"].
Proof.
  destruct (job_indices_complete ex_jobs_created "b1" "s1" ex_jobs_created_reachable) as [H _].
  rewrite H. vm_compute. reflexivity.
Defined.

Lemma CancelJobs_lookup r buildID reason now id :
  index_ok r →
  ej_jobsByID (CancelJobsForBuild buildID reason now r).1 !! id =
  match ej_jobsByID r !! id with
  | Some job =>
      if (j_BuildID job == buildID) && CanCancelExecutionJob (j_Status job)
      then Some (canceledJob reason now job) else Some job
  | None => None
  end.
Proof.
  intros [[_ Hb _] _ _]. destruct (Hb buildID) as [Hn Hi].
  pose proof (cancelJobs_spec reason now (idsByBuild r buildID) r 0 Hn) as H.
  unfold CancelJobsForBuild. destruct (foldl _ _ _) as [r' n']. destruct H as (Hj & _).
  simpl. rewrite Hj. destruct (ej_jobsByID r !! id) as [job|] eqn:E; [|by case_decide].
  assert (Hid : id ∈ idsByBuild r buildID ↔ j_BuildID job = buildID).
  { rewrite Hi. split; [intros (j & Hjj & <-); congruence|eauto]. }
  destruct (decide (id ∈ idsByBuild r buildID)) as [Hin|Hin]; rewrite Hid in Hin.
  - by rewrite bool_decide_eq_true_2.
  - by rewrite bool_decide_eq_false_2.
Qed.

(** Canceling the jobs of a build ends every queued or running job of it,
    counts them, and changes no other job. *)
Theorem CancelJobsForBuild_spec r buildID reason now :
  jobs_reachable r →
  let '(r', updated) := CancelJobsForBuild buildID reason now r in
  (∀ id, ej_jobsByID r' !! id =
     match ej_jobsByID r !! id with
     | Some job =>
         if (j_BuildID job == buildID) && CanCancelExecutionJob (j_Status job)
         then Some (canceledJob reason now job) else Some job
     | None => None
     end) ∧
  updated = Z.of_nat (length (filter (λ job,
    j_BuildID job = buildID ∧ CanCancelExecutionJob (j_Status job) = true) (jobsInAnyOrder r))).
Proof.
  intros Hr%jobs_reachable_ok. pose proof (CancelJobs_lookup r buildID reason now) as Hlook.
  destruct Hr as [[Hok Hb Hs] ? ?]. destruct (Hb buildID) as [Hn _].
  pose proof (cancelJobs_spec reason now (idsByBuild r buildID) r 0 Hn) as H.
  unfold CancelJobsForBuild in *. destruct (foldl _ _ _) as [r' n']. destruct H as (_ & _ & _ & ->).
  split; [by intros id; apply Hlook|].
  rewrite Z.add_0_l. f_equal.
  rewrite (filter_elem_ext _ (λ id, CanCancelExecutionJob (j_Status (jobAt r id)) = true)).
  2: { intros id Hid. destruct (jobAt_indexed r _ _ id (Hb buildID) Hid) as [E _].
       unfold can_cancel_at. by rewrite E. }
  rewrite (list_filter_iff _ (λ job, CanCancelExecutionJob (j_Status job) = true ∧
    j_BuildID job = buildID)) by tauto.
  rewrite <-list_filter_filter.
  rewrite (indexed_jobs r _ _ Hok (Hb buildID)), filter_of_fmap, length_fmap. done.
Qed.

Lemma CancelJobsForBuild_spec_witness :
  (CancelJobsForBuild "b1" "stop" 9 ex_jobs_claimed).2 = 2.
Proof.
  pose proof (CancelJobsForBuild_spec ex_jobs_claimed "b1" "stop" 9 ex_jobs_claimed_reachable) as H.
  destruct (CancelJobsForBuild _ _ _ _) as [r' n]. destruct H as [_ ->]. vm_compute. reflexivity.
Defined.
