(* ===== verification/Planner.v ===== *)
(** The execution planner: the jobs of a build from its steps
    (backend/internal/service/build/execution_planner.go, the job specification
    of domain/execution_job.go and two helpers of creation.go and defaults.go).

    [uuid.NewString], the clock, [json.Marshal] and SHA-256 are arguments.  The
    two searches of the dependency graph take fuel: [ancestorNodeIDs] always
    has enough of it; [nodeDepth] recurses along the dependencies and without
    fuel stands for the stack overflow of the Go program on a cyclic graph. *)

From Stdlib Require Import Ascii.
From stdpp Require Import base gmap strings list pretty sorting numbers.
From S2P Require Import Prelude GoLib GoPath Graph Domain Repository.

Open Scope go_scope.
Open Scope Z_scope.

(** ** The specification of a job (domain/execution_job.go) *)

Abbreviation WorkspaceInputMode := string (only parsing).
Definition WorkspaceInputModeSource : WorkspaceInputMode := "source".
Definition WorkspaceInputModePredecessor : WorkspaceInputMode := "predecessor".
Definition WorkspaceInputModeFanIn : WorkspaceInputMode := "fan_in".

Record WorkspaceInputPlan := mkWorkspaceInputPlan {
  wi_Mode : WorkspaceInputMode;
  wi_ProducerNodeID : string;
  wi_CommonAncestorNodeID : string;
  wi_IsolatedWritableDescendant : bool;
}.

Record ExecutionJobSpec := mkExecutionJobSpec {
  js_Version : Z;
  js_ExecutionKind : ExecutionKind;
  js_Image : string;
  js_WorkingDir : string;
  js_Command : list string;
  js_Environment : gmap string string;
  js_TimeoutSeconds : Z;
  js_PipelineFilePath : string;
  js_ContextDir : string;
  js_Source : SourceSnapshotRef;
  js_WorkspaceInput : WorkspaceInputPlan;
  js_RemoteImageBuild : option RemoteImageBuildSpec;
}.

(** ** Values with defaults *)

Definition optionalPointer (value : string) : option string :=
  let trimmed := TrimSpace value in
  if trimmed == "" then None else Some trimmed.

Definition optionalValue (value : option string) : string :=
  match value with None => "" | Some value => TrimSpace value end.

Definition defaultValue (value fallback : string) : string :=
  let trimmed := TrimSpace value in
  if trimmed == "" then fallback else trimmed.

Definition maxInt (value minimum : Z) : Z := if value <? minimum then minimum else value.

Definition cloneRemoteImageBuildSpec (spec : option RemoteImageBuildSpec)
    : option RemoteImageBuildSpec :=
  match spec with
  | None => None
  | Some spec => Some (mkRemoteImageBuildSpec (ri_ContextPath spec) (ri_DockerfilePath spec)
      (ri_Target spec) (ri_BuildArgs spec) (ri_TargetImageReference spec)
      (ri_ArtifactInputs spec))
  end.

(** ** The source of a build *)

Definition plannerSourceRepositoryURL (spec : option SourceSpec) (fallback : option string)
    : string :=
  match spec with
  | Some spec => TrimSpace (ss_RepositoryURL spec)
  | None => match fallback with None => "" | Some fallback => TrimSpace fallback end
  end.

Definition plannerSourceCommitSHA (spec : option SourceSpec) (fallback : option string)
    : string :=
  match spec ≫= ss_CommitSHA with
  | Some commitSHA => TrimSpace commitSHA
  | None => match fallback with None => "" | Some fallback => TrimSpace fallback end
  end.

Definition plannerSourceRef (spec : option SourceSpec) : option string :=
  match spec ≫= ss_Ref with
  | None => None
  | Some ref =>
      let value := TrimSpace ref in
      if value == "" then None else Some value
  end.

Definition plannerContextDirFromPipelinePath (pipelinePath : option string) : string :=
  match pipelinePath with
  | None => "."
  | Some pipelinePath =>
      let normalized := TrimSpace pipelinePath in
      if normalized == "" then "."
      else
        let dir := Clean (Dir (replace_byte backslash slash normalized)) in
        if dir == "" then "." else dir
  end.

(** ** The environment of a job *)

(** A [nil] map reads as an empty one. *)
Definition cloneEnv (env : gmap string string) : gmap string string := env.

Definition mergePlannerEnv (base extra : gmap string string) : gmap string string :=
  extra ∪ cloneEnv base.

Definition setEnv (key : string) (value : option string) (env : gmap string string)
    : gmap string string :=
  match value with None => env | Some value => <[key := value]> env end.

Definition plannerTriggerEnv (trigger : BuildTrigger) : gmap string string :=
  let trigger := NormalizeBuildTrigger trigger in
  if tr_Kind trigger != BuildTriggerKindArtifact then ∅
  else
    let env := {[ "COYOTE_TRIGGER_TYPE" := "artifact_uploaded" ]} in
    let env := setEnv "COYOTE_TRIGGER_PROJECT_ID" (tr_ProducerProjectID trigger) env in
    let env := setEnv "COYOTE_TRIGGER_JOB_ID" (tr_ProducerJobID trigger) env in
    let env := setEnv "COYOTE_TRIGGER_BUILD_ID" (tr_ProducerBuildID trigger) env in
    let env := setEnv "COYOTE_TRIGGER_ARTIFACT_ID" (tr_ArtifactID trigger) env in
    let env := setEnv "COYOTE_TRIGGER_ARTIFACT_PATH" (tr_ArtifactPath trigger) env in
    let env := setEnv "COYOTE_TRIGGER_ARTIFACT_NAME" (tr_ArtifactName trigger) env in
    let env := setEnv "COYOTE_TRIGGER_ARTIFACT_SIZE_BYTES"
                 (Itoa <$> tr_ArtifactSizeBytes trigger) env in
    setEnv "COYOTE_TRIGGER_ARTIFACT_CHECKSUM_SHA256" (tr_ArtifactChecksumSHA256 trigger) env.

(** ** Workspace lineage *)

Definition effectiveWorkspaceNodeID (step : BuildStep) : string :=
  let nodeID := TrimSpace (st_NodeID step) in
  if nodeID != "" then nodeID else FallbackNodeID (st_StepIndex step).

(** The step with the greatest index below that of [steps[index]]; of several,
    the first. *)
Definition laterPredecessor (step : BuildStep) (found : option (nat * BuildStep))
    (candidate : nat * BuildStep) : option (nat * BuildStep) :=
  if (st_StepIndex step <=? st_StepIndex candidate.2) || (st_StepIndex candidate.2 <? 0)
  then found
  else match found with
  | None => Some candidate
  | Some best =>
      if st_StepIndex best.2 <? st_StepIndex candidate.2 then Some candidate else found
  end.

Definition precedingWorkspaceNodeID (step : BuildStep) (steps : list BuildStep)
    (effectiveNodeIDs : list string) : option string :=
  match foldl (laterPredecessor step) None (imap pair steps) with
  | None => None
  | Some (predecessorIndex, _) => effectiveNodeIDs !! predecessorIndex
  end.

Definition addKnownDependency (knownNodeIDs : gset string) (result : list string)
    (dependency : string) : list string :=
  let nodeID := TrimSpace dependency in
  if nodeID == "" then result
  else if bool_decide (nodeID ∉ knownNodeIDs) then result
  else if bool_decide (nodeID ∈ result) then result
  else result ++ [nodeID].

Definition uniqueKnownDependencies (dependencies : list string) (knownNodeIDs : gset string)
    : list string := foldl (addKnownDependency knownNodeIDs) [] dependencies.

(** The set of the ancestors of a node, itself included.  The slice [stack] of
    the code grows and shrinks at its end, which is the head of the list here. *)
Fixpoint ancestorsLoop (dependenciesByNodeID : gmap string (list string)) (fuel : nat)
    (stack : list string) (ancestors : gset string) : option (gset string) :=
  match stack with
  | [] => Some ancestors
  | current :: stack =>
      match fuel with
      | O => None
      | S fuel =>
          if bool_decide (current ∈ ancestors)
          then ancestorsLoop dependenciesByNodeID fuel stack ancestors
          else ancestorsLoop dependenciesByNodeID fuel
                 (reverse (depsOf dependenciesByNodeID current) ++ stack)
                 ({[ current ]} ∪ ancestors)
      end
  end.

(** Each turn of the loop takes a node off the stack, and each dependency is
    put there once. *)
Definition ancestorsFuel (dependenciesByNodeID : gmap string (list string)) : nat :=
  S (sum_list_with (λ kv, length kv.2) (map_to_list dependenciesByNodeID)).

Definition ancestorNodeIDs (nodeID : string) (dependenciesByNodeID : gmap string (list string))
    : option (gset string) :=
  ancestorsLoop dependenciesByNodeID (ancestorsFuel dependenciesByNodeID) [nodeID] ∅.

(** The depth of a node, with the table of the depths found so far. *)
Fixpoint nodeDepth (dependenciesByNodeID : gmap string (list string)) (fuel : nat)
    (nodeID : string) (depthByNodeID : gmap string Z) : option (Z * gmap string Z) :=
  match fuel with
  | O => None
  | S fuel =>
      match depthByNodeID !! nodeID with
      | Some depth => Some (depth, depthByNodeID)
      | None =>
          let visit (acc : option (Z * gmap string Z)) dependencyNodeID :=
            acc ≫= λ '(depth, depthByNodeID),
            nodeDepth dependenciesByNodeID fuel dependencyNodeID depthByNodeID
              ≫= λ '(candidateDepth, depthByNodeID),
            let candidateDepth := candidateDepth + 1 in
            Some (if depth <? candidateDepth then candidateDepth else depth, depthByNodeID) in
          foldl visit (Some (0, depthByNodeID)) (depsOf dependenciesByNodeID nodeID)
            ≫= λ '(depth, depthByNodeID),
          Some (depth, <[nodeID := depth]> depthByNodeID)
      end
  end.

(** A chain of an acyclic graph has at most as many edges as the graph nodes
    with dependencies. *)
Definition depthFuel (dependenciesByNodeID : gmap string (list string)) : nat :=
  S (size dependenciesByNodeID).

Definition commonAncestors (dependenciesByNodeID : gmap string (list string))
    (common : option (gset string)) (dependency : string) : option (gset string) :=
  common ≫= λ common,
  ancestorNodeIDs dependency dependenciesByNodeID ≫= λ ancestors, Some (common ∩ ancestors).

(** One candidate of the search for the deepest common ancestor. *)
Definition nearerCandidate (dependenciesByNodeID : gmap string (list string))
    (acc : option (string * Z * gmap string Z)) (candidate : string)
    : option (string * Z * gmap string Z) :=
  acc ≫= λ '(nearest, nearestDepth, depthByNodeID),
  nodeDepth dependenciesByNodeID (depthFuel dependenciesByNodeID) candidate depthByNodeID
    ≫= λ '(candidateDepth, depthByNodeID),
  if (nearestDepth <? candidateDepth)
     || ((candidateDepth =? nearestDepth) && string_lt candidate nearest)
  then Some (candidate, candidateDepth, depthByNodeID)
  else Some (nearest, nearestDepth, depthByNodeID).

(** The deepest candidate, for the order in which Go iterates the set. *)
Definition nearestOf (dependenciesByNodeID : gmap string (list string)) (candidates : list string)
    : option string :=
  (λ '(nearest, _, _), nearest) <$>
    foldl (nearerCandidate dependenciesByNodeID) (Some ("", -1, ∅)) candidates.

Definition nearestCommonAncestor (dependencies : list string)
    (dependenciesByNodeID : gmap string (list string)) : option string :=
  match dependencies with
  | [] => Some ""
  | dependency :: rest =>
      foldl (commonAncestors dependenciesByNodeID)
        (ancestorNodeIDs dependency dependenciesByNodeID) rest
        ≫= λ common, nearestOf dependenciesByNodeID (elements common)
  end.

(** The dependencies of one step, and the number of dependents of each node. *)
Definition stepDependencies (steps : list BuildStep) (effectiveNodeIDs : list string)
    (knownNodeIDs : gset string) (step : BuildStep) : list string :=
  let dependencies := uniqueKnownDependencies (st_DependsOnNodes step) knownNodeIDs in
  if (TrimSpace (st_NodeID step) == "") && bool_decide (length dependencies = 0%nat) then
    match precedingWorkspaceNodeID step steps effectiveNodeIDs with
    | Some predecessorNodeID => [predecessorNodeID]
    | None => dependencies
    end
  else dependencies.

Definition countDependent (counts : gmap string Z) (dependencyNodeID : string) : gmap string Z :=
  <[dependencyNodeID := default 0 (counts !! dependencyNodeID) + 1]> counts.

Definition collectDependencies (steps : list BuildStep) (effectiveNodeIDs : list string)
    (knownNodeIDs : gset string) (acc : gmap string (list string) * gmap string Z)
    (step : BuildStep) : gmap string (list string) * gmap string Z :=
  let '(dependenciesByNodeID, dependentCountByNodeID) := acc in
  let dependencies := stepDependencies steps effectiveNodeIDs knownNodeIDs step in
  (<[effectiveWorkspaceNodeID step := dependencies]> dependenciesByNodeID,
   foldl countDependent dependentCountByNodeID dependencies).

Definition workspaceGraph (steps : list BuildStep)
    : gmap string (list string) * gmap string Z :=
  let effectiveNodeIDs := effectiveWorkspaceNodeID <$> steps in
  foldl (collectDependencies steps effectiveNodeIDs (list_to_set effectiveNodeIDs)) (∅, ∅) steps.

Definition workspacePlan (dependenciesByNodeID : gmap string (list string))
    (dependentCountByNodeID : gmap string Z) (step : BuildStep) : option WorkspaceInputPlan :=
  let dependencies := depsOf dependenciesByNodeID (effectiveWorkspaceNodeID step) in
  match dependencies with
  | [] => Some (mkWorkspaceInputPlan WorkspaceInputModeSource "" "" false)
  | [producerNodeID] =>
      Some (mkWorkspaceInputPlan WorkspaceInputModePredecessor producerNodeID ""
        (1 <? default 0 (dependentCountByNodeID !! producerNodeID)))
  | _ =>
      ancestor ← nearestCommonAncestor dependencies dependenciesByNodeID;
      Some (mkWorkspaceInputPlan WorkspaceInputModeFanIn "" ancestor false)
  end.

Definition planWorkspaceInputs (steps : list BuildStep) : option (list WorkspaceInputPlan) :=
  let '(dependenciesByNodeID, dependentCountByNodeID) := workspaceGraph steps in
  mapM (workspacePlan dependenciesByNodeID dependentCountByNodeID) steps.

(** ** The plan *)

Record BuildExecutionPlanner := mkBuildExecutionPlanner {
  bp_specVersion : Z;
  bp_clock : nat → Time;  (* the readings of the clock, one for each job *)
}.

Definition NewBuildExecutionPlanner (now : nat → Time) : BuildExecutionPlanner :=
  mkBuildExecutionPlanner 1 now.

Section plan.
  (** [json.Marshal] and the hexadecimal SHA-256 digest of a string. *)
  Context (json_Marshal : ExecutionJobSpec → string * option error) (sha256_hex : string → string).

Definition ToJSON (s : ExecutionJobSpec) : string * option error :=
  match json_Marshal s with
  | (_, Some err) => ("", Some err)
  | (raw, None) => (raw, None)
  end.

Definition BuildSpecDigest (specJSON : string) : option string :=
  let trimmed := TrimSpace specJSON in
  if trimmed == "" then None else Some (sha256_hex trimmed).

Definition ExecutionJobClaimDigest (claimToken : string) : string := sha256_hex claimToken.

(** The specification of one step's job. *)
Definition plannedSpec (p : BuildExecutionPlanner) (build : Build) (image : string)
    (step : BuildStep) (workspaceInput : WorkspaceInputPlan) : ExecutionJobSpec :=
  let stepImage := TrimSpace (st_Image step) in
  mkExecutionJobSpec (bp_specVersion p)
    (if st_ExecutionKind step == "" then ExecutionKindShell else st_ExecutionKind step)
    (if stepImage == "" then TrimSpace image else stepImage)
    (defaultValue (st_WorkingDir step) ".")
    (defaultValue (st_Command step) "sh" :: st_Args step)
    (mergePlannerEnv (st_Env step) (plannerTriggerEnv (b_Trigger build)))
    (maxInt (st_TimeoutSeconds step) 0)
    (optionalValue (b_PipelinePath build))
    (plannerContextDirFromPipelinePath (b_PipelinePath build))
    (mkSourceSnapshotRef
       (plannerSourceRepositoryURL (b_Source build) (b_RepoURL build))
       (plannerSourceCommitSHA (b_Source build) (b_CommitSHA build))
       (plannerSourceRef (b_Source build)) None None)
    workspaceInput
    (cloneRemoteImageBuildSpec (st_RemoteImageBuild step)).

(** The job of one step. *)
Definition plannedJob (p : BuildExecutionPlanner) (build : Build) (step : BuildStep)
    (spec : ExecutionJobSpec) (specJSON jobID : string) (now : Time) : ExecutionJob :=
  let job := zero_ExecutionJob in
  let job := job <| j_ID := jobID |> <| j_BuildID := b_ID build |> <| j_StepID := st_ID step |> in
  let job := job <| j_NodeID := effectiveWorkspaceNodeID step |> in
  let job := job <| j_GroupName := trimOptional (st_GroupName step) |> in
  let job := job <| j_DependsOnNodeIDs := st_DependsOnNodes step |> in
  let job := job <| j_Name := st_Name step |> <| j_StepIndex := st_StepIndex step |> in
  let job := job <| j_AttemptNumber := 1 |> <| j_LineageRootJobID := Some jobID |> in
  let job := job <| j_Status := ExecutionJobStatusQueued |> <| j_Image := js_Image spec |> in
  let job := job <| j_WorkingDir := js_WorkingDir spec |> <| j_Command := js_Command spec |> in
  let job := job <| j_Environment := js_Environment spec |> in
  let job := job <| j_TimeoutSeconds := Some (st_TimeoutSeconds step) |> in
  let job := job <| j_PipelineFilePath := optionalPointer (js_PipelineFilePath spec) |> in
  let job := job <| j_ContextDir := optionalPointer (js_ContextDir spec) |> in
  let job := job <| j_Source := js_Source spec |> <| j_SpecVersion := bp_specVersion p |> in
  let job := job <| j_SpecDigest := BuildSpecDigest specJSON |> in
  let job := job <| j_ResolvedSpecJSON := specJSON |> in
  job <| j_CreatedAt := now |>.

(** The loop over the steps; [newID] gives the identifiers in the order drawn. *)
Fixpoint planJobs (p : BuildExecutionPlanner) (newID : nat → string) (build : Build)
    (image : string) (index : nat) (steps : list (BuildStep * WorkspaceInputPlan))
    : list ExecutionJob * option error :=
  match steps with
  | [] => ([], None)
  | (step, workspaceInput) :: rest =>
      let spec := plannedSpec p build image step workspaceInput in
      match ToJSON spec with
      | (_, Some err) => ([], Some err)
      | (specJSON, None) =>
          let job := plannedJob p build step spec specJSON (newID index) (bp_clock p index) in
          match planJobs p newID build image (S index) rest with
          | (_, Some err) => ([], Some err)
          | (jobs, None) => (job :: jobs, None)
          end
      end
  end.

(** [None] when the search for a common ancestor does not return. *)
Definition Plan (p : BuildExecutionPlanner) (newID : nat → string) (build : Build)
    (steps : list BuildStep) (image : string) : option (list ExecutionJob * option error) :=
  if bool_decide (length steps = 0%nat) then Some ([], None)
  else
    workspacePlans ← planWorkspaceInputs steps;
    Some (planJobs p newID build image 0 (zip steps workspacePlans)).

End plan.
