(* ===== verification/PlannerFacts.v ===== *)
(** Lemmas on the searches of the planner: the set of ancestors is the
    reachable set and the loop ends; the depth of a node is the length of its
    longest chain whatever the table holds; and the deepest common ancestor does
    not depend on the order in which Go iterates a set. *)

From stdpp Require Import base gmap strings list relations pretty sorting numbers.
From S2P Require Import Prelude GoLib GoPath Graph Domain Repository Planner.

Open Scope go_scope.
Open Scope Z_scope.

Section graph.
  Context (g : gmap string (list string)).

(** ** The ancestors of a node *)

(** What the loop still has to take off the stack. *)
Definition unvisited (seen : gset string) (l : list (string * list string)) : nat :=
  sum_list_with (λ kv, if decide (kv.1 ∈ seen) then 0%nat else length kv.2) l.

Definition potential (stack : list string) (seen : gset string) : nat :=
  (length stack + unvisited seen (map_to_list g))%nat.

Lemma unvisited_other x seen l :
  x ∉ l.*1 → unvisited ({[x]} ∪ seen) l = unvisited seen l.
Proof.
  induction l as [|[k v] l IH]; simpl; [done|]. intros [Hk Hl]%not_elem_of_cons.
  unfold unvisited in *. simpl. rewrite (IH Hl). f_equal.
  destruct (decide (k ∈ {[x]} ∪ seen)), (decide (k ∈ seen)); set_solver.
Qed.

Lemma unvisited_visit x v seen l :
  NoDup l.*1 → (x, v) ∈ l → x ∉ seen →
  unvisited seen l = (length v + unvisited ({[x]} ∪ seen) l)%nat.
Proof.
  induction l as [|[k w] l IH]; simpl; intros Hnd Hin Hx; [by apply elem_of_nil in Hin|].
  apply list.NoDup_cons in Hnd as [Hk Hnd]. unfold unvisited in *. simpl.
  apply elem_of_cons in Hin as [[= <- <-]|Hin].
  - pose proof (unvisited_other x seen l Hk) as E. unfold unvisited in E. rewrite E.
    destruct (decide (x ∈ seen)); [done|].
    destruct (decide (x ∈ {[x]} ∪ seen)); [lia|set_solver].
  - rewrite (IH Hnd Hin Hx). assert (k ≠ x).
    { intros ->. apply Hk. by apply (list_elem_of_fmap_2 fst) in Hin. }
    destruct (decide (k ∈ {[x]} ∪ seen)), (decide (k ∈ seen)); set_solver by lia.
Qed.

Lemma potential_visit x stack seen :
  x ∉ seen →
  (potential (reverse (depsOf g x) ++ stack) ({[x]} ∪ seen) ≤ potential stack seen)%nat.
Proof.
  intros Hx. unfold potential, depsOf. rewrite length_app, length_reverse.
  destruct (g !! x) as [v|] eqn:E; simpl.
  - rewrite (unvisited_visit x v seen); [lia|apply NoDup_fst_map_to_list| |done].
    by apply elem_of_map_to_list.
  - rewrite unvisited_other; [lia|]. intros (p & -> & Hp)%list_elem_of_fmap.
    destruct p as [k v]. apply elem_of_map_to_list in Hp. simpl in E. congruence.
Qed.

Lemma closed_reach (seen : gset string) x y :
  x ∈ seen → (∀ a b, a ∈ seen → edge g a b → b ∈ seen) → rtc (edge g) x y → y ∈ seen.
Proof. intros Hx Hclosed Hxy. induction Hxy as [x|x y z Hxy _ IH]; eauto. Qed.

(** The loop invariant: what is seen has its dependencies seen or waiting. *)
Lemma ancestorsLoop_spec root fuel stack seen :
  (potential stack seen ≤ fuel)%nat →
  (∀ y, y ∈ seen ∨ y ∈ stack → rtc (edge g) root y) →
  (∀ x y, x ∈ seen → edge g x y → y ∈ seen ∨ y ∈ stack) →
  (root ∈ seen ∨ root ∈ stack) →
  ∃ ancestors, ancestorsLoop g fuel stack seen = Some ancestors ∧
    ∀ y, y ∈ ancestors ↔ rtc (edge g) root y.
Proof.
  revert stack seen. induction fuel as [|fuel IH]; intros stack seen Hfuel Hreach Hclosed Hroot.
  all: destruct stack as [|x stack];
    [exists seen; split; [done|]; intros y; split; [by auto|];
     apply closed_reach; [by destruct Hroot as [?|?%elem_of_nil]|];
     intros a b Ha Hab; by destruct (Hclosed a b Ha Hab) as [?|?%elem_of_nil]|].
  - unfold potential in Hfuel. simpl in Hfuel. lia.
  - simpl. case_bool_decide as Hx.
    + apply IH.
      * unfold potential in *. simpl in Hfuel. lia.
      * intros y Hy. apply Hreach. set_solver.
      * intros a b Ha Hab. destruct (Hclosed a b Ha Hab) as [?|[->|?]%elem_of_cons]; auto.
      * destruct Hroot as [?|[->|?]%elem_of_cons]; auto.
    + apply IH.
      * pose proof (potential_visit x stack seen Hx). unfold potential in *. simpl in Hfuel. lia.
      * intros y Hy. rewrite elem_of_app, elem_of_reverse in Hy.
        destruct Hy as [Hy|[Hy|Hy]]; [|apply rtc_r with x; [apply Hreach; set_solver|exact Hy]|].
        -- apply Hreach. set_solver.
        -- apply Hreach. set_solver.
      * intros a b Ha Hab. rewrite elem_of_app, elem_of_reverse.
        apply elem_of_union in Ha as [->%elem_of_singleton|Ha]; [by auto|].
        destruct (Hclosed a b Ha Hab) as [?|[->|?]%elem_of_cons]; set_solver.
      * destruct Hroot as [?|[->|?]%elem_of_cons]; set_solver.
Qed.

Lemma ancestorNodeIDs_spec x :
  ∃ ancestors, ancestorNodeIDs x g = Some ancestors ∧ ∀ y, y ∈ ancestors ↔ rtc (edge g) x y.
Proof.
  apply ancestorsLoop_spec.
  - unfold potential, ancestorsFuel, unvisited. simpl. apply le_n_S.
    induction (map_to_list g) as [|[k v] l IH]; simpl; [lia|]. destruct (decide _); lia.
  - intros y [Hy|Hy]; [set_solver|]. apply list_elem_of_singleton in Hy as ->. done.
  - set_solver.
  - right. by apply list_elem_of_singleton.
Qed.

(** ** The depth of a node *)

Definition memo_ok (depthByNodeID : gmap string Z) : Prop :=
  ∀ y depth, depthByNodeID !! y = Some depth → ∃ d, depth = Z.of_nat d ∧ longest g y d.

Lemma memo_ok_insert x d depthByNodeID :
  longest g x d → memo_ok depthByNodeID → memo_ok (<[x := Z.of_nat d]> depthByNodeID).
Proof.
  intros Hx Hmemo y depth. rewrite lookup_insert_Some.
  intros [[<- <-]|[_ Hy]]; [by eauto|by apply Hmemo].
Qed.

Section depth.
  Context (Hacyclic : acyclic g).

(** The loop over the dependencies of a node, given the claim for each of them. *)
Lemma nodeDepth_loop (visit : option (Z * gmap string Z) → string → option (Z * gmap string Z))
    l m depthByNodeID :
  (∀ y m depthByNodeID, y ∈ l → memo_ok depthByNodeID →
     ∃ e depthByNodeID', longest g y e ∧ memo_ok depthByNodeID' ∧
       visit (Some (Z.of_nat m, depthByNodeID)) y
         = Some (Z.of_nat (Nat.max m (S e)), depthByNodeID')) →
  memo_ok depthByNodeID →
  ∃ m' depthByNodeID',
    foldl visit (Some (Z.of_nat m, depthByNodeID)) l = Some (Z.of_nat m', depthByNodeID') ∧
    memo_ok depthByNodeID' ∧ (m ≤ m')%nat ∧
    (∀ y, y ∈ l → ∃ e, longest g y e ∧ (e < m')%nat) ∧
    (m' = m ∨ ∃ y e, y ∈ l ∧ longest g y e ∧ m' = S e).
Proof.
  revert m depthByNodeID. induction l as [|y l IH]; intros m depthByNodeID Hvisit Hmemo.
  { exists m, depthByNodeID. split_and!; auto. intros y Hy%elem_of_nil. done. }
  destruct (Hvisit y m depthByNodeID) as (e & memo1 & He & Hmemo1 & Ev); [by left|done|].
  simpl. rewrite Ev.
  destruct (IH (Nat.max m (S e)) memo1) as (m' & memo2 & -> & Hmemo2 & Hle & Hall & Hex);
    [intros; apply Hvisit; [by right|done]|done|].
  exists m', memo2. split_and!; [done|done|lia| |].
  - intros z [->|Hz]%elem_of_cons; [exists e; auto with lia|by apply Hall].
  - destruct Hex as [->|(z & e' & Hz & He' & ->)]; [|right; exists z, e'; by auto using list_elem_of_further].
    destruct (decide (m ≤ e)%nat); [|left; lia].
    right. exists y, e. split_and!; [by left|done|lia].
Qed.

Lemma nodeDepth_spec fuel x d depthByNodeID :
  longest g x d → (d < fuel)%nat → memo_ok depthByNodeID →
  ∃ depthByNodeID', nodeDepth g fuel x depthByNodeID = Some (Z.of_nat d, depthByNodeID') ∧
    memo_ok depthByNodeID'.
Proof.
  revert x d depthByNodeID. induction fuel as [|fuel IH]; intros x d depthByNodeID Hd Hfuel Hmemo; [lia|].
  simpl. destruct (depthByNodeID !! x) as [depth|] eqn:Ex.
  { destruct (Hmemo x depth Ex) as (d' & -> & Hd'). rewrite (longest_unique g x d d') by done. eauto. }
  match goal with |- context [foldl ?v _ _] => set (visit := v) end.
  destruct (nodeDepth_loop visit (depsOf g x) 0 depthByNodeID) as (m & memo' & E & Hm' & _ & Hall & Hex);
    [|done|].
  - intros y m memo Hy Hm. destruct (acyclic_longest g y Hacyclic) as (e & He & _).
    pose proof (longest_edge g x y d e Hd Hy He).
    destruct (IH y e memo) as (memo' & E & Hm'); [done|lia|done|].
    exists e, memo'. split_and!; [done|done|]. subst visit. simpl. rewrite E. simpl.
    destruct (Z.ltb_spec (Z.of_nat m) (Z.of_nat e + 1)); do 2 f_equal; lia.
  - change (Some (0, depthByNodeID)) with (Some (Z.of_nat 0, depthByNodeID)). rewrite E. simpl.
    assert (longest g x m) as Hm.
    { apply longest_deps; [exact Hall|].
      destruct Hex as [->|(y & e & Hy & He & ->)]; [by left|right; exists y, e; auto]. }
    rewrite (longest_unique g x d m) by done. eexists. split; [done|]. by apply memo_ok_insert.
Qed.

Lemma nodeDepth_enough x depthByNodeID :
  memo_ok depthByNodeID →
  ∃ d depthByNodeID', longest g x d ∧ memo_ok depthByNodeID' ∧
    nodeDepth g (depthFuel g) x depthByNodeID = Some (Z.of_nat d, depthByNodeID').
Proof.
  intros Hmemo. destruct (acyclic_longest g x Hacyclic) as (d & Hd & Hle).
  destruct (nodeDepth_spec (depthFuel g) x d depthByNodeID) as (memo' & E & Hm');
    [done|unfold depthFuel; lia|done|]. by exists d, memo'.
Qed.

(** ** The deepest common ancestor *)

(** [r] is the deepest node of [P], the smallest name deciding a tie. *)
Definition deepest (P : string → Prop) (r : string) (d : nat) : Prop :=
  P r ∧ longest g r d ∧
  ∀ z e, P z → longest g z e → (e < d)%nat ∨ e = d ∧ string_lt z r = false.

Lemma deepest_unique (P Q : string → Prop) r r' d d' :
  (∀ z, P z ↔ Q z) → deepest P r d → deepest Q r' d' → r = r'.
Proof.
  intros HPQ (Hr & Hd & Hmax) (Hr' & Hd' & Hmax').
  destruct (Hmax r' d') as [?|[-> H1]]; [by apply HPQ|done| |];
    (destruct (Hmax' r d) as [?|[? H2]]; [by apply HPQ|done| |]); try lia.
  by apply string_lt_antisym.
Qed.

Lemma deepest_extend (P : string → Prop) x r d e :
  deepest P r d → longest g x e →
  deepest (λ z, z = x ∨ P z)
    (if decide ((d < e)%nat ∨ d = e ∧ string_lt x r = true) then x else r) (Nat.max d e).
Proof.
  intros (Hr & Hd & Hmax) He. destruct (decide _) as [Hnear|Hfar].
  - split_and!; [by left|by replace (Nat.max d e) with e by lia|].
    intros z e' [->|Hz] He'.
    + rewrite (longest_unique g x e' e) by done.
      right. split; [lia|apply less_irrefl].
    + destruct Hnear as [?|[-> Hlt]]; [destruct (Hmax z e') as [?|[? _]]; auto; left; lia|].
      destruct (Hmax z e' Hz He') as [?|[-> Hzr]]; [left; lia|]. right. split; [lia|].
      destruct (string_lt z x) eqn:E; [|done]. pose proof (less_trans _ _ _ E Hlt). congruence.
  - assert (e < d ∨ e = d ∧ string_lt x r = false)%nat as Hx.
    { destruct (string_lt x r) eqn:E; [left|destruct (decide (e = d)); [by right|left]]; lia. }
    split_and!; [by right|by replace (Nat.max d e) with d by lia|].
    replace (Nat.max d e) with d by lia. intros z e' [->|Hz] He'; [|by apply Hmax].
    by rewrite (longest_unique g x e' e).
Qed.

Lemma nearerCandidate_step (P : string → Prop) r d depthByNodeID x :
  deepest P r d → memo_ok depthByNodeID →
  ∃ r' d' depthByNodeID',
    nearerCandidate g (Some (r, Z.of_nat d, depthByNodeID)) x
      = Some (r', Z.of_nat d', depthByNodeID') ∧
    deepest (λ z, z = x ∨ P z) r' d' ∧ memo_ok depthByNodeID'.
Proof.
  intros Hdeep Hmemo.
  destruct (nodeDepth_enough x depthByNodeID Hmemo) as (e & memo' & He & Hm' & E).
  pose proof (deepest_extend P x r d e Hdeep He) as Hext.
  unfold nearerCandidate. cbn [mbind option_bind]. rewrite E. cbn [mbind option_bind]. eexists _, _, memo'.
  split; [|split; [exact Hext|done]].
  destruct (decide _) as [Hnear|Hfar].
  - assert ((Z.of_nat d <? Z.of_nat e) || ((Z.of_nat e =? Z.of_nat d) && string_lt x r) = true) as ->.
    { rewrite orb_true_iff, andb_true_iff, Z.ltb_lt, Z.eqb_eq. destruct Hnear as [?|[? ?]]; [left|right]; auto with lia. }
    do 3 f_equal. lia.
  - assert ((Z.of_nat d <? Z.of_nat e) || ((Z.of_nat e =? Z.of_nat d) && string_lt x r) = false) as ->.
    { apply not_true_iff_false. rewrite orb_true_iff, andb_true_iff, Z.ltb_lt, Z.eqb_eq.
      intros [?|[? ?]]; apply Hfar; [left|right]; auto with lia. }
    do 3 f_equal. destruct (decide (d < e)%nat); [tauto|lia].
Qed.

Lemma nearerCandidate_loop (P : string → Prop) r d depthByNodeID l :
  deepest P r d → memo_ok depthByNodeID →
  ∃ r' d' depthByNodeID',
    foldl (nearerCandidate g) (Some (r, Z.of_nat d, depthByNodeID)) l
      = Some (r', Z.of_nat d', depthByNodeID') ∧
    deepest (λ z, z ∈ l ∨ P z) r' d'.
Proof.
  revert P r d depthByNodeID.
  induction l as [|x l IH]; intros P r d memo Hdeep Hmemo; cbn [foldl].
  - exists r, d, memo. split; [done|]. destruct Hdeep as (Hr & Hd & Hmax).
    split_and!; [by right|done|]. intros z e [Hz%elem_of_nil|Hz]; [done|by apply Hmax].
  - destruct (nearerCandidate_step P r d memo x Hdeep Hmemo) as (r1 & d1 & memo1 & -> & Hd1 & Hm1).
    destruct (IH _ r1 d1 memo1 Hd1 Hm1) as (r2 & d2 & memo2 & -> & Hr2 & Hd2 & Hmax2).
    exists r2, d2, memo2. split; [done|]. split_and!; [set_solver|done|].
    intros z e Hz. apply Hmax2. set_solver.
Qed.

Lemma nearestOf_spec l :
  ∃ r, nearestOf g l = Some r ∧
    (l = [] ∧ r = "" ∨ ∃ d, deepest (λ z, z ∈ l) r d).
Proof.
  unfold nearestOf. destruct l as [|x l]; [exists ""; by auto|]. cbn [foldl].
  destruct (nodeDepth_enough x ∅) as (d & memo & Hd & Hmemo & E); [by intros ? ?|].
  assert (nearerCandidate g (Some ("", -1, ∅)) x = Some (x, Z.of_nat d, memo)) as ->.
  { unfold nearerCandidate. cbn [mbind option_bind]. rewrite E. by destruct (Z.of_nat d) eqn:?; [| |lia]. }
  destruct (nearerCandidate_loop (λ z, z = x) x d memo l) as (r & d' & memo' & -> & Hdeep).
  - split_and!; [done|done|]. intros z e -> He. right.
    split; [by eapply longest_unique|apply less_irrefl].
  - done.
  - exists r. split; [done|]. right. exists d'. destruct Hdeep as (Hr & Hd' & Hmax).
    split_and!; [set_solver|done|]. intros z e Hz. apply Hmax. set_solver.
Qed.

(** The common ancestors, whatever the first of the dependencies. *)
Lemma commonAncestors_spec l common :
  ∃ common', foldl (commonAncestors g) (Some common) l = Some common' ∧
    ∀ z, z ∈ common' ↔ z ∈ common ∧ ∀ x, x ∈ l → rtc (edge g) x z.
Proof.
  revert common. induction l as [|x l IH]; intros common; simpl.
  { exists common. split; [done|]. intros z. split; [|tauto]. intros. split; [done|].
    intros x Hx%elem_of_nil. done. }
  destruct (ancestorNodeIDs_spec x) as (anc & -> & Hanc). simpl.
  destruct (IH (common ∩ anc)) as (common' & -> & Hc'). exists common'. split; [done|].
  intros z. rewrite Hc', elem_of_intersection, Hanc. split.
  - intros [[? ?] Hl]. split; [done|]. intros y [->|Hy]%elem_of_cons; auto.
  - intros [? Hl]. split_and!; [done|apply Hl; by left|]. intros y Hy. apply Hl. by right.
Qed.

Lemma common_of_dependencies x l :
  ∃ common, foldl (commonAncestors g) (ancestorNodeIDs x g) l = Some common ∧
    ∀ z, z ∈ common ↔ ∀ y, y ∈ x :: l → rtc (edge g) y z.
Proof.
  destruct (ancestorNodeIDs_spec x) as (anc & -> & Hanc).
  destruct (commonAncestors_spec l anc) as (common & -> & Hc). exists common. split; [done|].
  intros z. rewrite Hc, Hanc. split.
  - intros [? Hl] y [->|Hy]%elem_of_cons; auto.
  - intros Hl. split; [apply Hl; by left|]. intros y Hy. apply Hl. by right.
Qed.

End depth.

End graph.
