(* ===== verification/PlannerThms.v ===== *)
(** What the execution planner promises: the baseline it chooses for the
    workspace of each job, and one queued job for each step. *)

From stdpp Require Import base gmap strings list relations pretty sorting numbers.
From S2P Require Import Prelude GoLib GoPath Graph Domain NodeNames Repository BuildRepo.
From S2P Require Import BuildRepoFacts LifecycleSpec Lifecycle LifecycleThms Leases ExecJobRepo ExecJobFacts.
From S2P Require Import Planner PlannerFacts.

Open Scope go_scope.
Open Scope Z_scope.

(** ** The dependency graph of the steps *)

Section workspace_graph.
  Context (steps : list BuildStep).

Definition nodeIDs : list string := effectiveWorkspaceNodeID <$> steps.

(** The producers of a step among the steps of the build. *)
Definition producers (step : BuildStep) : list string :=
  stepDependencies steps nodeIDs (list_to_set nodeIDs) step.

Definition dependents (nodeID : string) : list BuildStep :=
  filter (λ step, nodeID ∈ producers step) steps.

Lemma addKnownDependency_spec known result dependency :
  NoDup result →
  NoDup (addKnownDependency known result dependency) ∧
  ∀ x, x ∈ addKnownDependency known result dependency ↔
    x ∈ result ∨ x = TrimSpace dependency ∧ x ≠ "" ∧ x ∈ known.
Proof.
  intros Hnd. unfold addKnownDependency.
  repeat case_bool_decide; (split; [|intros x]); try done; try naive_solver.
  - apply list.NoDup_app. split_and!; [done| |apply NoDup_singleton].
    intros y Hy ->%list_elem_of_singleton. done.
  - rewrite elem_of_app, list_elem_of_singleton. split; [|naive_solver].
    intros [?| ->]; [by left|right]. split_and!; [done|done|].
    destruct (decide (TrimSpace dependency ∈ known)); tauto.
Qed.

Lemma uniqueKnownDependencies_spec dependencies known :
  NoDup (uniqueKnownDependencies dependencies known) ∧
  ∀ x, x ∈ uniqueKnownDependencies dependencies known ↔
    x ≠ "" ∧ x ∈ known ∧ ∃ dependency, dependency ∈ dependencies ∧ x = TrimSpace dependency.
Proof.
  unfold uniqueKnownDependencies.
  assert (∀ result, NoDup result →
    NoDup (foldl (addKnownDependency known) result dependencies) ∧
    ∀ x, x ∈ foldl (addKnownDependency known) result dependencies ↔
      x ∈ result ∨ x ≠ "" ∧ x ∈ known ∧ ∃ dependency, dependency ∈ dependencies ∧ x = TrimSpace dependency) as H.
  { induction dependencies as [|d ds IH]; intros result Hnd; simpl.
    - split; [done|]. intros x. split; [by left|]. intros [?|(_ & _ & ? & []%elem_of_nil & _)]. done.
    - destruct (addKnownDependency_spec known result d Hnd) as [Hnd' Hin].
      destruct (IH _ Hnd') as [Hnd'' Hin'']. split; [done|]. intros x. rewrite Hin'', Hin.
      split.
      + intros [[?|(-> & ? & ?)]|(? & ? & d' & ? & ?)]; [by left|right|right].
        * split_and!; [done|done|]. exists d. split; [by left|done].
        * split_and!; [done|done|]. exists d'. split; [by right|done].
      + intros [?|(? & ? & d' & [->|?]%elem_of_cons & ?)]; [by left; left|left; right; done|].
        right. split_and!; [done|done|]. by exists d'. }
  destruct (H []) as [Hnd Hin]; [constructor|]. split; [done|].
  intros x. rewrite Hin, elem_of_nil. tauto.
Qed.

Lemma precedingWorkspaceNodeID_known step nodeID :
  precedingWorkspaceNodeID step steps nodeIDs = Some nodeID → nodeID ∈ nodeIDs.
Proof.
  unfold precedingWorkspaceNodeID. destruct (foldl _ _ _) as [[i s]|]; [|done].
  apply list_elem_of_lookup_2.
Qed.

(** The producers are distinct steps of the build; those a step with a name of
    its own declares are exactly its dependencies. *)
Lemma producers_spec step :
  NoDup (producers step) ∧ (∀ x, x ∈ producers step → x ∈ nodeIDs) ∧
  (TrimSpace (st_NodeID step) ≠ "" → ∀ x, x ∈ producers step ↔
     x ≠ "" ∧ x ∈ nodeIDs ∧ ∃ d, d ∈ st_DependsOnNodes step ∧ x = TrimSpace d).
Proof.
  unfold producers, stepDependencies.
  destruct (uniqueKnownDependencies_spec (st_DependsOnNodes step) (list_to_set nodeIDs))
    as [Hnd Hin].
  assert (∀ x, x ∈ uniqueKnownDependencies (st_DependsOnNodes step) (list_to_set nodeIDs) →
    x ∈ nodeIDs) as Hknown.
  { intros x (_ & Hx & _)%Hin. by apply elem_of_list_to_set in Hx. }
  setoid_rewrite elem_of_list_to_set in Hin.
  destruct (_ && _) eqn:E; [|split_and!; auto].
  apply andb_true_iff in E as [E%bool_decide_eq_true _].
  split_and!.
  - destruct (precedingWorkspaceNodeID _ _ _); [apply NoDup_singleton|done].
  - intros x. destruct (precedingWorkspaceNodeID step steps nodeIDs) as [p|] eqn:Ep; [|apply Hknown].
    intros ->%list_elem_of_singleton. by eapply precedingWorkspaceNodeID_known.
  - done.
Qed.

Lemma countDependent_loop l counts x :
  NoDup l →
  default 0 (foldl countDependent counts l !! x)
    = default 0 (counts !! x) + (if decide (x ∈ l) then 1 else 0).
Proof.
  revert counts. induction l as [|y l IH]; intros counts Hnd; simpl.
  { destruct (decide (x ∈ [])) as [[]%elem_of_nil|]; lia. }
  apply list.NoDup_cons in Hnd as [Hy Hnd]. rewrite IH by done. unfold countDependent.
  destruct (decide (x = y)) as [->|Hxy].
  - rewrite lookup_insert_eq. simpl.
    destruct (decide (y ∈ l)); [done|]. destruct (decide (y ∈ y :: l)); [lia|set_solver].
  - rewrite lookup_insert_ne by done.
    destruct (decide (x ∈ l)), (decide (x ∈ y :: l)); set_solver.
Qed.

Lemma collectDependencies_loop l deps counts :
  NoDup (effectiveWorkspaceNodeID <$> l) →
  let result := foldl (collectDependencies steps nodeIDs (list_to_set nodeIDs)) (deps, counts) l in
  (∀ step, step ∈ l → result.1 !! effectiveWorkspaceNodeID step = Some (producers step)) ∧
  (∀ x, x ∉ effectiveWorkspaceNodeID <$> l → result.1 !! x = deps !! x) ∧
  (∀ x, default 0 (result.2 !! x)
     = default 0 (counts !! x) + Z.of_nat (length (filter (λ step, x ∈ producers step) l))).
Proof.
  revert deps counts. induction l as [|s l IH]; intros deps counts Hnd; simpl.
  { split_and!; [intros step []%elem_of_nil|done|intros; lia]. }
  apply list.NoDup_cons in Hnd as [Hs Hnd].
  destruct (IH (<[effectiveWorkspaceNodeID s := producers s]> deps)
              (foldl countDependent counts (producers s)) Hnd) as (Hin & Hout & Hcount).
  split_and!.
  - intros step [->|Hstep]%elem_of_cons; [|by apply Hin].
    etrans; [by apply Hout|]. apply lookup_insert_eq.
  - intros x [Hx Hl]%not_elem_of_cons. etrans; [by apply Hout|]. by apply lookup_insert_ne.
  - intros x. etrans; [apply Hcount|]. destruct (producers_spec s) as [Hp _].
    rewrite countDependent_loop by done. rewrite filter_cons.
    destruct (decide (x ∈ producers s)); simpl; lia.
Qed.

(** The table has the producers of each step, and counts its dependents. *)
Lemma workspaceGraph_spec :
  NoDup nodeIDs →
  (∀ step, step ∈ steps →
     depsOf (workspaceGraph steps).1 (effectiveWorkspaceNodeID step) = producers step) ∧
  (∀ x, default 0 ((workspaceGraph steps).2 !! x) = Z.of_nat (length (dependents x))).
Proof.
  intros Hnd. destruct (collectDependencies_loop steps ∅ ∅ Hnd) as (Hin & _ & Hcount).
  split; [|intros x; apply Hcount].
  intros step Hstep. unfold depsOf.
  change (workspaceGraph steps) with
    (foldl (collectDependencies steps nodeIDs (list_to_set nodeIDs)) (∅, ∅) steps).
  by rewrite (Hin step Hstep).
Qed.

Lemma workspaceGraph_edge x y :
  NoDup nodeIDs → edge (workspaceGraph steps).1 x y →
  ∃ step, step ∈ steps ∧ effectiveWorkspaceNodeID step = x ∧ y ∈ producers step.
Proof.
  intros Hnd Hxy. destruct (collectDependencies_loop steps ∅ ∅ Hnd) as (Hin & Hout & _).
  change (foldl _ _ steps) with (workspaceGraph steps) in *.
  destruct (decide (x ∈ nodeIDs)) as [Hx|Hx].
  - apply list_elem_of_fmap in Hx as (step & -> & Hstep). exists step. split_and!; [done|done|].
    unfold edge, depsOf in Hxy. rewrite (Hin step Hstep) in Hxy. done.
  - unfold edge, depsOf in Hxy. rewrite (Hout x Hx), lookup_empty in Hxy.
    by apply elem_of_nil in Hxy.
Qed.

End workspace_graph.

(** ** Workspace baselines *)

Definition common_ancestor (g : gmap string (list string)) (dependencies : list string)
    (z : string) : Prop := ∀ y, y ∈ dependencies → rtc (edge g) y z.

(** What the search finds: the deepest common ancestor if there is one. *)
Definition nearest_common (g : gmap string (list string)) (dependencies : list string)
    (r : string) : Prop :=
  (∀ z, ¬ common_ancestor g dependencies z) ∧ r = "" ∨
  ∃ d, deepest g (common_ancestor g dependencies) r d.

Lemma nearestOf_common g dependencies l :
  acyclic g → (∀ z, z ∈ l ↔ common_ancestor g dependencies z) →
  ∃ r, nearestOf g l = Some r ∧ nearest_common g dependencies r.
Proof.
  intros Hac Hl. destruct (nearestOf_spec g Hac l) as (r & Er & Hr). exists r. split; [done|].
  destruct Hr as [[-> ->]|(d & Hd1 & Hd2 & Hd3)].
  - left. split; [|done]. intros z Hz%Hl. by apply elem_of_nil in Hz.
  - right. exists d. split; [by apply Hl|split; [done|]]. intros z e Hz. by apply Hd3, Hl.
Qed.

Lemma nearest_common_unique g dependencies r r' :
  nearest_common g dependencies r → nearest_common g dependencies r' → r = r'.
Proof.
  intros [[Hnone ->]|(d & Hd)] [[Hnone' ->]|(d' & Hd')]; [done| | |].
  - destruct Hd' as (Hd' & _). by apply Hnone in Hd'.
  - destruct Hd as (Hd & _). by apply Hnone' in Hd.
  - by apply (deepest_unique g (common_ancestor g dependencies) (common_ancestor g dependencies)
      r r' d d').
Qed.

Lemma nearestCommonAncestor_found g dependencies :
  acyclic g → dependencies ≠ [] →
  ∃ r, nearestCommonAncestor dependencies g = Some r ∧ nearest_common g dependencies r.
Proof.
  intros Hac Hne. destruct dependencies as [|x l]; [done|].
  destruct (common_of_dependencies g x l) as (cs & Ecs & Hcs).
  unfold nearestCommonAncestor. rewrite Ecs. cbn [mbind option_bind].
  apply nearestOf_common; [done|]. intros z. rewrite elem_of_elements. apply Hcs.
Qed.

(** The common ancestor.  In an acyclic graph the search ends; it finds
    the deepest node that every one of the dependencies is or descends from,
    the smallest name deciding between equally deep ones, and the empty name
    exactly when there is none; and the order in which Go iterates the set of
    candidates does not matter. *)
Theorem nearestCommonAncestor_spec g dependencies :
  acyclic g → dependencies ≠ [] →
  ∃ r, nearestCommonAncestor dependencies g = Some r ∧
    ((∀ z, ¬ common_ancestor g dependencies z) ∧ r = "" ∨
     ∃ d, deepest g (common_ancestor g dependencies) r d) ∧
    (∀ l, (∀ z, z ∈ l ↔ common_ancestor g dependencies z) → nearestOf g l = Some r).
Proof.
  intros Hac Hne. destruct (nearestCommonAncestor_found g dependencies Hac Hne) as (r & Er & Hr).
  exists r. split_and!; [done|done|]. intros l Hl.
  destruct (nearestOf_common g dependencies l Hac Hl) as (r' & -> & Hr').
  by rewrite (nearest_common_unique g dependencies r r').
Qed.

(** A diamond over two chains: the deepest common ancestor of "d" and "e". *)
Definition ex_graph : gmap string (list string) :=
  {["b" := ["a"]; "c" := ["a"]; "d" := ["b"; "c"]; "e" := ["c"; "b"]]}.

Definition ex_rank (x : string) : nat :=
  if x == "a" then 0 else if (x == "b") || (x == "c") then 1 else 2.

Lemma ex_graph_acyclic : acyclic ex_graph.
Proof.
  apply (ranked_acyclic _ ex_rank). intros x y Hxy. pose proof (edge_dom _ _ _ Hxy) as Hx.
  assert (x ∈ ["b"; "c"; "d"; "e"]) as Hx'.
  { revert Hx. unfold ex_graph. rewrite !dom_insert. set_solver. }
  revert Hxy. repeat (apply elem_of_cons in Hx' as [->|Hx']); [..|by apply elem_of_nil in Hx'];
    intros Hy; vm_compute in Hy; repeat (apply elem_of_cons in Hy as [->|Hy]);
    try (vm_compute; lia); by apply elem_of_nil in Hy.
Qed.

Lemma nearestCommonAncestor_spec_witness :
  nearestCommonAncestor ["d"; "e"] ex_graph = Some "b" ∧
  ∃ r, nearestCommonAncestor ["d"; "e"] ex_graph = Some r ∧
    ((∀ z, ¬ common_ancestor ex_graph ["d"; "e"] z) ∧ r = "" ∨
     ∃ d, deepest ex_graph (common_ancestor ex_graph ["d"; "e"]) r d).
Proof.
  split; [vm_compute; reflexivity|].
  destruct (nearestCommonAncestor_spec ex_graph ["d"; "e"] ex_graph_acyclic) as (r & H1 & H2 & _);
    [discriminate|].
  exists r. split; [exact H1|exact H2].
Defined.

(** The baseline the plan must give a step. *)
Definition baseline (steps : list BuildStep) (step : BuildStep) (plan : WorkspaceInputPlan)
    : Prop :=
  let g := (workspaceGraph steps).1 in
  match producers steps step with
  | [] => plan = mkWorkspaceInputPlan WorkspaceInputModeSource "" "" false
  | [producer] =>
      plan = mkWorkspaceInputPlan WorkspaceInputModePredecessor producer ""
        (bool_decide (2 ≤ length (dependents steps producer))%nat)
  | ps =>
      ∃ ancestor, plan = mkWorkspaceInputPlan WorkspaceInputModeFanIn "" ancestor false ∧
        nearest_common (workspaceGraph steps).1 ps ancestor
  end.

Lemma workspacePlan_baseline steps step :
  NoDup (nodeIDs steps) → acyclic (workspaceGraph steps).1 → step ∈ steps →
  ∃ plan, workspacePlan (workspaceGraph steps).1 (workspaceGraph steps).2 step = Some plan ∧
    baseline steps step plan.
Proof.
  intros Hnd Hac Hstep. destruct (workspaceGraph_spec steps Hnd) as [Hdeps Hcount].
  unfold workspacePlan, baseline. rewrite (Hdeps step Hstep).
  destruct (producers steps step) as [|p [|q ps]] eqn:E.
  - by eexists.
  - eexists. split; [done|]. rewrite Hcount. f_equal.
    destruct (Z.ltb_spec 1 (Z.of_nat (length (dependents steps p)))); symmetry;
      [apply bool_decide_eq_true|apply bool_decide_eq_false]; lia.
  - destruct (nearestCommonAncestor_found (workspaceGraph steps).1 (p :: q :: ps) Hac)
      as (r & -> & Hr); [done|].
    eexists. split; [done|]. by exists r.
Qed.

Lemma planWorkspaceInputs_found steps :
  NoDup (nodeIDs steps) → acyclic (workspaceGraph steps).1 →
  ∃ plans, planWorkspaceInputs steps = Some plans ∧ Forall2 (baseline steps) steps plans.
Proof.
  intros Hnd Hac.
  assert (∀ l, (∀ step, step ∈ l → step ∈ steps) →
    ∃ plans, mapM (workspacePlan (workspaceGraph steps).1 (workspaceGraph steps).2) l = Some plans ∧
      Forall2 (baseline steps) l plans) as Hall.
  { induction l as [|s l IH]; intros Hl; simpl; [by eexists|].
    destruct (workspacePlan_baseline steps s) as (plan & -> & Hplan); [done|done|apply Hl; by left|].
    destruct IH as (plans & -> & Hplans); [intros; apply Hl; by right|].
    eexists. split; [done|]. by constructor. }
  destruct (Hall steps) as (plans & Eplans & Hplans); [done|].
  exists plans. split; [|done]. unfold planWorkspaceInputs. by destruct (workspaceGraph steps).
Qed.

(** C27: the workspace baselines.  In a build whose nodes have distinct names
    and whose dependencies are acyclic the planning ends with one baseline for
    each step: the source of the build for a step without producers, the
    workspace of its producer for a step with one (an isolated copy when other
    steps take it too), and the deepest common ancestor of its producers for a
    step with several.  Producers are steps of the build. *)
Theorem planWorkspaceInputs_spec steps :
  NoDup (nodeIDs steps) → acyclic (workspaceGraph steps).1 →
  ∃ plans, planWorkspaceInputs steps = Some plans ∧ Forall2 (baseline steps) steps plans ∧
    ∀ step producer, step ∈ steps → producer ∈ producers steps step → producer ∈ nodeIDs steps.
Proof.
  intros Hnd Hac. destruct (planWorkspaceInputs_found steps Hnd Hac) as (plans & E & Hplans).
  exists plans. split_and!; [done|done|].
  intros step p _ Hp. destruct (producers_spec steps step) as (_ & Hin & _). by apply Hin.
Qed.

(** Two steps that both follow "a", and a last one that joins them. *)
Definition ex_plan_step (i : Z) (node : string) (deps : list string) : BuildStep :=
  zero_BuildStep <| st_ID := "s" +:+ Itoa i |> <| st_StepIndex := i |> <| st_NodeID := node |>
    <| st_DependsOnNodes := deps |>.
Definition ex_plan_steps : list BuildStep :=
  [ex_plan_step 0 "a" []; ex_plan_step 1 "b" ["a"]; ex_plan_step 2 "c" [" a "];
   ex_plan_step 3 "d" ["b"; "c"; "x"]].

Lemma ex_plan_nodup : NoDup (nodeIDs ex_plan_steps).
Proof.
  change (nodeIDs ex_plan_steps) with ["a"; "b"; "c"; "d"]. repeat constructor; set_solver.
Qed.

Lemma ex_plan_graph :
  (workspaceGraph ex_plan_steps).1
    = {["a" := []; "b" := ["a"]; "c" := ["a"]; "d" := ["b"; "c"]]}.
Proof. vm_compute. reflexivity. Qed.

Lemma ex_plan_acyclic : acyclic (workspaceGraph ex_plan_steps).1.
Proof.
  rewrite ex_plan_graph.
  apply (ranked_acyclic _ (λ x, if x == "a" then 0 else if x == "d" then 2 else 1)%nat).
  intros x y Hxy. pose proof (edge_dom _ _ _ Hxy) as Hx.
  assert (x ∈ ["a"; "b"; "c"; "d"]) as Hx'.
  { revert Hx. rewrite !dom_insert. set_solver. }
  revert Hxy. repeat (apply elem_of_cons in Hx' as [->|Hx']); [..|by apply elem_of_nil in Hx'];
    intros Hy; vm_compute in Hy; repeat (apply elem_of_cons in Hy as [->|Hy]);
    try (vm_compute; lia); by apply elem_of_nil in Hy.
Qed.

Lemma planWorkspaceInputs_spec_witness :
  planWorkspaceInputs ex_plan_steps = Some
    [mkWorkspaceInputPlan "source" "" "" false; mkWorkspaceInputPlan "predecessor" "a" "" true;
     mkWorkspaceInputPlan "predecessor" "a" "" true; mkWorkspaceInputPlan "fan_in" "" "a" false] ∧
  ∃ plans, planWorkspaceInputs ex_plan_steps = Some plans ∧
    Forall2 (baseline ex_plan_steps) ex_plan_steps plans.
Proof.
  split; [vm_compute; reflexivity|].
  destruct (planWorkspaceInputs_spec ex_plan_steps ex_plan_nodup ex_plan_acyclic)
    as (plans & H1 & H2 & _).
  exists plans. split; [exact H1|exact H2].
Defined.

(** ** One job for each step *)

Section plan.
  Context (json_Marshal : ExecutionJobSpec → string * option error) (sha256_hex : string → string).
  Context (p : BuildExecutionPlanner) (newID : nat → string) (build : Build) (image : string).

(** The job the plan must give the step at position [i]. *)
Definition job_of_step (i : nat) (step : BuildStep) (workspaceInput : WorkspaceInputPlan)
    (job : ExecutionJob) : Prop :=
  let spec := plannedSpec p build image step workspaceInput in
  j_ID job = newID i ∧ j_BuildID job = b_ID build ∧ j_StepID job = st_ID step ∧
  j_NodeID job = effectiveWorkspaceNodeID step ∧ j_StepIndex job = st_StepIndex step ∧
  j_DependsOnNodeIDs job = st_DependsOnNodes step ∧
  j_Status job = ExecutionJobStatusQueued ∧ j_AttemptNumber job = 1 ∧
  j_RetryOfJobID job = None ∧ j_LineageRootJobID job = Some (j_ID job) ∧
  j_ClaimToken job = None ∧ j_ClaimedBy job = None ∧ j_ClaimExpiresAt job = None ∧
  j_StartedAt job = None ∧ j_FinishedAt job = None ∧ j_CreatedAt job = bp_clock p i ∧
  (json_Marshal spec).1 = j_ResolvedSpecJSON job ∧
  j_SpecDigest job = BuildSpecDigest sha256_hex (j_ResolvedSpecJSON job) ∧
  j_Image job = js_Image spec ∧ j_Command job = js_Command spec ∧
  j_Environment job = js_Environment spec ∧ j_Source job = js_Source spec.

Lemma plannedJob_spec i step plan specJSON :
  json_Marshal (plannedSpec p build image step plan) = (specJSON, None) →
  job_of_step i step plan
    (plannedJob sha256_hex p build step (plannedSpec p build image step plan) specJSON (newID i)
       (bp_clock p i)).
Proof. intros E. unfold job_of_step. rewrite E. by split_and!. Qed.

Lemma planJobs_spec index steps plans :
  (∀ spec, (json_Marshal spec).2 = None) → length steps = length plans →
  ∃ jobs, planJobs json_Marshal sha256_hex p newID build image index (zip steps plans) = (jobs, None) ∧
    j_ID <$> jobs = newID <$> seq index (length steps) ∧
    ∀ i step plan, steps !! i = Some step → plans !! i = Some plan →
      ∃ job, jobs !! i = Some job ∧ job_of_step (index + i) step plan job.
Proof.
  intros Hjson. revert index plans. induction steps as [|s steps IH]; intros index [|pl plans] Hlen; try done.
  { exists []. done. }
  cbn [zip zip_with planJobs length] in *.
  destruct (IH (S index) plans) as (jobs & E & Hl & Hjobs); [lia|].
  unfold ToJSON. pose proof (Hjson (plannedSpec p build image s pl)) as Hok.
  destruct (json_Marshal (plannedSpec p build image s pl)) as [raw [err|]] eqn:Em; [done|].
  rewrite E. eexists. split; [done|]. split; [by rewrite fmap_cons, Hl|].
  intros [|i] step plan; simpl.
  - intros [= <-] [= <-]. eexists. split; [done|].
    replace (index + 0)%nat with index by lia. by apply plannedJob_spec.
  - intros Hs Hp. replace (index + S i)%nat with (S index + i)%nat by lia. by apply Hjobs.
Qed.

End plan.

Lemma effectiveWorkspaceNodeID_trimmed step :
  TrimSpace (effectiveWorkspaceNodeID step) = effectiveWorkspaceNodeID step ∧
  effectiveWorkspaceNodeID step ≠ "".
Proof.
  unfold effectiveWorkspaceNodeID. case_bool_decide as E; simpl.
  - split; [apply FallbackNodeID_trimmed|apply FallbackNodeID_nonempty].
  - split; [apply TrimSpace_idemp|done].
Qed.

(** The store of jobs keeps a planned job as it is. *)
Lemma createdJob_planned job :
  j_AttemptNumber job = 1 → TrimSpace (j_NodeID job) ≠ "" → createdJob job = job.
Proof.
  intros Ha Hn. unfold createdJob. destruct job; cbn in *. rewrite Ha in *.
  case_bool_decide; [done|]. done.
Qed.

(** What [Plan] returns when the graph of the steps is acyclic. *)
Lemma Plan_jobs json_Marshal sha256_hex p newID build image steps :
  NoDup (nodeIDs steps) → acyclic (workspaceGraph steps).1 →
  (∀ spec, (json_Marshal spec).2 = None) →
  ∃ jobs, Plan json_Marshal sha256_hex p newID build steps image = Some (jobs, None) ∧
    j_ID <$> jobs = newID <$> seq 0 (length steps) ∧
    (∀ i step, steps !! i = Some step → ∃ plan job, jobs !! i = Some job ∧
       baseline steps step plan ∧
       job_of_step json_Marshal sha256_hex p newID build image i step plan job).
Proof.
  intros Hnd Hac Hjson. unfold Plan.
  destruct (planWorkspaceInputs_found steps Hnd Hac) as (plans & Eplans & Hplans).
  pose proof (list.Forall2_length _ _ _ Hplans) as Hlen.
  destruct (planJobs_spec json_Marshal sha256_hex p newID build image 0 steps plans Hjson Hlen)
    as (jobs & Ejobs & Hids & Hjobs).
  pose proof (f_equal length Hids) as Hjl. rewrite !length_fmap, length_seq in Hjl.
  exists jobs. split_and!; [|done|].
  - case_bool_decide as Hnil.
    + apply nil_length_inv in Hnil as ->. by apply nil_length_inv in Hjl as ->.
    + rewrite Eplans. cbn [mbind option_bind]. by rewrite Ejobs.
  - intros i step Hi. destruct (list.Forall2_lookup_l _ _ _ _ _ Hplans Hi) as (plan & Hp & Hb).
    destruct (Hjobs i step plan Hi Hp) as (job & Hj & Hjob). by exists plan, job.
Qed.

(** The plan.  For a build whose nodes have distinct names and whose
    dependencies are acyclic, and a specification encoder that does not fail,
    the plan is one job for each step, in the order of the steps: queued, first
    attempt, root of its own lineage, unclaimed, with the name, place and
    dependencies of the step, the image the step or else the build names, and
    the specification with the workspace baseline of the step.  The identifiers
    are distinct, and the job store takes the jobs as they are. *)
Theorem Plan_spec json_Marshal sha256_hex p newID build image steps :
  NoDup (nodeIDs steps) → acyclic (workspaceGraph steps).1 →
  (∀ spec, (json_Marshal spec).2 = None) → Inj (=) (=) newID →
  ∃ jobs, Plan json_Marshal sha256_hex p newID build steps image = Some (jobs, None) ∧
    length jobs = length steps ∧ NoDup (j_ID <$> jobs) ∧
    (∀ i step, steps !! i = Some step → ∃ plan job, jobs !! i = Some job ∧
       baseline steps step plan ∧
       job_of_step json_Marshal sha256_hex p newID build image i step plan job) ∧
    (∀ r, (CreateJobsForBuild jobs r).2 = jobs).
Proof.
  intros Hnd Hac Hjson Hinj.
  destruct (Plan_jobs json_Marshal sha256_hex p newID build image steps Hnd Hac Hjson)
    as (jobs & Eplan & Hids & Hall).
  pose proof (f_equal length Hids) as Hjl. rewrite !length_fmap, length_seq in Hjl.
  exists jobs. split_and!; [done|done| |done|].
  - rewrite Hids. apply NoDup_fmap_2; [done|apply NoDup_seq].
  - intros r. unfold CreateJobsForBuild. cbn [snd].
    rewrite (list_fmap_ext _ id _ (λ i job _, clone_job job)), list_fmap_id.
    rewrite <-(list_fmap_id jobs) at 2. apply list_fmap_ext. intros i job Hi.
    destruct (lookup_lt_is_Some_2 steps i) as [step Hstep];
      [rewrite <-Hjl; by eapply lookup_lt_Some|].
    destruct (Hall i step Hstep) as (plan & job' & Hj & _ & Hspec).
    assert (job' = job) as -> by congruence.
    destruct Hspec as (_ & _ & _ & Enode & _ & _ & _ & Eatt & _).
    change (id job) with job. apply createdJob_planned; [done|]. rewrite Enode.
    destruct (effectiveWorkspaceNodeID_trimmed step) as [-> ?]. done.
Qed.

(** An encoder that writes the image and the command only. *)
Definition ex_marshal (spec : ExecutionJobSpec) : string * option error :=
  ("{" +:+ js_Image spec +:+ Join (js_Command spec) " " +:+ "}", None).
Definition ex_planner : BuildExecutionPlanner := NewBuildExecutionPlanner (λ i, Z.of_nat i).

Lemma Plan_spec_witness :
  ∃ jobs, Plan ex_marshal (λ s, s) ex_planner (λ i, pretty i) zero_Build ex_plan_steps "go:1"
      = Some (jobs, None) ∧
    length jobs = 4%nat ∧ NoDup (j_ID <$> jobs) ∧
    (CreateJobsForBuild jobs NewExecutionJobRepository).2 = jobs.
Proof.
  destruct (Plan_spec ex_marshal (λ s, s) ex_planner (λ i, pretty i) zero_Build "go:1" ex_plan_steps
    ex_plan_nodup ex_plan_acyclic (λ _, eq_refl) pretty_nat_inj) as (jobs & H1 & H2 & H3 & _ & H4).
  exists jobs. split; [exact H1|]. split; [exact H2|]. split; [exact H3|apply H4].
Defined.
