(* ===== verification/Versioning.v ===== *)
(** Versions of applications and artifacts: configured values, templates with
    placeholders, and the values a build gives them
    (backend/internal/versioning/application_version.go, artifact_template.go).

    The regular expressions of the code are executable predicates here.  Reading
    a version from a file of the workspace is input and output, and is left out;
    the check of its path is modelled. *)

From Stdlib Require Import Ascii.
From stdpp Require Import base gmap strings list pretty sorting numbers.
From S2P Require Import Prelude GoLib GoPath Domain.

Open Scope go_scope.
Open Scope Z_scope.

(** ** Character classes *)

Definition in_range (lo hi : N) (c : Ascii.ascii) : bool :=
  ((lo <=? byte_of c)%N && (byte_of c <=? hi)%N).
Definition is_digit : Ascii.ascii → bool := in_range 48 57.
Definition is_upper : Ascii.ascii → bool := in_range 65 90.
Definition is_lower : Ascii.ascii → bool := in_range 97 122.

(** Letters, digits and the dash; small letters and the underscore. *)
Definition is_identifier_char (c : Ascii.ascii) : bool :=
  is_digit c || is_upper c || is_lower c || Ascii.eqb c "-".
Definition is_placeholder_char (c : Ascii.ascii) : bool := is_lower c || Ascii.eqb c "_".

(** ** Semantic versions

    The pattern [applicationVersionSemVerPattern]: three numeric identifiers
    and, after the first dash, pre-release identifiers. *)

(** Zero, or digits of which the first is not zero. *)
Definition numeric_identifier (s : string) : bool :=
  match string_to_list s with
  | [] => false
  | [c] => is_digit c
  | c :: l => is_digit c && negb (Ascii.eqb c "0") && forallb is_digit l
  end.

(** A numeric identifier, or letters, digits and dashes that are not all digits. *)
Definition prerelease_identifier (s : string) : bool :=
  numeric_identifier s
  || (forallb is_identifier_char (string_to_list s)
      && existsb (λ c, negb (is_digit c)) (string_to_list s)).

(** The text before the first [sep] and, if there is one, the text after it. *)
Fixpoint cut_bytes (sep : Ascii.ascii) (l : list Ascii.ascii)
    : list Ascii.ascii * option (list Ascii.ascii) :=
  match l with
  | [] => ([], None)
  | c :: l =>
      if Ascii.eqb c sep then ([], Some l)
      else let '(before, after) := cut_bytes sep l in (c :: before, after)
  end.

Definition applicationVersionSemVerPattern (s : string) : bool :=
  let '(core, prerelease) := cut_bytes "-" (string_to_list s) in
  match Split (string_of_list core) "." with
  | [major; minor; patch] =>
      numeric_identifier major && numeric_identifier minor && numeric_identifier patch
      && match prerelease with
         | None => true
         | Some rest => forallb prerelease_identifier (Split (string_of_list rest) ".")
         end
  | _ => false
  end.

Definition normalizeApplicationVersion (value : string) : string * option error :=
  let trimmed := TrimSpace value in
  if negb (applicationVersionSemVerPattern trimmed)
  then ("", Some (Errorf ("application version must be SemVer without build metadata: "
                          +:+ Quote trimmed)))
  else (trimmed, None).

Definition ValidateApplicationVersion (value : string) : option error :=
  (normalizeApplicationVersion value).2.

(** ** Templates

    The pattern [artifactTemplatePattern], one or more small letters or
    underscores in braces, cuts a template into literal text and placeholders,
    from left to right. *)

Inductive Token :=
  | Literal (text : string)
  | Placeholder (name : string).

#[export] Instance Token_eq_dec : EqDecision Token.
Proof. solve_decision. Defined.

(** The scan of a template.  [text] is the literal text since the last
    placeholder and [name] the characters since an open brace, if there was
    one, both in reverse. *)
Fixpoint scan_template (text : list Ascii.ascii) (name : option (list Ascii.ascii))
    (l : list Ascii.ascii) : list Token :=
  match l with
  | [] =>
      [Literal (string_of_list (reverse
        match name with None => text | Some name => name ++ "{"%char :: text end))]
  | c :: l =>
      match name with
      | None =>
          if Ascii.eqb c "{" then scan_template text (Some []) l
          else scan_template (c :: text) None l
      | Some name =>
          if is_placeholder_char c then scan_template text (Some (c :: name)) l
          else if Ascii.eqb c "}" && negb (bool_decide (name = []))
          then Literal (string_of_list (reverse text))
               :: Placeholder (string_of_list (reverse name)) :: scan_template [] None l
          else if Ascii.eqb c "{" then scan_template (name ++ "{"%char :: text) (Some []) l
          else scan_template (c :: name ++ "{"%char :: text) None l
      end
  end.

Definition artifactTemplatePattern (template : string) : list Token :=
  scan_template [] None (string_to_list template).

Definition isSupportedArtifactTemplatePlaceholder (name : string) : bool :=
  bool_decide (name ∈ ["build_number"; "git_sha"; "git_short_sha"; "git_ref"]).

Definition hasPlaceholder (tokens : list Token) : bool :=
  existsb (λ t, match t with Placeholder _ => true | Literal _ => false end) tokens.

(** The loop over the matches: literal text holds no brace, and the names are
    supported. *)
Fixpoint validateTokens (tokens : list Token) : option error :=
  match tokens with
  | [] => None
  | Literal text :: rest =>
      if ContainsAny text "{}"
      then Some (Errorf "artifact version template contains malformed placeholders")
      else validateTokens rest
  | Placeholder name :: rest =>
      if negb (isSupportedArtifactTemplatePlaceholder name)
      then Some (Errorf ("artifact version template placeholder " +:+ Quote name
                         +:+ " is not supported"))
      else validateTokens rest
  end.

Definition ValidateArtifactVersionTemplate (template : string) : option error :=
  let trimmed := TrimSpace template in
  if trimmed == "" then Some (Errorf "artifact version template is required")
  else
    let tokens := artifactTemplatePattern trimmed in
    if negb (hasPlaceholder tokens) then None else validateTokens tokens.

Definition ValidateArtifactVersionConfig (template channel : string) : option error :=
  let trimmedTemplate := TrimSpace template in
  let trimmedChannel := TrimSpace channel in
  if (trimmedTemplate == "") && (trimmedChannel == "")
  then Some (Errorf "artifact version template or channel is required")
  else if (trimmedTemplate == "") && (trimmedChannel != "")
  then Some (Errorf "artifact version channel requires a template")
  else ValidateArtifactVersionTemplate trimmedTemplate.

(** ** The values of placeholders *)

Definition optionalString (value : option string) : string :=
  match value with None => "" | Some value => TrimSpace value end.

Definition optionalSourceString (source : option SourceSpec) (wantCommit : bool) : string :=
  match source with
  | None => ""
  | Some source =>
      if wantCommit then optionalString (ss_CommitSHA source) else optionalString (ss_Ref source)
  end.

(** The loop that returns the first value that is not empty. *)
Definition firstNonEmpty (values : list string) : string :=
  match filter (λ value, value ≠ "") values with [] => "" | value :: _ => value end.

Definition artifactTemplateGitSHA (build : Build) : string :=
  firstNonEmpty [optionalString (b_SourceSHA build); optionalString (b_CommitSHA build);
    optionalSourceString (b_Source build) true; optionalString (tr_CommitSHA (b_Trigger build))].

Definition artifactTemplateGitRef (build : Build) : string :=
  firstNonEmpty [optionalString (b_SourceRef build); optionalString (b_Ref build);
    optionalSourceString (b_Source build) false; optionalString (tr_Ref (b_Trigger build))].

Definition artifactTemplatePlaceholderValue (name : string) (build : Build)
    : string * option error :=
  if name == "build_number" then
    if b_BuildNumber build <=? 0
    then ("", Some (Errorf
      "artifact version template token {build_number} requires build number metadata"))
    else (Itoa (b_BuildNumber build), None)
  else if name == "git_sha" then
    let sha := artifactTemplateGitSHA build in
    if sha == ""
    then ("", Some (Errorf "artifact version template token {git_sha} requires git sha metadata"))
    else (sha, None)
  else if name == "git_short_sha" then
    let sha := artifactTemplateGitSHA build in
    if sha == ""
    then ("", Some (Errorf
      "artifact version template token {git_short_sha} requires git sha metadata"))
    else if (8 <? String.length sha)%nat then (String.substring 0 8 sha, None)
    else (sha, None)
  else if name == "git_ref" then
    let ref := artifactTemplateGitRef build in
    if ref == ""
    then ("", Some (Errorf "artifact version template token {git_ref} requires git ref metadata"))
    else (ref, None)
  else ("", Some (Errorf ("artifact version template placeholder " +:+ Quote name
                          +:+ " is not supported"))).

(** The replacement of the placeholders; the first error ends it. *)
Fixpoint resolveTokens (build : Build) (tokens : list Token) : string * option error :=
  match tokens with
  | [] => ("", None)
  | Literal text :: rest =>
      match resolveTokens build rest with
      | (_, Some err) => ("", Some err)
      | (resolved, None) => (text +:+ resolved, None)
      end
  | Placeholder name :: rest =>
      match artifactTemplatePlaceholderValue name build with
      | (_, Some err) => ("", Some err)
      | (value, None) =>
          match resolveTokens build rest with
          | (_, Some err) => ("", Some err)
          | (resolved, None) => (value +:+ resolved, None)
          end
      end
  end.

Definition ResolveArtifactVersionTemplate (template : string) (build : Build)
    : string * option error :=
  let trimmed := TrimSpace template in
  match ValidateArtifactVersionTemplate trimmed with
  | Some err => ("", Some err)
  | None =>
      match resolveTokens build (artifactTemplatePattern trimmed) with
      | (_, Some err) => ("", Some err)
      | (resolved, None) => (TrimSpace resolved, None)
      end
  end.

(** ** The version of an application *)

Record ApplicationVersionConfig := mkApplicationVersionConfig {
  av_Value : string;
  av_Template : string;
  av_File : string;
}.

Definition ApplicationVersionConfig_Empty (c : ApplicationVersionConfig) : bool :=
  (TrimSpace (av_Value c) == "") && (TrimSpace (av_Template c) == "")
  && (TrimSpace (av_File c) == "").

(** [filepath.Clean] with forward slashes, on a Unix system. *)
Definition pathClean (value : string) : string := Clean value.

Definition validateApplicationVersionFilePath (value : string) : option error :=
  let trimmed := TrimSpace value in
  if trimmed == "" then Some (Errorf "application version file is required")
  else if IsAbs trimmed
  then Some (Errorf "application version file must be workspace-relative")
  else
    let cleaned := pathClean trimmed in
    if (cleaned == ".") || (cleaned == "..") || HasPrefix cleaned "../"
    then Some (Errorf ("application version file must be workspace-relative and must not "
                       +:+ "traverse parent directories"))
    else None.

Definition configuredSources (config : ApplicationVersionConfig) : Z :=
  (if TrimSpace (av_Value config) != "" then 1 else 0)
  + (if TrimSpace (av_Template config) != "" then 1 else 0)
  + (if TrimSpace (av_File config) != "" then 1 else 0).

Definition ValidateApplicationVersionConfig (config : ApplicationVersionConfig) : option error :=
  let sources := configuredSources config in
  if 1 <? sources
  then Some (Errorf "exactly one of value, template, or file may be configured")
  else if sources =? 0 then None
  else if TrimSpace (av_Value config) != "" then ValidateApplicationVersion (av_Value config)
  else if TrimSpace (av_Template config) != ""
  then ValidateArtifactVersionTemplate (av_Template config)
  else validateApplicationVersionFilePath (av_File config).

Definition ResolveApplicationVersion (config : ApplicationVersionConfig) (build : Build)
    : string * option error :=
  match ValidateApplicationVersionConfig config with
  | Some err => ("", Some err)
  | None =>
      if TrimSpace (av_Value config) != "" then normalizeApplicationVersion (av_Value config)
      else if TrimSpace (av_Template config) == "" then ("", None)
      else
        match ResolveArtifactVersionTemplate (av_Template config) build with
        | (_, Some err) => ("", Some err)
        | (resolved, None) => normalizeApplicationVersion resolved
        end
  end.

(** ** Small runs *)

Example semver_plain : applicationVersionSemVerPattern "1.20.3" = true.
Proof. vm_compute. reflexivity. Qed.
Example semver_prerelease : applicationVersionSemVerPattern "1.0.0-rc.1-x.00a" = true.
Proof. vm_compute. reflexivity. Qed.
Example semver_leading_zero : applicationVersionSemVerPattern "1.02.0" = false.
Proof. vm_compute. reflexivity. Qed.
Example semver_metadata : applicationVersionSemVerPattern "1.0.0+7" = false.
Proof. vm_compute. reflexivity. Qed.
Example semver_prerelease_zero : applicationVersionSemVerPattern "1.0.0-01" = false.
Proof. vm_compute. reflexivity. Qed.
Example scan_two : artifactTemplatePattern "3.{{build_number}.{x-}{}" =
  [Literal "3.{"; Placeholder "build_number"; Literal ".{x-}{}"].
Proof. vm_compute. reflexivity. Qed.
