(* ===== verification/VersioningThms.v ===== *)
(** Versions: the pattern of semantic versions is the regular expression of the
    code, templates are cut into tokens without loss, and the version a build
    gets is a semantic version. *)

From Stdlib Require Import Ascii.
From stdpp Require Import base gmap strings list pretty sorting numbers.
From S2P Require Import Prelude GoLib GoPath Regexp Domain NodeNames Versioning.

Open Scope go_scope.
Open Scope Z_scope.

(** ** The pattern of semantic versions *)

(** [0|[1-9][0-9]*] and [[0-9A-Za-z-]*[A-Za-z-][0-9A-Za-z-]*]. *)
Definition numeric_regexp : regexp :=
  Alt (Char "0") (Cat (Class_ (in_range 49 57)) (Star (Class_ is_digit))).
Definition letter_or_dash (c : Ascii.ascii) : bool :=
  is_upper c || is_lower c || Ascii.eqb c "-".
Definition word_regexp : regexp :=
  Cat (Star (Class_ is_identifier_char))
    (Cat (Class_ letter_or_dash) (Star (Class_ is_identifier_char))).
Definition prerelease_regexp : regexp := Alt numeric_regexp word_regexp.

(** The pattern as the code writes it, without its anchors. *)
Definition semver_regexp : regexp :=
  Cat numeric_regexp (Cat (Char ".") (Cat numeric_regexp (Cat (Char ".") (Cat numeric_regexp
    (Opt (Cat (Char "-")
      (Cat prerelease_regexp (Star (Cat (Char ".") prerelease_regexp))))))))).

Lemma byte_of_inj c d : byte_of c = byte_of d → c = d.
Proof. intros E. rewrite <-(ascii_N_embedding c), <-(ascii_N_embedding d). by f_equal. Qed.

Lemma in_range_true lo hi c : in_range lo hi c = true ↔ (lo ≤ byte_of c ≤ hi)%N.
Proof. unfold in_range. rewrite andb_true_iff, !N.leb_le. done. Qed.

Lemma eqb_byte c d : Ascii.eqb c d = (byte_of c =? byte_of d)%N.
Proof.
  destruct (Ascii.eqb_spec c d) as [->|H]; [by rewrite N.eqb_refl|].
  symmetry. apply N.eqb_neq. intros E%byte_of_inj. done.
Qed.

Lemma leading_digit c :
  in_range 49 57 c = true ↔ is_digit c = true ∧ Ascii.eqb c "0" = false.
Proof.
  unfold is_digit. rewrite eqb_byte, !in_range_true, N.eqb_neq. change (byte_of "0") with 48%N. lia.
Qed.

Lemma numeric_identifier_regexp l :
  numeric_identifier (string_of_list l) = true ↔ matches numeric_regexp l.
Proof.
  unfold numeric_identifier, numeric_regexp. rewrite string_to_of_list, matches_Alt, matches_Char, matches_Cat.
  setoid_rewrite matches_Class. setoid_rewrite matches_Star_Class.
  assert (∀ c k, (∃ l1 l2, c :: k = l1 ++ l2 ∧ (∃ d, l1 = [d] ∧ in_range 49 57 d = true)
    ∧ forallb is_digit l2 = true) ↔ is_digit c = true ∧ Ascii.eqb c "0" = false ∧
      forallb is_digit k = true) as Hlong.
  { intros c k. split.
    - intros (? & l2 & E & (d & -> & Hd%leading_digit) & Hl). simplify_eq/=. tauto.
    - intros (H1 & H2 & H3). exists [c], k. split_and!; [done| |done].
      exists c. split; [done|]. by apply leading_digit. }
  destruct l as [|c [|d l]]; [|rewrite Hlong..].
  - split; [done|]. intros [?|(? & ? & E & (? & -> & _) & _)]; done.
  - simpl. split.
    + intros Hc. destruct (Ascii.eqb_spec c "0") as [->|]; auto.
    + by intros [[= ->]|(? & _)].
  - rewrite !andb_true_iff, negb_true_iff. split; [tauto|]. intros [?|?]; [done|tauto].
Qed.

Lemma identifier_char c : is_identifier_char c = is_digit c || letter_or_dash c.
Proof. unfold is_identifier_char, letter_or_dash. by rewrite !orb_assoc. Qed.

Lemma letter_not_digit c :
  is_identifier_char c = true → letter_or_dash c = negb (is_digit c).
Proof.
  rewrite identifier_char. destruct (is_digit c) eqn:Hd; [|done]. intros _.
  apply not_true_iff_false. unfold letter_or_dash. rewrite !orb_true_iff, eqb_byte, N.eqb_eq.
  unfold is_digit, is_upper, is_lower in *. rewrite !in_range_true in *.
  change (byte_of "-") with 45%N. lia.
Qed.

Lemma prerelease_identifier_regexp l :
  prerelease_identifier (string_of_list l) = true ↔ matches prerelease_regexp l.
Proof.
  unfold prerelease_identifier, prerelease_regexp.
  rewrite orb_true_iff, matches_Alt, numeric_identifier_regexp, string_to_of_list.
  apply or_iff_compat_l. unfold word_regexp. rewrite andb_true_iff, matches_Cat.
  setoid_rewrite matches_Cat. setoid_rewrite matches_Class. setoid_rewrite matches_Star_Class. split.
  - intros [Hall (c & (l1 & l2 & ->)%in_split & Hc)%existsb_exists].
    rewrite forallb_app in Hall. simpl in Hall. bool_to_prop.
    exists l1, (c :: l2). split_and!; [done|done|]. exists [c], l2. split_and!; [done| |done].
    exists c. split; [done|]. rewrite letter_not_digit; auto using negb_true_iff.
    by apply negb_true_iff.
  - intros (l1 & ? & -> & H1 & ? & l2 & -> & (c & -> & Hc) & H2).
    assert (is_identifier_char c = true) as Hid by (rewrite identifier_char, Hc; apply orb_true_r).
    rewrite forallb_app, existsb_app. simpl. rewrite H1, Hid, H2. simpl. split; [done|].
    rewrite letter_not_digit in Hc by done. by rewrite Hc, orb_true_r.
Qed.

(** No numeric identifier holds a dot or a dash; no identifier holds a dot. *)
Lemma numeric_no c l : matches numeric_regexp l → is_digit c = false → c ∉ l.
Proof.
  unfold numeric_regexp. rewrite matches_Alt, matches_Char, matches_Cat.
  setoid_rewrite matches_Class. setoid_rewrite matches_Star_Class. intros Hl Hc Hin.
  assert (∀ l, forallb is_digit l = true → c ∉ l) as Hdig.
  { intros k Hk Hck%list_elem_of_In. rewrite forallb_forall in Hk.
    by rewrite (Hk c Hck) in Hc. }
  destruct Hl as [->|(? & l2 & -> & (d & -> & Hd%leading_digit) & Hl2)].
  - by apply (Hdig ["0"%char]).
  - apply (Hdig ([d] ++ l2)); [|done]. simpl. by rewrite (proj1 Hd).
Qed.

Lemma prerelease_no_dot l : matches prerelease_regexp l → "."%char ∉ l.
Proof.
  unfold prerelease_regexp. rewrite matches_Alt. intros [H|H]; [by eapply numeric_no|].
  assert (prerelease_identifier (string_of_list l) = true) as Hp.
  { apply prerelease_identifier_regexp, matches_Alt. by right. }
  unfold prerelease_identifier in Hp. apply orb_true_iff in Hp as [Hp|Hp].
  - by eapply numeric_no; [apply numeric_identifier_regexp|].
  - apply andb_true_iff in Hp as [Hp _]. rewrite string_to_of_list, forallb_forall in Hp.
    intros Hin%list_elem_of_In%Hp. done.
Qed.

Lemma cut_bytes_spec sep l :
  match cut_bytes sep l with
  | (before, None) => before = l ∧ sep ∉ l
  | (before, Some after) => l = before ++ sep :: after ∧ sep ∉ before
  end.
Proof.
  induction l as [|c l IH]; simpl; [split; [done|apply not_elem_of_nil]|].
  destruct (Ascii.eqb_spec c sep) as [->|Hc]; [split; [done|apply not_elem_of_nil]|].
  destruct (cut_bytes sep l) as [before [after|]], IH as [-> Hs]; simpl;
    (split; [done|]; apply not_elem_of_cons; auto).
Qed.

Lemma cut_bytes_app sep l1 l2 : sep ∉ l1 → cut_bytes sep (l1 ++ sep :: l2) = (l1, Some l2).
Proof.
  induction l1 as [|c l1 IH]; simpl; [by rewrite Ascii.eqb_refl|].
  intros [Hc Hl]%not_elem_of_cons. rewrite (proj2 (Ascii.eqb_neq c sep)) by congruence.
  by rewrite IH.
Qed.

Lemma cut_bytes_free sep l : sep ∉ l → cut_bytes sep l = (l, None).
Proof.
  induction l as [|c l IH]; simpl; [done|].
  intros [Hc Hl]%not_elem_of_cons. rewrite (proj2 (Ascii.eqb_neq c sep)) by congruence.
  by rewrite IH.
Qed.

(** Three numeric identifiers between dots. *)
Lemma semver_core l :
  (match split_bytes "." l with
   | [major; minor; patch] => matches numeric_regexp major ∧ matches numeric_regexp minor ∧
                              matches numeric_regexp patch
   | _ => False
   end) ↔
  ∃ major minor patch, l = major ++ "."%char :: minor ++ "."%char :: patch ∧
    matches numeric_regexp major ∧ matches numeric_regexp minor ∧ matches numeric_regexp patch.
Proof.
  split.
  - pose proof (join_split_bytes "." l) as E.
    destruct (split_bytes "." l) as [|x [|y [|z [|? ?]]]]; try done. intros H. by exists x, y, z.
  - intros (x & y & z & -> & Hx & Hy & Hz).
    rewrite split_bytes_app by by eapply numeric_no. rewrite split_bytes_app by by eapply numeric_no.
    by rewrite split_bytes_word by by eapply numeric_no.
Qed.

Lemma semver_core_no_dash major minor patch :
  matches numeric_regexp major → matches numeric_regexp minor → matches numeric_regexp patch →
  "-"%char ∉ major ++ "."%char :: minor ++ "."%char :: patch.
Proof.
  intros Hx Hy Hz. rewrite not_elem_of_app, not_elem_of_cons, not_elem_of_app, not_elem_of_cons.
  split_and!; [by eapply numeric_no|done|by eapply numeric_no|done|by eapply numeric_no].
Qed.

Lemma semver_regexp_words l :
  matches semver_regexp l ↔
  ∃ major minor patch rest, l = (major ++ "."%char :: minor ++ "."%char :: patch) ++ rest ∧
    matches numeric_regexp major ∧ matches numeric_regexp minor ∧ matches numeric_regexp patch ∧
    (rest = [] ∨ ∃ pre, rest = "-"%char :: pre ∧
       Forall (matches prerelease_regexp) (split_bytes "." pre)).
Proof.
  unfold semver_regexp. rewrite matches_Cat. setoid_rewrite matches_Char_Cat.
  setoid_rewrite matches_Cat. setoid_rewrite matches_Char_Cat. setoid_rewrite matches_Cat.
  unfold Opt. setoid_rewrite matches_Alt. setoid_rewrite matches_Empty.
  setoid_rewrite matches_Char_Cat.
  setoid_rewrite (matches_separated "." prerelease_regexp _ prerelease_no_dot). split.
  - intros (x & ? & -> & Hx & ? & -> & y & ? & -> & Hy & ? & -> & z & rest & -> & Hz & Hrest).
    exists x, y, z, rest. split_and!; [by rewrite <-app_assoc; simpl; rewrite <-app_assoc|done..].
  - intros (x & y & z & rest & -> & Hx & Hy & Hz & Hrest).
    exists x, ("."%char :: y ++ "."%char :: z ++ rest).
    split_and!; [by rewrite <-app_assoc; simpl; rewrite <-app_assoc|done|].
    eexists. split; [done|]. exists y, ("."%char :: z ++ rest). split_and!; [done|done|].
    eexists. split; [done|]. by exists z, rest.
Qed.

(** Coq's [if] on the three parts of a split. *)
Lemma semver_parts l (P : Prop) b :
  (b = true ↔ P) →
  (match string_of_list <$> split_bytes "." l with
   | [major; minor; patch] =>
       numeric_identifier major && numeric_identifier minor && numeric_identifier patch && b
   | _ => false
   end) = true ↔
  (∃ major minor patch, l = major ++ "."%char :: minor ++ "."%char :: patch ∧
    matches numeric_regexp major ∧ matches numeric_regexp minor ∧ matches numeric_regexp patch) ∧ P.
Proof.
  intros Hb. rewrite <-semver_core. destruct (split_bytes "." l) as [|x [|y [|z [|? ?]]]]; simpl;
    try (split; [done|tauto]).
  rewrite !andb_true_iff, !numeric_identifier_regexp. tauto.
Qed.

(** C29: the check of semantic versions decides the regular expression the code
    compiles: a string is accepted exactly when it is a word of it, that is three
    numeric identifiers without leading zeros between dots, and after a dash
    pre-release identifiers between dots. *)
Theorem semver_pattern_is_regexp s :
  applicationVersionSemVerPattern s = true ↔ matches semver_regexp (string_to_list s).
Proof.
  rewrite semver_regexp_words. unfold applicationVersionSemVerPattern, Split.
  set (l := string_to_list s). pose proof (cut_bytes_spec "-" l) as Hcut.
  destruct (cut_bytes "-" l) as [core rest] eqn:E. rewrite string_to_of_list.
  rewrite (semver_parts core (match rest with None => True | Some pre =>
    Forall (matches prerelease_regexp) (split_bytes "." pre) end)).
  2: { destruct rest as [pre|]; [|done]. rewrite string_to_of_list, forallb_forall, list.Forall_forall.
       setoid_rewrite <-list_elem_of_In. setoid_rewrite list_elem_of_fmap. split.
       - intros H w Hw. apply prerelease_identifier_regexp, H. by exists w.
       - intros H ? (w & -> & Hw). by apply prerelease_identifier_regexp, H. }
  split.
  - intros [(x & y & z & -> & Hx & Hy & Hz) Hrest]. destruct rest as [pre|], Hcut as [Hl _].
    + exists x, y, z, ("-"%char :: pre). split_and!; [done..|]. right. by exists pre.
    + exists x, y, z, []. rewrite app_nil_r. split_and!; [done..|by left].
  - intros (x & y & z & k & El & Hx & Hy & Hz & Hk). rewrite El in E.
    pose proof (semver_core_no_dash x y z Hx Hy Hz) as Hfree.
    destruct Hk as [->|(pre & -> & Hpre)].
    + rewrite app_nil_r, cut_bytes_free in E by done. injection E as <- <-.
      split; [by exists x, y, z|done].
    + rewrite cut_bytes_app in E by done. injection E as <- <-. split; [by exists x, y, z|done].
Qed.

(** ** Templates *)

Definition render_token (token : Token) : string :=
  match token with
  | Literal text => text
  | Placeholder name => "{" +:+ name +:+ "}"
  end.

Definition render (tokens : list Token) : string :=
  foldr (λ token s, render_token token +:+ s) "" tokens.

Definition brace_free (s : string) : Prop :=
  "{"%char ∉ string_to_list s ∧ "}"%char ∉ string_to_list s.
Definition placeholder_name (s : string) : Prop :=
  s ≠ "" ∧ forallb is_placeholder_char (string_to_list s) = true.

(** Literal text without braces between placeholders. *)
Inductive well_formed : list Token → Prop :=
  | well_formed_last text : brace_free text → well_formed [Literal text]
  | well_formed_next text name tokens :
      brace_free text → placeholder_name name → well_formed tokens →
      well_formed (Literal text :: Placeholder name :: tokens).

Lemma string_of_list_app l k : string_of_list (l ++ k) = string_of_list l +:+ string_of_list k.
Proof. induction l as [|c l IH]; simpl; [done|]. by rewrite IH. Qed.

Lemma append_nil s : s +:+ "" = s.
Proof. induction s as [|c s IH]; [done|]. change (String c (s +:+ "") = String c s). by rewrite IH. Qed.

Lemma append_assoc s t u : (s +:+ t) +:+ u = s +:+ t +:+ u.
Proof.
  induction s as [|c s IH]; [done|].
  change (String c ((s +:+ t) +:+ u) = String c (s +:+ t +:+ u)). by rewrite IH.
Qed.

(** What the scan has read and not yet written. *)
Definition pending_text (text : list Ascii.ascii) (name : option (list Ascii.ascii))
    : list Ascii.ascii :=
  match name with None => text | Some name => name ++ "{"%char :: text end.

Lemma render_scan text name l :
  render (scan_template text name l) = string_of_list (reverse (pending_text text name) ++ l).
Proof.
  revert text name. induction l as [|c l IH]; intros text name.
  { simpl. rewrite app_nil_r. by rewrite append_nil. }
  assert (∀ c', reverse (c' :: pending_text text name) ++ l
    = reverse (pending_text text name) ++ c' :: l) as Hsnoc.
  { intros c'. by rewrite reverse_cons, <-app_assoc. }
  destruct name as [name|]; simpl.
  - destruct (is_placeholder_char c); [rewrite IH; simpl; by rewrite <-Hsnoc|].
    destruct (Ascii.eqb_spec c "}") as [->|]; [destruct (bool_decide (name = [])) eqn:Hn|]; simpl.
    + rewrite IH. simpl. by rewrite <-Hsnoc.
    + rewrite IH. simpl. rewrite reverse_app, reverse_cons, <-!app_assoc, !string_of_list_app. simpl.
      by rewrite !append_assoc.
    + destruct (Ascii.eqb_spec c "{") as [->|]; rewrite IH; simpl; by rewrite <-Hsnoc.
  - destruct (Ascii.eqb_spec c "{") as [->|]; rewrite IH; simpl; by rewrite <-Hsnoc.
Qed.

Lemma scan_text acc text l :
  "{"%char ∉ text → scan_template acc None (text ++ l) = scan_template (reverse text ++ acc) None l.
Proof.
  revert acc. induction text as [|c text IH]; intros acc; [done|].
  intros [Hc Ht]%not_elem_of_cons. simpl. rewrite (proj2 (Ascii.eqb_neq c "{")) by congruence.
  rewrite IH by done. by rewrite reverse_cons, <-app_assoc.
Qed.

Lemma scan_name acc name rest l :
  forallb is_placeholder_char rest = true → name ≠ [] ∨ rest ≠ [] →
  scan_template acc (Some name) (rest ++ "}"%char :: l) =
    Literal (string_of_list (reverse acc))
    :: Placeholder (string_of_list (reverse name ++ rest)) :: scan_template [] None l.
Proof.
  revert name. induction rest as [|c rest IH]; intros name Hall Hne.
  - destruct Hne as [Hne|]; [|done]. simpl. rewrite app_nil_r.
    by rewrite bool_decide_eq_false_2 by done.
  - simpl in *. apply andb_true_iff in Hall as [Hc Hall]. rewrite Hc, IH by auto.
    by rewrite reverse_cons, <-app_assoc.
Qed.

Lemma scan_well_formed tokens :
  well_formed tokens → scan_template [] None (string_to_list (render tokens)) = tokens.
Proof.
  induction 1 as [text [Hopen Hclose]|text name tokens [Hopen Hclose] [Hne Hname] _ IH]; simpl.
  - rewrite append_nil, <-(app_nil_r (string_to_list text)), scan_text by done. simpl.
    by rewrite app_nil_r, reverse_involutive, string_of_to_list.
  - change (String "{" (name +:+ "}")) with ("{" +:+ name +:+ "}").
    rewrite !string_to_list_app, <-!app_assoc, scan_text by done. simpl.
    rewrite scan_name, IH; [|done|].
    + simpl. by rewrite app_nil_r, reverse_involutive, !string_of_to_list.
    + right. intros E. apply Hne. by rewrite <-(string_of_to_list name), E.
Qed.


(** ** What resolution returns *)

(** The text of a token for a build; the errors of the placeholders. *)
Definition token_value (build : Build) (token : Token) : string :=
  match token with
  | Literal text => text
  | Placeholder name => (artifactTemplatePlaceholderValue name build).1
  end.
Definition token_missing (build : Build) (token : Token) : option error :=
  match token with
  | Literal _ => None
  | Placeholder name => (artifactTemplatePlaceholderValue name build).2
  end.

Definition first_error (errs : list (option error)) : option error :=
  foldr (λ err rest, match err with Some _ => err | None => rest end) None errs.

Lemma first_error_none errs : first_error errs = None ↔ Forall (λ err, err = None) errs.
Proof.
  induction errs as [|[e|] errs IH]; simpl; rewrite ?list.Forall_cons; [done|by split; [|intros [??]]|].
  rewrite IH. tauto.
Qed.

Lemma resolveTokens_spec build tokens :
  resolveTokens build tokens =
  match first_error (token_missing build <$> tokens) with
  | Some err => ("", Some err)
  | None => (foldr (λ token s, token_value build token +:+ s) "" tokens, None)
  end.
Proof.
  induction tokens as [|[text|name] tokens IH]; [done|simpl; rewrite IH..].
  - by destruct (first_error _).
  - destruct (artifactTemplatePlaceholderValue name build) as [value [err|]]; [done|].
    simpl. by destruct (first_error _).
Qed.

Lemma validateTokens_supported tokens :
  validateTokens tokens = None ↔
  Forall (λ token, match token with
                   | Literal text => ContainsAny text "{}" = false
                   | Placeholder name => isSupportedArtifactTemplatePlaceholder name = true
                   end) tokens.
Proof.
  induction tokens as [|[text|name] tokens IH]; simpl; rewrite ?list.Forall_cons; [done| |].
  - rewrite <-IH. destruct (ContainsAny text "{}"); split; [done|by intros [? _]|done|tauto].
  - rewrite <-IH. destruct (isSupportedArtifactTemplatePlaceholder name); simpl;
      split; [done|tauto|done|by intros [? _]].
Qed.

(** The metadata a placeholder needs. *)
Definition sha_sources (build : Build) : list string :=
  [optionalString (b_SourceSHA build); optionalString (b_CommitSHA build);
   optionalSourceString (b_Source build) true; optionalString (tr_CommitSHA (b_Trigger build))].
Definition ref_sources (build : Build) : list string :=
  [optionalString (b_SourceRef build); optionalString (b_Ref build);
   optionalSourceString (b_Source build) false; optionalString (tr_Ref (b_Trigger build))].

Definition available (build : Build) (name : string) : Prop :=
  (name = "build_number" ∧ 0 < b_BuildNumber build) ∨
  (name ∈ ["git_sha"; "git_short_sha"] ∧ ∃ sha, sha ∈ sha_sources build ∧ sha ≠ "") ∨
  (name = "git_ref" ∧ ∃ ref, ref ∈ ref_sources build ∧ ref ≠ "").

Lemma firstNonEmpty_found values : firstNonEmpty values ≠ "" ↔ ∃ v, v ∈ values ∧ v ≠ "".
Proof.
  unfold firstNonEmpty. destruct (filter (λ value, value ≠ "") values) as [|v l] eqn:E.
  - split; [done|]. intros (v & Hv & Hne). destruct (not_elem_of_nil v). rewrite <-E.
    by apply list_elem_of_filter.
  - assert (v ∈ filter (λ value, value ≠ "") values) as [? ?]%list_elem_of_filter
      by (rewrite E; by left).
    split; [|done]. intros _. by exists v.
Qed.

Lemma not_sha_name name : name ∉ ["git_sha"; "git_short_sha"] ↔ name ≠ "git_sha" ∧ name ≠ "git_short_sha".
Proof. rewrite !not_elem_of_cons. split; [tauto|]. intros [? ?]. split_and!; [done|done|apply not_elem_of_nil]. Qed.

Lemma available_cases build name :
  available build name ↔
  (if name == "build_number" then 0 < b_BuildNumber build
   else if bool_decide (name ∈ ["git_sha"; "git_short_sha"])
   then firstNonEmpty (sha_sources build) ≠ ""
   else if name == "git_ref" then firstNonEmpty (ref_sources build) ≠ "" else False).
Proof.
  unfold available.
  rewrite <-(firstNonEmpty_found (sha_sources build)), <-(firstNonEmpty_found (ref_sources build)).
  case_bool_decide as H1; [subst; split; [|by left]; intros [[_ ?]|[[H _]|[? _]]]; try done;
    by apply not_sha_name in H|].
  case_bool_decide as H2; [split; [|by auto]; intros [[? _]|[[_ ?]|[-> _]]]; try done;
    by apply not_sha_name in H2|].
  case_bool_decide as H3; [subst; split; [|by auto]; by intros [[? _]|[[? _]|[_ ?]]]|].
  split; [|done]. by intros [[? _]|[[? _]|[? _]]].
Qed.

Lemma placeholder_available build name :
  (artifactTemplatePlaceholderValue name build).2 = None ↔ available build name.
Proof.
  rewrite available_cases. unfold artifactTemplatePlaceholderValue.
  change (artifactTemplateGitSHA build) with (firstNonEmpty (sha_sources build)).
  change (artifactTemplateGitRef build) with (firstNonEmpty (ref_sources build)).
  case_bool_decide as H1; [destruct (Z.leb_spec (b_BuildNumber build) 0); simpl; split; done || lia|].
  case_bool_decide as H2; [subst|case_bool_decide as H3; [subst|]]; cbn.
  - rewrite (bool_decide_eq_true_2 ("git_sha" ∈ _)) by (by left).
    by case_bool_decide.
  - by case_bool_decide; [|case_match].
  - rewrite (bool_decide_eq_false_2 (name ∈ _)) by set_solver.
    by case_bool_decide; [case_bool_decide|].
Qed.

Lemma ValidateArtifactVersionTemplate_trim template :
  ValidateArtifactVersionTemplate (TrimSpace template) = ValidateArtifactVersionTemplate template.
Proof. unfold ValidateArtifactVersionTemplate. by rewrite TrimSpace_idemp. Qed.

(** Resolving a template.  A template resolves exactly when it is accepted
    and the build has the metadata of every placeholder in it: a positive number
    for the build number, a commit or a ref in one of the four places they are
    looked for.  The version is then the text of the tokens one after the other,
    trimmed.  A template that does not resolve gives no version. *)
Theorem ResolveArtifactVersionTemplate_spec template build value :
  let tokens := artifactTemplatePattern (TrimSpace template) in
  (ResolveArtifactVersionTemplate template build = (value, None) ↔
     ValidateArtifactVersionTemplate template = None ∧
     (∀ name, Placeholder name ∈ tokens → available build name) ∧
     value = TrimSpace (foldr (λ token s, token_value build token +:+ s) "" tokens)) ∧
  ((ResolveArtifactVersionTemplate template build).2 ≠ None →
     (ResolveArtifactVersionTemplate template build).1 = "").
Proof.
  intros tokens. unfold ResolveArtifactVersionTemplate.
  rewrite ValidateArtifactVersionTemplate_trim. fold tokens. rewrite resolveTokens_spec.
  assert (first_error (token_missing build <$> tokens) = None ↔
    ∀ name, Placeholder name ∈ tokens → available build name) as Hall.
  { rewrite first_error_none, list.Forall_forall. setoid_rewrite list_elem_of_fmap. split.
    - intros H name Hn. apply placeholder_available, H. by exists (Placeholder name).
    - intros H err ([text|name] & -> & Hin); [done|]. by apply placeholder_available, H. }
  destruct (ValidateArtifactVersionTemplate template) as [err|]; simpl;
    [split; [split; [done|by intros [? _]]|done]|].
  destruct (first_error (token_missing build <$> tokens)) as [err|]; simpl.
  - split; [|done]. split; [done|]. intros (_ & H & _). by apply Hall in H.
  - split; [|done]. split.
    + intros [= <-]. split_and!; [done|by apply Hall|done].
    + by intros (_ & _ & ->).
Qed.

Lemma normalizeApplicationVersion_ok value version :
  normalizeApplicationVersion value = (version, None) →
  applicationVersionSemVerPattern version = true ∧ TrimSpace version = version.
Proof.
  unfold normalizeApplicationVersion.
  destruct (applicationVersionSemVerPattern (TrimSpace value)) eqn:E; simpl; [|done].
  intros [= <-]. by rewrite TrimSpace_idemp.
Qed.

Lemma configured_semver version build :
  applicationVersionSemVerPattern version = true → TrimSpace version = version →
  ValidateApplicationVersion version = None ∧
  ResolveApplicationVersion (mkApplicationVersionConfig version "" "") build = (version, None).
Proof.
  intros Hpat Htrim.
  assert (normalizeApplicationVersion version = (version, None)) as Hn.
  { unfold normalizeApplicationVersion. by rewrite Htrim, Hpat. }
  assert (version ≠ "") as Hne by by intros ->.
  unfold ValidateApplicationVersion. rewrite Hn. split; [done|].
  unfold ResolveApplicationVersion, ValidateApplicationVersionConfig, configuredSources,
    ValidateApplicationVersion. cbn [av_Value av_Template av_File].
  rewrite Htrim, TrimSpace_empty, (bool_decide_eq_false_2 (version = "")) by done. simpl.
  by rewrite Hn.
Qed.

(** The version of an application.  What a configuration resolves to for a
    build is empty or a semantic version without surrounding space, and it is
    accepted again as a configured value, which resolves to itself.  It is empty
    on an error and when neither a value nor a template is configured. *)
Theorem ResolveApplicationVersion_semver config build version err :
  ResolveApplicationVersion config build = (version, err) →
  (version = "" ∧
     (err ≠ None ∨ TrimSpace (av_Value config) = "" ∧ TrimSpace (av_Template config) = "")) ∨
  (err = None ∧ applicationVersionSemVerPattern version = true ∧ TrimSpace version = version ∧
   ValidateApplicationVersion version = None ∧
   ResolveApplicationVersion (mkApplicationVersionConfig version "" "") build = (version, None)).
Proof.
  assert (∀ value, normalizeApplicationVersion value = (version, err) →
    (version = "" ∧ err ≠ None) ∨ normalizeApplicationVersion value = (version, None) ∧ err = None)
    as Hnorm.
  { intros value. unfold normalizeApplicationVersion.
    destruct (applicationVersionSemVerPattern _); simpl; intros [= <- <-]; [by right|by left]. }
  assert (∀ value, normalizeApplicationVersion value = (version, None) →
    applicationVersionSemVerPattern version = true ∧ TrimSpace version = version ∧
    ValidateApplicationVersion version = None ∧
    ResolveApplicationVersion (mkApplicationVersionConfig version "" "") build = (version, None)) as Hok.
  { intros value [Hp Ht]%normalizeApplicationVersion_ok. destruct (configured_semver version build Hp Ht).
    by split_and!. }
  unfold ResolveApplicationVersion at 1.
  destruct (ValidateApplicationVersionConfig config) as [e|]; [intros [= <- <-]; left; by auto|].
  case_bool_decide as Hv; simpl; [|intros [[-> ?]|[H ->]]%Hnorm; [left; by auto|right; by eauto]].
  case_bool_decide as Ht; simpl; [intros [= <- <-]; left; by auto|].
  destruct (ResolveArtifactVersionTemplate (av_Template config) build) as [resolved [e|]];
    [intros [= <- <-]; left; by auto|].
  intros [[-> ?]|[H ->]]%Hnorm; [left; by auto|right; by eauto].
Qed.

Definition ex_version_build : Build := zero_Build <| b_BuildNumber := 7 |>.


Lemma ResolveApplicationVersion_semver_witness :
  applicationVersionSemVerPattern "1.4.7-rc" = true ∧
  ResolveApplicationVersion (mkApplicationVersionConfig "1.4.7-rc" "" "") ex_version_build
    = ("1.4.7-rc", None).
Proof.
  destruct (ResolveApplicationVersion_semver
    (mkApplicationVersionConfig "" " 1.4.{build_number}-rc " "") ex_version_build "1.4.7-rc" None)
    as [[H _]|(_ & H1 & _ & _ & H2)].
  - vm_compute. reflexivity.
  - discriminate H.
  - split; [exact H1|exact H2].
Defined.

(** Braces that match no placeholder are rejected next to a placeholder and
    accepted alone. *)
Example braces_accepted_alone : ValidateArtifactVersionTemplate "v{BUILD_NUMBER}" = None.
Proof. vm_compute. reflexivity. Qed.
Example braces_rejected_beside_placeholder :
  ValidateArtifactVersionTemplate "v{BUILD_NUMBER}-{git_sha}"
  = Some (Errorf "artifact version template contains malformed placeholders").
Proof. vm_compute. reflexivity. Qed.
