(* ===== verification/ReleaseVersions.v ===== *)
(** Versions of releases (backend/internal/versioning/release.go): the strategies
    manual, semver-patch and template. *)

From Stdlib Require Import Ascii.
From stdpp Require Import base gmap strings list pretty sorting numbers.
From S2P Require Import Prelude GoLib GoPath Domain Versioning.

Open Scope go_scope.
Open Scope Z_scope.

(** [Strategy] is a string. *)
Abbreviation Strategy := string (only parsing).
Definition ReleaseStrategyManual : Strategy := "manual".
Definition ReleaseStrategySemverPatch : Strategy := "semver-patch".
Definition ReleaseStrategyTemplate : Strategy := "template".

Record Config := mkConfig {
  rc_Strategy : string;
  rc_Version : string;
  rc_Template : string;
}.

Record ResolveInput := mkResolveInput {
  ri_Config : Config;
  ri_Build : Build;
  ri_ExistingVersions : list string;
}.

(** The fields are machine integers of 64 bits. *)
Record semverSeries := mksemverSeries {
  sv_Major : Z;
  sv_Minor : Z;
}.

Definition NormalizeStrategy (value : string) : Strategy :=
  let value := TrimSpace (ToLower value) in
  if (value == "") || (value == ReleaseStrategyManual) then ReleaseStrategyManual
  else if value == ReleaseStrategySemverPatch then ReleaseStrategySemverPatch
  else if value == ReleaseStrategyTemplate then ReleaseStrategyTemplate
  else value.

Definition Config_Empty (c : Config) : bool :=
  (TrimSpace (rc_Strategy c) == "") && (TrimSpace (rc_Version c) == "")
  && (TrimSpace (rc_Template c) == "").

(** ** Numbers

    [strconv.Atoi] for integers of 64 bits: an optional sign and at least one
    digit; [None] is its error, a syntax error or a value out of range. *)
Definition digits (l : list Ascii.ascii) : option Z :=
  if bool_decide (l = []) || negb (forallb is_digit l) then None
  else Some (foldl (λ n c, 10 * n + (Z.of_N (byte_of c) - 48)) 0 l).

Definition in_int64 (n : option Z) : option Z :=
  match n with
  | Some n => if (min_int64 <=? n) && (n <=? max_int64) then Some n else None
  | None => None
  end.

Definition Atoi (s : string) : option Z :=
  in_int64
    match string_to_list s with
    | c :: l =>
        if Ascii.eqb c "-" then Z.opp <$> digits l
        else if Ascii.eqb c "+" then digits l
        else digits (c :: l)
    | [] => None
    end.

Definition parseReleasePart (value : string) : Z * option error :=
  if value == "" then (0, Some (Errorf "release version segments must be numeric"))
  else if (1 <? String.length value)%nat && HasPrefix value "0"
  then (0, Some (Errorf "release version segments must not contain leading zeroes"))
  else
    match Atoi value with
    | None => (0, Some (Errorf "release version segments must be numeric"))
    | Some parsed =>
        if parsed <? 0 then (0, Some (Errorf "release version segments must be numeric"))
        else (parsed, None)
    end.

(** ** A series and its next patch *)

Definition zero_semverSeries : semverSeries := mksemverSeries 0 0.

Definition parseSemverSeries (value : string) : semverSeries * option error :=
  let trimmed := TrimSpace value in
  if trimmed == ""
  then (zero_semverSeries, Some (Errorf "release.version is required for semver-patch strategy"))
  else
    match Split trimmed "." with
    | [part0; part1] =>
        match parseReleasePart part0 with
        | (_, Some err) => (zero_semverSeries, Some err)
        | (major, None) =>
            match parseReleasePart part1 with
            | (_, Some err) => (zero_semverSeries, Some err)
            | (minor, None) => (mksemverSeries major minor, None)
            end
        end
    | _ => (zero_semverSeries,
            Some (Errorf "release.version for semver-patch strategy must be major.minor"))
    end.

(** The body of the loop over the existing versions. *)
Definition laterPatch (series : semverSeries) (nextPatch : Z) (candidate : string) : Z :=
  match Split (TrimSpace candidate) "." with
  | [part0; part1; part2] =>
      match parseReleasePart part0, parseReleasePart part1, parseReleasePart part2 with
      | (major, None), (minor, None), (patch, None) =>
          if negb (major =? sv_Major series) || negb (minor =? sv_Minor series) then nextPatch
          else if nextPatch <=? patch then int64_add patch 1
          else nextPatch
      | _, _, _ => nextPatch
      end
  | _ => nextPatch
  end.

Definition resolveNextPatch (series : semverSeries) (existing : list string) : string :=
  let nextPatch := foldl (laterPatch series) 0 existing in
  Itoa (sv_Major series) +:+ "." +:+ Itoa (sv_Minor series) +:+ "." +:+ Itoa nextPatch.

(** ** Templates: the pattern [releaseTemplatePattern] is that of artifacts *)

Definition releaseTemplatePattern (template : string) : list Token :=
  scan_template [] None (string_to_list template).

Definition isSupportedPlaceholder (name : string) : bool :=
  bool_decide (name ∈ ["build_number"; "attempt_number"; "commit_sha"; "short_commit_sha"]).

Fixpoint validateReleaseTokens (tokens : list Token) : option error :=
  match tokens with
  | [] => None
  | Literal text :: rest =>
      if ContainsAny text "{}"
      then Some (Errorf "release.template contains malformed placeholders")
      else validateReleaseTokens rest
  | Placeholder name :: rest =>
      if negb (isSupportedPlaceholder name)
      then Some (Errorf ("release.template placeholder " +:+ Quote name +:+ " is not supported"))
      else validateReleaseTokens rest
  end.

Definition validateTemplate (value : string) : option error :=
  let trimmed := TrimSpace value in
  if trimmed == "" then Some (Errorf "release.template is required for template strategy")
  else
    let tokens := releaseTemplatePattern trimmed in
    if negb (hasPlaceholder tokens) then None else validateReleaseTokens tokens.

(** The commit of the build, or else of its source. *)
Definition releaseCommitSHA (build : Build) : string :=
  match b_CommitSHA build with
  | Some sha => TrimSpace sha
  | None =>
      match b_Source build with
      | Some source => match ss_CommitSHA source with Some sha => TrimSpace sha | None => "" end
      | None => ""
      end
  end.

Definition releasePlaceholderValue (name : string) (build : Build) : string :=
  if name == "build_number" then
    if b_BuildNumber build <=? 0 then "" else Itoa (b_BuildNumber build)
  else if name == "attempt_number" then
    Itoa (if b_AttemptNumber build <=? 0 then 1 else b_AttemptNumber build)
  else if name == "commit_sha" then releaseCommitSHA build
  else if name == "short_commit_sha" then
    let value := releaseCommitSHA build in
    if (8 <? String.length value)%nat then String.substring 0 8 value else value
  else "".

Definition renderTemplate (template : string) (build : Build) : string * option error :=
  match validateTemplate template with
  | Some err => ("", Some err)
  | None =>
      (TrimSpace (foldr (λ token resolved,
         match token with
         | Literal text => text
         | Placeholder name => releasePlaceholderValue name build
         end +:+ resolved) "" (releaseTemplatePattern template)), None)
  end.

(** ** Configuration *)

Definition ValidateConfig (config : Config) : option error :=
  let strategy := NormalizeStrategy (rc_Strategy config) in
  if strategy == ReleaseStrategyManual then
    if TrimSpace (rc_Version config) == ""
    then Some (Errorf "release.version is required for manual strategy")
    else None
  else if strategy == ReleaseStrategySemverPatch then (parseSemverSeries (rc_Version config)).2
  else if strategy == ReleaseStrategyTemplate then validateTemplate (rc_Template config)
  else Some (Errorf "release.strategy must be one of manual, semver-patch, or template").

Definition ResolveVersion (input : ResolveInput) : string * option error :=
  let config := ri_Config input in
  match ValidateConfig config with
  | Some err => ("", Some err)
  | None =>
      let strategy := NormalizeStrategy (rc_Strategy config) in
      if strategy == ReleaseStrategyManual then (TrimSpace (rc_Version config), None)
      else if strategy == ReleaseStrategySemverPatch then
        match parseSemverSeries (rc_Version config) with
        | (_, Some err) => ("", Some err)
        | (series, None) => (resolveNextPatch series (ri_ExistingVersions input), None)
        end
      else if strategy == ReleaseStrategyTemplate
      then renderTemplate (TrimSpace (rc_Template config)) (ri_Build input)
      else ("", Some (Errorf ("unsupported release strategy " +:+ Quote (rc_Strategy config))))
  end.

Example next_patch : resolveNextPatch (mksemverSeries 1 2) ["1.2.0"; " 1.2.7"; "1.3.9"; "1.2.x"] = "1.2.8".
Proof. vm_compute. reflexivity. Qed.
(** A sign is taken for a number, and hides leading zeros. *)
Example signed_series : parseSemverSeries "+01.2" = (mksemverSeries 1 2, None).
Proof. vm_compute. reflexivity. Qed.
Example unsigned_series : (parseSemverSeries "01.2").2 ≠ None.
Proof. vm_compute. discriminate. Qed.
(** The successor of the largest integer wraps around. *)
Example wrapped_patch : resolveNextPatch (mksemverSeries 1 2) ["1.2.9223372036854775807"]
  = "1.2.-9223372036854775808".
Proof. vm_compute. reflexivity. Qed.
