(* ===== verification/ReleaseThms.v ===== *)
(** Releases: numbers are read back as they are written, and the next patch of a
    series is new. *)

From Stdlib Require Import Ascii.
From stdpp Require Import base gmap strings list pretty sorting numbers.
From S2P Require Import Prelude GoLib GoPath Regexp Domain NodeNames Versioning VersioningThms.
From S2P Require Import ReleaseVersions.

Open Scope go_scope.
Open Scope Z_scope.

(** ** Decimal numerals *)

Lemma is_digit_char x : is_digit (pretty_N_char x) = true.
Proof. by destruct x as [|[[[[]|[]|]|[[]|[]|]|]|[[[]|[]|]|[[]|[]|]|]|]]. Qed.

Lemma zero_char x : (x < 10)%N → pretty_N_char x = "0"%char → x = 0%N.
Proof. intros Hx E. by apply pretty_N_char_inj. Qed.

(** The first character of a positive numeral is not a zero. *)
Lemma pretty_go_head x s : (0 < x)%N →
  ∃ c l, pretty_N_go x s = String c l ∧ is_digit c = true ∧ c ≠ "0"%char.
Proof.
  revert s. induction (N.lt_wf_0 x) as [x _ IH]. intros s Hx. rewrite pretty_N_go_step by done.
  destruct (decide (0 < x `div` 10)%N) as [Hd|Hd].
  - apply IH; [by apply N.div_lt|done].
  - assert (x `div` 10 = 0)%N as E by (by apply N.le_0_r, N.nlt_ge). rewrite E, pretty_N_go_0.
    assert (x < 10)%N as Hlt by (by apply N.div_small_iff in E). rewrite N.mod_small by done.
    eexists _, s. split_and!; [done|apply is_digit_char|]. intros E0%zero_char; lia.
Qed.

Lemma pretty_go_digits x s :
  forallb is_digit (string_to_list s) = true →
  forallb is_digit (string_to_list (pretty_N_go x s)) = true.
Proof.
  revert s. induction (N.lt_wf_0 x) as [x _ IH]. intros s Hs.
  destruct (decide (0 < x)%N) as [Hx|Hx]; [|by replace x with 0%N by lia].
  rewrite pretty_N_go_step by done. apply IH; [by apply N.div_lt|].
  simpl. by rewrite is_digit_char, Hs.
Qed.

Lemma pretty_numeral (x : N) :
  forallb is_digit (string_to_list (pretty x)) = true ∧
  ∃ c l, pretty x = String c l ∧ is_digit c = true ∧ (c = "0"%char → l = "").
Proof.
  unfold pretty, pretty_N. case_decide as Hx; [by split; [|exists "0"%char, ""]|].
  split; [by apply pretty_go_digits|].
  destruct (pretty_go_head x "") as (c & l & E & Hc & Hz); [lia|]. exists c, l. naive_solver.
Qed.

Lemma digits_value_Z l a :
  forallb is_digit l = true →
  foldl (λ n c, 10 * n + (Z.of_N (byte_of c) - 48)) (Z.of_N a) l
  = Z.of_N (foldl (λ a c, (a * 10 + digit_value c)%N) a l).
Proof.
  revert a. induction l as [|c l IH]; intros a; [done|]. simpl. intros [Hc Hl]%andb_true_iff.
  rewrite <-IH by done. f_equal. unfold is_digit in Hc. apply in_range_true in Hc.
  unfold digit_value. lia.
Qed.

Lemma digits_pretty (x : N) : digits (string_to_list (pretty x)) = Some (Z.of_N x).
Proof.
  destruct (pretty_numeral x) as [Hall (c & l & E & _)]. unfold digits.
  rewrite Hall, bool_decide_eq_false_2 by (by rewrite E). simpl.
  pose proof (digits_value_Z _ 0 Hall) as Ev. change (Z.of_N 0) with 0 in Ev. rewrite Ev. do 2 f_equal. apply (digits_value_pretty x).
Qed.

Lemma Itoa_nonneg n : 0 ≤ n → Itoa n = pretty (Z.to_N n).
Proof. intros Hn. unfold Itoa. by destruct n as [|p|p]; [| |lia]. Qed.

Lemma digit_no_sign c : is_digit c = true → Ascii.eqb c "-" = false ∧ Ascii.eqb c "+" = false.
Proof.
  unfold is_digit. rewrite in_range_true, !eqb_byte, !N.eqb_neq.
  change (byte_of "-") with 45%N. change (byte_of "+") with 43%N. lia.
Qed.

Lemma Atoi_Itoa n : 0 ≤ n ≤ max_int64 → Atoi (Itoa n) = Some n.
Proof.
  intros Hn. rewrite Itoa_nonneg by lia. unfold Atoi.
  destruct (pretty_numeral (Z.to_N n)) as [_ (c & l & E & Hc & _)].
  pose proof (digits_pretty (Z.to_N n)) as Hd. rewrite E in *. simpl string_to_list in *.
  destruct (digit_no_sign c Hc) as [-> ->]. rewrite Hd. unfold in_int64.
  rewrite Z2N.id by lia.
  assert ((min_int64 <=? n) && (n <=? max_int64) = true) as ->; [|done].
  apply andb_true_iff. rewrite !Z.leb_le. unfold min_int64. lia.
Qed.

Lemma parse_Itoa n : 0 ≤ n ≤ max_int64 → parseReleasePart (Itoa n) = (n, None).
Proof.
  intros Hn. unfold parseReleasePart. rewrite Atoi_Itoa by done.
  destruct (Z.ltb_spec n 0); [lia|].
  rewrite Itoa_nonneg by lia. destruct (pretty_numeral (Z.to_N n)) as [_ (c & l & -> & Hc & Hz)].
  rewrite bool_decide_eq_false_2 by done.
  destruct (Ascii.eqb_spec c "0") as [->|Hc0]; [by rewrite Hz|].
  assert (HasPrefix (String c l) "0" = false) as ->; [|by rewrite andb_false_r].
  unfold HasPrefix. cbn [String.prefix]. by destruct (ascii_dec "0" c).
Qed.

Lemma in_int64_range o n : in_int64 o = Some n → is_int64 n.
Proof.
  unfold in_int64, is_int64. destruct o as [m|]; [|done].
  destruct ((min_int64 <=? m) && (m <=? max_int64)) eqn:E; [|done]. intros [= <-]. bool_to_prop. lia.
Qed.

Lemma parse_range value n : parseReleasePart value = (n, None) → 0 ≤ n ≤ max_int64.
Proof.
  unfold parseReleasePart. case_match; [done|]. case_match; [done|].
  destruct (Atoi value) as [m|] eqn:E; [|done]. destruct (Z.ltb_spec m 0); [done|].
  intros [= <-]. apply in_int64_range in E. unfold is_int64 in E. lia.
Qed.

(** The text of a number holds no dot and no space. *)
Lemma Itoa_no_dot n : 0 ≤ n → "."%char ∉ string_to_list (Itoa n).
Proof.
  intros Hn Hin%list_elem_of_In. rewrite Itoa_nonneg in Hin by done.
  destruct (pretty_numeral (Z.to_N n)) as [Hall _]. rewrite forallb_forall in Hall.
  by apply Hall in Hin.
Qed.

Lemma Itoa_visible n : 0 ≤ n → Forall visible (string_to_list (Itoa n)).
Proof. intros Hn. rewrite Itoa_nonneg by done. apply visible_pretty. Qed.

(** ** The patches of a series *)

(** The patch of a version of the series, if it is one. *)
Definition patch_of (series : semverSeries) (candidate : string) : option Z :=
  match Split (TrimSpace candidate) "." with
  | [part0; part1; part2] =>
      match parseReleasePart part0, parseReleasePart part1, parseReleasePart part2 with
      | (major, None), (minor, None), (patch, None) =>
          if (major =? sv_Major series) && (minor =? sv_Minor series) then Some patch else None
      | _, _, _ => None
      end
  | _ => None
  end.

Definition version_text (series : semverSeries) (patch : Z) : string :=
  Itoa (sv_Major series) +:+ "." +:+ Itoa (sv_Minor series) +:+ "." +:+ Itoa patch.

Definition series_ok (series : semverSeries) : Prop :=
  0 ≤ sv_Major series ≤ max_int64 ∧ 0 ≤ sv_Minor series ≤ max_int64.

Lemma patch_of_range series candidate patch :
  patch_of series candidate = Some patch → 0 ≤ patch ≤ max_int64.
Proof.
  unfold patch_of. destruct (Split _ _) as [|? [|? [|part2 [|? ?]]]]; try done.
  destruct (parseReleasePart s) as [? [?|]]; [done|].
  destruct (parseReleasePart s0) as [? [?|]]; [done|].
  destruct (parseReleasePart part2) as [n [?|]] eqn:E; [done|].
  case_match; [|done]. intros [= <-]. by eapply parse_range.
Qed.

Lemma laterPatch_spec series next candidate :
  laterPatch series next candidate =
  match patch_of series candidate with
  | Some patch => if next <=? patch then int64_add patch 1 else next
  | None => next
  end.
Proof.
  unfold laterPatch, patch_of. destruct (Split _ _) as [|? [|? [|part2 [|? ?]]]]; try done.
  destruct (parseReleasePart s) as [major [?|]]; [done|].
  destruct (parseReleasePart s0) as [minor [?|]]; [done|].
  destruct (parseReleasePart part2) as [n [?|]] eqn:E; [done|].
  by destruct (major =? sv_Major series), (minor =? sv_Minor series).
Qed.

Lemma version_text_parts series patch :
  series_ok series → 0 ≤ patch ≤ max_int64 →
  patch_of series (version_text series patch) = Some patch.
Proof.
  intros [Hmaj Hmin] Hpatch. unfold patch_of, version_text.
  rewrite TrimSpace_visible.
  2: { rewrite !string_to_list_app. rewrite !Forall_app.
       split_and!; try (apply Itoa_visible; lia); repeat constructor; vm_compute; congruence. }
  unfold Split. rewrite !string_to_list_app. simpl.
  rewrite split_bytes_app by (apply Itoa_no_dot; lia).
  rewrite split_bytes_app by (apply Itoa_no_dot; lia).
  rewrite split_bytes_word by (apply Itoa_no_dot; lia). simpl.
  rewrite !string_of_to_list, !parse_Itoa by lia. by rewrite !Z.eqb_refl.
Qed.

(** The loop: one more than the largest patch so far. *)
Lemma next_patch_loop series existing next :
  0 ≤ next ≤ max_int64 →
  (∀ c patch, c ∈ existing → patch_of series c = Some patch → patch < max_int64) →
  let final := foldl (laterPatch series) next existing in
  next ≤ final ≤ max_int64 ∧
  (∀ c patch, c ∈ existing → patch_of series c = Some patch → patch < final) ∧
  (final = next ∨ ∃ c, c ∈ existing ∧ patch_of series c = Some (final - 1)).
Proof.
  revert next. induction existing as [|c existing IH]; intros next Hnext Hmax; simpl.
  { split_and!; [lia|lia| |by left]. by intros ? ? ?%elem_of_nil. }
  rewrite laterPatch_spec.
  assert (∀ c' p, c' ∈ existing → patch_of series c' = Some p → p < max_int64) as Hmax'.
  { intros c' p Hc'. apply Hmax. by right. }
  destruct (patch_of series c) as [p|] eqn:Ec.
  2: { destruct (IH next Hnext Hmax') as (? & Hall & Hor). split_and!; [lia|lia| |].
       - intros c' p [->|Hc']%elem_of_cons Hp; [congruence|by eapply Hall].
       - destruct Hor as [?|(c' & ? & ?)]; [by left|right]. exists c'. split; [by right|done]. }
  pose proof (patch_of_range _ _ _ Ec) as Hp.
  pose proof (Hmax c p ltac:(by left) Ec) as Hlt.
  destruct (Z.leb_spec next p) as [Hle|Hgt].
  - rewrite int64_add_id by (unfold is_int64, min_int64; lia).
    destruct (IH (p + 1)) as (? & Hall & Hor); [lia|done|]. split_and!; [lia|lia| |].
    + intros c' p' [->|Hc']%elem_of_cons Hp'; [assert (p' = p) by congruence; lia|by eapply Hall].
    + right. destruct Hor as [->|(c' & ? & ?)]; [exists c|exists c'].
      * split; [by left|]. by replace (p + 1 - 1) with p by lia.
      * split; [by right|done].
  - destruct (IH next Hnext Hmax') as (? & Hall & Hor). split_and!; [lia|lia| |].
    + intros c' p' [->|Hc']%elem_of_cons Hp'; [assert (p' = p) by congruence; lia|by eapply Hall].
    + destruct Hor as [?|(c' & ? & ?)]; [by left|right]. exists c'. split; [by right|done].
Qed.

Lemma parseSemverSeries_ok value series :
  parseSemverSeries value = (series, None) → series_ok series.
Proof.
  unfold parseSemverSeries. case_match; [done|].
  destruct (Split _ _) as [|part0 [|part1 [|? ?]]]; try done.
  destruct (parseReleasePart part0) as [major [?|]] eqn:E0; [done|].
  destruct (parseReleasePart part1) as [minor [?|]] eqn:E1; [done|].
  intros [= <-]. split; by eapply parse_range.
Qed.

(** The numbers of a version.  A segment is read back as the number it was
    written from, for every number of a machine integer that is not negative,
    and what is read is such a number. *)
Theorem release_number_roundtrip :
  (∀ n, 0 ≤ n ≤ max_int64 → parseReleasePart (Itoa n) = (n, None)) ∧
  (∀ value n, parseReleasePart value = (n, None) → 0 ≤ n ≤ max_int64).
Proof. split; [apply parse_Itoa|apply parse_range]. Qed.

Lemma release_number_roundtrip_witness :
  parseReleasePart (Itoa 9223372036854775807) = (9223372036854775807, None).
Proof. apply release_number_roundtrip. unfold max_int64. lia. Defined.

(** C31: the next patch.  When no version of the series has the largest machine
    integer as its patch, the strategy semver-patch gives a version of the series
    that no existing version equals, even up to surrounding space.  Its patch is
    larger than every patch of the series and no number is left out: it is zero,
    or one more than the patch of an existing version. *)
Theorem next_patch_is_new input series :
  NormalizeStrategy (rc_Strategy (ri_Config input)) = ReleaseStrategySemverPatch →
  parseSemverSeries (rc_Version (ri_Config input)) = (series, None) →
  (∀ c p, c ∈ ri_ExistingVersions input → patch_of series c = Some p → p < max_int64) →
  ∃ patch, ResolveVersion input = (version_text series patch, None) ∧ 0 ≤ patch ≤ max_int64 ∧
    version_text series patch ∉ TrimSpace <$> ri_ExistingVersions input ∧
    (∀ c p, c ∈ ri_ExistingVersions input → patch_of series c = Some p → p < patch) ∧
    (patch = 0 ∨ ∃ c, c ∈ ri_ExistingVersions input ∧ patch_of series c = Some (patch - 1)).
Proof.
  intros Hstrat Hseries Hmax. pose proof (parseSemverSeries_ok _ _ Hseries) as Hok.
  destruct (next_patch_loop series (ri_ExistingVersions input) 0) as (Hrange & Hall & Hor);
    [unfold max_int64; lia|done|].
  exists (foldl (laterPatch series) 0 (ri_ExistingVersions input)). split_and!; [|lia|lia| |done|done].
  - unfold ResolveVersion, ValidateConfig. rewrite Hstrat, Hseries. done.
  - intros (c & E & Hc)%list_elem_of_fmap.
    assert (patch_of series c = Some (foldl (laterPatch series) 0 (ri_ExistingVersions input))) as Ec.
    { rewrite <-(version_text_parts series _ Hok) by lia. unfold patch_of.
      by rewrite E, TrimSpace_idemp. }
    specialize (Hall c _ Hc Ec). lia.
Qed.

Definition ex_release : ResolveInput :=
  mkResolveInput (mkConfig " Semver-Patch " "1.2" "") zero_Build ["1.2.0"; " 1.2.7 "; "1.3.9"; "x"].

Lemma next_patch_is_new_witness :
  ∃ patch, ResolveVersion ex_release = (version_text (mksemverSeries 1 2) patch, None) ∧
    version_text (mksemverSeries 1 2) patch ∉ ["1.2.0"; "1.2.7"; "1.3.9"; "x"].
Proof.
  destruct (next_patch_is_new ex_release (mksemverSeries 1 2)) as (patch & H1 & _ & H2 & _).
  - vm_compute. reflexivity.
  - vm_compute. reflexivity.
  - intros c p Hc Hp. repeat (apply elem_of_cons in Hc as [->|Hc]);
      [vm_compute in Hp; first [discriminate Hp|injection Hp as <-; unfold max_int64; lia]..|].
    by apply elem_of_nil in Hc.
  - exists patch. split; [exact H1|exact H2].
Defined.
