(* ===== verification/Schema.v ===== *)
(** The pipeline file and what it resolves to
    (backend/internal/pipeline/schema.go, resolved.go, errors.go; the artifact
    declarations of domain/artifact.go and domain/artifact_browse.go; the cache
    presets of backend/internal/cache/preset.go).

    The YAML decoder fills these records; it is not part of the model. *)

From Stdlib Require Import Ascii.
From stdpp Require Import base gmap strings list pretty sorting numbers.
From S2P Require Import Prelude GoLib GoPath Domain Versioning.

Open Scope go_scope.
Open Scope Z_scope.

(** ** Artifact declarations *)

(** [ArtifactType] is a string. *)
Abbreviation ArtifactType := string (only parsing).
Definition ArtifactTypeDockerImage : ArtifactType := "docker_image".
Definition ArtifactTypeNPMPackage : ArtifactType := "npm_package".
Definition ArtifactTypeGeneric : ArtifactType := "generic".
Definition ArtifactTypeUnknown : ArtifactType := "unknown".

Definition ParseArtifactType (value : string) : ArtifactType * bool :=
  let value := TrimSpace value in
  if bool_decide (value ∈ [ArtifactTypeDockerImage; ArtifactTypeNPMPackage; ArtifactTypeGeneric;
                           ArtifactTypeUnknown])
  then (value, true) else ("", false).

Record ArtifactVersionDeclaration := mkArtifactVersionDeclaration {
  vd_Template : string;
  vd_Channel : string;
  vd_InheritApplicationVersion : option bool;
}.

Record ArtifactDeclaration := mkArtifactDeclaration {
  ad_Name : string;
  ad_Path : string;
  ad_Type : ArtifactType;
  ad_Platform : string;
  ad_Version : option ArtifactVersionDeclaration;
}.

(** ** Cache presets *)

Definition ErrUnknownPreset : error := Sentinel "cache.ErrUnknownPreset".

Record Preset := mkPreset {
  pr_Name : string;
  pr_CachePaths : list string;
  pr_FingerprintFiles : list string;
}.

Record Component := mkComponent {
  cm_Name : string;
  cm_CachePath : string;
  cm_FingerprintFiles : list string;
  cm_KeyDimensions : list string;
}.

Definition normalizeWorkingDir (workingDir : string) : string :=
  let trimmed := TrimSpace workingDir in
  if (trimmed == "") || (trimmed == ".") then "."
  else
    let cleaned := Clean (replace_byte backslash slash trimmed) in
    if cleaned == "" then "." else cleaned.

(** [path.Join] of a directory that is not empty and a file. *)
Definition joinFile (dir file : string) : string := Clean (dir +:+ "/" +:+ file).

Definition ResolvePreset (name workingDir : string) : Preset + error :=
  let normalized := ToLower (TrimSpace name) in
  let baseDir := normalizeWorkingDir workingDir in
  if normalized == "node"
  then inl (mkPreset "node" ["/root/.npm"] [joinFile baseDir "package-lock.json"])
  else if normalized == "python-uv"
  then inl (mkPreset "python-uv" ["/root/.cache/uv"] [joinFile baseDir "uv.lock"])
  else if normalized == "go"
  then inl (mkPreset "go" ["/go/pkg/mod"; "/root/.cache/go-build"] [joinFile baseDir "go.sum"])
  else inr ErrUnknownPreset.

Definition ResolvePresetComponents (name workingDir : string) : list Component + error :=
  match ResolvePreset name workingDir with
  | inr err => inr err
  | inl preset =>
      if pr_Name preset != "go"
      then inl [mkComponent (pr_Name preset) (hd "" (pr_CachePaths preset))
                  (pr_FingerprintFiles preset) []]
      else inl [mkComponent "go-module" "/go/pkg/mod" (pr_FingerprintFiles preset) ["cache-v2"];
                mkComponent "go-build" "/root/.cache/go-build" (pr_FingerprintFiles preset)
                  ["cache-v2"]]
  end.

Definition SupportedPresets : list string := ["node"; "python-uv"; "go"].

Definition IsSupportedPreset (name : string) : bool :=
  match ResolvePreset name "." with inl _ => true | inr _ => false end.

Definition IsSupportedPolicy (value : string) : bool :=
  if bool_decide (NormalizeCachePolicy value ∈
       [CachePolicyPullPush; CachePolicyPull; CachePolicyPush; CachePolicyOff])
  then
    let trimmed := ToLower (TrimSpace value) in
    bool_decide (trimmed ∈
      [""; CachePolicyPullPush; CachePolicyPull; CachePolicyPush; CachePolicyOff])
  else false.

(** ** The pipeline file (schema.go) *)

Record CacheDef := mkCacheDef {
  cd_Preset : string;
  cd_Policy : string;
  cd_Components : gmap string string;
}.

Record ArtifactDef := mkArtifactDef {
  af_Paths : list string;
  af_Declarations : list ArtifactDeclaration;
}.

Record ImageBuildArtifactInputDef := mkImageBuildArtifactInputDef {
  id_Name : string;
  id_Destination : string;
  id_Platform : string;
}.

Record ImageBuildDef := mkImageBuildDef {
  ib_Context : string;
  ib_Dockerfile : string;
  ib_Target : string;
  ib_BuildArgs : gmap string string;
  ib_Image : string;
  ib_Artifacts : list ImageBuildArtifactInputDef;
}.

(** A step or a group of steps; a group has a name and steps. *)
Inductive StepDef := mkStepDef {
  sd_Group : option (string * list StepDef);
  sd_Name : string;
  sd_DependsOn : option (list string);
  sd_Image : string;
  sd_ImageBuild : option ImageBuildDef;
  sd_Run : string;
  sd_Command : string;
  sd_TimeoutSeconds : option Z;
  sd_WorkingDir : string;
  sd_Env : gmap string string;
  sd_Artifacts : ArtifactDef;
  sd_Cache : option CacheDef;
}.

Record ApplicationVersionDef := mkApplicationVersionDef {
  vf_Value : string;
  vf_Template : string;
  vf_File : string;
}.

Record ReleaseDef := mkReleaseDef {
  rd_Artifacts : list string;
  rd_Images : list string;
  rd_AutoChannel : string;
}.

Record PipelineMeta := mkPipelineMeta {
  pm_Name : string;
  pm_Image : string;
  pm_Cache : option CacheDef;
  pm_ApplicationVersion : option ApplicationVersionDef;
  pm_Release : option ReleaseDef;
}.

Record PipelineFile := mkPipelineFile {
  pf_Version : Z;
  pf_Pipeline : PipelineMeta;
  pf_Env : gmap string string;
  pf_Steps : list StepDef;
  pf_Artifacts : ArtifactDef;
}.

(** ** The resolved pipeline (resolved.go) *)

Record ResolvedRelease := mkResolvedRelease {
  rr_Artifacts : list string;
  rr_Images : list string;
  rr_AutoChannel : string;
}.

Record ResolvedStep := mkResolvedStep {
  rv_NodeID : string;
  rv_GroupName : string;
  rv_DependsOnNodeIDs : list string;
  rv_Name : string;
  rv_ExecutionKind : ExecutionKind;
  rv_RemoteImageBuild : option RemoteImageBuildSpec;
  rv_Image : string;
  rv_Run : string;
  rv_WorkingDir : string;
  rv_Env : gmap string string;
  rv_TimeoutSeconds : Z;
  rv_ArtifactPaths : list string;
  rv_ArtifactDecls : list ArtifactDeclaration;
  rv_Cache : option StepCacheConfig;
}.

#[export] Instance eta_ResolvedStep : Eta ResolvedStep := λ r,
  mkResolvedStep (rv_NodeID r) (rv_GroupName r) (rv_DependsOnNodeIDs r) (rv_Name r)
    (rv_ExecutionKind r) (rv_RemoteImageBuild r) (rv_Image r) (rv_Run r) (rv_WorkingDir r)
    (rv_Env r) (rv_TimeoutSeconds r) (rv_ArtifactPaths r) (rv_ArtifactDecls r) (rv_Cache r).

Record ExecutionNode := mkExecutionNode {
  en_NodeID : string;
  en_GroupName : string;
  en_DependsOnNodeIDs : list string;
  en_Step : ResolvedStep;
}.

#[export] Instance eta_ExecutionNode : Eta ExecutionNode := λ n,
  mkExecutionNode (en_NodeID n) (en_GroupName n) (en_DependsOnNodeIDs n) (en_Step n).

(** Build-level artifacts, in the shape of the declarations of the file. *)
Record ResolvedArtifacts := mkResolvedArtifacts {
  ra_Paths : list string;
  ra_Declarations : list ArtifactDeclaration;
}.

Record ResolvedPipeline := mkResolvedPipeline {
  rp_Name : string;
  rp_Image : string;
  rp_Env : gmap string string;
  rp_ApplicationVersion : ApplicationVersionConfig;
  rp_Release : option ResolvedRelease;
  rp_Steps : list ResolvedStep;
  rp_Plan : list ExecutionNode;
  rp_Artifacts : ResolvedArtifacts;
  rp_Cache : option StepCacheConfig;
}.

(** ** Validation errors (errors.go) *)

Record ValidationError := mkValidationError {
  ve_Field : string;
  ve_Message : string;
}.

(** [ValidationError.Error] and [ValidationErrors.Error]. *)
Definition ValidationError_Error (e : ValidationError) : string :=
  if ve_Field e != "" then ve_Field e +:+ ": " +:+ ve_Message e else ve_Message e.

Definition newline : string := String (Ascii.ascii_of_nat 10) "".

Definition ValidationErrors_Error (errs : list ValidationError) : string :=
  match errs with
  | [] => "validation failed"
  | [e] => ValidationError_Error e
  | _ =>
      foldl (λ msg e, msg +:+ newline +:+ "  - " +:+ ValidationError_Error e)
        (Itoa (Z.of_nat (length errs)) +:+ " validation errors:") errs
  end.
