(* ===== verification/Pipeline.v ===== *)
(** Validation of a pipeline file and its resolution into a plan of nodes
    (backend/internal/pipeline/validate.go, loader.go, cache.go,
    release_identity.go).

    A validation returns the list of its errors, empty when there is none; where
    the code ranges over a map the list has them in the order of
    [map_to_list].  The YAML decoder and the class of letters and digits outside
    ASCII are arguments. *)

From Stdlib Require Import Ascii.
From stdpp Require Import base gmap strings list pretty sorting numbers.
From S2P Require Import Prelude GoLib GoPath Graph Domain Versioning Schema.

Open Scope go_scope.
Open Scope Z_scope.

(** ** Small helpers *)

(** [err.Error()] of the errors the validation reports. *)
Fixpoint error_text (err : error) : string :=
  match err with
  | Sentinel name => if name == "cache.ErrUnknownPreset" then "unknown cache preset" else name
  | Errorf message => message
  | Wrap message inner => message +:+ ": " +:+ error_text inner
  | Joined first second => error_text first +:+ newline +:+ error_text second
  end.

Definition when (c : bool) (field message : string) : list ValidationError :=
  if c then [mkValidationError field message] else [].

(** [fmt.Sprintf("%s[%d]", field, i)]. *)
Definition at_index (field : string) (i : nat) : string :=
  field +:+ "[" +:+ Itoa (Z.of_nat i) +:+ "]".

(** A string whose first character is in one class and the others in another:
    the shape of the three patterns of the validator. *)
Definition matches (first rest : Ascii.ascii → bool) (s : string) : bool :=
  match string_to_list s with
  | [] => false
  | c :: l => first c && forallb rest l
  end.

Definition validEnvKey : string → bool :=
  matches (λ c, is_lower c || is_upper c || Ascii.eqb c "_")
    (λ c, is_lower c || is_upper c || is_digit c || Ascii.eqb c "_").

Definition validLogicalImageName : string → bool :=
  matches (λ c, is_lower c || is_digit c)
    (λ c, is_lower c || is_digit c || Ascii.eqb c "." || Ascii.eqb c "_" || Ascii.eqb c "/"
          || Ascii.eqb c "-").

Definition validDockerStageName : string → bool :=
  matches (λ c, is_lower c || is_digit c)
    (λ c, is_lower c || is_digit c || Ascii.eqb c "_" || Ascii.eqb c "." || Ascii.eqb c "-").

Definition pathPatternHasWildcard (pattern : string) : bool := ContainsAny pattern "*?[".

Definition validateArtifactPathPattern (pattern : string) : option error :=
  if contains_byte backslash pattern
  then Some (Errorf "artifact path must use forward slashes")
  else if HasPrefix pattern "/" then Some (Errorf "artifact path must be relative")
  else if bool_decide (".." ∈ Split pattern slash)
  then Some (Errorf "artifact path must stay within workspace")
  else None.

Definition validTargetPlatform (value : string) : bool :=
  match Split (TrimSpace value) slash with
  | [os; arch] => (os != "") && (arch != "") && negb (ContainsAny value "\ ")
  | _ => false
  end.

Definition validImageBuildRepositoryPath (value : string) (allowCurrentDirectory : bool) : bool :=
  let trimmed := TrimSpace value in
  if (trimmed == "") || (value != trimmed) || contains_byte backslash trimmed || IsAbs trimmed
     || (Clean trimmed != trimmed)
  then false
  else allowCurrentDirectory || (trimmed != ".").

Definition validImageBuildContextPath (value : string) : bool :=
  let trimmed := TrimSpace value in
  validImageBuildRepositoryPath trimmed false && (trimmed != "..")
  && negb (HasPrefix trimmed "../").

Definition declarationsForValidation (def : ArtifactDef) : list ArtifactDeclaration :=
  match af_Declarations def with
  | [] => (λ path, mkArtifactDeclaration "" path "" "" None) <$> af_Paths def
  | declarations => declarations
  end.

Definition validateArtifactVersionDeclaration (declaration : ArtifactVersionDeclaration)
    : option error :=
  match vd_InheritApplicationVersion declaration with
  | Some inherit =>
      if inherit : bool then Some (Errorf "inherit_application_version must be false")
      else if TrimSpace (vd_Template declaration) != ""
      then Some (Errorf "inherit_application_version cannot be combined with template")
      else if TrimSpace (vd_Channel declaration) != ""
      then Some (Errorf "channel requires a template")
      else None
  | None => ValidateArtifactVersionConfig (vd_Template declaration) (vd_Channel declaration)
  end.

(** An error of a helper, reported under a field. *)
Definition report (field : string) (err : option error) : list ValidationError :=
  match err with
  | None => []
  | Some err => [mkValidationError field (error_text err)]
  end.

(** ** Caches *)

Definition validateCacheDef (fieldPrefix : string) (def : option CacheDef)
    : list ValidationError :=
  match def with
  | None => []
  | Some def =>
      let preset := TrimSpace (cd_Preset def) in
      (if preset == ""
       then [mkValidationError (fieldPrefix +:+ ".preset") "preset is required when cache is set"]
       else if negb (IsSupportedPreset preset)
       then [mkValidationError (fieldPrefix +:+ ".preset")
               ("unknown cache preset " +:+ Quote preset)]
       else match ResolvePresetComponents preset "." with
       | inr err => [mkValidationError (fieldPrefix +:+ ".preset") (error_text err)]
       | inl components =>
           concat ((λ '(component, policy),
             when (negb (bool_decide (component ∈ (cm_Name <$> components))))
               (fieldPrefix +:+ ".components." +:+ component)
               ("unknown cache component " +:+ Quote component +:+ " for preset " +:+ Quote preset)
             ++ when (negb (IsSupportedPolicy policy))
               (fieldPrefix +:+ ".components." +:+ component)
               "policy must be one of: pull-push, pull, push, off")
             <$> map_to_list (cd_Components def))
       end)
      ++
      let policy := TrimSpace (cd_Policy def) in
      when ((policy != "") && negb (IsSupportedPolicy policy)) (fieldPrefix +:+ ".policy")
        "policy must be one of: pull-push, pull, push, off"
  end.

Definition resolveCache (def : option CacheDef) : option StepCacheConfig :=
  match def with
  | None => None
  | Some def =>
      let preset := TrimSpace (cd_Preset def) in
      let policy := NormalizeCachePolicy (cd_Policy def) in
      match ResolvePresetComponents preset "." with
      | inr _ => Some (mkStepCacheConfig preset policy ∅)
      | inl components =>
          Some (mkStepCacheConfig preset policy
            (foldl (λ policies component,
               <[cm_Name component :=
                   match cd_Components def !! cm_Name component with
                   | Some override => NormalizeCachePolicy override
                   | None => policy
                   end]> policies) ∅ components))
      end
  end.

(** ** Steps *)

(** The checks the declarations of a step and of the build share. *)
Definition validateDeclaration (field : string) (declaration : ArtifactDeclaration)
    (trimmed : string) : list ValidationError :=
  report field (validateArtifactPathPattern trimmed)
  ++ (if ad_Type declaration != "" then
        when (negb (ParseArtifactType (ad_Type declaration)).2) (field +:+ ".type")
          ("unsupported artifact type " +:+ Quote (ad_Type declaration))
      else [])
  ++ match ad_Version declaration with
     | None => []
     | Some version => report (field +:+ ".version") (validateArtifactVersionDeclaration version)
     end.

Definition validateStepArtifacts (prefix : string) (def : ArtifactDef) : list ValidationError :=
  concat (imap (λ j declaration,
    let trimmed := TrimSpace (ad_Path declaration) in
    let field := at_index (prefix +:+ ".artifacts.paths") j in
    if trimmed == "" then [mkValidationError field "artifact path is required"]
    else validateDeclaration field declaration trimmed) (declarationsForValidation def)).

Definition validateBuildArtifacts (def : ArtifactDef) : list ValidationError :=
  concat (imap (λ i declaration,
    let trimmed := TrimSpace (ad_Path declaration) in
    let field := at_index "artifacts.paths" i in
    if trimmed == "" then [mkValidationError field "artifact path is required"]
    else validateDeclaration field declaration trimmed
         ++ when ((TrimSpace (ad_Name declaration) != "") && pathPatternHasWildcard trimmed)
              (field +:+ ".name") "artifact name requires an exact path declaration")
    (declarationsForValidation def)).

Definition validateEnvKeys (field : string) (env : gmap string string) : list ValidationError :=
  concat ((λ '(key, _), when (negb (validEnvKey key)) field ("invalid env key " +:+ Quote key))
    <$> map_to_list env).

(** One artifact input of an image build; [seen] holds the names before it. *)
Definition validateImageInput (prefix : string) (acc : list ValidationError * gset string)
    (input : nat * ImageBuildArtifactInputDef) : list ValidationError * gset string :=
  let '(errs, seen) := acc in
  let '(index, input) := input in
  let inputPrefix := at_index (prefix +:+ ".image_build.artifacts") index in
  let name := TrimSpace (id_Name input) in
  let '(nameErrs, seen) :=
    if name == "" then ([mkValidationError (inputPrefix +:+ ".name") "is required"], seen)
    else if bool_decide (name ∈ seen)
    then ([mkValidationError (inputPrefix +:+ ".name") ("duplicate artifact " +:+ Quote name)], seen)
    else ([], {[name]} ∪ seen) in
  (errs ++ nameErrs
   ++ when (negb (validImageBuildContextPath (id_Destination input)))
        (inputPrefix +:+ ".destination") "must be a normalized build-context-relative path"
   ++ when ((TrimSpace (id_Platform input) != "") && negb (validTargetPlatform (id_Platform input)))
        (inputPrefix +:+ ".platform") "must be an os/arch platform", seen).

(** The Dockerfile lies within the build context. *)
Definition withinContext (context dockerfile : string) : bool :=
  match Rel context dockerfile with
  | None => false
  | Some relative => (relative != "..") && negb (HasPrefix relative "../")
  end.

Definition validateImageBuild (prefix stepImage : string) (def : ImageBuildDef)
    : list ValidationError :=
  when (TrimSpace stepImage != "") (prefix +:+ ".image")
    "image_build step must not set container image"
  ++ when (negb (validImageBuildRepositoryPath (ib_Context def) true))
       (prefix +:+ ".image_build.context") "must be a normalized repository-relative path"
  ++ (if negb (validImageBuildRepositoryPath (ib_Dockerfile def) false)
      then [mkValidationError (prefix +:+ ".image_build.dockerfile")
              "must be a normalized repository-relative path"]
      else when (negb (withinContext (ib_Context def) (ib_Dockerfile def)))
             (prefix +:+ ".image_build.dockerfile") "must resolve within image_build.context")
  ++ (if TrimSpace (ib_Image def) == ""
      then [mkValidationError (prefix +:+ ".image_build.image") "is required"]
      else when (negb (validLogicalImageName (ib_Image def))
                 || (Clean (ib_Image def) != ib_Image def) || HasPrefix (ib_Image def) "/")
             (prefix +:+ ".image_build.image") "must be a relative logical image name")
  ++ (let target := TrimSpace (ib_Target def) in
      when ((target != "") && negb (validDockerStageName target))
        (prefix +:+ ".image_build.target") "must be a valid Docker stage name")
  ++ concat ((λ '(key, value),
       when (negb (validEnvKey key) || (TrimSpace value == "")) (prefix +:+ ".image_build.build_args")
         ("invalid build argument " +:+ Quote key)) <$> map_to_list (ib_BuildArgs def))
  ++ (foldl (validateImageInput prefix) ([], ∅) (imap pair (ib_Artifacts def))).1.

Definition validateStepName (step : StepDef) (prefix : string) (seen : gset string)
    : list ValidationError * gset string :=
  let name := TrimSpace (sd_Name step) in
  if name == "" then ([mkValidationError (prefix +:+ ".name") "step name is required"], seen)
  else
    let lower := ToLower name in
    (when (bool_decide (lower ∈ seen)) (prefix +:+ ".name")
       ("duplicate step name " +:+ Quote name), {[lower]} ∪ seen).

Definition validateExecutionKind (step : StepDef) (prefix : string) : list ValidationError :=
  if TrimSpace (sd_Run step) == "" then
    match sd_ImageBuild step with
    | None => [mkValidationError (prefix +:+ ".run") "run command is required"]
    | Some _ => []
    end
  else match sd_ImageBuild step with
  | Some _ => [mkValidationError prefix "step must specify exactly one execution kind"]
  | None => []
  end.

Definition validateWorkingDir (step : StepDef) (prefix : string) : list ValidationError :=
  if sd_WorkingDir step == "" then []
  else
    let cleaned := Clean (sd_WorkingDir step) in
    when (IsAbs cleaned || (cleaned == "..") || HasPrefix cleaned "../")
      (prefix +:+ ".working_dir") "must be a relative path".

Definition validateStepDef (step : StepDef) (prefix : string) (seen : gset string)
    : list ValidationError * gset string :=
  let '(nameErrs, seen) := validateStepName step prefix seen in
  (nameErrs
   ++ validateExecutionKind step prefix
   ++ match sd_ImageBuild step with
      | None => []
      | Some def => validateImageBuild prefix (sd_Image step) def
      end
   ++ match sd_TimeoutSeconds step with
      | None => []
      | Some timeout => when (timeout <=? 0) (prefix +:+ ".timeout_seconds") "must be > 0 when set"
      end
   ++ validateWorkingDir step prefix
   ++ validateEnvKeys (prefix +:+ ".env") (sd_Env step)
   ++ validateStepArtifacts prefix (sd_Artifacts step)
   ++ validateCacheDef (prefix +:+ ".cache") (sd_Cache step), seen).

Definition validateGroupWrapperStep (step : StepDef) (prefix : string) : list ValidationError :=
  let forbid (c : bool) name :=
    when c (prefix +:+ "." +:+ name) ("group wrapper must not set " +:+ name) in
  forbid (TrimSpace (sd_Name step) != "") "name"
  ++ forbid (bool_decide (is_Some (sd_DependsOn step))) "depends_on"
  ++ forbid (TrimSpace (sd_Image step) != "") "image"
  ++ forbid (match sd_ImageBuild step with Some _ => true | None => false end) "image_build"
  ++ forbid (TrimSpace (sd_Run step) != "") "run"
  ++ forbid (TrimSpace (sd_Command step) != "") "command"
  ++ forbid (bool_decide (is_Some (sd_TimeoutSeconds step))) "timeout_seconds"
  ++ forbid (TrimSpace (sd_WorkingDir step) != "") "working_dir"
  ++ forbid (negb (bool_decide (sd_Env step = ∅))) "env"
  ++ forbid (negb (bool_decide (af_Paths (sd_Artifacts step) = []))) "artifacts"
  ++ forbid (match sd_Cache step with Some _ => true | None => false end) "cache".

(** ** Dependencies *)

Record stepDependencyRef := mkstepDependencyRef {
  dr_name : string;
  dr_dependsOn : option (list string);
  dr_implicitDependencies : list string;
  dr_field : string;
}.

(** One visit of the depth-first search: 1 marks a node on the current path, 2 a
    node whose search ended. *)
Definition visitStep (visit : string → gmap string Z → option (bool * gmap string Z))
    (acc : option (bool * gmap string Z)) (node : string) : option (bool * gmap string Z) :=
  acc ≫= λ '(found, states), if found : bool then Some (true, states) else visit node states.

Fixpoint visit (dependenciesByName : gmap string (list string)) (fuel : nat) (node : string)
    (states : gmap string Z) : option (bool * gmap string Z) :=
  match fuel with
  | O => None
  | S fuel =>
      if default 0 (states !! node) =? 1 then Some (true, states)
      else if default 0 (states !! node) =? 2 then Some (false, states)
      else
        foldl (visitStep (visit dependenciesByName fuel)) (Some (false, <[node := 1]> states))
          (depsOf dependenciesByName node)
        ≫= λ '(found, states),
        if found : bool then Some (true, states) else Some (false, <[node := 2]> states)
  end.

(** The search from every node, in the order in which Go iterates the map.  A
    path of the search visits a node with dependencies at most once. *)
Definition hasDependencyCycleIn (dependenciesByName : gmap string (list string))
    (nodes : list string) : option bool :=
  fst <$> foldl (visitStep (visit dependenciesByName (S (size dependenciesByName))))
    (Some (false, ∅)) nodes.

Definition hasDependencyCycle (dependenciesByName : gmap string (list string)) : bool :=
  default true (hasDependencyCycleIn dependenciesByName (map_to_list dependenciesByName).*1).

Definition nodeNames (refs : list stepDependencyRef) : gmap string string :=
  foldl (λ names ref,
    let name := TrimSpace (dr_name ref) in
    if name != "" then <[ToLower name := name]> names else names) ∅ refs.

(** One declared dependency of the step [name]. *)
Definition collectDependency (names : gmap string string) (ref : stepDependencyRef) (name : string)
    (acc : list ValidationError * gset string * gmap string (list string))
    (dependency : nat * string) : list ValidationError * gset string * gmap string (list string) :=
  let '(errs, seenDependencies, dependenciesByName) := acc in
  let '(index, dependency) := dependency in
  let trimmed := TrimSpace dependency in
  let key := ToLower trimmed in
  let field := at_index (dr_field ref) index in
  if (trimmed == "") || (default "" (names !! key) == "")
  then (errs ++ [mkValidationError field ("unknown dependency " +:+ Quote dependency)],
        seenDependencies, dependenciesByName)
  else if key == ToLower name
  then (errs ++ [mkValidationError field "step cannot depend on itself"],
        seenDependencies, dependenciesByName)
  else if bool_decide (key ∈ seenDependencies)
  then (errs ++ [mkValidationError field ("duplicate dependency " +:+ Quote dependency)],
        seenDependencies, dependenciesByName)
  else (errs, {[key]} ∪ seenDependencies,
        <[ToLower name := depsOf dependenciesByName (ToLower name) ++ [key]]> dependenciesByName).

(** The dependencies that count: the declared ones or else the implicit ones. *)
Definition refDependencies (ref : stepDependencyRef) : list string :=
  default (dr_implicitDependencies ref) (dr_dependsOn ref).

Definition collectRef (names : gmap string string)
    (acc : list ValidationError * gmap string (list string)) (ref : stepDependencyRef)
    : list ValidationError * gmap string (list string) :=
  let '(errs, dependenciesByName) := acc in
  let name := TrimSpace (dr_name ref) in
  if name == "" then (errs, dependenciesByName)
  else
    let '(errs, _, dependenciesByName) :=
      foldl (collectDependency names ref name) (errs, ∅, dependenciesByName)
        (imap pair (refDependencies ref)) in
    (errs, dependenciesByName).

Definition collectRefs (refs : list stepDependencyRef)
    : list ValidationError * gmap string (list string) :=
  foldl (collectRef (nodeNames refs)) ([], ∅) refs.

Definition validateStepDependencies (refs : list stepDependencyRef) : list ValidationError :=
  let '(errs, dependenciesByName) := collectRefs refs in
  errs ++ when (hasDependencyCycle dependenciesByName) "steps"
            "step dependencies must not contain a cycle".

(** ** Releases *)

Fixpoint collectImageStepNames (step : StepDef) : list string :=
  match sd_Group step with
  | Some (_, steps) => concat (map collectImageStepNames steps)
  | None => match sd_ImageBuild step with Some _ => [TrimSpace (sd_Name step)] | None => [] end
  end.

(** The code points of a string as their UTF-8 encodings; an invalid byte is the
    empty list, which stands for U+FFFD. *)
Definition continuation (lo hi : N) (c : Ascii.ascii) : bool := in_range lo hi c.

Definition rune_length (l : list Ascii.ascii) : nat :=
  match l with
  | [] => 0
  | a :: l =>
      let n := byte_of a in
      if (n <? 128)%N then 1
      else if in_range 194 223 a then
        match l with b :: _ => if continuation 128 191 b then 2 else 0 | [] => 0 end
      else if in_range 224 239 a then
        match l with
        | b :: c :: _ =>
            if continuation (if (n =? 224)%N then 160 else 128) (if (n =? 237)%N then 159 else 191) b
               && continuation 128 191 c then 3 else 0
        | _ => 0
        end
      else if in_range 240 244 a then
        match l with
        | b :: c :: d :: _ =>
            if continuation (if (n =? 240)%N then 144 else 128) (if (n =? 244)%N then 143 else 191) b
               && continuation 128 191 c && continuation 128 191 d then 4 else 0
        | _ => 0
        end
      else 0
  end%nat.

(** [skip] bytes of the current code point are still to be passed over. *)
Fixpoint runes_of (skip : nat) (l : list Ascii.ascii) : list (list Ascii.ascii) :=
  match l with
  | [] => []
  | _ :: rest =>
      match skip with
      | S skip => runes_of skip rest
      | O =>
          match rune_length l with
          | O => [] :: runes_of 0 rest
          | S k => take (S k) l :: runes_of k rest
          end
      end
  end.

Section letters.
  (** [unicode.IsLetter] or [unicode.IsDigit] of a code point outside ASCII. *)
  Context (other_letter : list Ascii.ascii → bool).

Definition is_letter_or_digit (rune : list Ascii.ascii) : bool :=
  match rune with
  | [] => false
  | [c] => is_lower c || is_upper c || is_digit c
  | _ => other_letter rune
  end.

Definition writeIdentity (acc : list Ascii.ascii * bool) (rune : list Ascii.ascii)
    : list Ascii.ascii * bool :=
  let '(result, separator) := acc in
  if is_letter_or_digit rune
  then (result ++ (if separator && negb (bool_decide (result = [])) then ["-"%char] else []) ++ rune,
        false)
  else (result, true).

Definition normalizedReleaseImageIdentity (name : string) : string :=
  string_of_list
    (foldl writeIdentity ([], false) (runes_of 0 (string_to_list (ToLower (TrimSpace name))))).1.

Definition namedArtifacts (def : ArtifactDef) : gmap string ArtifactDeclaration :=
  foldl (λ names declaration,
    let name := TrimSpace (ad_Name declaration) in
    if name != "" then <[name := declaration]> names else names) ∅ (declarationsForValidation def).

Definition validateReleaseArtifact (artifactNames : gmap string ArtifactDeclaration)
    (acc : list ValidationError * gset string) (item : nat * string)
    : list ValidationError * gset string :=
  let '(errs, seen) := acc in
  let field := at_index "pipeline.release.artifacts" item.1 in
  let name := TrimSpace item.2 in
  match artifactNames !! name with
  | Some declaration =>
      if name == ""
      then (errs ++ [mkValidationError field
              "must reference a named top-level artifact declaration"], seen)
      else
        (errs
         ++ when (pathPatternHasWildcard (ad_Path declaration)) field
              "must reference an exact non-glob artifact path"
         ++ when (bool_decide ("artifact:" +:+ name ∈ seen)) field "duplicate release artifact",
         {["artifact:" +:+ name]} ∪ seen)
  | None =>
      (errs ++ [mkValidationError field
         "must reference a named top-level artifact declaration"], seen)
  end.

Definition validateReleaseImage (imageSteps : list string)
    (acc : list ValidationError * gset string * gmap string string) (item : nat * string)
    : list ValidationError * gset string * gmap string string :=
  let '(errs, seen, imageOutputKeys) := acc in
  let field := at_index "pipeline.release.images" item.1 in
  let name := TrimSpace item.2 in
  if (name == "") || negb (bool_decide (name ∈ imageSteps))
  then (errs ++ [mkValidationError field "must reference an image_build step"], seen, imageOutputKeys)
  else
    let errs := errs ++ when (bool_decide ("image:" +:+ name ∈ seen)) field
                          "duplicate release image" in
    let seen := {["image:" +:+ name]} ∪ seen in
    let outputKey := normalizedReleaseImageIdentity name in
    if outputKey == ""
    then (errs ++ [mkValidationError field
            "must normalize to a non-empty release image output key"], seen, imageOutputKeys)
    else
      (errs ++ match imageOutputKeys !! outputKey with
               | Some existing =>
                   when (existing != name) field
                     ("release image output key " +:+ Quote outputKey +:+ " collides with "
                      +:+ Quote existing)
               | None => []
               end, seen, <[outputKey := name]> imageOutputKeys).

Definition validateReleaseDef (pf : PipelineFile) : list ValidationError :=
  match pm_Release (pf_Pipeline pf) with
  | None => []
  | Some release =>
      let '(errs, seen) :=
        foldl (validateReleaseArtifact (namedArtifacts (pf_Artifacts pf)))
          (when (match pm_ApplicationVersion (pf_Pipeline pf) with None => true | _ => false end)
             "pipeline.release" "requires pipeline.application_version"
           ++ when (bool_decide (rd_Artifacts release = []) && bool_decide (rd_Images release = []))
                "pipeline.release" "must declare at least one artifact or image", ∅)
          (imap pair (rd_Artifacts release)) in
      let '(errs, _, _) :=
        foldl (validateReleaseImage (concat (map collectImageStepNames (pf_Steps pf))))
          (errs, seen, ∅) (imap pair (rd_Images release)) in
      let channel := TrimSpace (rd_AutoChannel release) in
      errs ++ when ((channel != "") && (channel != "latest")) "pipeline.release.auto_channel"
                "only latest may advance automatically"
  end.

(** ** The pipeline file *)

Definition validateApplicationVersion (def : option ApplicationVersionDef)
    : list ValidationError :=
  match def with
  | None => []
  | Some def =>
      let config := mkApplicationVersionConfig (vf_Value def) (vf_Template def) (vf_File def) in
      if ApplicationVersionConfig_Empty config
      then [mkValidationError "pipeline.application_version"
              "exactly one of value, template, or file must be configured"]
      else report "pipeline.application_version" (ValidateApplicationVersionConfig config)
  end.

Definition validateHeader (pf : PipelineFile) : list ValidationError :=
  when (pf_Version pf != 1) "version"
    ("unsupported version " +:+ Itoa (pf_Version pf) +:+ ", must be 1")
  ++ (if pm_Image (pf_Pipeline pf) != "" then
        when (TrimSpace (pm_Image (pf_Pipeline pf)) == "") "pipeline.image"
          "must be non-empty when set"
      else [])
  ++ validateCacheDef "pipeline.cache" (pm_Cache (pf_Pipeline pf))
  ++ validateApplicationVersion (pm_ApplicationVersion (pf_Pipeline pf))
  ++ validateReleaseDef pf
  ++ validateEnvKeys "env" (pf_Env pf)
  ++ validateBuildArtifacts (pf_Artifacts pf).

(** The state of the loop over the steps. *)
Record StepsState := mkStepsState {
  ls_errs : list ValidationError;
  ls_seen : gset string;
  ls_executableStepCount : Z;
  ls_frontier : list string;
  ls_dependencyRefs : list stepDependencyRef;
}.

(** A step of a group; [acc] holds the state and the names of the group so far. *)
Definition validateGroupStep (prefix : string) (groupDependencies : list string)
    (acc : StepsState * list string) (groupStep : nat * StepDef) : StepsState * list string :=
  let '(st, groupFrontier) := acc in
  let '(j, groupStep) := groupStep in
  match sd_Group groupStep with
  | Some _ =>
      (mkStepsState
         (ls_errs st ++ [mkValidationError (at_index (prefix +:+ ".group.steps") j +:+ ".group")
            "nested groups are not allowed"])
         (ls_seen st) (ls_executableStepCount st) (ls_frontier st) (ls_dependencyRefs st),
       groupFrontier)
  | None =>
      let '(errs, seen) :=
        validateStepDef groupStep (at_index (prefix +:+ ".group.steps") j) (ls_seen st) in
      (mkStepsState (ls_errs st ++ errs) seen (ls_executableStepCount st + 1) (ls_frontier st)
         (ls_dependencyRefs st ++ [mkstepDependencyRef (sd_Name groupStep) (sd_DependsOn groupStep)
            groupDependencies (at_index (prefix +:+ ".group.steps") j +:+ ".depends_on")]),
       groupFrontier ++ [sd_Name groupStep])
  end.

Definition validateTopStep (st : StepsState) (step : nat * StepDef) : StepsState :=
  let '(i, step) := step in
  let prefix := at_index "steps" i in
  match sd_Group step with
  | None =>
      let '(errs, seen) := validateStepDef step prefix (ls_seen st) in
      mkStepsState (ls_errs st ++ errs) seen (ls_executableStepCount st + 1) [sd_Name step]
        (ls_dependencyRefs st ++ [mkstepDependencyRef (sd_Name step) (sd_DependsOn step)
           (ls_frontier st) (prefix +:+ ".depends_on")])
  | Some (groupName, groupSteps) =>
      let errs := ls_errs st ++ validateGroupWrapperStep step prefix
                  ++ when (TrimSpace groupName == "") (prefix +:+ ".group.name")
                       "group name is required" in
      if bool_decide (groupSteps = [])
      then mkStepsState
             (errs ++ [mkValidationError (prefix +:+ ".group.steps")
                "group must contain at least one step"])
             (ls_seen st) (ls_executableStepCount st) (ls_frontier st) (ls_dependencyRefs st)
      else
        let '(st, groupFrontier) :=
          foldl (validateGroupStep prefix (ls_frontier st))
            (mkStepsState errs (ls_seen st) (ls_executableStepCount st) (ls_frontier st)
               (ls_dependencyRefs st), [])
            (imap pair groupSteps) in
        mkStepsState (ls_errs st) (ls_seen st) (ls_executableStepCount st) groupFrontier
          (ls_dependencyRefs st)
  end.

Definition validateSteps (steps : list StepDef) : StepsState :=
  foldl validateTopStep (mkStepsState [] ∅ 0 [] []) (imap pair steps).

Definition Validate (pf : PipelineFile) : list ValidationError :=
  let errs := validateHeader pf in
  if bool_decide (pf_Steps pf = [])
  then errs ++ [mkValidationError "steps" "at least one step is required"]
  else
    let st := validateSteps (pf_Steps pf) in
    errs ++ ls_errs st
    ++ when (ls_executableStepCount st =? 0) "steps" "at least one step is required"
    ++ validateStepDependencies (ls_dependencyRefs st).

End letters.
