(* ===== verification/CycleFacts.v ===== *)
(** The depth-first search of the pipeline validator finds a cycle exactly when
    there is one, and always ends. *)

From stdpp Require Import base gmap strings list relations pretty sorting numbers.
From S2P Require Import Prelude GoLib GoPath Graph Domain Versioning Schema Pipeline.

Open Scope go_scope.
Open Scope Z_scope.

Section cycle.
  Context (g : gmap string (list string)).
  Implicit Types states : gmap string Z.

Definition gray states (x : string) : Prop := states !! x = Some 1.
Definition black states (x : string) : Prop := states !! x = Some 2.

(** The nodes with dependencies the search has not reached. *)
Definition white states : gset string := dom g ∖ dom states.

(** The marks of the search: a finished node lies on no cycle, as everything
    below it has been searched. *)
Record marks_ok states : Prop := {
  marks_12 x s : states !! x = Some s → s = 1 ∨ s = 2;
  marks_black x : black states x → Acc (flip (edge g)) x;
}.

(** What a search that found nothing has done to the marks. *)
Record searched states states' : Prop := {
  searched_ok : marks_ok states';
  searched_gray x : gray states' x ↔ gray states x;
  searched_dom : dom states ⊆ dom states';
}.

Lemma searched_refl states : marks_ok states → searched states states.
Proof. by split. Qed.

Lemma searched_trans s1 s2 s3 : searched s1 s2 → searched s2 s3 → searched s1 s3.
Proof.
  intros [H1 H2 H3] [H4 H5 H6]. split; [done| |set_solver].
  intros x. by rewrite H5.
Qed.

Lemma white_searched states states' : dom states ⊆ dom states' → white states' ⊆ white states.
Proof. unfold white. set_solver. Qed.

Lemma marks_absent states x :
  marks_ok states → states !! x = None ∨ gray states x ∨ black states x.
Proof.
  intros Hok. destruct (states !! x) as [s|] eqn:E; [|by left]. right.
  destruct (marks_12 _ Hok x s E) as [-> | ->]; [by left|by right].
Qed.

(** What one search promises: with enough fuel it ends; it either has found a
    cycle, or it has marked the node. *)
Definition search_ok (fuel : nat) (search : string → gmap string Z → option (bool * gmap string Z))
    : Prop :=
  ∀ x states, marks_ok states → (size (white states) < fuel)%nat →
    (∀ y, gray states y → tc (edge g) y x) →
    ∃ found states', search x states = Some (found, states') ∧
      (found = true → ∃ y, tc (edge g) y y) ∧
      (found = false → searched states states' ∧ black states' x).

Lemma visitStep_loop fuel search x l states :
  search_ok fuel search → marks_ok states → (size (white states) < fuel)%nat →
  (∀ y, y ∈ l → edge g x y) → (∀ y, gray states y → rtc (edge g) y x) →
  ∃ found states', foldl (visitStep search) (Some (false, states)) l = Some (found, states') ∧
    (found = true → ∃ y, tc (edge g) y y) ∧
    (found = false → searched states states' ∧ ∀ y, y ∈ l → black states' y).
Proof.
  intros Hsearch. revert states. induction l as [|y l IH]; intros states Hok Hfuel Hedge Hgray.
  { exists false, states. split_and!; [done|done|]. intros _. split; [by apply searched_refl|].
    intros y Hy%elem_of_nil. done. }
  cbn [foldl]. destruct (Hsearch y states Hok Hfuel) as (found & s1 & E & Hfound & Hnot).
  { intros z Hz. eapply tc_rtc_l; [by apply Hgray|]. apply tc_once, Hedge. by left. }
  unfold visitStep at 2. cbn [mbind option_bind]. rewrite E. destruct found.
  - exists true, s1. split_and!; [|done|done].
    clear -E. induction l as [|z l IH]; [done|]. exact IH.
  - destruct Hnot as [Hs1 Hy]; [done|].
    destruct (IH s1) as (found & s2 & E2 & Hfound2 & Hnot2).
    + apply Hs1.
    + eapply Nat.le_lt_trans; [|exact Hfuel]. apply subseteq_size, white_searched, Hs1.
    + intros z Hz. apply Hedge. by right.
    + intros z Hz. apply Hgray. by apply (searched_gray _ _ Hs1).
    + exists found, s2. split_and!; [done|done|]. intros Hf. destruct (Hnot2 Hf) as [Hs2 Hl].
      split; [by eapply searched_trans|]. intros z [->|Hz]%elem_of_cons; [|by apply Hl].
      unfold black in *. destruct (marks_absent s2 y (searched_ok _ _ Hs2)) as [Hn|[Hg|Hb]]; [| |done].
      * exfalso. assert (y ∈ dom s2) as Hd; [|by apply elem_of_dom in Hd as [? ?]; congruence].
        apply (searched_dom _ _ Hs2), elem_of_dom. by rewrite Hy.
      * apply (searched_gray _ _ Hs2) in Hg. unfold gray in Hg. congruence.
Qed.

Lemma marks_gray states x : marks_ok states → marks_ok (<[x := 1]> states).
Proof.
  intros Hok. split.
  - intros y s. rewrite lookup_insert_Some. intros [[_ <-]|[_ Hy]]; [by left|by eapply marks_12].
  - intros y Hy. apply (marks_black _ Hok). unfold black in *.
    rewrite lookup_insert_Some in Hy. by destruct Hy as [[_ ?]|[_ ?]].
Qed.

Lemma white_gray states x :
  x ∈ dom g → states !! x = None → (size (white (<[x := 1%Z]> states)) < size (white states))%nat.
Proof.
  intros Hx Hs. apply subset_size. unfold white. rewrite dom_insert.
  apply not_elem_of_dom in Hs. set_solver.
Qed.

Lemma visit_ok fuel : search_ok fuel (visit g fuel).
Proof.
  induction fuel as [|fuel IH]; intros x states Hok Hfuel Hgray; [lia|]. cbn [visit].
  destruct (marks_absent states x Hok) as [Hx|[Hx|Hx]]; unfold gray, black in Hx; rewrite Hx; simpl.
  2: { exists true, states. split_and!; [done| |done]. intros _. exists x. by apply Hgray. }
  2: { exists false, states. split_and!; [done|done|]. intros _. split; [by apply searched_refl|done]. }
  set (s1 := <[x := 1]> states).
  assert (∃ found s2, foldl (visitStep (visit g fuel)) (Some (false, s1)) (depsOf g x)
      = Some (found, s2) ∧ (found = true → ∃ y, tc (edge g) y y) ∧
      (found = false → searched s1 s2 ∧ ∀ y, edge g x y → black s2 y))
    as (found & s2 & E & Hfound & Hnot).
  { destruct (depsOf g x) as [|d ds] eqn:Ed.
    { exists false, s1. split_and!; [done|done|]. intros _.
      split; [by apply searched_refl, marks_gray|]. intros y Hy. unfold edge in Hy.
      rewrite Ed in Hy. by apply elem_of_nil in Hy. }
    assert (x ∈ dom g) as Hdom by (apply (edge_dom g x d); unfold edge; rewrite Ed; by left).
    rewrite <-Ed. apply (visitStep_loop fuel (visit g fuel) x); [done|by apply marks_gray| |done|].
    - pose proof (white_gray states x Hdom Hx) as Hw. fold s1 in Hw. lia.
    - intros y Hy. unfold s1, gray in Hy. rewrite lookup_insert_Some in Hy.
      destruct Hy as [[<- _]|[_ Hy]]; [done|]. by apply tc_rtc, Hgray. }
  rewrite E. cbn [mbind option_bind]. destruct found.
  - exists true, s2. by split_and!.
  - destruct Hnot as [[Hok2 Hg2 Hd2] Hdeps]; [done|].
    exists false, (<[x := 2]> s2). split_and!; [done|done|]. intros _.
    split; [|by unfold black; rewrite lookup_insert_eq]. split.
    + split.
      * intros y s. rewrite lookup_insert_Some. intros [[_ <-]|[_ Hy]]; [by right|by eapply marks_12].
      * intros y. unfold black. rewrite lookup_insert_Some. intros [[<- _]|[_ Hy]].
        -- constructor. intros z Hz. by apply (marks_black _ Hok2), Hdeps.
        -- by apply (marks_black _ Hok2).
    + intros y. unfold gray. destruct (decide (x = y)) as [<-|Hxy].
      * rewrite lookup_insert_eq, Hx. done.
      * rewrite lookup_insert_ne by done. specialize (Hg2 y). unfold gray, s1 in Hg2.
        by rewrite lookup_insert_ne in Hg2.
    + unfold s1 in Hd2. rewrite dom_insert in *. set_solver.
Qed.

(** The search from every node with dependencies, in any order. *)
Lemma hasDependencyCycleIn_ok nodes :
  (∀ x, x ∈ dom g → x ∈ nodes) →
  ∃ found, hasDependencyCycleIn g nodes = Some found ∧ (found = false ↔ acyclic g) ∧
    (found = true ↔ ∃ x, tc (edge g) x x).
Proof.
  intros Hnodes.
  assert (∀ l states, marks_ok states → (∀ y, ¬ gray states y) →
    ∃ found states', foldl (visitStep (visit g (S (size g)))) (Some (false, states)) l
        = Some (found, states') ∧ (found = true → ∃ y, tc (edge g) y y) ∧
      (found = false → (∀ y, y ∈ l → Acc (flip (edge g)) y))) as Hloop.
  { induction l as [|x l IH]; intros states Hok Hnogray.
    { exists false, states. split_and!; [done|done|]. intros _ y Hy%elem_of_nil. done. }
    cbn [foldl]. unfold visitStep at 2. cbn [mbind option_bind].
    destruct (visit_ok (S (size g)) x states Hok) as (found & s1 & E & Hfound & Hnot).
    - rewrite <-size_dom. unfold white.
      pose proof (subseteq_size (dom g ∖ dom states) (dom g)). set_solver by lia.
    - intros y Hy. by apply Hnogray in Hy.
    - rewrite E. destruct found.
      { exists true, s1. split_and!; [|done|done]. clear. by induction l. }
      destruct Hnot as [[Hok1 Hg1 _] Hx]; [done|].
      destruct (IH s1) as (found & s2 & E2 & Hfound2 & Hnot2); [done| |].
      { intros y Hy. apply Hg1 in Hy. by apply Hnogray in Hy. }
      exists found, s2. split_and!; [done|done|]. intros Hf y [->|Hy]%elem_of_cons.
      + by apply (marks_black _ Hok1).
      + by apply Hnot2. }
  destruct (Hloop nodes ∅) as (found & states & E & Hfound & Hnot).
  { split; [intros x s Hx|intros x Hx; unfold black in Hx]; by rewrite lookup_empty in Hx. }
  { intros y Hy. unfold gray in Hy. by rewrite lookup_empty in Hy. }
  assert (found = false → acyclic g) as Hacyclic.
  { intros Hf. apply acc_acyclic. intros x. destruct (decide (x ∈ dom g)) as [Hx|Hx].
    - by apply Hnot, Hnodes.
    - constructor. intros y Hy. by apply edge_dom in Hy. }
  exists found. unfold hasDependencyCycleIn. rewrite E. split; [done|]. split; split; [done| |done|].
  - intros Hac. destruct found; [|done]. destruct Hfound as [y Hy]; [done|]. by apply Hac in Hy.
  - intros [x Hx]. destruct found; [done|]. by apply (Hacyclic eq_refl) in Hx.
Qed.

Lemma hasDependencyCycle_ok : hasDependencyCycle g = false ↔ acyclic g.
Proof.
  destruct (hasDependencyCycleIn_ok (map_to_list g).*1) as (found & E & Hfound & _).
  { intros x [l Hx]%elem_of_dom. apply (list_elem_of_fmap_2 fst _ (x, l)).
    by apply elem_of_map_to_list. }
  unfold hasDependencyCycle. by rewrite E.
Qed.

End cycle.
