(* ===== verification/Resolve.v ===== *)
(** From a validated pipeline file to the steps of a build: the resolution of
    the file into a plan of nodes (backend/internal/pipeline/loader.go) and the
    conversion of the resolved steps (pipelineStepsToDomain of
    backend/internal/service/build/creation.go). *)

From Stdlib Require Import Ascii.
From stdpp Require Import base gmap strings list pretty sorting numbers.
From S2P Require Import Prelude GoLib GoPath Graph Domain Versioning Schema Pipeline Planner.

Open Scope go_scope.
Open Scope Z_scope.

(** ** Parts of the file *)

Definition trimStrings (values : list string) : list string :=
  omap (λ value, let trimmed := TrimSpace value in
                 if trimmed != "" then Some trimmed else None) values.

Definition resolveRelease (def : option ReleaseDef) : option ResolvedRelease :=
  match def with
  | None => None
  | Some def => Some (mkResolvedRelease (trimStrings (rd_Artifacts def)) (trimStrings (rd_Images def))
                        (TrimSpace (rd_AutoChannel def)))
  end.

Definition resolveApplicationVersion (def : option ApplicationVersionDef)
    : ApplicationVersionConfig :=
  match def with
  | None => mkApplicationVersionConfig "" "" ""
  | Some def => mkApplicationVersionConfig (TrimSpace (vf_Value def)) (TrimSpace (vf_Template def))
                  (TrimSpace (vf_File def))
  end.

(** A [nil] map reads as an empty one. *)
Definition copyEnv (src : gmap string string) : gmap string string := src.

Definition mergeEnv (base override : gmap string string) : gmap string string :=
  override ∪ copyEnv base.

(** [command] stands in for an empty [run]. *)
Definition hydrateStepRunAlias (step : StepDef) : StepDef :=
  match step with
  | mkStepDef group name dependsOn image imageBuild run command timeout workingDir env artifacts cache =>
      mkStepDef group name dependsOn image imageBuild
        (if TrimSpace run == "" then TrimSpace command else run)
        command timeout workingDir env artifacts cache
  end.

Definition hydrateGroupSteps (step : StepDef) : StepDef :=
  match step with
  | mkStepDef group name dependsOn image imageBuild run command timeout workingDir env artifacts cache =>
      mkStepDef (match group with
                 | Some (groupName, steps) => Some (groupName, hydrateStepRunAlias <$> steps)
                 | None => None
                 end)
        name dependsOn image imageBuild run command timeout workingDir env artifacts cache
  end.

Definition hydrateSteps (pf : PipelineFile) : PipelineFile :=
  mkPipelineFile (pf_Version pf) (pf_Pipeline pf) (pf_Env pf)
    ((λ step, hydrateGroupSteps (hydrateStepRunAlias step)) <$> pf_Steps pf) (pf_Artifacts pf).

Definition resolveImageBuild (def : ImageBuildDef) : RemoteImageBuildSpec :=
  mkRemoteImageBuildSpec (TrimSpace (ib_Context def)) (TrimSpace (ib_Dockerfile def))
    (TrimSpace (ib_Target def)) (copyEnv (ib_BuildArgs def)) (TrimSpace (ib_Image def))
    ((λ input, mkImageBuildArtifactInput (TrimSpace (id_Name input)) (TrimSpace (id_Destination input))
        (TrimSpace (id_Platform input))) <$> ib_Artifacts def).

Definition resolveStepDef (sd : StepDef) (pipelineEnv : gmap string string)
    (pipelineCache : option StepCacheConfig) : ResolvedStep :=
  let stepCache :=
    match sd_Cache sd with Some _ => resolveCache (sd_Cache sd) | None => pipelineCache end in
  let step := mkResolvedStep "" "" [] (sd_Name sd) ExecutionKindShell None
    (TrimSpace (sd_Image sd)) (sd_Run sd) (sd_WorkingDir sd) (mergeEnv pipelineEnv (sd_Env sd))
    (default 0 (sd_TimeoutSeconds sd)) (af_Paths (sd_Artifacts sd))
    (af_Declarations (sd_Artifacts sd)) (StepCacheConfig_Clone stepCache) in
  match sd_ImageBuild sd with
  | None => step
  | Some def =>
      let step := step <| rv_ExecutionKind := ExecutionKindImageBuild |> in
      let step := step <| rv_RemoteImageBuild := Some (resolveImageBuild def) |> in
      (step <| rv_Image := "" |>) <| rv_Run := "" |>
  end.

Definition buildNodeID (index : nat) : string := "node-" +:+ Sprintf_03d (Z.of_nat index).

(** ** The plan *)

Definition resolveDependencyNames (names : list string) (nameToNodeID : gmap string string)
    : list string :=
  omap (λ name, nameToNodeID !! ToLower (TrimSpace name)) names.

(** One node, with the dependencies its place implies. *)
Definition resolvedNode (sd : StepDef) (env : gmap string string) (cache : option StepCacheConfig)
    (nodeID groupName : string) (frontier : list string) : ExecutionNode :=
  let step := resolveStepDef sd env cache in
  let step := (step <| rv_NodeID := nodeID |>) <| rv_GroupName := groupName |> in
  mkExecutionNode nodeID groupName frontier (step <| rv_DependsOnNodeIDs := frontier |>).

(** The state of the loop: the nodes so far, the declared dependencies of each,
    and the nodes the next step follows.  The index of the next node is the
    number of nodes. *)
Record PlanState := mkPlanState {
  ps_nodes : list ExecutionNode;
  ps_explicit : gmap string (option (list string));
  ps_frontier : list string;
}.

Definition addNode (env : gmap string string) (cache : option StepCacheConfig) (groupName : string)
    (frontier : list string) (st : PlanState) (sd : StepDef) : PlanState * string :=
  let nodeID := buildNodeID (length (ps_nodes st)) in
  (mkPlanState (ps_nodes st ++ [resolvedNode sd env cache nodeID groupName frontier])
     (<[nodeID := sd_DependsOn sd]> (ps_explicit st)) (ps_frontier st), nodeID).

Definition addGroupNode (env : gmap string string) (cache : option StepCacheConfig)
    (groupName : string) (groupDeps : list string) (acc : PlanState * list string) (sd : StepDef)
    : PlanState * list string :=
  let '(st, groupNodeIDs) := acc in
  let '(st, nodeID) := addNode env cache groupName groupDeps st sd in
  (st, groupNodeIDs ++ [nodeID]).

Definition addTopStep (env : gmap string string) (cache : option StepCacheConfig)
    (st : PlanState) (sd : StepDef) : PlanState :=
  match sd_Group sd with
  | None =>
      let '(st, nodeID) := addNode env cache "" (ps_frontier st) st sd in
      mkPlanState (ps_nodes st) (ps_explicit st) [nodeID]
  | Some (name, steps) =>
      let '(st, groupNodeIDs) :=
        foldl (addGroupNode env cache (TrimSpace name) (ps_frontier st)) (st, []) steps in
      mkPlanState (ps_nodes st) (ps_explicit st) groupNodeIDs
  end.

Definition placeNodes (env : gmap string string) (cache : option StepCacheConfig)
    (steps : list StepDef) : PlanState :=
  foldl (addTopStep env cache) (mkPlanState [] ∅ []) steps.

Definition nameTable (nodes : list ExecutionNode) : gmap string string :=
  foldl (λ names node, <[ToLower (TrimSpace (rv_Name (en_Step node))) := en_NodeID node]> names)
    ∅ nodes.

(** Declared dependencies replace the implied ones. *)
Definition withExplicit (explicit : gmap string (option (list string)))
    (nameToNodeID : gmap string string) (node : ExecutionNode) : ExecutionNode :=
  match explicit !! en_NodeID node with
  | Some (Some names) =>
      let dependencies := resolveDependencyNames names nameToNodeID in
      (node <| en_DependsOnNodeIDs := dependencies |>)
        <| en_Step := (en_Step node) <| rv_DependsOnNodeIDs := dependencies |> |>
  | _ => node
  end.

Definition planNodes (env : gmap string string) (cache : option StepCacheConfig)
    (steps : list StepDef) : list ExecutionNode :=
  let st := placeNodes env cache steps in
  withExplicit (ps_explicit st) (nameTable (ps_nodes st)) <$> ps_nodes st.

Definition Resolve (pf : PipelineFile) : ResolvedPipeline :=
  let mergedPipelineEnv := copyEnv (pf_Env pf) in
  let pipelineCache := resolveCache (pm_Cache (pf_Pipeline pf)) in
  let nodes := planNodes mergedPipelineEnv pipelineCache (pf_Steps pf) in
  mkResolvedPipeline (pm_Name (pf_Pipeline pf)) (TrimSpace (pm_Image (pf_Pipeline pf)))
    mergedPipelineEnv (resolveApplicationVersion (pm_ApplicationVersion (pf_Pipeline pf)))
    (resolveRelease (pm_Release (pf_Pipeline pf))) (en_Step <$> nodes) nodes
    (mkResolvedArtifacts (af_Paths (pf_Artifacts pf)) (af_Declarations (pf_Artifacts pf)))
    (StepCacheConfig_Clone pipelineCache).

(** ** Loading *)

Inductive LoadError :=
  | ParseError (err : error)
  | ValidationFailed (errs : list ValidationError).

Section load.
  (** The strict YAML decoder, and the letters outside ASCII. *)
  Context (yaml_decode : string → PipelineFile + error) (other_letter : list Ascii.ascii → bool).

Definition Parse (data : string) : PipelineFile + LoadError :=
  match yaml_decode data with
  | inr err => inr (ParseError err)
  | inl pf => inl (hydrateSteps pf)
  end.

Definition ParseAndValidate (data : string) : PipelineFile + LoadError :=
  match Parse data with
  | inr err => inr err
  | inl pf =>
      match Validate other_letter pf with
      | [] => inl pf
      | errs => inr (ValidationFailed errs)
      end
  end.

Definition LoadAndResolve (data : string) : ResolvedPipeline + LoadError :=
  match ParseAndValidate data with
  | inr err => inr err
  | inl pf => inl (Resolve pf)
  end.

End load.

(** ** The steps of the build (service/build/creation.go) *)

(** source.go. *)
Definition buildOptionalStringPtr (value : string) : option string :=
  let trimmed := TrimSpace value in
  if trimmed == "" then None else Some trimmed.

Definition declaredPaths (declarations : list ArtifactDeclaration) : list string :=
  trimStrings (ad_Path <$> declarations).

Definition pipelineStep (buildID stepID : string) (idx : nat) (rs : ResolvedStep) : BuildStep :=
  let step := zero_BuildStep in
  let step := (step <| st_ID := stepID |>) <| st_BuildID := buildID |> in
  let step := (step <| st_StepIndex := Z.of_nat idx |>) <| st_NodeID := rv_NodeID rs |> in
  let step := step <| st_GroupName := trimOptional (Some (rv_GroupName rs)) |> in
  let step := step <| st_DependsOnNodes := rv_DependsOnNodeIDs rs |> in
  let step := (step <| st_Name := rv_Name rs |>) <| st_ExecutionKind := rv_ExecutionKind rs |> in
  let step := step <| st_RemoteImageBuild := cloneRemoteImageBuildSpec (rv_RemoteImageBuild rs) |> in
  let step := (step <| st_Image := rv_Image rs |>) <| st_Command := "sh" |> in
  let step := (step <| st_Args := ["-c"; rv_Run rs] |>) <| st_Env := rv_Env rs |> in
  let step := step <| st_WorkingDir := if rv_WorkingDir rs == "" then "." else rv_WorkingDir rs |> in
  let step := step <| st_TimeoutSeconds := rv_TimeoutSeconds rs |> in
  let step := step <| st_ArtifactPaths := rv_ArtifactPaths rs ++ declaredPaths (rv_ArtifactDecls rs) |> in
  let step := step <| st_Cache := StepCacheConfig_Clone (rv_Cache rs) |> in
  let step := step <| st_Status := BuildStepStatusPending |> in
  let step := step <| st_RequestedImageRef := buildOptionalStringPtr (TrimSpace (rv_Image rs)) |> in
  step <| st_ImageSourceKind := ImageSourceKindExternal |>.

(** [newID] gives the identifiers in the order drawn. *)
Definition pipelineStepsToDomain (newID : nat → string) (buildID : string)
    (steps : list ResolvedStep) : list BuildStep :=
  imap (λ idx rs, pipelineStep buildID (newID idx) idx rs) steps.
