(* ===== verification/PipelineFacts.v ===== *)
(** What an accepted pipeline file guarantees: the validator and the resolver
    walk over the same steps, the names are distinct, every dependency names a
    step and the dependencies have no cycle. *)

From Stdlib Require Import Ascii.
From stdpp Require Import base gmap strings list relations pretty sorting numbers.
From S2P Require Import Prelude GoLib GoPath Graph Domain NodeNames Versioning Schema Pipeline.
From S2P Require Import CycleFacts Planner Resolve.

Open Scope go_scope.
Open Scope Z_scope.

Lemma when_nil c field message : when c field message = [] ↔ c = false.
Proof. by destruct c. Qed.

(** ** Dependencies by name *)

(** Names are compared trimmed and in lower case. *)
Definition key (name : string) : string := ToLower (TrimSpace name).

Lemma key_trim name : key (TrimSpace name) = key name.
Proof. unfold key. by rewrite TrimSpace_idemp. Qed.

Lemma edge_add (g : gmap string (list string)) k d x y :
  edge g x y ∨ x = k ∧ y = d → edge (<[k := depsOf g k ++ [d]]> g) x y.
Proof.
  unfold edge, depsOf at 2. destruct (decide (k = x)) as [->|Hkx].
  - rewrite lookup_insert_eq. simpl. rewrite elem_of_app, list_elem_of_singleton. naive_solver.
  - rewrite lookup_insert_ne by done. unfold depsOf. naive_solver.
Qed.

(** No error was reported: every dependency of the list is known, and the graph
    has its edge. *)
Lemma collectDependency_loop names ref name l errs seen g errs' seen' g' :
  foldl (collectDependency names ref name) (errs, seen, g) l = (errs', seen', g') → errs' = [] →
  (∀ k, k ∈ seen → edge g (ToLower name) k) →
  errs = [] ∧ (∀ x y, edge g x y → edge g' x y) ∧
  (∀ i d, (i, d) ∈ l → default "" (names !! key d) ≠ "" ∧ edge g' (ToLower name) (key d)).
Proof.
  revert errs seen g. induction l as [|[i d] l IH]; intros errs seen g E Hnil Hseen.
  { simpl in E. simplify_eq. split_and!; [done|done|]. intros j d Hd%elem_of_nil. done. }
  cbn [foldl] in E. unfold collectDependency at 2 in E. fold (key d) in E.
  destruct ((TrimSpace d == "") || (default "" (names !! key d) == "")) eqn:E1;
    [|destruct (key d == ToLower name) eqn:E2;
      [|destruct (bool_decide (key d ∈ seen)) eqn:E3]].
  1-3: by apply IH in E as (Happ & _); [apply app_nil in Happ as [_ ?]| |].
  apply IH in E as (-> & Hmono & Hl); [|done|].
  - apply orb_false_iff in E1 as [_ E1%bool_decide_eq_false]. split_and!; [done| |].
    + intros x y Hxy. apply Hmono, edge_add. by left.
    + intros j d' [[= -> ->]|Hd]%elem_of_cons; [|by eapply Hl].
      split; [done|]. apply Hmono, edge_add. by right.
  - intros k [->%elem_of_singleton|Hk]%elem_of_union; apply edge_add; [by right|left; by apply Hseen].
Qed.

Lemma imap_pair_elem {A} (l : list A) x : x ∈ l → ∃ i, (i, x) ∈ imap pair l.
Proof.
  intros [i Hi]%list_elem_of_lookup. exists i. apply (list_elem_of_lookup_2 _ i).
  by rewrite list_lookup_imap, Hi.
Qed.

Lemma collectRef_loop names refs errs g errs' g' :
  foldl (collectRef names) (errs, g) refs = (errs', g') → errs' = [] →
  errs = [] ∧ (∀ x y, edge g x y → edge g' x y) ∧
  (∀ ref d, ref ∈ refs → TrimSpace (dr_name ref) ≠ "" → d ∈ refDependencies ref →
     default "" (names !! key d) ≠ "" ∧ edge g' (key (dr_name ref)) (key d)).
Proof.
  revert errs g. induction refs as [|ref refs IH]; intros errs g E Hnil.
  { simpl in E. simplify_eq. split_and!; [done|done|]. intros ref d Hd%elem_of_nil. done. }
  cbn [foldl] in E. unfold collectRef at 2 in E.
  case_bool_decide as Hname.
  - apply IH in E as (-> & Hmono & Hall); [|done]. split_and!; [done|done|].
    intros r d [->|Hr]%elem_of_cons; [done|by apply Hall].
  - destruct (foldl (collectDependency _ _ _) _ _) as [[errs1 seen1] g1] eqn:E1.
    apply IH in E as (-> & Hmono & Hall); [|done].
    apply collectDependency_loop in E1 as (-> & Hmono1 & Hdeps); [|done|set_solver].
    split_and!; [done|by auto|].
    intros r d [->|Hr]%elem_of_cons Hn Hd; [|by apply Hall].
    destruct (imap_pair_elem _ _ Hd) as [i Hi]. destruct (Hdeps i d Hi) as [? ?].
    split; [done|]. by apply Hmono.
Qed.

Lemma nodeNames_known refs k :
  default "" (nodeNames refs !! k) ≠ "" →
  ∃ ref, ref ∈ refs ∧ TrimSpace (dr_name ref) ≠ "" ∧ key (dr_name ref) = k.
Proof.
  unfold nodeNames. intros Hk.
  assert (∀ names : gmap string string, default "" (foldl (λ names ref,
      let name := TrimSpace (dr_name ref) in
      if name != "" then <[ToLower name := name]> names else names) names refs !! k) ≠ "" →
    default "" (names !! k) ≠ "" ∨
    ∃ ref, ref ∈ refs ∧ TrimSpace (dr_name ref) ≠ "" ∧ key (dr_name ref) = k) as Hloop.
  { clear Hk. induction refs as [|ref refs IH]; intros names Hk; [by left|].
    cbn [foldl] in Hk. apply IH in Hk as [Hk|(r & Hr & Hn & <-)];
      [|right; exists r; split_and!; [by right|done|done]].
    case_bool_decide as Hname; simpl in Hk; [by left|].
    destruct (decide (ToLower (TrimSpace (dr_name ref)) = k)) as [E|E].
    - right. exists ref. split_and!; [by left|done|done].
    - rewrite lookup_insert_ne in Hk by done. by left. }
  destruct (Hloop ∅ Hk) as [Hn|?]; [|done]. by rewrite lookup_empty in Hn.
Qed.

(** The dependencies of a list of steps the validator accepts. *)
Lemma validateStepDependencies_ok refs :
  validateStepDependencies refs = [] →
  ∃ g, acyclic g ∧ ∀ ref d, ref ∈ refs → TrimSpace (dr_name ref) ≠ "" → d ∈ refDependencies ref →
    edge g (key (dr_name ref)) (key d) ∧
    ∃ ref', ref' ∈ refs ∧ TrimSpace (dr_name ref') ≠ "" ∧ key (dr_name ref') = key d.
Proof.
  unfold validateStepDependencies, collectRefs.
  destruct (foldl _ _ _) as [errs g] eqn:E. intros [-> Hcycle%when_nil]%app_nil.
  apply collectRef_loop in E as (_ & _ & Hall); [|done].
  exists g. split; [by apply hasDependencyCycle_ok|].
  intros ref d Href Hname Hd. destruct (Hall ref d Href Hname Hd) as [Hk He].
  split; [done|]. by apply nodeNames_known.
Qed.

(** ** The validator and the resolver walk together *)

Lemma buildNodeID_inj j k : buildNodeID j = buildNodeID k → j = k.
Proof. intros E. apply FallbackNodeID_inj in E; lia. Qed.

Lemma buildNodeID_trimmed k : TrimSpace (buildNodeID k) = buildNodeID k.
Proof. apply (FallbackNodeID_trimmed (Z.of_nat k)). Qed.

(** The names and the node ids of the same steps. *)
Definition places (refs : list stepDependencyRef) : list string → list string → Prop :=
  Forall2 (λ name id, ∃ j ref, refs !! j = Some ref ∧ dr_name ref = name ∧ id = buildNodeID j).

Lemma places_app refs refs' names ids : places refs names ids → places (refs ++ refs') names ids.
Proof.
  intros H. eapply list.Forall2_impl; [exact H|]. intros name id (j & ref & Hj & <- & ->).
  exists j, ref. split_and!; [by apply lookup_app_l_Some|done|done].
Qed.

Lemma places_last refs ref : places (refs ++ [ref]) [dr_name ref] [buildNodeID (length refs)].
Proof.
  repeat constructor. exists (length refs), ref. split_and!; [|done|done].
  by rewrite lookup_app_r, Nat.sub_diag by lia.
Qed.

(** What ties the reference of a step to its node. *)
Definition node_of_ref (refs : list stepDependencyRef) (explicit : gmap string (option (list string)))
    (k : nat) (ref : stepDependencyRef) (node : ExecutionNode) : Prop :=
  en_NodeID node = buildNodeID k ∧ rv_Name (en_Step node) = dr_name ref ∧
  rv_NodeID (en_Step node) = en_NodeID node ∧
  rv_DependsOnNodeIDs (en_Step node) = en_DependsOnNodeIDs node ∧
  explicit !! buildNodeID k = Some (dr_dependsOn ref) ∧
  places refs (dr_implicitDependencies ref) (en_DependsOnNodeIDs node).

Record walk_ok (refs : list stepDependencyRef) (seen : gset string) (nodes : list ExecutionNode)
    (explicit : gmap string (option (list string))) : Prop := {
  walk_length : length refs = length nodes;
  walk_nodes k ref node :
    refs !! k = Some ref → nodes !! k = Some node → node_of_ref refs explicit k ref node;
  walk_named ref : ref ∈ refs → TrimSpace (dr_name ref) ≠ "";
  walk_seen ref : ref ∈ refs → key (dr_name ref) ∈ seen;
  walk_distinct : NoDup ((λ ref, key (dr_name ref)) <$> refs);
}.

Lemma resolveStepDef_name sd env cache : rv_Name (resolveStepDef sd env cache) = sd_Name sd.
Proof. unfold resolveStepDef. by destruct (sd_ImageBuild sd). Qed.

(** One more step, with a new name, that follows known steps. *)
Lemma walk_ok_add refs seen env cache groupName st sd implicit deps field :
  walk_ok refs seen (ps_nodes st) (ps_explicit st) → places refs implicit deps →
  TrimSpace (sd_Name sd) ≠ "" → key (sd_Name sd) ∉ seen →
  walk_ok (refs ++ [mkstepDependencyRef (sd_Name sd) (sd_DependsOn sd) implicit field])
    ({[key (sd_Name sd)]} ∪ seen)
    (ps_nodes (addNode env cache groupName deps st sd).1)
    (ps_explicit (addNode env cache groupName deps st sd).1).
Proof.
  intros [Hlen Hnodes Hnamed Hseen Hnd] Himpl Hname Hnew.
  unfold addNode. cbn [fst ps_nodes ps_explicit].
  set (ref := mkstepDependencyRef _ _ _ _). split.
  - rewrite !length_app, Hlen. done.
  - intros k r n Hr Hn. rewrite lookup_app in Hr. rewrite lookup_app in Hn.
    destruct (refs !! k) as [r'|] eqn:Ek.
    + destruct (lookup_lt_is_Some_2 (ps_nodes st) k) as [n' En];
        [rewrite <-Hlen; by eapply lookup_lt_Some|].
      rewrite En in Hn. simplify_eq. destruct (Hnodes k r n Ek En) as (E1 & E2 & E3 & E4 & E5 & E6).
      split_and!; [done|done|done|done| |by apply places_app].
      rewrite lookup_insert_ne; [done|]. intros E%buildNodeID_inj.
      apply lookup_lt_Some in Ek. lia.
    + apply lookup_ge_None in Ek. rewrite Hlen in *.
      destruct (ps_nodes st !! k) eqn:En; [apply lookup_lt_Some in En; lia|].
      assert (k = length (ps_nodes st)) as ->.
      { destruct (k - length (ps_nodes st))%nat as [|m] eqn:Em; [lia|done]. }
      rewrite Nat.sub_diag in Hr, Hn. simpl in Hr, Hn. simplify_eq.
      split_and!; simpl; [done|apply resolveStepDef_name|done|done| |].
      * apply lookup_insert_eq.
      * by apply places_app.
  - intros r [Hr| ->%list_elem_of_singleton]%elem_of_app; [by apply Hnamed|done].
  - intros r [Hr| ->%list_elem_of_singleton]%elem_of_app; [|set_solver].
    apply elem_of_union. right. by apply Hseen.
  - rewrite fmap_app. apply list.NoDup_app. split_and!; [done| |apply NoDup_singleton].
    intros x (r & -> & Hr)%list_elem_of_fmap E%list_elem_of_singleton. simpl in E.
    apply Hnew. rewrite <-E. by apply Hseen.
Qed.

Lemma validateStepDef_ok step prefix seen errs seen' :
  validateStepDef step prefix seen = (errs, seen') → errs = [] →
  TrimSpace (sd_Name step) ≠ "" ∧ key (sd_Name step) ∉ seen ∧ seen' = {[key (sd_Name step)]} ∪ seen.
Proof.
  unfold validateStepDef, validateStepName. case_bool_decide as Hname; [intros [= <- <-] Hnil; done|].
  fold (key (sd_Name step)). intros [= <- <-] [Hnew%when_nil _]%app_nil.
  by apply bool_decide_eq_false in Hnew.
Qed.

Lemma imap_pair_snoc {A} (l : list A) x : imap pair (l ++ [x]) = imap pair l ++ [(length l, x)].
Proof. rewrite imap_app. simpl. unfold compose. by rewrite Nat.add_0_r. Qed.

Section walk.
  Context (env : gmap string string) (cache : option StepCacheConfig).

Lemma group_errs prefix implicit steps st :
  ls_errs (foldl (validateGroupStep prefix implicit) (st, []) (imap pair steps)).1 = [] →
  ls_errs st = [].
Proof.
  induction steps as [|sd steps IH] using rev_ind; [done|].
  rewrite imap_pair_snoc, foldl_app.
  destruct (foldl (validateGroupStep prefix implicit) (st, []) (imap pair steps)) as [st1 gf].
  cbn [foldl validateGroupStep].
  destruct (sd_Group sd); [|destruct (validateStepDef _ _ _)];
    intros [Hnil _]%app_nil; by apply IH.
Qed.

(** The steps of a group follow the steps before the group. *)
Lemma group_walk groupName prefix implicit deps steps st pst :
  let '(st', groupFrontier) :=
    foldl (validateGroupStep prefix implicit) (st, []) (imap pair steps) in
  let '(pst', groupNodeIDs) :=
    foldl (addGroupNode env cache groupName deps) (pst, []) steps in
  ls_errs st' = [] → places (ls_dependencyRefs st) implicit deps →
  walk_ok (ls_dependencyRefs st) (ls_seen st) (ps_nodes pst) (ps_explicit pst) →
  walk_ok (ls_dependencyRefs st') (ls_seen st') (ps_nodes pst') (ps_explicit pst') ∧
  places (ls_dependencyRefs st') implicit deps ∧
  places (ls_dependencyRefs st') groupFrontier groupNodeIDs.
Proof.
  induction steps as [|sd steps IH] using rev_ind;
    [cbn; intros Hnil Hpl Hwalk; split_and!; try done; constructor|].
  rewrite imap_pair_snoc, !foldl_app.
  destruct (foldl (validateGroupStep prefix implicit) (st, []) (imap pair steps)) as [st1 gf].
  destruct (foldl (addGroupNode env cache groupName deps) (pst, []) steps) as [pst1 gids].
  cbn [foldl validateGroupStep addGroupNode].
  destruct (sd_Group sd) as [g|]; [intros Hnil; cbn in Hnil; by apply app_nil in Hnil as [_ ?]|].
  destruct (validateStepDef _ _ _) as [errs seen'] eqn:E.
  intros Hnil Hpl Hwalk. cbn in Hnil. apply app_nil in Hnil as [Hnil Herrs].
  destruct (IH Hnil Hpl Hwalk) as (Hwalk1 & Hpl1 & Hfr1).
  destruct (validateStepDef_ok _ _ _ _ _ E Herrs) as (Hname & Hnew & ->).
  cbn [ls_dependencyRefs ls_seen ls_errs]. split_and!; [by apply walk_ok_add|by apply places_app|].
  apply Forall2_app; [by apply places_app|].
  rewrite <-(walk_length _ _ _ _ Hwalk1).
  exact (places_last (ls_dependencyRefs st1) (mkstepDependencyRef _ _ _ _)).
Qed.

Lemma steps_walk steps :
  let st := validateSteps steps in
  let pst := placeNodes env cache steps in
  ls_errs st = [] →
  walk_ok (ls_dependencyRefs st) (ls_seen st) (ps_nodes pst) (ps_explicit pst) ∧
  places (ls_dependencyRefs st) (ls_frontier st) (ps_frontier pst).
Proof.
  unfold validateSteps, placeNodes. induction steps as [|sd steps IH] using rev_ind.
  { intros _. split; [|constructor].
    split; [done|intros k r n Hr; done| | |constructor]; intros r Hr%elem_of_nil; done. }
  rewrite imap_pair_snoc, !foldl_app. cbn zeta in IH.
  destruct (foldl validateTopStep _ _) as [errs seen count fr refs].
  destruct (foldl (addTopStep env cache) _ _) as [nodes explicit ids].
  cbn [foldl] in *. unfold validateTopStep, addTopStep.
  destruct (sd_Group sd) as [[groupName groupSteps]|].
  - case_bool_decide; [cbn; intros [_ ?]%app_nil; done|].
    set (errs0 := _ ++ _).
    pose proof (group_walk (TrimSpace groupName) (at_index "steps" (length steps)) fr ids groupSteps
      (mkStepsState errs0 seen count fr refs) (mkPlanState nodes explicit ids)) as Hgroup.
    pose proof (group_errs (at_index "steps" (length steps)) fr groupSteps
      (mkStepsState errs0 seen count fr refs)) as Herrs.
    cbn [ls_seen ls_executableStepCount ls_frontier ls_dependencyRefs ls_errs ps_frontier
      ps_nodes ps_explicit] in *.
    destruct (foldl (validateGroupStep _ _) _ _) as [st1 gf].
    destruct (foldl (addGroupNode _ _ _ _) _ _) as [pst1 gids].
    intros Hnil. cbn in Hnil |- *.
    pose proof (Herrs Hnil) as Hnil'. apply app_nil in Hnil' as [Hnil' _].
    destruct (IH Hnil') as [Hwalk Hpl].
    destruct (Hgroup Hnil Hpl Hwalk) as (Hwalk' & _ & Hfr). done.
  - destruct (validateStepDef _ _ _) as [errs1 seen1] eqn:E.
    cbn [ls_seen ls_frontier ls_dependencyRefs ls_errs] in *.
    intros [Hnil Herrs]%app_nil. destruct (IH Hnil) as [Hwalk Hpl].
    destruct (validateStepDef_ok _ _ _ _ _ E Herrs) as (Hname & Hnew & ->).
    cbn [ps_frontier]. split.
    + apply (walk_ok_add refs seen env cache "" (mkPlanState nodes explicit ids)); done.
    + pose proof (walk_length _ _ _ _ Hwalk) as Hlen. cbn in Hlen |- *. rewrite <-Hlen.
      exact (places_last refs (mkstepDependencyRef _ _ _ _)).
Qed.

End walk.

(** ** The nodes of an accepted file *)

Lemma group_count prefix implicit steps st :
  ls_executableStepCount st = Z.of_nat (length (ls_dependencyRefs st)) →
  let st' := (foldl (validateGroupStep prefix implicit) (st, []) (imap pair steps)).1 in
  ls_executableStepCount st' = Z.of_nat (length (ls_dependencyRefs st')).
Proof.
  intros Hst. induction steps as [|sd steps IH] using rev_ind; [done|].
  rewrite imap_pair_snoc, foldl_app. cbn zeta in *.
  destruct (foldl (validateGroupStep prefix implicit) (st, []) (imap pair steps)) as [st1 gf].
  cbn [foldl validateGroupStep fst] in *.
  destruct (sd_Group sd); [done|]. destruct (validateStepDef _ _ _). cbn.
  rewrite length_app. simpl. lia.
Qed.

Lemma steps_count steps :
  ls_executableStepCount (validateSteps steps)
    = Z.of_nat (length (ls_dependencyRefs (validateSteps steps))).
Proof.
  unfold validateSteps. induction steps as [|sd steps IH] using rev_ind; [done|].
  rewrite imap_pair_snoc, foldl_app. cbn [foldl].
  destruct (foldl validateTopStep _ _) as [errs seen count fr refs].
  unfold validateTopStep. cbn [ls_executableStepCount ls_dependencyRefs] in IH.
  destruct (sd_Group sd) as [[groupName groupSteps]|].
  - case_bool_decide; [done|]. cbn [ls_executableStepCount ls_dependencyRefs ls_errs ls_seen ls_frontier].
    match goal with |- context [foldl (validateGroupStep ?p ?i) (?st, []) (imap pair ?l)] =>
      pose proof (group_count p i l st IH) as Hc end.
    by destruct (foldl (validateGroupStep _ _) _ _) as [st1 gf].
  - destruct (validateStepDef _ _ _). cbn. rewrite length_app. simpl. lia.
Qed.

Lemma nameTable_lookup nodes x id :
  nameTable nodes !! x = Some id →
  ∃ j node, nodes !! j = Some node ∧ key (rv_Name (en_Step node)) = x ∧ id = en_NodeID node.
Proof.
  unfold nameTable. induction nodes as [|node nodes IH] using rev_ind; [done|].
  rewrite foldl_app. cbn [foldl]. rewrite lookup_insert_Some. intros [[Hx <-]|[_ Hid]].
  - exists (length nodes), node. split_and!; [|done|done].
    by rewrite lookup_app_r, Nat.sub_diag by lia.
  - destruct (IH Hid) as (j & n & Hj & ? & ?). exists j, n.
    split_and!; [by apply lookup_app_l_Some|done|done].
Qed.

Lemma nameTable_total nodes node :
  node ∈ nodes → is_Some (nameTable nodes !! key (rv_Name (en_Step node))).
Proof.
  unfold nameTable. induction nodes as [|n nodes IH] using rev_ind; [by intros ?%elem_of_nil|].
  rewrite foldl_app. cbn [foldl]. intros [Hn| ->%list_elem_of_singleton]%elem_of_app.
  - destruct (IH Hn) as [id Hid]. rewrite lookup_insert_is_Some.
    destruct (decide (key (rv_Name (en_Step n)) = key (rv_Name (en_Step node)))); [by left|right].
    by rewrite Hid.
  - rewrite lookup_insert_eq. by eexists.
Qed.

(** The graph of a plan. *)
Definition plan_graph (nodes : list ExecutionNode) : gmap string (list string) :=
  list_to_map ((λ n, (en_NodeID n, en_DependsOnNodeIDs n)) <$> nodes).

Lemma plan_graph_edge nodes x y :
  edge (plan_graph nodes) x y →
  ∃ node, node ∈ nodes ∧ en_NodeID node = x ∧ y ∈ en_DependsOnNodeIDs node.
Proof.
  unfold edge, depsOf, plan_graph. destruct (_ !! x) as [l|] eqn:E; simpl; [|by intros ?%elem_of_nil].
  apply elem_of_list_to_map_2, list_elem_of_fmap in E as (node & [= -> ->] & Hnode).
  intros Hy. by exists node.
Qed.

Section accepted.
  Context (refs : list stepDependencyRef) (seen : gset string) (nodes : list ExecutionNode).
  Context (explicit : gmap string (option (list string))).
  Context (Hwalk : walk_ok refs seen nodes explicit) (Hdeps : validateStepDependencies refs = []).

Let final : list ExecutionNode := withExplicit explicit (nameTable nodes) <$> nodes.

Lemma node_ref k node :
  nodes !! k = Some node → ∃ ref, refs !! k = Some ref ∧ node_of_ref refs explicit k ref node.
Proof.
  intros Hk. destruct (lookup_lt_is_Some_2 refs k) as [ref Href].
  { rewrite (walk_length _ _ _ _ Hwalk). by eapply lookup_lt_Some. }
  exists ref. split; [done|]. by apply (walk_nodes _ _ _ _ Hwalk).
Qed.

(** Where the dependencies of a node come from. *)
Lemma final_deps k node ref id :
  nodes !! k = Some node → refs !! k = Some ref →
  id ∈ en_DependsOnNodeIDs (withExplicit explicit (nameTable nodes) node) →
  ∃ j ref' d, refs !! j = Some ref' ∧ id = buildNodeID j ∧ d ∈ refDependencies ref ∧
    key (dr_name ref') = key d.
Proof.
  intros Hk Href Hid. destruct (walk_nodes _ _ _ _ Hwalk k ref node Href Hk)
    as (E1 & _ & _ & _ & E5 & Hpl).
  unfold withExplicit in Hid. rewrite E1, E5 in Hid. unfold refDependencies.
  destruct (dr_dependsOn ref) as [names|]; simpl.
  - apply list_elem_of_omap in Hid as (d & Hd & (j & n & Hj & Hkey & ->)%nameTable_lookup).
    destruct (node_ref j n Hj) as (ref' & Href' & (En & Ename & _)).
    exists j, ref', d. split_and!; [done|done|done|]. by rewrite <-Ename.
  - apply list_elem_of_lookup in Hid as [i Hi].
    destruct (list.Forall2_lookup_r _ _ _ _ _ Hpl Hi) as (name & Hname & j & ref' & Hj & <- & ->).
    exists j, ref', (dr_name ref'). split_and!; [done|done| |done].
    by apply list_elem_of_lookup_2 in Hname.
Qed.

Lemma final_node k node :
  final !! k = Some node →
  en_NodeID node = buildNodeID k ∧ rv_NodeID (en_Step node) = en_NodeID node ∧
  rv_DependsOnNodeIDs (en_Step node) = en_DependsOnNodeIDs node.
Proof.
  unfold final. rewrite list_lookup_fmap. destruct (nodes !! k) as [n|] eqn:Hk; [|done].
  intros [= <-]. destruct (node_ref k n Hk) as (ref & _ & (E1 & _ & E3 & E4 & E5 & _)).
  unfold withExplicit. rewrite E1, E5. by destruct (dr_dependsOn ref).
Qed.

Lemma final_closed k node id :
  final !! k = Some node → id ∈ en_DependsOnNodeIDs node →
  ∃ j node', final !! j = Some node' ∧ en_NodeID node' = id.
Proof.
  unfold final. rewrite list_lookup_fmap. destruct (nodes !! k) as [n|] eqn:Hk; [|done].
  intros [= <-] Hid. destruct (node_ref k n Hk) as (ref & Href & _).
  destruct (final_deps k n ref id Hk Href Hid) as (j & ref' & d & Hj & -> & _).
  destruct (lookup_lt_is_Some_2 nodes j) as [n' Hn'].
  { rewrite <-(walk_length _ _ _ _ Hwalk). by eapply lookup_lt_Some. }
  exists j, (withExplicit explicit (nameTable nodes) n').
  assert (final !! j = Some (withExplicit explicit (nameTable nodes) n')) as Hf
    by (unfold final; by rewrite list_lookup_fmap, Hn').
  split; [done|]. by apply final_node.
Qed.

(** The name of the step of a node. *)
Definition key_of_node (id : string) : string :=
  match list_find (λ node, en_NodeID node = id) nodes with
  | Some (_, node) => key (rv_Name (en_Step node))
  | None => ""
  end.

Lemma key_of_node_ref k ref : refs !! k = Some ref → key_of_node (buildNodeID k) = key (dr_name ref).
Proof.
  intros Href. destruct (lookup_lt_is_Some_2 nodes k) as [n Hn].
  { rewrite <-(walk_length _ _ _ _ Hwalk). by eapply lookup_lt_Some. }
  destruct (walk_nodes _ _ _ _ Hwalk k ref n Href Hn) as (E1 & E2 & _).
  unfold key_of_node. destruct (list_find _ nodes) as [[j n']|] eqn:E.
  - apply list_find_Some in E as (Hj & En' & _).
    destruct (node_ref j n' Hj) as (ref' & Href' & (E1' & E2' & _)).
    rewrite E1' in En'. apply buildNodeID_inj in En' as ->. simplify_eq. by rewrite E2.
  - apply list_find_None in E. rewrite list.Forall_forall in E.
    exfalso. by apply (E n); [eapply list_elem_of_lookup_2|].
Qed.

Lemma final_acyclic : acyclic (plan_graph final).
Proof.
  destruct (validateStepDependencies_ok refs Hdeps) as (g & Hac & Hg).
  apply (acyclic_map key_of_node _ g); [|done].
  intros x y (node & Hnode & <- & Hy)%plan_graph_edge.
  apply list_elem_of_lookup in Hnode as [k Hk]. pose proof (final_node k node Hk) as (E1 & _).
  unfold final in Hk. rewrite list_lookup_fmap in Hk.
  destruct (nodes !! k) as [n|] eqn:Hn; [|done]. simplify_eq/=.
  destruct (node_ref k n Hn) as (ref & Href & _).
  destruct (final_deps k n ref y Hn Href Hy) as (j & ref' & d & Hj & -> & Hd & Ekey).
  rewrite E1, (key_of_node_ref k ref), (key_of_node_ref j ref'), Ekey by done.
  apply Hg; [by eapply list_elem_of_lookup_2| |done].
  apply (walk_named _ _ _ _ Hwalk). by eapply list_elem_of_lookup_2.
Qed.

End accepted.

(** A plan of nodes that is well formed: the nodes are numbered in order, a
    step carries the id and the dependencies of its node, dependencies are
    nodes of the plan, and there is no cycle. *)
Record plan_ok (nodes : list ExecutionNode) : Prop := {
  plan_nonempty : nodes ≠ [];
  plan_numbered k node : nodes !! k = Some node →
    en_NodeID node = buildNodeID k ∧ rv_NodeID (en_Step node) = en_NodeID node ∧
    rv_DependsOnNodeIDs (en_Step node) = en_DependsOnNodeIDs node;
  plan_closed node id : node ∈ nodes → id ∈ en_DependsOnNodeIDs node →
    ∃ node', node' ∈ nodes ∧ en_NodeID node' = id;
  plan_acyclic : acyclic (plan_graph nodes);
}.

Lemma Validate_plan_ok other_letter pf :
  Validate other_letter pf = [] → plan_ok (rp_Plan (Resolve pf)).
Proof.
  unfold Validate. case_bool_decide as Hsteps; [by intros [_ ?]%app_nil|].
  intros [_ [Herrs [Hcount Hdeps]%app_nil]%app_nil]%app_nil.
  apply when_nil, Z.eqb_neq in Hcount. rewrite steps_count in Hcount.
  cbn [Resolve rp_Plan]. unfold planNodes.
  set (env := copyEnv _). set (cache := resolveCache _).
  destruct (steps_walk env cache (pf_Steps pf) Herrs) as [Hwalk _].
  split.
  - intros Hnil%(f_equal length). rewrite length_fmap, <-(walk_length _ _ _ _ Hwalk) in Hnil.
    cbn in Hnil. lia.
  - intros k node. by apply (final_node _ _ _ _ Hwalk).
  - intros node id [k Hk]%list_elem_of_lookup Hid.
    destruct (final_closed _ _ _ _ Hwalk k node id Hk Hid) as (j & node' & Hj & E).
    exists node'. split; [by eapply list_elem_of_lookup_2|done].
  - by apply (final_acyclic _ _ _ _ Hwalk).
Qed.
