(* ===== verification/PipelineThms.v ===== *)
(** What an accepted pipeline file leads to: an acyclic plan, a job for each
    step, and a build that can always go on until every step succeeded. *)

From Stdlib Require Import Ascii.
From stdpp Require Import base gmap strings list relations pretty sorting numbers.
From S2P Require Import Prelude GoLib GoPath Graph Domain NodeNames Repository BuildRepo.
From S2P Require Import BuildRepoFacts LifecycleSpec Lifecycle Leases ExecJobRepo Planner PlannerFacts PlannerThms.
From S2P Require Import Versioning Schema Pipeline CycleFacts Resolve PipelineFacts.

Open Scope go_scope.
Open Scope Z_scope.

Lemma plan_names_distinct nodes : plan_ok nodes → NoDup (en_NodeID <$> nodes).
Proof.
  intros [_ Hnum _ _]. apply NoDup_alt. intros i j id Hi Hj. rewrite !list_lookup_fmap in Hi, Hj.
  destruct (nodes !! i) as [ni|] eqn:Ei; [|done]. destruct (nodes !! j) as [nj|] eqn:Ej; [|done].
  simpl in Hi, Hj. destruct (Hnum i ni Ei) as (Ei' & _). destruct (Hnum j nj Ej) as (Ej' & _).
  apply buildNodeID_inj. congruence.
Qed.

(** Equal images, element by element. *)
Lemma list_fmap_Forall2_eq {A B C} (f : A → C) (g : B → C) l k :
  Forall2 (λ x y, f x = g y) l k → f <$> l = g <$> k.
Proof. induction 1 as [|x y l k Exy _ IH]; [done|]. by rewrite !fmap_cons, Exy, IH. Qed.

(** ** The steps of a well-formed plan *)

Section steps.
  Context (newID : nat → string) (buildID : string) (nodes : list ExecutionNode).
  Context (Hplan : plan_ok nodes).

Definition plan_steps : list BuildStep :=
  pipelineStepsToDomain newID buildID (en_Step <$> nodes).

Lemma plan_steps_lookup k s :
  plan_steps !! k = Some s ↔
  ∃ node, nodes !! k = Some node ∧ s = pipelineStep buildID (newID k) k (en_Step node).
Proof.
  unfold plan_steps, pipelineStepsToDomain. rewrite list_lookup_imap, list_lookup_fmap.
  destruct (nodes !! k) as [n|]; simpl; [|naive_solver]. split.
  - intros [= <-]. by exists n.
  - by intros (? & [= <-] & ->).
Qed.

Lemma plan_steps_length : length plan_steps = length nodes.
Proof. unfold plan_steps, pipelineStepsToDomain. by rewrite length_imap, length_fmap. Qed.

Lemma plan_step_node k node :
  nodes !! k = Some node →
  st_NodeID (pipelineStep buildID (newID k) k (en_Step node)) = buildNodeID k ∧
  st_DependsOnNodes (pipelineStep buildID (newID k) k (en_Step node)) = en_DependsOnNodeIDs node.
Proof.
  intros Hk. destruct (plan_numbered _ Hplan k node Hk) as (E1 & E2 & E3).
  rewrite <-E1, <-E2, <-E3. done.
Qed.

Lemma plan_dep_trimmed node d :
  node ∈ nodes → d ∈ en_DependsOnNodeIDs node → TrimSpace d = d ∧ ∃ j, d = buildNodeID j ∧ (j < length nodes)%nat.
Proof.
  intros Hn Hd. destruct (plan_closed _ Hplan node d Hn Hd) as (n' & [j Hj]%list_elem_of_lookup & <-).
  destruct (plan_numbered _ Hplan j n' Hj) as (-> & _).
  split; [apply buildNodeID_trimmed|]. exists j. split; [done|by eapply lookup_lt_Some].
Qed.

Lemma effective_plan_node k node :
  nodes !! k = Some node →
  effectiveWorkspaceNodeID (pipelineStep buildID (newID k) k (en_Step node)) = buildNodeID k.
Proof.
  intros Hk. unfold effectiveWorkspaceNodeID. destruct (plan_step_node k node Hk) as [-> _].
  by rewrite buildNodeID_trimmed.
Qed.

Lemma plan_nodeIDs_lookup k id :
  nodeIDs plan_steps !! k = Some id → id = buildNodeID k ∧ (k < length nodes)%nat.
Proof.
  unfold nodeIDs. rewrite list_lookup_fmap. destruct (plan_steps !! k) as [s|] eqn:E; [|done].
  intros [= <-]. apply plan_steps_lookup in E as (n & Hn & ->).
  split; [by apply effective_plan_node|by eapply lookup_lt_Some].
Qed.

Lemma plan_nodup : NoDup (nodeIDs plan_steps).
Proof.
  apply NoDup_alt. intros i j id Hi Hj.
  apply plan_nodeIDs_lookup in Hi as [-> _]. apply plan_nodeIDs_lookup in Hj as [E _].
  by apply buildNodeID_inj in E.
Qed.

Lemma plan_graph_node k node :
  nodes !! k = Some node → depsOf (plan_graph nodes) (buildNodeID k) = en_DependsOnNodeIDs node.
Proof.
  intros Hk. destruct (plan_numbered _ Hplan k node Hk) as (E1 & _).
  unfold depsOf, plan_graph. erewrite elem_of_list_to_map_1; [done| |].
  - apply NoDup_alt. intros i j id Hi Hj. rewrite !list_lookup_fmap in Hi, Hj.
    destruct (nodes !! i) as [ni|] eqn:Ei; [|done]. destruct (nodes !! j) as [nj|] eqn:Ej; [|done].
    simpl in Hi, Hj. destruct (plan_numbered _ Hplan i ni Ei) as (Ei' & _).
    destruct (plan_numbered _ Hplan j nj Ej) as (Ej' & _).
    apply buildNodeID_inj. congruence.
  - apply list_elem_of_fmap. exists node. rewrite E1. split; [done|by eapply list_elem_of_lookup_2].
Qed.

(** The planner sees the dependencies of the plan, and no others. *)
Lemma plan_workspace_acyclic : acyclic (workspaceGraph plan_steps).1.
Proof.
  apply (acyclic_map id _ (plan_graph nodes)); [|apply Hplan].
  intros x y (s & [k Hs]%list_elem_of_lookup & <- & Hy)%workspaceGraph_edge; [|apply plan_nodup].
  apply plan_steps_lookup in Hs as (node & Hk & ->).
  destruct (plan_step_node k node Hk) as [En Ed].
  destruct (producers_spec plan_steps (pipelineStep buildID (newID k) k (en_Step node)))
    as (_ & _ & Hprod).
  apply Hprod in Hy as (_ & _ & d & Hd & ->); [|by rewrite En, buildNodeID_trimmed].
  rewrite Ed in Hd. simpl. rewrite effective_plan_node by done.
  destruct (plan_dep_trimmed node d) as [-> _]; [by eapply list_elem_of_lookup_2|done|].
  unfold edge. by rewrite (plan_graph_node k node).
Qed.

(** ** A build of the plan under way *)

(** The steps later: their statuses have changed, not their places. *)
Definition same_places (later : list BuildStep) : Prop :=
  Forall2 (λ s s', st_NodeID s' = st_NodeID s ∧ st_DependsOnNodes s' = st_DependsOnNodes s)
    plan_steps later.

Lemma later_node_lookup later k s' :
  same_places later → later !! k = Some s' →
  ∃ node, nodes !! k = Some node ∧ st_NodeID s' = buildNodeID k ∧
    st_DependsOnNodes s' = en_DependsOnNodeIDs node.
Proof.
  intros Hlater Hk. destruct (list.Forall2_lookup_r _ _ _ _ _ Hlater Hk) as (s & Hs & En & Ed).
  apply plan_steps_lookup in Hs as (node & Hn & ->).
  destruct (plan_step_node k node Hn) as [En' Ed']. exists node. by rewrite En, Ed.
Qed.

Lemma later_status later k s' :
  same_places later → later !! k = Some s' →
  stepStatusByNodeID later !! buildNodeID k = Some (st_Status s').
Proof.
  intros Hlater Hk.
  assert (∀ l (acc : gmap string BuildStepStatus), (∀ i s, l !! i = Some s → s = s' ∨ effectiveNodeID s ≠ buildNodeID k) →
    acc !! buildNodeID k = Some (st_Status s') ∨ s' ∈ l →
    effectiveNodeID s' = buildNodeID k →
    foldl (λ statusByNode step, <[effectiveNodeID step := st_Status step]> statusByNode) acc l
      !! buildNodeID k = Some (st_Status s')) as Hloop.
  { induction l as [|s l IH]; intros acc Hl Hor Heff; simpl.
    { destruct Hor as [?|[]%elem_of_nil]; done. }
    apply IH; [intros i t Hi; by apply (Hl (S i))| |done].
    destruct (Hl 0%nat s eq_refl) as [->|Hne]; [left; by rewrite Heff, lookup_insert_eq|].
    rewrite lookup_insert_ne by done. destruct Hor as [?|[->|?]%elem_of_cons]; [by left|done|by right]. }
  assert (∀ i s, later !! i = Some s → effectiveNodeID s = buildNodeID i) as Heff.
  { intros i s Hi. destruct (later_node_lookup later i s Hlater Hi) as (n & _ & En & _).
    unfold effectiveNodeID. by rewrite En, buildNodeID_trimmed. }
  apply Hloop; [|right; by eapply list_elem_of_lookup_2|by apply Heff].
  intros i s Hi. destruct (decide (i = k)) as [->|Hik]; [left; congruence|right].
  rewrite (Heff i s Hi). intros E%buildNodeID_inj. done.
Qed.

Lemma plan_never_stuck later :
  same_places later →
  (∀ s, s ∈ later → st_Status s = BuildStepStatusPending ∨ st_Status s = BuildStepStatusSuccess) →
  (∃ s, s ∈ later ∧ st_Status s = BuildStepStatusPending) →
  ∃ s, s ∈ later ∧ st_Status s = BuildStepStatusPending ∧
    isStepRunnable s later (stepStatusByNodeID later) = true.
Proof.
  intros Hlater Hstatus (s0 & [k0 Hs0]%list_elem_of_lookup & Hpend0).
  assert (∀ x, Acc (flip (edge (plan_graph nodes))) x → ∀ k s, x = buildNodeID k →
    later !! k = Some s → st_Status s = BuildStepStatusPending →
    ∃ s, s ∈ later ∧ st_Status s = BuildStepStatusPending ∧
      isStepRunnable s later (stepStatusByNodeID later) = true) as Hwf.
  { induction 1 as [x _ IH]. intros k s -> Hk Hpend.
    destruct (later_node_lookup later k s Hlater Hk) as (node & Hn & En & Ed).
    destruct (isStepRunnable s later (stepStatusByNodeID later)) eqn:Hrun;
      [exists s; split_and!; [by eapply list_elem_of_lookup_2|done|done]|].
    unfold isStepRunnable in Hrun. rewrite En, buildNodeID_trimmed in Hrun. simpl in Hrun.
    apply not_true_iff_false in Hrun. rewrite forallb_forall in Hrun.
    assert (∃ d, d ∈ st_DependsOnNodes s ∧
      stepStatusByNodeID later !! TrimSpace d ≠ Some BuildStepStatusSuccess) as (d & Hd & Hnot).
    { destruct (decide (Forall (λ d, stepStatusByNodeID later !! TrimSpace d
        = Some BuildStepStatusSuccess) (st_DependsOnNodes s))) as [Hall|Hnot].
      - exfalso. apply Hrun. intros d Hd%list_elem_of_In. rewrite list.Forall_forall in Hall.
        by apply bool_decide_eq_true, Hall.
      - apply not_Forall_Exists, list.Exists_exists in Hnot; [|apply _]. exact Hnot. }
    rewrite Ed in Hd. assert (node ∈ nodes) as Hnode by by eapply list_elem_of_lookup_2.
    destruct (plan_dep_trimmed node d Hnode Hd) as (Etrim & j & -> & Hj). rewrite Etrim in Hnot.
    destruct (lookup_lt_is_Some_2 later j) as [sj Hsj].
    { rewrite <-(list.Forall2_length _ _ _ Hlater), plan_steps_length. done. }
    rewrite (later_status later j sj Hlater Hsj) in Hnot.
    apply (IH (buildNodeID j)) with j sj; [|done|done|].
    - unfold flip, edge. by rewrite (plan_graph_node k node).
    - destruct (Hstatus sj) as [?|?]; [by eapply list_elem_of_lookup_2|done|congruence]. }
  apply (Hwf (buildNodeID k0) (acyclic_acc _ _ (plan_acyclic _ Hplan)) k0 s0); done.
Qed.

Lemma plan_not_stuck later :
  same_places later →
  (∀ s, s ∈ later → st_Status s ∈ [BuildStepStatusPending; BuildStepStatusRunning;
                                   BuildStepStatusSuccess]) →
  ¬ stuck later.
Proof.
  intros Hlater Hstatus (Hidle & Hnone & s & Hs & Hst).
  assert (∀ t, t ∈ later → st_Status t = BuildStepStatusPending ∨ st_Status t = BuildStepStatusSuccess)
    as Htwo.
  { intros t Ht. pose proof (Hstatus t Ht). pose proof (Hidle t Ht). set_solver. }
  destruct (plan_never_stuck later Hlater Htwo) as (t & Ht & Hp & Hrun).
  { exists s. split; [done|]. destruct Hst, (Htwo s Hs); congruence. }
  apply not_true_iff_false in Hnone. apply Hnone, existsb_exists. exists t.
  split; [by apply list_elem_of_In|]. by rewrite Hp, Hrun.
Qed.

(** The jobs of the plan, when every step has the job the planner must give it. *)
Lemma plan_jobs_nodes json_Marshal sha256_hex p jobID build image jobs :
  length jobs = length nodes →
  (∀ i step, plan_steps !! i = Some step → ∃ plan job, jobs !! i = Some job ∧
     baseline plan_steps step plan ∧
     job_of_step json_Marshal sha256_hex p jobID build image i step plan job) →
  Forall2 (λ job node, j_NodeID job = en_NodeID node ∧
    j_DependsOnNodeIDs job = en_DependsOnNodeIDs node ∧
    j_Status job = ExecutionJobStatusQueued) jobs nodes.
Proof.
  intros Hlen Hall. apply Forall2_same_length_lookup_2; [done|].
  intros i job node Hj Hn.
  destruct (Hall i (pipelineStep buildID (newID i) i (en_Step node)))
    as (plan & job' & Hj' & _ & Hspec); [apply plan_steps_lookup; by exists node|].
  assert (job' = job) as -> by congruence.
  destruct Hspec as (_ & _ & _ & En & _ & Ed & Est & _).
  destruct (plan_numbered _ Hplan i node Hn) as (E1 & _). destruct (plan_step_node i node Hn) as [_ Ed'].
  rewrite En, Ed, Ed', E1. by rewrite effective_plan_node.
Qed.

End steps.

(** ** Theorems *)

(** C20: cycle detection.  In whatever order Go iterates the map of the
    dependencies, the depth-first search of the validator ends, and it finds a
    cycle exactly when the dependencies have one. *)
Theorem hasDependencyCycle_correct g nodes :
  (∀ x, x ∈ dom g → x ∈ nodes) →
  hasDependencyCycleIn g nodes = Some (hasDependencyCycle g) ∧
  (hasDependencyCycle g = true ↔ ∃ x, tc (edge g) x x).
Proof.
  intros Hnodes. destruct (hasDependencyCycleIn_ok g nodes Hnodes) as (found & E & Hac & Hcyc).
  assert (hasDependencyCycle g = found) as ->; [|done].
  destruct found, (hasDependencyCycle g) eqn:Eg; [done| | |done].
  - apply hasDependencyCycle_ok in Eg. destruct Hac as [_ Hac]. by specialize (Hac Eg).
  - apply proj1 in Hac. specialize (Hac eq_refl). apply hasDependencyCycle_ok in Hac. congruence.
Qed.

Definition ex_cyclic : gmap string (list string) :=
  {["a" := ["b"]; "b" := ["c"; "d"]; "d" := ["a"]]}.

Lemma hasDependencyCycle_correct_witness :
  hasDependencyCycle ex_cyclic = true ∧
  hasDependencyCycleIn ex_cyclic ["d"; "b"; "a"] = Some (hasDependencyCycle ex_cyclic).
Proof.
  split; [vm_compute; reflexivity|]. apply hasDependencyCycle_correct.
  intros x. unfold ex_cyclic. rewrite !dom_insert. set_solver.
Defined.

(** C28: the plan of an accepted file.  A pipeline file the validator accepts
    resolves into a plan with at least one node; the nodes are numbered in the
    order of the file and so have distinct names; every dependency, declared by
    name or implied by the place of the step, is a node of the plan; and the
    dependencies have no cycle. *)
Theorem accepted_plan_wellformed other_letter pf :
  Validate other_letter pf = [] →
  let nodes := rp_Plan (Resolve pf) in
  nodes ≠ [] ∧ NoDup (en_NodeID <$> nodes) ∧
  (∀ k node, nodes !! k = Some node → en_NodeID node = FallbackNodeID (Z.of_nat k)) ∧
  (∀ node id, node ∈ nodes → id ∈ en_DependsOnNodeIDs node → id ∈ en_NodeID <$> nodes) ∧
  acyclic (plan_graph nodes) ∧
  rp_Steps (Resolve pf) = en_Step <$> nodes.
Proof.
  intros Hok%Validate_plan_ok nodes. pose proof (plan_names_distinct _ Hok).
  destruct Hok as [Hne Hnum Hclosed Hac]. split_and!; [done|done|intros; by apply Hnum| |done|done].
  - intros node id Hn Hid. destruct (Hclosed node id Hn Hid) as (n' & Hn' & <-).
    by apply list_elem_of_fmap_2.
Qed.

(** A file with a group in the middle and a step that names its dependencies. *)
Definition ex_shell (name run : string) (deps : option (list string)) : StepDef :=
  mkStepDef None name deps "" None run "" None "" ∅ (mkArtifactDef [] []) None.
Definition ex_group (name : string) (steps : list StepDef) : StepDef :=
  mkStepDef (Some (name, steps)) "" None "" None "" "" None "" ∅ (mkArtifactDef [] []) None.
Definition ex_pipeline (steps : list StepDef) : PipelineFile :=
  mkPipelineFile 1 (mkPipelineMeta "ci" "" None None None) ∅ steps (mkArtifactDef [] []).
Definition ex_file : PipelineFile :=
  ex_pipeline [ex_shell "Setup" "make setup" None;
    ex_group "checks" [ex_shell "lint" "make lint" None; ex_shell "test" "make test" None];
    ex_shell "package" "make package" None;
    ex_shell "report" "make report" (Some [" LINT "; "test"])].
Definition no_letters (rune : list Ascii.ascii) : bool := false.

Example ex_file_valid : Validate no_letters ex_file = [].
Proof. vm_compute. reflexivity. Qed.
Example ex_file_deps : en_DependsOnNodeIDs <$> rp_Plan (Resolve ex_file) =
  [[]; ["node-000"]; ["node-000"]; ["node-001"; "node-002"]; ["node-001"; "node-002"]].
Proof. vm_compute. reflexivity. Qed.
Example ex_cycle_rejected : Validate no_letters
  (ex_pipeline [ex_shell "a" "x" (Some ["b"]); ex_shell "b" "x" None]) =
  [mkValidationError "steps" "step dependencies must not contain a cycle"].
Proof. vm_compute. reflexivity. Qed.

Lemma accepted_plan_wellformed_witness :
  NoDup (en_NodeID <$> rp_Plan (Resolve ex_file)) ∧ acyclic (plan_graph (rp_Plan (Resolve ex_file))).
Proof.
  destruct (accepted_plan_wellformed no_letters ex_file eq_refl) as (_ & H1 & _ & _ & H2 & _).
  split; [exact H1|exact H2].
Defined.

(** C15: from the file to the jobs.  For a file the validator accepts, the
    planner of executions ends and gives the build one queued job for each node
    of the plan; the job of a node bears its name and its dependencies, the
    names are distinct, and every dependency of a job is the name of a job. *)
Theorem accepted_pipeline_is_planned other_letter pf json_Marshal sha256_hex p stepID jobID build image :
  Validate other_letter pf = [] → (∀ spec, (json_Marshal spec).2 = None) →
  let nodes := rp_Plan (Resolve pf) in
  let steps := pipelineStepsToDomain stepID (b_ID build) (rp_Steps (Resolve pf)) in
  ∃ jobs, Plan json_Marshal sha256_hex p jobID build steps image = Some (jobs, None) ∧
    j_NodeID <$> jobs = en_NodeID <$> nodes ∧ NoDup (j_NodeID <$> jobs) ∧
    j_DependsOnNodeIDs <$> jobs = en_DependsOnNodeIDs <$> nodes ∧
    (∀ job, job ∈ jobs → j_Status job = ExecutionJobStatusQueued ∧
       ∀ dep, dep ∈ j_DependsOnNodeIDs job → dep ∈ j_NodeID <$> jobs).
Proof.
  intros Hok%Validate_plan_ok Hjson nodes steps.
  destruct (Plan_jobs json_Marshal sha256_hex p jobID build image steps) as (jobs & E & Hids & Hall);
    [by apply plan_nodup|by apply plan_workspace_acyclic|done|].
  pose proof (f_equal length Hids) as Hlen. rewrite !length_fmap, length_seq in Hlen.
  assert (length steps = length nodes) as Hsl by apply plan_steps_length.
  pose proof (plan_jobs_nodes stepID (b_ID build) nodes Hok json_Marshal sha256_hex p jobID build image
    jobs (eq_trans Hlen Hsl) Hall) as Hjobs.
  assert (j_NodeID <$> jobs = en_NodeID <$> nodes) as En.
  { apply list_fmap_Forall2_eq. by eapply list.Forall2_impl; [exact Hjobs|]; intros ? ? (? & _). }
  exists jobs. rewrite En. split_and!; [done|done|by apply plan_names_distinct| |].
  - apply list_fmap_Forall2_eq. by eapply list.Forall2_impl; [exact Hjobs|]; intros ? ? (_ & ? & _).
  - intros job [i Hi]%list_elem_of_lookup.
    destruct (list.Forall2_lookup_l _ _ _ _ _ Hjobs Hi) as (node & Hn & _ & -> & ->). split; [done|].
    intros dep Hd.
    destruct (plan_closed _ Hok node dep) as (n' & Hn' & <-); [by eapply list_elem_of_lookup_2|done|].
    by apply list_elem_of_fmap_2.
Qed.

Lemma accepted_pipeline_is_planned_witness :
  ∃ jobs, Plan ex_marshal (λ s, s) ex_planner (λ i, pretty i) zero_Build
      (pipelineStepsToDomain (λ i, pretty i) "" (rp_Steps (Resolve ex_file))) "go:1"
      = Some (jobs, None) ∧
    j_NodeID <$> jobs = en_NodeID <$> rp_Plan (Resolve ex_file) ∧ NoDup (j_NodeID <$> jobs).
Proof.
  destruct (accepted_pipeline_is_planned no_letters ex_file ex_marshal (λ s, s) ex_planner
    (λ i, pretty i) (λ i, pretty i) zero_Build "go:1" eq_refl (λ _, eq_refl))
    as (jobs & H1 & H2 & H3 & _).
  exists jobs. split; [exact H1|]. split; [exact H2|exact H3].
Defined.

(** C14: a build of an accepted file never gets stuck.  While no step of the
    build failed or was canceled, the update of the build after a step completed
    either succeeds it, exactly when every step succeeded, or lets it run on, and
    then a step runs or a pending step passes the readiness test of the store.  In
    particular the store never fails such a build for want of a step to run. *)
Theorem accepted_pipeline_never_stuck other_letter pf stepID buildID later now build step :
  Validate other_letter pf = [] →
  same_places stepID buildID (rp_Plan (Resolve pf)) later →
  (∀ s, s ∈ later → st_Status s ∈ [BuildStepStatusPending; BuildStepStatusRunning;
                                   BuildStepStatusSuccess]) →
  b_Status build = BuildStatusRunning →
  (allSucceeded later ∧ advanceBuild now build later step = Some (succeededBuild now build)) ∨
  (¬ allSucceeded later ∧ advanceBuild now build later step = Some build ∧
   ∃ s, s ∈ later ∧
     (st_Status s = BuildStepStatusRunning ∨
      st_Status s = BuildStepStatusPending ∧
        isStepRunnable s later (stepStatusByNodeID later) = true)).
Proof.
  intros Hok%Validate_plan_ok Hlater Hstatus Hrun.
  pose proof (plan_not_stuck _ _ _ Hok later Hlater Hstatus) as Hns.
  destruct (advance_cases now build later step Hrun) as [?|[[? _]|(Hna & _ & Hadv)]]; [by left|done|].
  right. split_and!; [done|done|]. apply not_stuck_progress; [| |done|done].
  - intros ->. apply list.Forall2_length in Hlater. rewrite plan_steps_length in Hlater.
    destruct Hok as [Hne _ _ _]. by destruct (rp_Plan (Resolve pf)).
  - intros s Hs. specialize (Hstatus s Hs).
    repeat (apply elem_of_cons in Hstatus as [->|Hstatus]); [done..|by apply elem_of_nil in Hstatus].
Qed.

(** The first step of the example has succeeded, the others wait. *)
Definition ex_later : list BuildStep :=
  imap (λ i s, s <| st_Status := if (i =? 0)%nat then BuildStepStatusSuccess
                                 else BuildStepStatusPending |>)
    (pipelineStepsToDomain (λ i, pretty i) "b1" (rp_Steps (Resolve ex_file))).
Definition ex_running_build : Build := zero_Build <| b_Status := BuildStatusRunning |>.

Lemma accepted_pipeline_never_stuck_witness :
  runnableExists ex_later = true ∧
  (∃ s, s ∈ ex_later ∧
     (st_Status s = BuildStepStatusRunning ∨
      st_Status s = BuildStepStatusPending ∧
        isStepRunnable s ex_later (stepStatusByNodeID ex_later) = true)).
Proof.
  split; [vm_compute; reflexivity|].
  destruct (accepted_pipeline_never_stuck no_letters ex_file (λ i, pretty i) "b1" ex_later 7
    ex_running_build zero_BuildStep eq_refl) as [[[_ Hall] _]|(_ & _ & H)].
  - unfold same_places, ex_later. apply Forall2_same_length_lookup_2.
    + by rewrite length_imap.
    + intros i s s' Hs. rewrite list_lookup_imap. unfold plan_steps in Hs.
      change (en_Step <$> rp_Plan (Resolve ex_file)) with (rp_Steps (Resolve ex_file)) in Hs.
      rewrite Hs. by intros [= <-].
  - intros s [i Hi]%list_elem_of_lookup. unfold ex_later in Hi. rewrite list_lookup_imap in Hi.
    destruct (pipelineStepsToDomain _ _ _ !! i); [|done]. injection Hi as <-. cbn.
    destruct (i =? 0)%nat; [right; right; left|left].
  - reflexivity.
  - assert (ex_later !! 1%nat ≠ None) as H1 by (vm_compute; discriminate).
    destruct (ex_later !! 1%nat) as [s|] eqn:E; [|done].
    assert (st_Status <$> ex_later !! 1%nat = Some BuildStepStatusPending) as E2
      by (vm_compute; reflexivity).
    rewrite E in E2. injection E2 as E2. rewrite (Hall s) in E2; [discriminate|].
    by eapply list_elem_of_lookup_2.
  - exact H.
Defined.
