(* ===== verification/BuildService.v ===== *)
(** The build service over the in-memory stores
    (backend/internal/service/build: service.go, lifecycle.go, read_queue.go,
    creation.go, execution_orchestration.go).

    An operation of the service is a function on the stores it shares with the
    other services; it returns a value or an error, and [None] when the Go code
    does not return.  Identifiers and readings of the clock are drawn from a
    supply, in the order of the code.  Notifications, status reports, logs and
    version tags write to other systems and are left out, as are the calls other
    goroutines make between two accesses of one operation to the stores. *)

From Stdlib Require Import Ascii.
From stdpp Require Import base gmap strings list pretty sorting numbers.
From S2P Require Import Prelude GoLib GoPath Domain Repository BuildRepo ExecJobRepo Planner.
From S2P Require Import Versioning Schema Pipeline Resolve.

Open Scope go_scope.
Open Scope Z_scope.

(** ** Errors (service.go) *)

Definition svc_ErrBuildNotFound : error := Sentinel "build.ErrBuildNotFound".
Definition ErrProjectIDRequired : error := Sentinel "build.ErrProjectIDRequired".
Definition svc_ErrInvalidBuildStatusTransition : error :=
  Sentinel "build.ErrInvalidBuildStatusTransition".
Definition svc_ErrInvalidBuildStepTransition : error :=
  Sentinel "build.ErrInvalidBuildStepTransition".
Definition ErrStaleStepClaim : error := Sentinel "build.ErrStaleStepClaim".
Definition ErrCustomTemplateStepsRequired : error :=
  Sentinel "build.ErrCustomTemplateStepsRequired".
Definition ErrCustomTemplateStepCommandRequired : error :=
  Sentinel "build.ErrCustomTemplateStepCommandRequired".
Definition ErrRepoURLRequired : error := Sentinel "build.ErrRepoURLRequired".
Definition ErrSourceTargetRequired : error := Sentinel "build.ErrSourceTargetRequired".
Definition ErrExecutionJobRepoNotConfigured : error :=
  Sentinel "build.ErrExecutionJobRepoNotConfigured".
Definition svc_ErrExecutionJobNotFound : error := Sentinel "build.ErrExecutionJobNotFound".
Definition ErrExecutionJobNotRetryable : error := Sentinel "build.ErrExecutionJobNotRetryable".
Definition ErrInvalidRerunStepIndex : error := Sentinel "build.ErrInvalidRerunStepIndex".
Definition ErrBuildRerunUnavailable : error := Sentinel "build.ErrBuildRerunUnavailable".
Definition ErrBuildPriorityOutOfRange : error := Sentinel "build.ErrBuildPriorityOutOfRange".

(** ** The stores and the monad of the operations *)

(** The stores of executions jobs and of outputs may be absent. *)
Record Stores := mkStores {
  ss_buildRepo : BuildRepository;
  ss_executionJobRepo : option ExecutionJobRepository;
  ss_executionOutputRepo : option ExecutionJobOutputRepository;
}.

#[export] Instance eta_Stores : Eta Stores := λ s,
  mkStores (ss_buildRepo s) (ss_executionJobRepo s) (ss_executionOutputRepo s).

Definition ServiceM (A : Type) : Type := Stores → option (Stores * (A + error)).

#[export] Instance ServiceM_ret : MRet ServiceM := λ A x s, Some (s, inl x).
#[export] Instance ServiceM_bind : MBind ServiceM := λ A B f m s,
  match m s with
  | None => None
  | Some (s, inr err) => Some (s, inr err)
  | Some (s, inl x) => f x s
  end.

Definition fail {A} (err : error) : ServiceM A := λ s, Some (s, inr err).

(** [fmt.Errorf] with [%w] around the error of an operation. *)
Definition wrapping {A} (message : string) (m : ServiceM A) : ServiceM A := λ s,
  match m s with
  | Some (s, inr err) => Some (s, inr (Wrap message err))
  | result => result
  end.

(** The result of a call on the build store, with its error mapped. *)
Definition on_builds {A} (mapErr : error → error)
    (f : BuildRepository → BuildRepository * A * option error) : ServiceM A := λ s,
  match f (ss_buildRepo s) with
  | (r, _, Some err) => Some (s <| ss_buildRepo := r |>, inr (mapErr err))
  | (r, x, None) => Some (s <| ss_buildRepo := r |>, inl x)
  end.

Definition reads {A} (f : BuildRepository → A * option error)
    : BuildRepository → BuildRepository * A * option error :=
  λ r, (r, (f r).1, (f r).2).

(** Identifiers and times drawn during an operation. *)
Record Supply := mkSupply {
  uuid : nat → string;
  clock : nat → Time;
}.
Definition later_draws (n : nat) (u : Supply) : Supply :=
  mkSupply (λ i, uuid u (n + i)) (λ i, clock u (n + i)).

(** ** Lifecycle (lifecycle.go) *)

Definition mapRepoErr (err : error) : error :=
  if errors_Is err ErrBuildNotFound then svc_ErrBuildNotFound
  else if errors_Is err ErrInvalidBuildStatusTransition then svc_ErrInvalidBuildStatusTransition
  else if errors_Is err ErrInvalidBuildStepTransition then svc_ErrInvalidBuildStepTransition
  else err.

Definition GetBuild (id : string) : ServiceM Build :=
  on_builds mapRepoErr (reads (BuildRepository_GetByID id)).

Definition GetBuildSteps (id : string) : ServiceM (list BuildStep) :=
  on_builds mapRepoErr (reads (BuildRepository_GetStepsByBuildID id)).

Definition persistBuildStatus (now : Time) (id : string) (toStatus : BuildStatus)
    (errorMessage : option string) : ServiceM Build :=
  on_builds (λ err, err) (BuildRepository_UpdateStatus now id toStatus errorMessage).

Definition transitionBuildStatus (now : Time) (id : string) (toStatus : BuildStatus)
    (errorMessage : option string) : ServiceM Build :=
  build ← GetBuild id;
  if negb (CanTransitionBuild (b_Status build) toStatus)
  then fail svc_ErrInvalidBuildStatusTransition
  else persistBuildStatus now id toStatus errorMessage.

(** The errors of the job store are logged; there are none in memory. *)
Definition cancelExecutionJobsForBuild (id reason : string) (canceledAt : Time) : ServiceM () :=
  λ s,
  match ss_executionJobRepo s with
  | None => Some (s, inl ())
  | Some jobs =>
      let '(jobs, _) := CancelJobsForBuild id reason canceledAt jobs in
      Some (s <| ss_executionJobRepo := Some jobs |>, inl ())
  end.

(** The store in memory cancels a build and its steps in one call, and leaves the
    jobs to the service. *)
Definition CancelBuild (now : Time) (id : string) : ServiceM Build :=
  build ← GetBuild id;
  if negb (CanCancelBuild (b_Status build)) then fail svc_ErrInvalidBuildStatusTransition
  else
    let reason := "build canceled by operator request" in
    '(canceled, _) ← on_builds mapRepoErr (BuildRepository_CancelBuild id reason now);
    _ ← cancelExecutionJobsForBuild id reason now;
    mret canceled.

Definition CompleteBuild (now : Time) (id : string) : ServiceM Build :=
  transitionBuildStatus now id BuildStatusSuccess None.

Definition FailBuild (now : Time) (id : string) : ServiceM Build :=
  transitionBuildStatus now id BuildStatusFailed None.

(** ** Claims and leases (read_queue.go) *)

Definition svc_ClaimPendingStep (buildID : string) (stepIndex : Z) (claim : StepClaim)
    : ServiceM (BuildStep * bool) :=
  on_builds mapRepoErr (BuildRepository_ClaimPendingStep buildID stepIndex claim).

Definition svc_ReclaimExpiredStep (buildID : string) (stepIndex : Z) (reclaimBefore : Time)
    (claim : StepClaim) : ServiceM (BuildStep * bool) :=
  on_builds mapRepoErr (BuildRepository_ReclaimExpiredStep buildID stepIndex reclaimBefore claim).

(** The outcome of a renewal: renewed, stale, or refused. *)
Definition svc_RenewStepLease (buildID : string) (stepIndex : Z) (claimToken : string)
    (leaseExpiresAt : Time) : ServiceM BuildStep :=
  '(step, outcome) ← on_builds mapRepoErr
    (BuildRepository_RenewStepLease buildID stepIndex claimToken leaseExpiresAt);
  match outcome with
  | StepCompletionCompleted => mret step
  | StepCompletionStaleClaim => fail ErrStaleStepClaim
  | _ => fail svc_ErrInvalidBuildStepTransition
  end.

(** A call on the job store, when there is one. *)
Definition on_jobs {A} (absent : A)
    (f : ExecutionJobRepository → ExecutionJobRepository * A * option error) : ServiceM A := λ s,
  match ss_executionJobRepo s with
  | None => Some (s, inl absent)
  | Some jobs =>
      match f jobs with
      | (jobs, _, Some err) => Some (s <| ss_executionJobRepo := Some jobs |>, inr err)
      | (jobs, x, None) => Some (s <| ss_executionJobRepo := Some jobs |>, inl x)
      end
  end.

(** Both critical sections of the claim see the same jobs. *)
Definition svc_ClaimNextRunnableJob (claim : StepClaim) : ServiceM (ExecutionJob * bool) := λ s,
  on_jobs (zero_ExecutionJob, false)
    (λ jobs, ClaimNextRunnableJob (Some (ss_buildRepo s)) claim jobs jobs) s.

Definition svc_ClaimJobByStepID (stepID : string) (claim : StepClaim)
    : ServiceM (ExecutionJob * bool) := λ s,
  on_jobs (zero_ExecutionJob, false) (ClaimJobByStepID (Some (ss_buildRepo s)) stepID claim) s.

Definition svc_RenewJobLease (jobID claimToken : string) (leaseExpiresAt : Time)
    : ServiceM (ExecutionJob * bool) :=
  '(job, outcome) ← on_jobs (zero_ExecutionJob, StepCompletionInvalidTransition)
    (RenewJobLease jobID claimToken leaseExpiresAt);
  match outcome with
  | StepCompletionCompleted => mret (job, true)
  | StepCompletionStaleClaim => fail ErrStaleStepClaim
  | _ => mret (job, false)
  end.

(** A read of the job store; without one, the error of the service. *)
Definition svc_GetJobByID (jobID : string) : ServiceM ExecutionJob := λ s,
  match ss_executionJobRepo s with
  | None => Some (s, inr ErrExecutionJobRepoNotConfigured)
  | Some jobs =>
      match GetJobByID jobID jobs with
      | (_, Some err) =>
          Some (s, inr (if errors_Is err ErrExecutionJobNotFound
                        then svc_ErrExecutionJobNotFound else err))
      | (job, None) =>
          Some (s, inl (match GetJobTiming jobID jobs with
                        | (timing, None) => job <| j_Timing := timing |>
                        | (_, Some _) => job
                        end))
      end
  end.

(** ** The steps of a build (creation.go) *)

Record CreateBuildStepInput := mkCreateBuildStepInput {
  ci_Name : string;
  ci_Command : string;
  ci_Args : list string;
  ci_Env : gmap string string;
  ci_WorkingDir : string;
  ci_TimeoutSeconds : Z;
}.

Record QueueBuildCustomStepInput := mkQueueBuildCustomStepInput {
  qi_Name : string;
  qi_Command : string;
}.

Definition defaultStepArgs : list string :=
  ["-c"; "echo coyote-ci worker default step && exit 0"].

Definition normalizeCreateStepInput (i : CreateBuildStepInput) : CreateBuildStepInput :=
  mkCreateBuildStepInput (ci_Name i)
    (if TrimSpace (ci_Command i) == "" then "sh" else ci_Command i)
    (if bool_decide (ci_Args i = []) then defaultStepArgs else ci_Args i)
    (ci_Env i)
    (if TrimSpace (ci_WorkingDir i) == "" then "." else ci_WorkingDir i)
    (if ci_TimeoutSeconds i <? 0 then 0 else ci_TimeoutSeconds i).

Definition stepFromInput (u : Supply) (buildID : string) (idx : nat) (i : CreateBuildStepInput)
    : BuildStep :=
  let normalized := normalizeCreateStepInput i in
  let step := zero_BuildStep <| st_ID := uuid u idx |> <| st_BuildID := buildID |> in
  let step := step <| st_StepIndex := Z.of_nat idx |> in
  let step := step <| st_NodeID := FallbackNodeID (Z.of_nat idx) |> in
  let step := step <| st_Name := ci_Name normalized |> in
  let step := step <| st_Command := ci_Command normalized |> <| st_Args := ci_Args normalized |> in
  let step := step <| st_Env := ci_Env normalized |> in
  let step := step <| st_WorkingDir := ci_WorkingDir normalized |> in
  let step := step <| st_TimeoutSeconds := ci_TimeoutSeconds normalized |> in
  step <| st_Status := BuildStepStatusPending |>.

Definition domainStepsFromInputs (u : Supply) (buildID : string)
    (stepInputs : list CreateBuildStepInput) : list BuildStep :=
  imap (stepFromInput u buildID) stepInputs.

(** An input of the templates: a shell command in the workspace. *)
Definition shellInput (name command : string) : CreateBuildStepInput :=
  mkCreateBuildStepInput name "sh" ["-c"; command] ∅ "." 0.

Definition BuildTemplateDefault : string := "default".
Definition BuildTemplateTest : string := "test".
Definition BuildTemplateBuild : string := "build".
Definition BuildTemplateCustom : string := "custom".
Definition BuildTemplateFail : string := "fail".

Definition buildStepsForTemplate (u : Supply) (buildID template : string) : list BuildStep :=
  let normalizedTemplate := ToLower (TrimSpace template) in
  let stepInputs :=
    if normalizedTemplate == BuildTemplateTest
    then [shellInput "setup" "echo running setup && exit 0";
          shellInput "test" "echo running tests && exit 0";
          shellInput "teardown" "echo running teardown && exit 0"]
    else if normalizedTemplate == BuildTemplateBuild
    then [shellInput "install" "echo installing dependencies && exit 0";
          shellInput "compile" "echo compiling project && exit 0"]
    else if normalizedTemplate == BuildTemplateFail
    then [shellInput "setup" "echo success && exit 0";
          shellInput "verify" "echo failure 1>&2 && exit 1"]
    else [shellInput "default" "echo coyote-ci worker default step && exit 0"] in
  domainStepsFromInputs u buildID stepInputs.

(** The loop over the custom steps; the first step without a command ends it. *)
Fixpoint customStepInputs (idx : nat) (customSteps : list QueueBuildCustomStepInput)
    : list CreateBuildStepInput + error :=
  match customSteps with
  | [] => inl []
  | step :: rest =>
      let command := TrimSpace (qi_Command step) in
      if command == "" then inr ErrCustomTemplateStepCommandRequired
      else
        let name := TrimSpace (qi_Name step) in
        let name := if name == "" then "step-" +:+ Itoa (Z.of_nat idx + 1) else name in
        match customStepInputs (S idx) rest with
        | inr err => inr err
        | inl inputs => inl (shellInput name command :: inputs)
        end
  end.

Definition buildStepsForCustomTemplate (u : Supply) (buildID : string)
    (customSteps : list QueueBuildCustomStepInput) : list BuildStep + error :=
  if bool_decide (length customSteps = 0%nat) then inr ErrCustomTemplateStepsRequired
  else
    match customStepInputs 0 customSteps with
    | inr err => inr err
    | inl inputs => inl (domainStepsFromInputs u buildID inputs)
    end.

(** ** The jobs of a build (execution_orchestration.go) *)

(** What the service is configured with, and the libraries it calls: the YAML
    decoder, the letters outside ASCII, the JSON encoder and SHA-256. *)
Record ServiceConfig := mkServiceConfig {
  cf_yaml_decode : string → PipelineFile + error;
  cf_other_letter : list Ascii.ascii → bool;
  cf_json_Marshal : ExecutionJobSpec → string * option error;
  cf_sha256_hex : string → string;
  cf_defaultExecutionImage : string;
}.

Section service.
  Context (cfg : ServiceConfig).

Definition svc_LoadAndResolve (yaml : string) : ResolvedPipeline + LoadError :=
  LoadAndResolve (cf_yaml_decode cfg) (cf_other_letter cfg) yaml.

Definition resolveExecutionImage (build : Build) : string :=
  let defaultImage := TrimSpace (cf_defaultExecutionImage cfg) in
  match b_PipelineConfigYAML build with
  | None => defaultImage
  | Some yaml =>
      let yamlText := TrimSpace yaml in
      if yamlText == "" then defaultImage
      else match svc_LoadAndResolve yamlText with
           | inr _ => defaultImage
           | inl resolved => if rp_Image resolved != "" then rp_Image resolved else defaultImage
           end
  end.

(** The output declared for one path. *)
Definition declaredOutput (u : Supply) (build : Build) (lastJob : ExecutionJob) (idx : nat)
    (item : string) : option ExecutionJobOutput :=
  let name := TrimSpace item in
  if name == "" then None
  else Some (mkExecutionJobOutput (uuid u idx) (j_ID lastJob) (b_ID build)
         ("output-" +:+ Itoa (Z.of_nat idx + 1)) "artifact" name None None None None
         ExecutionJobOutputStatusDeclared (clock u idx)).

(** The outputs of the build are declared against its last job. *)
Definition declaredOutputsForBuild (u : Supply) (build : Build) (jobs : list ExecutionJob)
    : list ExecutionJobOutput :=
  match b_PipelineConfigYAML build with
  | None => []
  | Some yaml =>
      if TrimSpace yaml == "" then []
      else match svc_LoadAndResolve (TrimSpace yaml) with
           | inr _ => []
           | inl resolved =>
               match list.last jobs with
               | None => []
               | Some lastJob =>
                   omap (λ item, item)
                     (imap (declaredOutput u build lastJob) (ra_Paths (rp_Artifacts resolved)))
               end
           end
  end.

Definition storeOutputs (outputs : list ExecutionJobOutput) : ServiceM () := λ s,
  match ss_executionOutputRepo s with
  | None => Some (s, inl ())
  | Some repo =>
      if bool_decide (length outputs = 0%nat) then Some (s, inl ())
      else Some (s <| ss_executionOutputRepo := Some (CreateMany outputs repo).1 |>, inl ())
  end.

Definition storeJobs (jobs : list ExecutionJob) : ServiceM (list ExecutionJob) :=
  on_jobs [] (λ repo, let '(repo, created) := CreateJobsForBuild jobs repo in (repo, created, None)).

(** The jobs take their identifiers from [u] and the times from the clock of the
    planner. *)
Definition createDurableJobsForBuild (u : Supply) (build : Build) (steps : list BuildStep)
    : ServiceM () := λ s,
  match ss_executionJobRepo s with
  | None => Some (s, inl ())
  | Some _ =>
      if bool_decide (length steps = 0%nat) then Some (s, inl ())
      else
        match Plan (cf_json_Marshal cfg) (cf_sha256_hex cfg) (NewBuildExecutionPlanner (clock u))
                (uuid u) build steps (resolveExecutionImage build) with
        | None => None
        | Some (_, Some err) => Some (s, inr err)
        | Some (jobs, None) =>
            (_ ← storeJobs jobs;
             storeOutputs (declaredOutputsForBuild (later_draws (length jobs) u) build jobs)) s
        end
  end.

(** ** Queueing a build (read_queue.go) *)

Definition queueWithSteps (u : Supply) (now : Time) (id : string) (steps : list BuildStep)
    : ServiceM Build :=
  queuedBuild ← on_builds (λ err, err)
    (BuildRepository_QueueBuild (λ i, uuid u (length steps + i)) now id steps);
  _ ← wrapping ("create execution jobs for build " +:+ b_ID queuedBuild)
    (createDurableJobsForBuild (later_draws (2 * length steps) u) queuedBuild steps);
  mret queuedBuild.

Definition QueueBuildWithTemplateAndCustomSteps (u : Supply) (now : Time) (id template : string)
    (customSteps : list QueueBuildCustomStepInput) : ServiceM Build :=
  build ← GetBuild id;
  if negb (CanTransitionBuild (b_Status build) BuildStatusQueued)
  then fail svc_ErrInvalidBuildStatusTransition
  else
    let normalizedTemplate := ToLower (TrimSpace template) in
    if normalizedTemplate == BuildTemplateCustom then
      match buildStepsForCustomTemplate u id customSteps with
      | inr err => fail err
      | inl steps => queueWithSteps u now id steps
      end
    else queueWithSteps u now id (buildStepsForTemplate u id normalizedTemplate).

Definition QueueBuildWithTemplate (u : Supply) (now : Time) (id template : string)
    : ServiceM Build := QueueBuildWithTemplateAndCustomSteps u now id template [].

Definition QueueBuild (u : Supply) (now : Time) (id : string) : ServiceM Build :=
  QueueBuildWithTemplate u now id "".

End service.
