(* ===== verification/ServiceThms.v ===== *)
(** What the operations of the build service do to the stores together: the
    lemmas on its monad and its reads, and the cancellation, which leaves nothing
    of the build to run. *)

From Stdlib Require Import Ascii.
From stdpp Require Import base gmap strings list relations pretty sorting numbers.
From S2P Require Import Prelude GoLib GoPath Domain NodeNames Repository BuildRepo BuildRepoFacts.
From S2P Require Import LifecycleSpec Lifecycle LifecycleThms Leases.
From S2P Require Import ExecJobRepo ExecJobFacts ExecJobIndex ExecJobThms Planner.
From S2P Require Import Versioning Schema Pipeline Resolve BuildService.

Open Scope go_scope.
Open Scope Z_scope.

(** Stores some sequence of calls leads to. *)
Definition stores_reachable (s : Stores) : Prop :=
  store_reachable (ss_buildRepo s) ∧
  ∀ jobs, ss_executionJobRepo s = Some jobs → jobs_reachable jobs.

(** ** The monad *)

(** A sequence returns a value when each of its parts does. *)
Lemma bind_inl {A B} (m : ServiceM A) (f : A → ServiceM B) s s' y :
  (m ≫= f) s = Some (s', inl y) →
  ∃ s1 x, m s = Some (s1, inl x) ∧ f x s1 = Some (s', inl y).
Proof.
  unfold mbind, ServiceM_bind. destruct (m s) as [[s1 [x|err]]|]; [eauto|done|done].
Qed.

(** ** The calls of the service on the stores *)

Lemma GetBuild_inl id s s' build :
  GetBuild id s = Some (s', inl build) →
  s' = s ∧ br_builds (ss_buildRepo s) !! id = Some build.
Proof.
  unfold GetBuild, on_builds, reads, BuildRepository_GetByID.
  destruct (br_builds (ss_buildRepo s) !! id) as [b|]; simpl; [|done].
  rewrite clone_build_id. intros [= <- <-]. by destruct s.
Qed.

Lemma GetBuildSteps_inl id s s' steps :
  GetBuildSteps id s = Some (s', inl steps) →
  s' = s ∧ steps = sort_slice (λ x y, st_StepIndex x <? st_StepIndex y)
                     (cloneStep <$> stepsOf (ss_buildRepo s) id).
Proof.
  unfold GetBuildSteps, on_builds, reads, BuildRepository_GetStepsByBuildID.
  destruct (br_builds (ss_buildRepo s) !! id); simpl; [|done].
  intros [= <- <-]. by destruct s.
Qed.

Lemma GetBuild_ok id s build :
  br_builds (ss_buildRepo s) !! id = Some build → GetBuild id s = Some (s, inl build).
Proof.
  intros Hb. unfold GetBuild, on_builds, reads, BuildRepository_GetByID. rewrite Hb. simpl.
  rewrite clone_build_id. by destruct s.
Qed.

Lemma GetBuild_missing id s :
  br_builds (ss_buildRepo s) !! id = None → GetBuild id s = Some (s, inr svc_ErrBuildNotFound).
Proof.
  intros Hb. unfold GetBuild, on_builds, reads, BuildRepository_GetByID. rewrite Hb. simpl.
  by destruct s.
Qed.

(** The jobs of a canceled build, as the job store keeps them. *)
Lemma CancelBuild_ok id now s build :
  br_builds (ss_buildRepo s) !! id = Some build → CanCancelBuild (b_Status build) = true →
  let reason := "build canceled by operator request" in
  let canceled := canceledBuild (cancelReason reason) now build in
  CancelBuild now id s = Some
    (mkStores
       (storeBuildLocked (storeSteps (ss_buildRepo s) id
          (cancelSteps (cancelReason reason) now (stepsOf (ss_buildRepo s) id)).1) canceled)
       ((λ jobs, (CancelJobsForBuild id reason now jobs).1) <$> ss_executionJobRepo s)
       (ss_executionOutputRepo s), inl canceled).
Proof.
  intros Hb Hc reason canceled. unfold CancelBuild, mbind, ServiceM_bind.
  rewrite (GetBuild_ok id s build Hb), Hc. simpl.
  unfold on_builds. rewrite (CancelBuild_store id _ now _ build Hb Hc). simpl.
  unfold cancelExecutionJobsForBuild. destruct s as [builds [jobs|] outputs]; simpl; [|done].
  by destruct (CancelJobsForBuild _ _ _ jobs).
Qed.

Lemma CancelBuild_refused id now s :
  match br_builds (ss_buildRepo s) !! id with
  | Some build => CanCancelBuild (b_Status build) = false
  | None => True
  end →
  ∃ err, CancelBuild now id s = Some (s, inr err).
Proof.
  intros Hb. unfold CancelBuild, mbind, ServiceM_bind.
  destruct (br_builds (ss_buildRepo s) !! id) as [build|] eqn:E.
  - rewrite (GetBuild_ok id s build E), Hb. by eexists.
  - rewrite GetBuild_missing by done. by eexists.
Qed.

(** No claim takes a job that has ended. *)
Lemma no_claim_of_ended builds claim jobs id :
  jobs_ok jobs →
  (∀ job, job ∈ jobsInAnyOrder jobs → j_BuildID job = id →
     CanCancelExecutionJob (j_Status job) = false) →
  ∀ job, (ClaimNextRunnableJob (Some (builds : BuildRepository)) claim jobs jobs).1.2 = (job, true) →
    j_BuildID job ≠ id.
Proof.
  intros Hok Hend job. rewrite ClaimNextRunnableJob_first. simpl.
  pose proof (claimFirst_takes (candidateOrders (Some builds) claim jobs) claim
    (sortedCandidates (Some builds) claim jobs) jobs) as H.
  destruct (list_find _ _) as [[k c]|]; [|by rewrite H].
  destruct H as (old & Hj & Hc & ->). simpl. intros [= <-] Hid.
  destruct (claimedJob_key claim old) as ((_ & Hb & _) & _). rewrite Hb in Hid.
  apply claimable_status in Hc as [_ Hs].
  specialize (Hend old (proj2 (elem_of_jobs jobs old) (ex_intro _ _ Hj)) Hid).
  unfold CanCancelExecutionJob in Hend.
  apply orb_false_iff in Hend as [H1 H2]. apply bool_decide_eq_false in H1, H2. tauto.
Qed.

(** C7: canceling a build ends everything of it.  When the service cancels a
    build, the stored build is canceled, no step of it is pending or running, and
    neither is a job of it queued or running, so that no worker is given a job of
    the build any more; no job of another build is changed.  When it does not, the
    stores are as they were. *)
Theorem cancel_ends_everything id now s s' result :
  stores_reachable s → CancelBuild now id s = Some (s', result) →
  match result with
  | inr _ => s' = s
  | inl build =>
      b_Status build = BuildStatusCanceled ∧ br_builds (ss_buildRepo s') !! id = Some build ∧
      (∀ step, step ∈ stepsOf (ss_buildRepo s') id → CanCancelStep (st_Status step) = false) ∧
      ∀ jobs jobs', ss_executionJobRepo s = Some jobs → ss_executionJobRepo s' = Some jobs' →
        (∀ job, job ∈ jobsInAnyOrder jobs' → j_BuildID job = id →
           CanCancelExecutionJob (j_Status job) = false) ∧
        (∀ jobID job, ej_jobsByID jobs !! jobID = Some job → j_BuildID job ≠ id →
           ej_jobsByID jobs' !! jobID = Some job) ∧
        ∀ claim job,
          (ClaimNextRunnableJob (Some (ss_buildRepo s')) claim jobs' jobs').1.2 = (job, true) →
          j_BuildID job ≠ id
  end.
Proof.
  intros [Hr Hjr] Hrun.
  destruct (br_builds (ss_buildRepo s) !! id) as [build|] eqn:Hb.
  2: { destruct (CancelBuild_refused id now s) as [err E]; [by rewrite Hb|]. by simplify_eq. }
  destruct (CanCancelBuild (b_Status build)) eqn:Hc.
  2: { destruct (CancelBuild_refused id now s) as [err E]; [by rewrite Hb|]. by simplify_eq. }
  rewrite (CancelBuild_ok id now s build Hb Hc) in Hrun. injection Hrun as <- <-. cbn.
  set (reason := "build canceled by operator request").
  destruct (canceledBuild_id (cancelReason reason) now build) as [Hid Hst].
  rewrite (ok_ids _ (store_reachable_ok _ Hr) _ _ Hb) in Hid.
  split_and!; [done| | |].
  - rewrite storeBuild_builds, Hid. apply lookup_insert_eq.
  - intros step. rewrite storeBuild_steps, storeSteps_steps, cancelSteps_spec.
    intros (s0 & -> & _)%list_elem_of_fmap.
    destruct (CanCancelStep (st_Status s0)) eqn:E; [|done]. by rewrite cancelStep_status.
  - intros jobs jobs' Hjobs E. rewrite Hjobs in E. injection E as <-.
    pose proof (jobs_reachable_ok _ (Hjr jobs Hjobs)) as Hok.
    pose proof (λ i, CancelJobs_lookup jobs id reason now i Hok) as Hlook.
    assert (∀ job, job ∈ jobsInAnyOrder (CancelJobsForBuild id reason now jobs).1 →
      j_BuildID job = id → CanCancelExecutionJob (j_Status job) = false) as Hend.
    { intros job [i Hi]%elem_of_jobs Hjid. rewrite Hlook in Hi.
      destruct (ej_jobsByID jobs !! i) as [old|]; [|done].
      destruct ((j_BuildID old == id) && CanCancelExecutionJob (j_Status old)) eqn:Eold;
        injection Hi as <-.
      - by destruct (canceledJob_key reason now old) as [_ ->].
      - rewrite Hjid, bool_decide_eq_true_2 in Eold by done. done. }
    split_and!; [done| |].
    + intros i job Hi Hne. by rewrite Hlook, Hi, bool_decide_eq_false_2.
    + intros claim. apply no_claim_of_ended; [|done].
      apply jobs_move_ok with jobs; [apply Hok|by apply CancelJobs_moves].
Qed.

(** ** The example: the running build and its jobs, canceled *)

Definition ex_stores : Stores := mkStores ex_running (Some ex_jobs_claimed) None.

Lemma ex_stores_reachable : stores_reachable ex_stores.
Proof.
  split; [exact ex_running_reachable|]. intros jobs E.
  change (Some ex_jobs_claimed = Some jobs) in E. apply (inj Some) in E as <-.
  exact ex_jobs_claimed_reachable.
Qed.

Definition ex_canceled_stores : Stores := default ex_stores (fst <$> CancelBuild 9 "b1" ex_stores).

Lemma cancel_ends_everything_witness :
  Forall (λ job, j_BuildID job = "b1" → CanCancelExecutionJob (j_Status job) = false)
    (jobsInAnyOrder
       (default NewExecutionJobRepository (ss_executionJobRepo ex_canceled_stores))).
Proof.
  apply list.Forall_forall.
  destruct (CancelBuild 9 "b1" ex_stores) as [[s' [build|err]]|] eqn:E;
    [|vm_compute in E; discriminate E..].
  unfold ex_canceled_stores. rewrite E. cbn [fmap option_fmap option_map default fst id].
  destruct (cancel_ends_everything "b1" 9 ex_stores s' _ ex_stores_reachable E) as (_ & _ & _ & H).
  cbn [default id]. destruct (ss_executionJobRepo s') as [jobs'|] eqn:Hj.
  - exact (proj1 (H _ jobs' eq_refl eq_refl)).
  - intros job Hjob. change (job ∈ []) in Hjob. destruct (not_elem_of_nil job Hjob).
Defined.

Example ex_canceled_jobs :
  (j_Status <$> jobsInAnyOrder
     (default NewExecutionJobRepository (ss_executionJobRepo ex_canceled_stores))) =
  [ExecutionJobStatusCanceled; ExecutionJobStatusCanceled].
Proof. vm_compute. reflexivity. Qed.

(** The write of a status checks nothing: a preparation that fails after the
    build was canceled, and that does not look again, turns the canceled build
    into a failed one.  The table of transitions forbids it. *)
Example preparation_overwrites_cancel :
  (λ '(_, out), match out with inl build => Some (b_Status build) | inr _ => None end) <$>
    persistBuildStatus 11 "b1" BuildStatusFailed (Some "checkout failed") ex_canceled_stores =
    Some (Some BuildStatusFailed) ∧
  CanTransitionBuild BuildStatusCanceled BuildStatusFailed = false.
Proof. split; vm_compute; reflexivity. Qed.

(** Nor does the completion of a build look at its steps. *)
Example complete_with_unfinished_steps :
  (λ '(s, out), (match out with inl build => Some (b_Status build) | inr _ => None end,
                 st_Status <$> stepsOf (ss_buildRepo s) "b1")) <$>
    CompleteBuild 11 "b1" ex_stores =
  Some (Some BuildStatusSuccess, [BuildStepStatusRunning; BuildStepStatusPending]).
Proof. vm_compute. reflexivity. Qed.
