(* ===== verification/Rerun.v ===== *)
(** Retries and reruns: new attempts of jobs and builds
    (backend/internal/service/build/retry_rerun.go). *)

From Stdlib Require Import Ascii.
From stdpp Require Import base gmap strings list pretty sorting numbers.
From S2P Require Import Prelude GoLib GoPath Domain Repository BuildRepo ExecJobRepo Planner.
From S2P Require Import Versioning Schema Pipeline Resolve BuildService.

Open Scope go_scope.
Open Scope Z_scope.

(** ** New attempts of builds, steps and jobs *)

(** The copies the code makes of pointers and of the pull request. *)
Definition cloneStringPtr (value : option string) : option string := value.
Definition cloneBoolPtr (value : option bool) : option bool := value.
Definition clonePullRequestSnapshot (snapshot : option PullRequestSnapshot)
    : option PullRequestSnapshot := snapshot.

Definition optionalStringValue (value : option string) : string :=
  match value with None => "" | Some value => TrimSpace value end.

Definition cloneSourceSpec (spec : option SourceSpec) : option SourceSpec :=
  match spec with
  | None => None
  | Some spec => NewSourceSpec (ss_RepositoryURL spec) (optionalStringValue (ss_Ref spec))
                   (optionalStringValue (ss_CommitSHA spec))
  end.

(** The producer of an artifact trigger is not copied. *)
Definition cloneBuildTrigger (source : BuildTrigger) : BuildTrigger :=
  let normalized := NormalizeBuildTrigger source in
  mkBuildTrigger (tr_Kind normalized) (cloneStringPtr (tr_SCMProvider normalized))
    (cloneStringPtr (tr_EventType normalized)) (cloneStringPtr (tr_RepositoryOwner normalized))
    (cloneStringPtr (tr_RepositoryName normalized)) (cloneStringPtr (tr_RepositoryURL normalized))
    (cloneStringPtr (tr_RawRef normalized)) (cloneStringPtr (tr_Ref normalized))
    (cloneStringPtr (tr_RefType normalized)) (cloneStringPtr (tr_RefName normalized))
    (cloneBoolPtr (tr_Deleted normalized)) (cloneStringPtr (tr_CommitSHA normalized))
    (cloneStringPtr (tr_DeliveryID normalized)) (cloneStringPtr (tr_Actor normalized))
    None None None None None None None None
    (clonePullRequestSnapshot (tr_PullRequest normalized)).

Definition buildAttemptFromSource (buildID : string) (now : Time) (rerunFrom : option Z)
    (source : Build) : Build :=
  let build := zero_Build <| b_ID := buildID |> <| b_ProjectID := b_ProjectID source |> in
  let build := build <| b_JobID := cloneStringPtr (b_JobID source) |> in
  let build := build <| b_Priority := NormalizePriority (b_Priority source) |> in
  let build := build <| b_Status := BuildStatusQueued |> <| b_CreatedAt := now |> in
  let build := build <| b_QueuedAt := Some now |> <| b_CurrentStepIndex := 0 |> in
  let build := build <| b_AttemptNumber := int64_add (maxInt (b_AttemptNumber source) 1) 1 |> in
  let build := build <| b_RerunOfBuildID := Some (b_ID source) |> in
  let build := build <| b_RerunFromStepIdx := rerunFrom |> in
  let build := build <| b_PipelineConfigYAML := cloneStringPtr (b_PipelineConfigYAML source) |> in
  let build := build <| b_PipelineName := cloneStringPtr (b_PipelineName source) |> in
  let build := build <| b_PipelineSource := cloneStringPtr (b_PipelineSource source) |> in
  let build := build <| b_PipelinePath := cloneStringPtr (b_PipelinePath source) |> in
  let build := build <| b_Source := cloneSourceSpec (b_Source source) |> in
  let build := build <| b_RepoURL := cloneStringPtr (b_RepoURL source) |> in
  let build := build <| b_Ref := cloneStringPtr (b_Ref source) |> in
  let build := build <| b_CommitSHA := cloneStringPtr (b_CommitSHA source) |> in
  let build := build <| b_SourceRef := cloneStringPtr (b_SourceRef source) |> in
  let build := build <| b_SourceSHA := cloneStringPtr (b_SourceSHA source) |> in
  let build := build <| b_TriggerType := BuildTriggerTypeRerun |> in
  let build := build <| b_Trigger := cloneBuildTrigger (b_Trigger source) |> in
  let build := build <| b_RequestedImageRef := cloneStringPtr (b_RequestedImageRef source) |> in
  let build := build <| b_ResolvedImageRef := cloneStringPtr (b_ResolvedImageRef source) |> in
  let build := build <| b_ImageSourceKind := b_ImageSourceKind source |> in
  let build := build <| b_ManagedImageID := cloneStringPtr (b_ManagedImageID source) |> in
  let build := build <| b_ManagedImageVersionID := cloneStringPtr (b_ManagedImageVersionID source) |> in
  let build := build <| b_RegisteredRepositoryID := cloneStringPtr (b_RegisteredRepositoryID source) |> in
  let build := build <| b_SCMConnectionID := cloneStringPtr (b_SCMConnectionID source) |> in
  let build := build <| b_ProviderRepositoryID := cloneStringPtr (b_ProviderRepositoryID source) |> in
  NormalizeBuildMetadata build.

Definition cloneStepForAttempt (stepID buildID : string) (sourceStep : BuildStep)
    (newStepIndex : Z) : BuildStep :=
  let step := zero_BuildStep <| st_ID := stepID |> <| st_BuildID := buildID |> in
  let step := step <| st_StepIndex := newStepIndex |> in
  let step := step <| st_NodeID := defaultValue (st_NodeID sourceStep) (FallbackNodeID newStepIndex) |> in
  let step := step <| st_GroupName := cloneStringPtr (st_GroupName sourceStep) |> in
  let step := step <| st_DependsOnNodes := st_DependsOnNodes sourceStep |> in
  let step := step <| st_Name := st_Name sourceStep |> in
  let step := step <| st_ExecutionKind := st_ExecutionKind sourceStep |> in
  let step := step <| st_RemoteImageBuild := cloneRemoteImageBuildSpec (st_RemoteImageBuild sourceStep) |> in
  let step := step <| st_Image := st_Image sourceStep |> in
  let step := step <| st_Command := st_Command sourceStep |> <| st_Args := st_Args sourceStep |> in
  let step := step <| st_Env := cloneEnv (st_Env sourceStep) |> in
  let step := step <| st_WorkingDir := defaultValue (st_WorkingDir sourceStep) "." |> in
  let step := step <| st_TimeoutSeconds := maxInt (st_TimeoutSeconds sourceStep) 0 |> in
  let step := step <| st_ArtifactPaths := st_ArtifactPaths sourceStep |> in
  let step := step <| st_Cache := StepCacheConfig_Clone (st_Cache sourceStep) |> in
  let step := step <| st_Status := BuildStepStatusPending |> in
  let step := step <| st_RequestedImageRef := cloneStringPtr (st_RequestedImageRef sourceStep) |> in
  let step := step <| st_ResolvedImageRef := cloneStringPtr (st_ResolvedImageRef sourceStep) |> in
  let step := step <| st_ImageSourceKind := st_ImageSourceKind sourceStep |> in
  let step := step <| st_ManagedImageID := cloneStringPtr (st_ManagedImageID sourceStep) |> in
  step <| st_ManagedImageVersionID := cloneStringPtr (st_ManagedImageVersionID sourceStep) |>.

Definition lineageRootFromPrior (prior : ExecutionJob) : option string :=
  match j_LineageRootJobID prior with
  | Some root => if root != "" then Some root else Some (j_ID prior)
  | None => Some (j_ID prior)
  end.

Section rerun.
  Context (cfg : ServiceConfig).

Definition cloneJobAttempt (jobID : string) (prior : ExecutionJob) (newBuildID : string)
    (newStep : BuildStep) (attemptNumber : Z) (retryOfJobID lineageRootJobID : option string)
    (now : Time) : ExecutionJob :=
  let job := zero_ExecutionJob <| j_ID := jobID |> <| j_BuildID := newBuildID |> in
  let job := job <| j_StepID := st_ID newStep |> <| j_Name := j_Name prior |> in
  let job := job <| j_StepIndex := st_StepIndex newStep |> in
  let job := job <| j_AttemptNumber := maxInt attemptNumber 1 |> in
  let job := job <| j_RetryOfJobID := retryOfJobID |> in
  let job := job <| j_LineageRootJobID := lineageRootJobID |> in
  let job := job <| j_Status := ExecutionJobStatusQueued |> in
  let job := job <| j_QueueName := j_QueueName prior |> <| j_Image := j_Image prior |> in
  let job := job <| j_WorkingDir := defaultValue (j_WorkingDir prior) "." |> in
  let job := job <| j_Command := j_Command prior |> in
  let job := job <| j_Environment := cloneEnv (j_Environment prior) |> in
  let job := job <| j_TimeoutSeconds := j_TimeoutSeconds prior |> in
  let job := job <| j_PipelineFilePath := j_PipelineFilePath prior |> in
  let job := job <| j_ContextDir := j_ContextDir prior |> <| j_Source := j_Source prior |> in
  let job := job <| j_SpecVersion := j_SpecVersion prior |> in
  let job := job <| j_SpecDigest := j_SpecDigest prior |> in
  let job := job <| j_ResolvedSpecJSON := j_ResolvedSpecJSON prior |> in
  let job := job <| j_CreatedAt := now |> <| j_OutputRefs := [] |> in
  let job := if j_Name job == "" then job <| j_Name := st_Name newStep |> else job in
  match j_SpecDigest job with
  | None => job <| j_SpecDigest := BuildSpecDigest (cf_sha256_hex cfg) (j_ResolvedSpecJSON job) |>
  | Some _ => job
  end.

Definition cloneRetryJobAttempt (jobID : string) (prior : ExecutionJob) (newBuildID : string)
    (newStep : BuildStep) (now : Time) : ExecutionJob :=
  cloneJobAttempt jobID prior newBuildID newStep (int64_add (maxInt (j_AttemptNumber prior) 1) 1)
    (Some (j_ID prior)) (lineageRootFromPrior prior) now.

Definition cloneJobAttemptFromPrior (jobID : string) (prior : ExecutionJob) (newBuildID : string)
    (newStep : BuildStep) (now : Time) : ExecutionJob :=
  cloneJobAttempt jobID prior newBuildID newStep (int64_add (maxInt (j_AttemptNumber prior) 1) 1)
    (Some (j_ID prior)) (lineageRootFromPrior prior) now.

(** The specification of a job built from a step alone. *)
Definition fallbackSpec (build : Build) (step : BuildStep) (image : string) : ExecutionJobSpec :=
  mkExecutionJobSpec 1 "" (TrimSpace image) (defaultValue (st_WorkingDir step) ".")
    (defaultValue (st_Command step) "sh" :: st_Args step) (cloneEnv (st_Env step))
    (maxInt (st_TimeoutSeconds step) 0) (optionalValue (b_PipelinePath build))
    (plannerContextDirFromPipelinePath (b_PipelinePath build))
    (mkSourceSnapshotRef
       (plannerSourceRepositoryURL (b_Source build) (b_RepoURL build))
       (plannerSourceCommitSHA (b_Source build) (b_CommitSHA build))
       (plannerSourceRef (b_Source build)) None None)
    (mkWorkspaceInputPlan "" "" "" false) None.

Definition fallbackRerunJobFromStep (jobID : string) (build : Build) (step : BuildStep)
    (image : string) (now : Time) : ExecutionJob :=
  let spec := fallbackSpec build step image in
  let '(specJSON, _) := ToJSON (cf_json_Marshal cfg) spec in
  let job := zero_ExecutionJob <| j_ID := jobID |> <| j_BuildID := b_ID build |> in
  let job := job <| j_StepID := st_ID step |> <| j_Name := st_Name step |> in
  let job := job <| j_StepIndex := st_StepIndex step |> <| j_AttemptNumber := 1 |> in
  let job := job <| j_LineageRootJobID := Some jobID |> in
  let job := job <| j_Status := ExecutionJobStatusQueued |> <| j_Image := js_Image spec |> in
  let job := job <| j_WorkingDir := js_WorkingDir spec |> <| j_Command := js_Command spec |> in
  let job := job <| j_Environment := js_Environment spec |> in
  let job := job <| j_TimeoutSeconds := Some (st_TimeoutSeconds step) |> in
  let job := job <| j_PipelineFilePath := optionalPointer (js_PipelineFilePath spec) |> in
  let job := job <| j_ContextDir := optionalPointer (js_ContextDir spec) |> in
  let job := job <| j_Source := js_Source spec |> <| j_SpecVersion := 1 |> in
  let job := job <| j_SpecDigest := BuildSpecDigest (cf_sha256_hex cfg) specJSON |> in
  let job := job <| j_ResolvedSpecJSON := specJSON |> in
  job <| j_CreatedAt := now |> <| j_OutputRefs := [] |>.

(** The latest attempt of the job of each step. *)
Definition keepLatestAttempt (out : gmap Z ExecutionJob) (job : ExecutionJob) : gmap Z ExecutionJob :=
  match out !! j_StepIndex job with
  | None => <[j_StepIndex job := job]> out
  | Some current =>
      if (j_AttemptNumber current <? j_AttemptNumber job)
         || ((j_AttemptNumber job =? j_AttemptNumber current)
             && After (j_CreatedAt job) (j_CreatedAt current))
      then <[j_StepIndex job := job]> out else out
  end.

Definition latestJobsByStepIndex (jobs : list ExecutionJob) : gmap Z ExecutionJob :=
  foldl keepLatestAttempt ∅ jobs.

(** ** Declared outputs of the new attempts *)

Definition clonedOutput (u : Supply) (createdJobID newBuildID : string) (i : nat)
    (output : ExecutionJobOutput) : ExecutionJobOutput :=
  mkExecutionJobOutput (uuid u i) createdJobID newBuildID (jo_Name output) (jo_Kind output)
    (jo_DeclaredPath output) None None None None ExecutionJobOutputStatusDeclared (clock u i).

(** [created] pairs the source jobs with the jobs created from them, in the order
    in which Go iterates the map. *)
Definition cloneDeclaredOutputsForAttempts (u : Supply) (created : list (string * string))
    (newBuildID : string) : ServiceM () := λ s,
  match ss_executionOutputRepo s with
  | None => Some (s, inl ())
  | Some repo =>
      let found := created ≫= λ '(sourceJobID, createdJobID),
        (createdJobID,.) <$> ListByJobID sourceJobID repo in
      storeOutputs (imap (λ i '(createdJobID, output), clonedOutput u createdJobID newBuildID i output)
                      found) s
  end.
(** The job store, or the error of a service without one. *)
Definition requireJobs : ServiceM ExecutionJobRepository := λ s,
  match ss_executionJobRepo s with
  | None => Some (s, inr ErrExecutionJobRepoNotConfigured)
  | Some jobs => Some (s, inl jobs)
  end.

(** A job by its identifier, with the error of the service when it is missing. *)
Definition findJob (jobID : string) : ServiceM ExecutionJob :=
  jobs ← requireJobs;
  match GetJobByID jobID jobs with
  | (_, Some err) =>
      fail (if errors_Is err ErrExecutionJobNotFound then svc_ErrExecutionJobNotFound else err)
  | (job, None) => mret job
  end.

(** The identifiers are drawn in the order build, steps, jobs, outputs. *)
Definition createAttempt (u : Supply) (now : Time) (build : Build) (steps : list BuildStep)
    : ServiceM Build :=
  on_builds (λ err, err)
    (BuildRepository_CreateQueuedBuild (uuid u 0) (λ i, uuid u (S (length steps) + i)) now build steps).

Definition RetryJob (u : Supply) (now : Time) (jobID : string) : ServiceM (Build * ExecutionJob) :=
  failedJob ← findJob jobID;
  if j_Status failedJob != ExecutionJobStatusFailed then fail ErrExecutionJobNotRetryable
  else
    sourceBuild ← GetBuild (j_BuildID failedJob);
    sourceSteps ← GetBuildSteps (j_BuildID failedJob);
    match list_find (λ step, st_StepIndex step = j_StepIndex failedJob) sourceSteps with
    | None => fail ErrInvalidRerunStepIndex
    | Some (_, sourceStep) =>
        let newBuild := buildAttemptFromSource (uuid u 0) now (Some (j_StepIndex failedJob)) sourceBuild in
        let newStep := cloneStepForAttempt (uuid u 1) (b_ID newBuild) sourceStep 0 in
        createdBuild ← createAttempt u now newBuild [newStep];
        let newJob := cloneRetryJobAttempt (uuid u 2) failedJob (b_ID createdBuild) newStep now in
        createdJobs ← storeJobs [newJob];
        match createdJobs with
        | [] => fail ErrExecutionJobNotFound
        | createdJob :: _ =>
            _ ← cloneDeclaredOutputsForAttempts (later_draws 3 u)
                  [(j_ID failedJob, j_ID createdJob)] (b_ID createdBuild);
            mret (createdBuild, createdJob)
        end
    end.

(** The steps of an attempt, in the order of the selected steps. *)
Definition attemptSteps (u : Supply) (buildID : string) (selected : list BuildStep)
    : list BuildStep :=
  imap (λ idx sourceStep,
    cloneStepForAttempt (uuid u (S idx)) buildID sourceStep (Z.of_nat idx)) selected.

(** The jobs of a rerun: a new attempt of the latest job of the step, or else a
    job built from the step.  The second component pairs the source jobs with the
    new ones. *)
Definition rerunJob (u : Supply) (now : Time) (sourceBuild createdBuild : Build)
    (latestJobByStep : gmap Z ExecutionJob) (idx : nat) (sourceStep newStep : BuildStep)
    : ExecutionJob * option (string * string) :=
  match latestJobByStep !! st_StepIndex sourceStep with
  | Some sourceJob =>
      let cloned := cloneJobAttemptFromPrior (uuid u idx) sourceJob (b_ID createdBuild) newStep now in
      (cloned, Some (j_ID sourceJob, j_ID cloned))
  | None =>
      (fallbackRerunJobFromStep (uuid u idx) createdBuild newStep
         (resolveExecutionImage cfg sourceBuild) now, None)
  end.

Definition RerunBuildFromStep (u : Supply) (now : Time) (buildID : string) (stepIndex : Z)
    : ServiceM Build :=
  _ ← requireJobs;
  sourceBuild ← GetBuild buildID;
  sourceSteps ← GetBuildSteps buildID;
  let selectedSteps := filter (λ step, stepIndex ≤ st_StepIndex step) sourceSteps in
  if bool_decide (length selectedSteps = 0%nat) then fail ErrInvalidRerunStepIndex
  else
    let selectedSteps := sort_slice (λ x y, st_StepIndex x <? st_StepIndex y) selectedSteps in
    let newBuild := buildAttemptFromSource (uuid u 0) now (Some stepIndex) sourceBuild in
    let newSteps := attemptSteps u (b_ID newBuild) selectedSteps in
    createdBuild ← createAttempt u now newBuild newSteps;
    jobs ← requireJobs;
    let latestJobByStep := latestJobsByStepIndex (GetJobsByBuildID (b_ID sourceBuild) jobs) in
    let u := later_draws (S (length newSteps)) u in
    let planned := imap (λ idx '(sourceStep, newStep),
        rerunJob u now sourceBuild createdBuild latestJobByStep idx sourceStep newStep)
      (zip selectedSteps newSteps) in
    _ ← storeJobs planned.*1;
    _ ← cloneDeclaredOutputsForAttempts (later_draws (length newSteps) u)
          (omap (λ pair, pair) planned.*2) (b_ID createdBuild);
    mret createdBuild.

Definition validateBuildRerunContext (sourceBuild : Build) (sourceSteps : list BuildStep)
    : option error :=
  if (TrimSpace (b_ID sourceBuild) == "") || (TrimSpace (b_ProjectID sourceBuild) == "")
  then Some ErrBuildRerunUnavailable
  else if negb (IsTerminalBuildStatus (b_Status sourceBuild))
  then Some svc_ErrInvalidBuildStatusTransition
  else if bool_decide (length sourceSteps = 0%nat) then Some ErrBuildRerunUnavailable
  else None.

Definition RerunBuild (u : Supply) (now : Time) (buildID : string) : ServiceM Build :=
  sourceBuild ← GetBuild buildID;
  sourceSteps ← GetBuildSteps buildID;
  match validateBuildRerunContext sourceBuild sourceSteps with
  | Some err => fail err
  | None =>
      let sourceSteps := sort_slice (λ x y, st_StepIndex x <? st_StepIndex y) sourceSteps in
      let newBuild := buildAttemptFromSource (uuid u 0) now None sourceBuild in
      let newSteps := attemptSteps u (b_ID newBuild) sourceSteps in
      createdBuild ← createAttempt u now newBuild newSteps;
      _ ← createDurableJobsForBuild cfg (later_draws (S (length newSteps)) u) createdBuild newSteps;
      mret createdBuild
  end.

Definition RerunBuildFromJob (u : Supply) (now : Time) (jobID : string) : ServiceM Build :=
  job ← findJob jobID;
  RerunBuildFromStep u now (j_BuildID job) (j_StepIndex job).

End rerun.
