(* ===== verification/RerunThms.v ===== *)
(** Reruns: a rerun starts a new attempt of the selected steps beside the build
    it repeats, which stays as it was. *)

From Stdlib Require Import Ascii.
From stdpp Require Import base gmap strings list relations pretty sorting numbers.
From S2P Require Import Prelude GoLib GoPath Domain NodeNames Repository BuildRepo BuildRepoFacts.
From S2P Require Import LifecycleSpec Lifecycle LifecycleThms Leases.
From S2P Require Import ExecJobRepo ExecJobFacts ExecJobIndex ExecJobThms Planner.
From S2P Require Import Versioning Schema Pipeline Resolve BuildService Rerun ServiceThms.

Open Scope go_scope.
Open Scope Z_scope.

Implicit Types (s : Stores) (build : Build) (source new step : BuildStep) (job prior : ExecutionJob).

(** ** A build created in the queue *)

Lemma assignBuildNumber_attempt r build :
  let build' := (assignBuildNumberLocked r build).2 in
  b_ID build' = b_ID build ∧ b_RerunOfBuildID build' = b_RerunOfBuildID build ∧
  b_RerunFromStepIdx build' = b_RerunFromStepIdx build ∧
  b_AttemptNumber build' = b_AttemptNumber build.
Proof.
  unfold assignBuildNumberLocked, nextBuildNumberLocked. by repeat case_match; simplify_eq/=.
Qed.

Lemma normalizedBuild_attempt build :
  let build' := normalizedBuild build in
  b_ID build' = b_ID build ∧ b_RerunOfBuildID build' = b_RerunOfBuildID build ∧
  b_RerunFromStepIdx build' = b_RerunFromStepIdx build ∧
  b_AttemptNumber build' = b_AttemptNumber build.
Proof.
  unfold normalizedBuild.
  set (b3 := _ <| b_Trigger := _ |>).
  destruct (NormalizeBuildMetadata_core b3) as (-> & _ & _ & _ & _ & _ & -> & -> & ->). done.
Qed.

(** What the store keeps of a build it is asked to create in the queue. *)
Lemma CreateQueuedBuild_result newID newStepIDs now build steps r r' created :
  b_ID build ≠ "" →
  BuildRepository_CreateQueuedBuild newID newStepIDs now build steps r = (r', created, None) →
  br_builds r' = <[b_ID build := created]> (br_builds r) ∧
  br_buildSteps r' = <[b_ID build := attachSteps newStepIDs (b_ID build) steps]> (br_buildSteps r) ∧
  b_ID created = b_ID build ∧ b_Status created = BuildStatusQueued ∧
  b_RerunOfBuildID created = b_RerunOfBuildID build ∧
  b_RerunFromStepIdx created = b_RerunFromStepIdx build ∧
  b_AttemptNumber created = (if b_AttemptNumber build <=? 0 then 1 else b_AttemptNumber build).
Proof.
  intros Hid. unfold BuildRepository_CreateQueuedBuild, numberedBuild.
  rewrite (bool_decide_eq_false_2 _ Hid).
  set (b0 := if b_AttemptNumber build <=? 0 then _ else build).
  assert (H0 : b_ID b0 = b_ID build ∧ b_RerunOfBuildID b0 = b_RerunOfBuildID build ∧
    b_RerunFromStepIdx b0 = b_RerunFromStepIdx build ∧
    b_AttemptNumber b0 = (if b_AttemptNumber build <=? 0 then 1 else b_AttemptNumber build)).
  { unfold b0. by destruct (_ <=? _). }
  destruct (assignBuildNumber_frame r b0) as [Hb Hs].
  pose proof (assignBuildNumber_attempt r b0) as H1. revert H1.
  destruct (assignBuildNumberLocked r b0) as [r1 b1]. simpl in Hb, Hs |- *. intros H1.
  pose proof (normalizedBuild_attempt b1) as H2.
  destruct (Build_ValidateRepositoryIdentitySnapshot (normalizedBuild b1)); [done|].
  generalize dependent (normalizedBuild b1). cbv zeta. intros b2 H2 [= <- <-].
  rewrite clone_build_id.
  assert (H3 : b_ID (queuedBuild now b2) = b_ID b2 ∧
    b_RerunOfBuildID (queuedBuild now b2) = b_RerunOfBuildID b2 ∧
    b_RerunFromStepIdx (queuedBuild now b2) = b_RerunFromStepIdx b2 ∧
    b_AttemptNumber (queuedBuild now b2) = b_AttemptNumber b2 ∧
    b_Status (queuedBuild now b2) = BuildStatusQueued).
  { unfold queuedBuild. simpl. by destruct (b_QueuedAt b2). }
  simpl. rewrite ?clone_build_id, Hb, Hs.
  destruct H0 as (E0 & ? & ? & ?), H1 as (E1 & ? & ? & ?), H2 as (E2 & ? & ? & ?),
    H3 as (E3 & ? & ? & ? & ?).
  rewrite E3, E2, E1, E0. split_and!; congruence.
Qed.

(** ** Lists in the order of their positions *)

Lemma positions_sorted {A} (f : A → Z) k (l : list A) :
  (∀ i x, l !! i = Some x → f x = k + Z.of_nat i) →
  StronglySorted (not_after (λ x y, f x <? f y)) l.
Proof.
  revert k. induction l as [|x l IH]; intros k H; constructor.
  - apply (IH (k + 1)). intros i y Hy. rewrite (H (S i) y Hy). lia.
  - apply list.Forall_forall. intros y [i Hi]%list_elem_of_lookup. unfold not_after.
    rewrite (H 0%nat x eq_refl), (H (S i) y Hi). apply Z.ltb_ge. lia.
Qed.

Lemma sort_slice_positions {A} (f : A → Z) (l : list A) :
  (∀ i x, l !! i = Some x → f x = Z.of_nat i) → sort_slice (λ x y, f x <? f y) l = l.
Proof.
  intros H. apply sort_slice_id; [apply _| |by apply (positions_sorted f 0)].
  intros x y [i Hi]%list_elem_of_lookup [j Hj]%list_elem_of_lookup.
  rewrite (H i x Hi), (H j y Hj). rewrite !Z.ltb_ge. intros ??.
  assert (i = j) as -> by lia. congruence.
Qed.

(** ** The steps of an attempt *)

Record step_attempt (buildID : string) (i : nat) (source new : BuildStep) : Prop := {
  sa_build : st_BuildID new = buildID;
  sa_index : st_StepIndex new = Z.of_nat i;
  sa_status : st_Status new = BuildStepStatusPending;
  sa_claim : st_ClaimToken new = None ∧ st_StartedAt new = None ∧ st_FinishedAt new = None;
  sa_nodes : st_DependsOnNodes new = st_DependsOnNodes source;
  sa_work :
    (st_Name new, st_ExecutionKind new, st_Image new, st_Command new, st_Args new, st_Env new,
     st_ArtifactPaths new) =
    (st_Name source, st_ExecutionKind source, st_Image source, st_Command source, st_Args source,
     st_Env source, st_ArtifactPaths source);
}.

Lemma clone_step_id step : st_ID (cloneStep step) = st_ID step.
Proof. unfold cloneStep. by destruct (st_Cache step). Qed.

Lemma cloneStep_keeps stepID buildID source i :
  cloneStep (cloneStepForAttempt stepID buildID source (Z.of_nat i)) =
    (cloneStepForAttempt stepID buildID source (Z.of_nat i))
      <| st_Cache := StepCacheConfig_Clone (StepCacheConfig_Clone (st_Cache source)) |>.
Proof.
  unfold cloneStep, cloneStepForAttempt. simpl.
  destruct (st_Cache source); reflexivity.
Qed.

Lemma cloneStep_build stepID buildID source i :
  (cloneStepForAttempt stepID buildID source i) <| st_BuildID := buildID |> =
  cloneStepForAttempt stepID buildID source i.
Proof. unfold cloneStepForAttempt. simpl. reflexivity. Qed.

Lemma attachSteps_attempt u newStepIDs buildID selected :
  (∀ i, uuid u i ≠ "") →
  attachSteps newStepIDs buildID (attemptSteps u buildID selected) =
  cloneStep <$> attemptSteps u buildID selected.
Proof.
  intros Hu. unfold attachSteps. rewrite sort_slice_positions.
  - unfold attemptSteps. apply list_eq. intros i.
    rewrite list_lookup_imap, list_lookup_fmap, !list_lookup_imap.
    destruct (selected !! i) as [source|]; [|done]. cbn [fmap option_fmap option_map].
    change (st_ID (cloneStepForAttempt (uuid u (S i)) buildID source (Z.of_nat i)))
      with (uuid u (S i)).
    rewrite (bool_decide_eq_false_2 _ (Hu (S i))). by rewrite cloneStep_build.
  - intros i x. unfold attemptSteps. rewrite !list_lookup_imap.
    destruct (selected !! i) as [source|]; [|done].
    cbn [fmap option_fmap option_map]. intros E. apply (inj Some) in E as <-.
    rewrite clone_step_index. by destruct (_ == "").
Qed.

Lemma attemptSteps_lookup u buildID selected i source :
  selected !! i = Some source →
  ∃ new, (cloneStep <$> attemptSteps u buildID selected) !! i = Some new ∧
    st_ID new = uuid u (S i) ∧ step_attempt buildID i source new.
Proof.
  intros Hi. unfold attemptSteps. rewrite list_lookup_fmap, list_lookup_imap, Hi. simpl.
  eexists. split; [done|]. rewrite cloneStep_keeps. by split.
Qed.

(** ** Created jobs *)

Lemma addJobs_new jobs r job :
  NoDup (j_ID <$> jobs) → job ∈ jobs → ej_jobsByID (foldl addJob r jobs) !! j_ID job = Some job.
Proof.
  revert r. induction jobs as [|j jobs IH]; intros r Hn Hin; [by apply not_elem_of_nil in Hin|].
  rewrite fmap_cons, list.NoDup_cons in Hn. destruct Hn as [Hnot Hn]. simpl.
  apply elem_of_cons in Hin as [->|Hin]; [|by apply IH].
  apply addJobs_lookup.
  - intros x Hx E. apply Hnot. rewrite <-E. by apply list_elem_of_fmap_2.
  - rewrite addJob_jobs. apply lookup_insert_eq.
Qed.

Lemma CreateJobs_new jobs r job :
  fresh_jobs r jobs → job ∈ jobs →
  ej_jobsByID (CreateJobsForBuild jobs r).1 !! j_ID job = Some (createdJob job).
Proof.
  intros [Hn _] Hin. unfold CreateJobsForBuild, sortBuildAndStepJobsLocked. simpl.
  rewrite sortJobs_jobs. destruct (createdJob_key job) as (<- & _).
  destruct (created_ids jobs) as (Ei & _).
  apply addJobs_new; [by rewrite Ei|by apply list_elem_of_fmap_2].
Qed.

Lemma CreateJobs_keep jobs r id job :
  fresh_jobs r jobs → ej_jobsByID r !! id = Some job →
  ej_jobsByID (CreateJobsForBuild jobs r).1 !! id = Some job.
Proof.
  intros [_ Hf] Hj. unfold CreateJobsForBuild, sortBuildAndStepJobsLocked. simpl.
  rewrite sortJobs_jobs. apply addJobs_lookup; [|done].
  intros x (x0 & -> & Hx)%list_elem_of_fmap E.
  destruct (createdJob_key x0) as (Ei & _). specialize (Hf x0 Hx). congruence.
Qed.

(** The latest attempt at a step among some jobs. *)
Definition latest_attempt (jobs : list ExecutionJob) (i : Z) (prior : ExecutionJob) : Prop :=
  prior ∈ jobs ∧ j_StepIndex prior = i ∧
  ∀ job, job ∈ jobs → j_StepIndex job = i → j_AttemptNumber job ≤ j_AttemptNumber prior.

Lemma keepLatest_ne out job i :
  j_StepIndex job ≠ i → keepLatestAttempt out job !! i = out !! i.
Proof.
  intros Hne. unfold keepLatestAttempt. repeat case_match; by rewrite ?lookup_insert_ne.
Qed.

Lemma keepLatest_eq out job :
  keepLatestAttempt out job !! j_StepIndex job = Some job ∧
    (∀ prior, out !! j_StepIndex job = Some prior → j_AttemptNumber prior ≤ j_AttemptNumber job) ∨
  ∃ prior, keepLatestAttempt out job !! j_StepIndex job = Some prior ∧
    out !! j_StepIndex job = Some prior ∧ j_AttemptNumber job ≤ j_AttemptNumber prior.
Proof.
  unfold keepLatestAttempt. destruct (out !! j_StepIndex job) as [prior|] eqn:Hc.
  - destruct (_ || _) eqn:E.
    + left. rewrite lookup_insert_eq. split; [done|]. intros ? [= <-].
      apply orb_true_iff in E as [E|E]; bool_to_prop; lia.
    + right. exists prior. apply orb_false_iff in E as [E%Z.ltb_ge _]. by rewrite Hc.
  - left. by rewrite lookup_insert_eq.
Qed.

Lemma latestJobs_spec jobs i :
  match latestJobsByStepIndex jobs !! i with
  | Some prior => latest_attempt jobs i prior
  | None => ∀ job, job ∈ jobs → j_StepIndex job ≠ i
  end.
Proof.
  unfold latestJobsByStepIndex, latest_attempt. induction jobs as [|job jobs IH] using rev_ind.
  { simpl. rewrite lookup_empty. intros job H. by apply not_elem_of_nil in H. }
  rewrite foldl_snoc. set (out := foldl keepLatestAttempt ∅ jobs) in *.
  destruct (decide (j_StepIndex job = i)) as [<-|Hne].
  - destruct (keepLatest_eq out job) as [[-> H]|(prior & -> & E & H)].
    + split_and!; [set_solver|done|]. intros x [Hx| ->%list_elem_of_singleton]%elem_of_app Hi; [|lia].
      destruct (out !! j_StepIndex job) as [prior|]; [|by destruct (IH x Hx)].
      destruct IH as (_ & _ & Hmax). specialize (Hmax x Hx Hi). specialize (H prior eq_refl). lia.
    + rewrite E in IH. destruct IH as (? & ? & ?).
      split_and!; [set_solver|done|]. intros x [Hx| ->%list_elem_of_singleton]%elem_of_app Hi; auto.
  - rewrite keepLatest_ne by done. destruct (out !! i) as [prior|].
    + destruct IH as (? & ? & ?). split_and!; [set_solver|done|]. intros x [Hx| ->%list_elem_of_singleton]%elem_of_app Hi; [auto|done].
    + intros x [Hx| ->%list_elem_of_singleton]%elem_of_app; auto.
Qed.

(** ** The jobs of an attempt *)

Section job_attempt.
  Context (jobs : list ExecutionJob) (build : Build) (source new : BuildStep).

(** What a created job is to the job it repeats. *)
Definition follows (job : ExecutionJob) : Prop :=
  (∃ prior, latest_attempt jobs (st_StepIndex source) prior ∧
     j_RetryOfJobID job = Some (j_ID prior) ∧
     j_LineageRootJobID job = lineageRootFromPrior prior ∧
     (j_AttemptNumber prior < max_int64 → j_AttemptNumber job = Z.max 1 (j_AttemptNumber prior) + 1) ∧
     (j_Command job, j_Environment job, j_Image job, j_ResolvedSpecJSON job) =
     (j_Command prior, j_Environment prior, j_Image prior, j_ResolvedSpecJSON prior)) ∨
  (∀ prior, prior ∈ jobs → j_StepIndex prior ≠ st_StepIndex source) ∧
    j_RetryOfJobID job = None ∧ j_LineageRootJobID job = Some (j_ID job) ∧ j_AttemptNumber job = 1.

Record job_attempt (job : ExecutionJob) : Prop := {
  ja_build : j_BuildID job = b_ID build;
  ja_step : j_StepID job = st_ID new;
  ja_index : j_StepIndex job = st_StepIndex new;
  ja_status : j_Status job = ExecutionJobStatusQueued;
  ja_claim : j_ClaimToken job = None;
  ja_nodes : j_DependsOnNodeIDs job = [];
  ja_follows : follows job;
}.
End job_attempt.

Lemma maxInt_max x : maxInt x 1 = Z.max 1 x.
Proof. unfold maxInt. destruct (Z.ltb_spec x 1); lia. Qed.

Lemma next_attempt x : x < max_int64 → int64_add (maxInt x 1) 1 = Z.max 1 x + 1.
Proof.
  intros H. rewrite maxInt_max. apply int64_add_id. unfold is_int64, min_int64, max_int64 in *. lia.
Qed.

Lemma createdJob_keeps job :
  let job' := createdJob job in
  j_BuildID job' = j_BuildID job ∧ j_StepID job' = j_StepID job ∧ j_StepIndex job' = j_StepIndex job ∧
  j_Status job' = j_Status job ∧ j_ClaimToken job' = j_ClaimToken job ∧
  j_DependsOnNodeIDs job' = j_DependsOnNodeIDs job ∧ j_RetryOfJobID job' = j_RetryOfJobID job ∧
  j_LineageRootJobID job' = j_LineageRootJobID job ∧
  j_AttemptNumber job' = Z.max 1 (j_AttemptNumber job) ∧ j_ID job' = j_ID job ∧
  (j_Command job', j_Environment job', j_Image job', j_ResolvedSpecJSON job') =
  (j_Command job, j_Environment job, j_Image job, j_ResolvedSpecJSON job).
Proof.
  unfold createdJob, normalizeAttemptNumber. simpl. 
  destruct (Z.ltb_spec (j_AttemptNumber job) 1), (_ == ""); simpl; split_and!; (done || lia).
Qed.

Lemma cloneJobAttempt_fields cfg jobID prior buildID new attempt retry root now :
  let job := cloneJobAttempt cfg jobID prior buildID new attempt retry root now in
  j_ID job = jobID ∧ j_BuildID job = buildID ∧ j_StepID job = st_ID new ∧
  j_StepIndex job = st_StepIndex new ∧ j_Status job = ExecutionJobStatusQueued ∧
  j_ClaimToken job = None ∧ j_DependsOnNodeIDs job = [] ∧ j_RetryOfJobID job = retry ∧
  j_LineageRootJobID job = root ∧ j_AttemptNumber job = Z.max 1 attempt ∧
  (j_Command job, j_Environment job, j_Image job, j_ResolvedSpecJSON job) =
  (j_Command prior, j_Environment prior, j_Image prior, j_ResolvedSpecJSON prior).
Proof.
  unfold cloneJobAttempt. rewrite maxInt_max. simpl.
  destruct (j_Name prior == ""), (j_SpecDigest prior); simpl; by split_and!.
Qed.

Lemma fallbackJob_fields cfg jobID build new image now :
  let job := fallbackRerunJobFromStep cfg jobID build new image now in
  j_ID job = jobID ∧ j_BuildID job = b_ID build ∧ j_StepID job = st_ID new ∧
  j_StepIndex job = st_StepIndex new ∧ j_Status job = ExecutionJobStatusQueued ∧
  j_ClaimToken job = None ∧ j_DependsOnNodeIDs job = [] ∧ j_RetryOfJobID job = None ∧
  j_LineageRootJobID job = Some jobID ∧ j_AttemptNumber job = 1.
Proof.
  unfold fallbackRerunJobFromStep. destruct (ToJSON _ _) as [json err]. simpl. by split_and!.
Qed.

Lemma rerunJob_attempt cfg u now sourceBuild build jobs idx source new new' :
  st_ID new' = st_ID new → st_StepIndex new' = st_StepIndex new →
  let job := (rerunJob cfg u now sourceBuild build (latestJobsByStepIndex jobs) idx source new).1 in
  j_ID job = uuid u idx ∧ job_attempt jobs build source new' (createdJob job).
Proof.
  intros Hid Hidx. unfold rerunJob. pose proof (latestJobs_spec jobs (st_StepIndex source)) as Hl.
  destruct (latestJobsByStepIndex jobs !! st_StepIndex source) as [prior|]; cbn [fst]; cbv zeta.
  - unfold cloneJobAttemptFromPrior.
    generalize (cloneJobAttempt_fields cfg (uuid u idx) prior (b_ID build) new
      (int64_add (maxInt (j_AttemptNumber prior) 1) 1) (Some (j_ID prior))
      (lineageRootFromPrior prior) now).
    generalize (cloneJobAttempt cfg (uuid u idx) prior (b_ID build) new
      (int64_add (maxInt (j_AttemptNumber prior) 1) 1) (Some (j_ID prior))
      (lineageRootFromPrior prior) now). cbv zeta.
    intros job (Ei & Eb & Es & Ex & Est & Ec & Ed & Er & El & Ea & Ew).
    destruct (createdJob_keeps job) as (Cb & Cs & Cx & Cst & Cc & Cd & Cr & Cl & Ca & Ci & Cw).
    split; [done|]. split; try congruence.
    left. exists prior. split_and!; try congruence.
    intros Hlt%next_attempt. rewrite Ca, Ea, Hlt. lia.
  - generalize (fallbackJob_fields cfg (uuid u idx) build new
      (resolveExecutionImage cfg sourceBuild) now).
    generalize (fallbackRerunJobFromStep cfg (uuid u idx) build new
      (resolveExecutionImage cfg sourceBuild) now). cbv zeta.
    intros job (Ei & Eb & Es & Ex & Est & Ec & Ed & Er & El & Ea).
    destruct (createdJob_keeps job) as (Cb & Cs & Cx & Cst & Cc & Cd & Cr & Cl & Ca & Ci & Cw).
    split; [done|]. split; try congruence.
    right. rewrite Ca, Ea. split_and!; [done|congruence|congruence|done].
Qed.

(** ** The identifiers of a rerun *)

(** The supply gives distinct identifiers that nothing has yet. *)
Record fresh_supply (u : Supply) (s : Stores) : Prop := {
  fs_distinct : ∀ i j, uuid u i = uuid u j → i = j;
  fs_named : ∀ i, uuid u i ≠ "";
  fs_builds : ∀ i, br_builds (ss_buildRepo s) !! uuid u i = None;
  fs_jobs : ∀ jobs i, ss_executionJobRepo s = Some jobs → ej_jobsByID jobs !! uuid u i = None;
}.

Lemma cloneOutputs_keeps u created buildID s s' result :
  cloneDeclaredOutputsForAttempts u created buildID s = Some (s', result) →
  ss_buildRepo s' = ss_buildRepo s ∧ ss_executionJobRepo s' = ss_executionJobRepo s.
Proof.
  unfold cloneDeclaredOutputsForAttempts, storeOutputs.
  destruct (ss_executionOutputRepo s); [|by intros [= <- _]].
  case_bool_decide; by intros [= <- _].
Qed.

(** A build is created in the queue from steps with their own identifiers. *)
Lemma createAttempt_inl u now build steps s s' created :
  b_ID build ≠ "" → createAttempt u now build steps s = Some (s', inl created) →
  s' = s <| ss_buildRepo := ss_buildRepo s' |> ∧
  ∃ ids, BuildRepository_CreateQueuedBuild (uuid u 0) ids now build steps (ss_buildRepo s) =
    (ss_buildRepo s', created, None).
Proof.
  intros Hid. unfold createAttempt, on_builds.
  destruct (BuildRepository_CreateQueuedBuild _ _ _ _ _ _) as [[r b] [err|]] eqn:E; [done|].
  intros [= <- <-]. split; [by destruct s|]. by eexists.
Qed.

Lemma storeJobs_eq jobs s :
  storeJobs jobs s =
  match ss_executionJobRepo s with
  | None => Some (s, inl [])
  | Some repo => Some (s <| ss_executionJobRepo := Some (CreateJobsForBuild jobs repo).1 |>,
                       inl (CreateJobsForBuild jobs repo).2)
  end.
Proof.
  unfold storeJobs, on_jobs. destruct (ss_executionJobRepo s) as [repo|]; [|done].
  by destruct (CreateJobsForBuild jobs repo).
Qed.

(** Jobs with the identifiers drawn from some point on are new. *)
Lemma drawn_jobs_fresh u s jobs k created :
  fresh_supply u s → ss_executionJobRepo s = Some jobs →
  (∀ i job, created !! i = Some job → j_ID job = uuid u (k + i)) →
  fresh_jobs jobs created.
Proof.
  intros [Hinj _ _ Hj] Hs Hid. split.
  - apply NoDup_alt. intros i i' id. rewrite !list_lookup_fmap.
    destruct (created !! i) as [x|] eqn:Ex; [|done].
    destruct (created !! i') as [y|] eqn:Ey; [|done]. simpl.
    rewrite (Hid i x Ex), (Hid i' y Ey). intros <- E. apply (inj Some), Hinj in E. lia.
  - intros job [i Hi]%list_elem_of_lookup. rewrite (Hid i job Hi). by apply Hj.
Qed.

Lemma buildAttempt_fields id now from (source : Build) :
  let build := buildAttemptFromSource id now from source in
  b_ID build = id ∧ b_RerunOfBuildID build = Some (b_ID source) ∧
  b_RerunFromStepIdx build = from ∧
  b_AttemptNumber build = int64_add (maxInt (b_AttemptNumber source) 1) 1.
Proof.
  unfold buildAttemptFromSource. cbv zeta.
  match goal with |- context [NormalizeBuildMetadata ?b] => set (b1 := b) end.
  destruct (NormalizeBuildMetadata_core b1) as (-> & _ & _ & _ & _ & _ & -> & -> & ->).
  by split_and!.
Qed.

(** What a rerun leaves of the build store: the new build and its steps. *)
Record new_attempt (u : Supply) (from : option Z) (source build : Build) (selected steps : list BuildStep)
    (r r' : BuildRepository) : Prop := {
  na_id : b_ID build = uuid u 0;
  na_status : b_Status build = BuildStatusQueued;
  na_rerun_of : b_RerunOfBuildID build = Some (b_ID source);
  na_rerun_from : b_RerunFromStepIdx build = from;
  na_attempt : b_AttemptNumber source < max_int64 →
    b_AttemptNumber build = Z.max 1 (b_AttemptNumber source) + 1;
  na_builds : br_builds r' = <[uuid u 0 := build]> (br_builds r);
  na_steps : br_buildSteps r' = <[uuid u 0 := steps]> (br_buildSteps r);
  na_length : length steps = length selected;
  na_attempts : ∀ i step, selected !! i = Some step →
    ∃ new, steps !! i = Some new ∧ st_ID new = uuid u (S i) ∧ step_attempt (uuid u 0) i step new;
}.

Lemma createAttempt_new u now from (source : Build) selected s s' build :
  fresh_supply u s →
  let newBuild := buildAttemptFromSource (uuid u 0) now from source in
  createAttempt u now newBuild (attemptSteps u (b_ID newBuild) selected) s = Some (s', inl build) →
  s' = s <| ss_buildRepo := ss_buildRepo s' |> ∧
  new_attempt u from source build selected (cloneStep <$> attemptSteps u (uuid u 0) selected)
    (ss_buildRepo s) (ss_buildRepo s').
Proof.
  intros [Hinj Hnamed _ _] newBuild.
  destruct (buildAttempt_fields (uuid u 0) now from source) as (Hid & Hof & Hfrom & Hatt).
  fold newBuild in Hid, Hof, Hfrom, Hatt. rewrite Hid. intros H.
  destruct (createAttempt_inl u now newBuild (attemptSteps u (uuid u 0) selected) s s' build) as [Hs [ids E]];
    [by rewrite Hid|done|]. split; [done|].
  destruct (CreateQueuedBuild_result _ _ _ _ _ _ _ _ ltac:(by rewrite Hid) E)
    as (Hb & Hst & Hi & Hq & Ho & Hf & Ha).
  rewrite Hid in Hb, Hst. rewrite attachSteps_attempt in Hst by done.
  split; try congruence.
  - intros Hlt%next_attempt. rewrite Ha, Hatt, Hlt. destruct (Z.leb_spec (Z.max 1 (b_AttemptNumber source) + 1) 0); lia.
  - unfold attemptSteps. by rewrite length_fmap, length_imap.
  - intros i step. apply attemptSteps_lookup.
Qed.

(** The jobs a rerun creates for the steps it selects. *)
Lemma rerun_jobs cfg u now (source build : Build) repo selected s :
  fresh_supply u s → ss_executionJobRepo s = Some repo →
  let newSteps := attemptSteps u (uuid u 0) selected in
  let planned := imap (λ idx '(step, new),
      rerunJob cfg (later_draws (S (length newSteps)) u) now source build
        (latestJobsByStepIndex (GetJobsByBuildID (b_ID source) repo)) idx step new)
    (zip selected newSteps) in
  let repo' := (CreateJobsForBuild planned.*1 repo).1 in
  (∀ i step new, selected !! i = Some step → (cloneStep <$> newSteps) !! i = Some new →
     ∃ job, ej_jobsByID repo' !! j_ID job = Some job ∧
       job_attempt (GetJobsByBuildID (b_ID source) repo) build step new job) ∧
  ∀ id job, ej_jobsByID repo !! id = Some job → ej_jobsByID repo' !! id = Some job.
Proof.
  intros Hu Hjobs newSteps planned repo'.
  set (latest := latestJobsByStepIndex (GetJobsByBuildID (b_ID source) repo)) in planned.
  set (u' := later_draws (S (length newSteps)) u) in planned.
  assert (Hplan : ∀ i step new, selected !! i = Some step → newSteps !! i = Some new →
    planned.*1 !! i = Some (rerunJob cfg u' now source build latest i step new).1).
  { intros i step new Hstep Hnew. unfold planned.
    by rewrite list_lookup_fmap, list_lookup_imap, lookup_zip_with, Hstep, Hnew. }
  assert (Hfresh : fresh_jobs repo planned.*1).
  { apply (drawn_jobs_fresh u s _ (S (length newSteps))); [done..|]. intros i job.
    unfold planned. rewrite list_lookup_fmap, list_lookup_imap, lookup_zip_with.
    destruct (selected !! i) as [step|]; [|done]. destruct (newSteps !! i) as [new|]; [|done].
    intros E. apply (inj Some) in E as <-. cbn [option_fmap option_map fmap].
    exact (proj1 (rerunJob_attempt cfg u' now source build
      (GetJobsByBuildID (b_ID source) repo) i step new new eq_refl eq_refl)). }
  split; [|intros id job; by apply CreateJobs_keep].
  intros i step new' Hstep. rewrite list_lookup_fmap.
  destruct (newSteps !! i) as [new|] eqn:Hnew; [|done].
  cbn [option_fmap option_map fmap]. intros E. apply (inj Some) in E as <-.
  destruct (rerunJob_attempt cfg u' now source build (GetJobsByBuildID (b_ID source) repo) i step
    new (cloneStep new) (clone_step_id new) (clone_step_index new)) as [Hid Hatt].
  exists (createdJob (rerunJob cfg u' now source build latest i step new).1). split; [|done].
  destruct (createdJob_key (rerunJob cfg u' now source build latest i step new).1) as (-> & _).
  apply CreateJobs_new; [done|]. apply (list_elem_of_lookup_2 _ i). by apply Hplan.
Qed.

(** C16: a rerun from a step starts a new attempt and changes nothing of the
    old one.  The new build is queued and points to the build and the step it
    repeats; it has a pending copy of every step from the given index on, in
    order, and for each a queued job that follows the latest attempt at that step,
    one attempt further and in the same lineage.  Every other build, its steps and
    its jobs are as they were. *)
Theorem rerun_from_step_spec cfg u now buildID stepIndex s s' build :
  stores_reachable s → fresh_supply u s →
  RerunBuildFromStep cfg u now buildID stepIndex s = Some (s', inl build) →
  ∃ (source : Build) jobs jobs' selected steps,
    br_builds (ss_buildRepo s) !! buildID = Some source ∧ b_ID source = buildID ∧
    ss_executionJobRepo s = Some jobs ∧ ss_executionJobRepo s' = Some jobs' ∧
    selected ≡ₚ filter (λ step, stepIndex ≤ st_StepIndex step)
                  (cloneStep <$> stepsOf (ss_buildRepo s) buildID) ∧
    StronglySorted (not_after (λ x y, st_StepIndex x <? st_StepIndex y)) selected ∧
    new_attempt u (Some stepIndex) source build selected steps (ss_buildRepo s) (ss_buildRepo s') ∧
    (∀ i step new, selected !! i = Some step → steps !! i = Some new →
       ∃ job, ej_jobsByID jobs' !! j_ID job = Some job ∧
         job_attempt (GetJobsByBuildID buildID jobs) build step new job) ∧
    ∀ id job, ej_jobsByID jobs !! id = Some job → ej_jobsByID jobs' !! id = Some job.
Proof.
  intros [Hr _] Hu Hrun. unfold RerunBuildFromStep in Hrun.
  apply bind_inl in Hrun as (s1 & jobs & E & Hrun). unfold requireJobs in E.
  destruct (ss_executionJobRepo s) as [repo|] eqn:Hjobs; [|done]. injection E as <- <-.
  apply bind_inl in Hrun as (s1 & source & [-> Hsrc]%GetBuild_inl & Hrun).
  apply bind_inl in Hrun as (s1 & all & [-> ->]%GetBuildSteps_inl & Hrun).
  pose proof (ok_ids _ (store_reachable_ok _ Hr) _ _ Hsrc) as Hid. subst buildID.
  cbv zeta in Hrun.
  set (chosen := filter _ (sort_slice _ _)) in Hrun. case_bool_decide; [done|].
  set (selected := sort_slice _ chosen) in Hrun.
  apply bind_inl in Hrun as (s1 & created & E & Hrun).
  destruct (createAttempt_new _ _ _ _ _ _ _ _ Hu E) as [Hs1 Hnew].
  pose proof (buildAttempt_fields (uuid u 0) now (Some stepIndex) source) as (Hnid & _).
  rewrite Hnid in Hrun. set (newSteps := attemptSteps u (uuid u 0) selected) in *.
  apply bind_inl in Hrun as (s2 & jobs & Ej & Hrun). unfold requireJobs in Ej.
  rewrite Hs1 in Ej. simpl in Ej. rewrite Hjobs in Ej. injection Ej as <- <-. 
  set (planned := imap _ (zip selected newSteps)) in Hrun.
  apply bind_inl in Hrun as (s3 & stored & Es & Hrun).
  apply bind_inl in Hrun as (s4 & [] & Eo & Hrun). injection Hrun as <- <-.
  rewrite storeJobs_eq in Es.
  change (ss_executionJobRepo (s <| ss_buildRepo := ss_buildRepo s1 |>))
    with (ss_executionJobRepo s) in Es. rewrite Hjobs in Es. injection Es as <- _.
  apply cloneOutputs_keeps in Eo as [Eb Ej'].
  change (ss_buildRepo s4 = ss_buildRepo s1) in Eb.
  change (ss_executionJobRepo s4 = Some (CreateJobsForBuild planned.*1 repo).1) in Ej'.
  destruct (rerun_jobs cfg u now source created repo selected s Hu Hjobs) as [Hnewjobs Hkeep].
  exists source, repo, (CreateJobsForBuild planned.*1 repo).1, selected, (cloneStep <$> newSteps).
  rewrite Eb, Ej'. split_and!; try done.
  - unfold selected, chosen. by rewrite !sort_slice_perm.
  - apply sort_slice_sorted, _.
Qed.

(** ** The example: the running build, rerun *)

Definition ex_config : ServiceConfig :=
  mkServiceConfig (λ _, inr (Errorf "no pipelines")) (λ _, false) (λ _, ("{}", None)) (λ text, text) "alpine".

Definition ex_supply : Supply := mkSupply (λ i, "u" +:+ pretty i) (λ i, Z.of_nat i).

Lemma ex_supply_fresh : fresh_supply ex_supply ex_stores.
Proof.
  split.
  - intros i j E. apply (inj (String.append "u")), (inj pretty) in E. done.
  - intros i E. discriminate E.
  - intros i. assert (∃ b, br_builds (ss_buildRepo ex_stores) = {["b1" := b]}) as [b ->].
    { eexists. vm_compute. reflexivity. }
    apply lookup_singleton_ne. intros E. discriminate E.
  - intros jobs i E. change (Some ex_jobs_claimed = Some jobs) in E. apply (inj Some) in E as <-.
    assert (∃ x y, ej_jobsByID ex_jobs_claimed = <["j1" := x]> {["j2" := y]}) as (x & y & ->).
    { do 2 eexists. vm_compute. reflexivity. }
    rewrite lookup_insert_ne, lookup_singleton_ne; [done|intros E; discriminate E..].
Qed.

Definition ex_rerun (i : Z) : option (Stores * (Build + error)) :=
  RerunBuildFromStep ex_config ex_supply 20 "b1" i ex_stores.
Definition ex_rerun_stores (i : Z) : Stores := default ex_stores (fst <$> ex_rerun i).

Lemma ex_rerun_ok :
  ∃ s' build, RerunBuildFromStep ex_config ex_supply 20 "b1" 0 ex_stores = Some (s', inl build).
Proof.
  assert (match RerunBuildFromStep ex_config ex_supply 20 "b1" 0 ex_stores with
          | Some (_, inl _) => True | _ => False end) as H by (vm_compute; exact I).
  destruct (RerunBuildFromStep _ _ _ _ _ _) as [[s' [build|err]]|]; [|destruct H..].
  exists s', build. reflexivity.
Qed.

Lemma rerun_from_step_spec_witness :
  ∃ s' build,
    RerunBuildFromStep ex_config ex_supply 20 "b1" 0 ex_stores = Some (s', inl build) ∧ b_RerunOfBuildID build = Some "b1" ∧
    b_RerunFromStepIdx build = Some 0.
Proof.
  destruct ex_rerun_ok as (s' & build & E). exists s', build. split; [exact E|].
  destruct (rerun_from_step_spec ex_config ex_supply 20 "b1" 0 ex_stores s' build
    ex_stores_reachable ex_supply_fresh E)
    as (source & jobs & jobs' & selected & steps & Hsrc & Hid & _ & _ & _ & _ & Hnew & _).
  destruct Hnew as [_ _ Hof Hfrom _ _ _ _ _]. rewrite Hid in Hof. split; [exact Hof|exact Hfrom].
Defined.

(** The steps of an attempt keep the nodes they depend on, also those that the
    attempt leaves out: such a step can never run. *)
Lemma missing_dependency_blocks step steps dep :
  TrimSpace (st_NodeID step) ≠ "" → dep ∈ st_DependsOnNodes step →
  stepStatusByNodeID steps !! TrimSpace dep = None →
  isStepRunnable step steps (stepStatusByNodeID steps) = false.
Proof.
  intros Hnode Hin Hmiss. unfold isStepRunnable.
  rewrite (bool_decide_eq_false_2 _ Hnode). cbn [negb].
  apply not_true_is_false. intros Hall. rewrite forallb_forall in Hall.
  specialize (Hall dep (proj1 (list_elem_of_In _ _) Hin)). rewrite Hmiss in Hall.
  by apply bool_decide_eq_true in Hall.
Qed.

Example rerun_step_stuck :
  let steps := stepsOf (ss_buildRepo (ex_rerun_stores 1)) "u0" in
  (st_DependsOnNodes <$> steps) = [["a"]] ∧
  (λ step, isStepRunnable step steps (stepStatusByNodeID steps)) <$> steps = [false].
Proof. split; vm_compute; reflexivity. Qed.

(** The jobs of an attempt forget their dependencies: the job of a step is given
    out while the step it depends on is running, and the claim of the step itself
    is then refused. *)
Definition ex_rerun_running : Stores :=
  let s := ex_rerun_stores 0 in
  s <| ss_buildRepo := run_calls [CallUpdateStatus 21 "u0" BuildStatusPreparing None;
                                  CallUpdateStatus 21 "u0" BuildStatusRunning None]
                                 (ss_buildRepo s) |>.

Example rerun_jobs_unordered :
  snd <$> ('(first, claimed) ← svc_ClaimNextRunnableJob (ex_claim "t8" 21 100);
           '(_, step_claimed) ← svc_ClaimPendingStep "u0" 0 (ex_claim "t8" 21 100);
           '(second, claimed') ← svc_ClaimNextRunnableJob (ex_claim "t9" 22 100);
           '(_, step_claimed') ← svc_ClaimPendingStep "u0" 1 (ex_claim "t9" 22 100);
           mret ((j_StepIndex first, claimed, step_claimed),
                 (j_StepIndex second, claimed', step_claimed'))) ex_rerun_running =
  Some (inl ((0, true, true), (1, true, false))).
Proof. vm_compute. reflexivity. Qed.
