(* ===== verification/StepCompletion.v ===== *)
(** The end of a step: what the service does with the result a runner reports
    (backend/internal/service/build/completion.go, with the lines of
    service/execution/log_output.go and the types of runner/runner.go).

    The log sink is an interface: [sink i line] is the error, if any, with which
    it takes the [i]-th line of one call.  The side effects of a terminal build
    (notifications, status reports, releases) go to other systems and are left
    out. *)

From Stdlib Require Import Ascii.
From stdpp Require Import base gmap strings list pretty sorting numbers.
From S2P Require Import Prelude GoLib GoPath Domain Repository BuildRepo ExecJobRepo Planner.
From S2P Require Import Versioning Schema Pipeline Resolve BuildService.

Open Scope go_scope.
Open Scope Z_scope.

(** ** Requests and results of a runner (runner.go) *)

Record CacheMount := mkCacheMount {
  cm_HostPath : string;
  cm_ContainerPath : string;
}.

Record RunStepRequest := mkRunStepRequest {
  rr_BuildID : string;
  rr_JobID : string;
  rr_StepID : string;
  rr_StepIndex : Z;
  rr_StepName : string;
  rr_WorkerID : string;
  rr_ClaimToken : string;
  rr_RequireAtomicExecutionCompletion : bool;
  rr_Image : string;
  rr_Command : string;
  rr_Args : list string;
  rr_Env : gmap string string;
  rr_WorkingDir : string;
  rr_TimeoutSeconds : Z;
  rr_CacheMounts : list CacheMount;
}.

(** Any other status counts as a success. *)
Inductive RunStepStatus :=
  | RunStepStatusSuccess
  | RunStepStatusFailed
  | RunStepStatusOther (s : string).

#[export] Instance RunStepStatus_eq_dec : EqDecision RunStepStatus.
Proof. solve_decision. Defined.

Record RunStepResult := mkRunStepResult {
  rt_Status : RunStepStatus;
  rt_ExitCode : Z;
  rt_TimedOut : bool;
  rt_Stdout : string;
  rt_Stderr : string;
  rt_StartedAt : Time;
  rt_FinishedAt : Time;
}.

Record StepCompletionReport := mkStepCompletionReport {
  sr_Step : BuildStep;
  sr_CompletionOutcome : StepCompletionOutcome;
  sr_SideEffectErr : option error;
}.

Definition invalidReport : StepCompletionReport :=
  mkStepCompletionReport zero_BuildStep StepCompletionInvalidTransition None.

(** ** The lines of an output (log_output.go) *)

(** [regexp.Split] at [\r?\n]: a carriage return before a line feed goes with it. *)
Definition drop_cr (line : list Ascii.ascii) : list Ascii.ascii :=
  match rev line with
  | c :: rest => if Ascii.eqb c "013"%char then rev rest else line
  | [] => line
  end.

Fixpoint drop_crs (lines : list (list Ascii.ascii)) : list (list Ascii.ascii) :=
  match lines with
  | [] => []
  | [last] => [last]
  | line :: rest => drop_cr line :: drop_crs rest
  end.

Definition splitExecutionLogLines (output : string) : list string :=
  let trimmed := TrimSpace output in
  if trimmed == "" then []
  else string_of_list <$> drop_crs (split_bytes "010"%char (string_to_list trimmed)).

Definition LogSink : Type := nat → string → option error.

Fixpoint writeLines (sink : LogSink) (i : nat) (lines : list string) : option error :=
  match lines with
  | [] => None
  | line :: rest =>
      match sink i line with
      | Some err => Some err
      | None => writeLines sink (S i) rest
      end
  end.

Definition WriteExecutionOutputLogs (sink : LogSink) (output : string) : option error :=
  writeLines sink 0 (splitExecutionLogLines output).

(** ** Completion (completion.go) *)

Definition executionFailureKind (result : RunStepResult) : ExecutionFailureKind :=
  if HasPrefix (rt_Stderr result) "workspace revision: " then ExecutionFailureKindWorkspace
  else if rt_TimedOut result then ExecutionFailureKindTimeout
  else ExecutionFailureKindExecution.

Definition stepStatusOf (result : RunStepResult) : BuildStepStatus :=
  if bool_decide (rt_Status result = RunStepStatusFailed)
  then BuildStepStatusFailed else BuildStepStatusSuccess.

(** The error of a failed step: its trimmed standard error, unless blank. *)
Definition stepErrorOf (result : RunStepResult) : option string :=
  if bool_decide (stepStatusOf result = BuildStepStatusFailed) then
    let message := TrimSpace (rt_Stderr result) in
    if message != "" then Some message else None
  else None.

Definition nonEmpty (value : string) : option string :=
  if value != "" then Some value else None.

Definition completionUpdate (result : RunStepResult) : StepUpdate :=
  mkStepUpdate (stepStatusOf result) None (Some (rt_ExitCode result))
    (nonEmpty (rt_Stdout result)) (nonEmpty (rt_Stderr result)) (stepErrorOf result)
    (Some (rt_StartedAt result)) (Some (rt_FinishedAt result)).

Definition completionRequest (request : RunStepRequest) (claimToken : string)
    (result : RunStepResult) : CompleteStepRequest :=
  mkCompleteStepRequest (rr_BuildID request) (rr_StepIndex request) claimToken true
    (completionUpdate result).

Definition failureMessage (result : RunStepResult) : string :=
  match stepErrorOf result with None => "step execution failed" | Some message => message end.

(** The legacy logs of both outputs; the first error ends the writing. *)
Definition withLogs (skip : bool) (stdoutSink stderrSink : LogSink) (result : RunStepResult)
    (report : StepCompletionReport) : StepCompletionReport :=
  let failed err :=
    mkStepCompletionReport (sr_Step report) (sr_CompletionOutcome report) (Some err) in
  if skip then report
  else match WriteExecutionOutputLogs stdoutSink (rt_Stdout result) with
       | Some err => failed err
       | None =>
           match WriteExecutionOutputLogs stderrSink (rt_Stderr result) with
           | Some err => failed err
           | None => report
           end
       end.

(** Step and job in one call of the job store, which shares the build store. *)
Definition completeTogether (noSupport : string)
    (f : option BuildRepository → ExecutionJobRepository →
      (ExecutionJobRepository * option BuildRepository)
      * (CompleteStepResult * ExecutionJob * StepCompletionOutcome) * option error)
    (finish : StepCompletionReport → StepCompletionReport)
    : ServiceM (StepCompletionReport * option error) := λ s,
  match ss_executionJobRepo s with
  | None => Some (s, inl (invalidReport, Some (Errorf noSupport)))
  | Some jobs =>
      let '(jobs, builds, (completed, _, outcome), completeErr) := f (Some (ss_buildRepo s)) jobs in
      let s := s <| ss_executionJobRepo := Some jobs |>
                 <| ss_buildRepo := default (ss_buildRepo s) builds |> in
      match completeErr with
      | Some err => Some (s, inl (invalidReport, Some (mapRepoErr err)))
      | None => Some (s, inl (finish (mkStepCompletionReport (rs_Step completed) outcome None), None))
      end
  end.

(** The job of a completed step, in a call of its own. *)
Definition completeJobOf (request : RunStepRequest) (claimToken : string) (result : RunStepResult)
    : ServiceM (option error) := λ s,
  match ss_executionJobRepo s with
  | None => Some (s, inl None)
  | Some jobs =>
      if TrimSpace (rr_JobID request) == "" then Some (s, inl None)
      else
        let '(jobs, _, jobErr) :=
          if bool_decide (stepStatusOf result = BuildStepStatusSuccess)
          then CompleteJobSuccess (rr_JobID request) claimToken (rt_FinishedAt result)
                 (rt_ExitCode result) [] jobs
          else CompleteJobFailure (rr_JobID request) claimToken (rt_FinishedAt result)
                 (failureMessage result) (executionFailureKind result)
                 (Some (rt_ExitCode result)) [] jobs in
        Some (s <| ss_executionJobRepo := Some jobs |>, inl jobErr)
  end.

Section completion.
  (** Whether workspace revisions are published, the clocks of the two stores and
      the sinks of the two outputs. *)
  Context (workspaceRevisionPublicationEnabled : bool) (now now1 now2 : Time).
  Context (stdoutSink stderrSink : LogSink).

Definition completeSeparately (request : RunStepRequest) (claimToken : string)
    (result : RunStepResult) (skipLegacyLogWrite : bool)
    : ServiceM (StepCompletionReport * option error) := λ s,
  let '(builds, completion, err) :=
    BuildRepository_CompleteStep now (completionRequest request claimToken result) (ss_buildRepo s) in
  let s := s <| ss_buildRepo := builds |> in
  match err with
  | Some err => Some (s, inl (invalidReport, Some (mapRepoErr err)))
  | None =>
      if bool_decide (rs_Outcome completion ≠ StepCompletionCompleted)
      then Some (s, inl (mkStepCompletionReport (rs_Step completion) (rs_Outcome completion) None, None))
      else
        (jobErr ← completeJobOf request claimToken result;
         mret (withLogs skipLegacyLogWrite stdoutSink stderrSink result
                 (mkStepCompletionReport (rs_Step completion) StepCompletionCompleted jobErr), None)) s
  end.

Definition handleStepResult (request : RunStepRequest) (result : RunStepResult)
    (skipLegacyLogWrite : bool) : ServiceM (StepCompletionReport * option error) :=
  let claimToken := TrimSpace (rr_ClaimToken request) in
  let stepRequest := completionRequest request claimToken result in
  let finish := withLogs skipLegacyLogWrite stdoutSink stderrSink result in
  if claimToken == "" then mret (invalidReport, None)
  else if bool_decide (stepStatusOf result = BuildStepStatusSuccess)
       && (TrimSpace (rr_JobID request) != "")
       && (rr_RequireAtomicExecutionCompletion request || workspaceRevisionPublicationEnabled)
  then completeTogether
         "execution job repository does not support atomic successful completion"
         (CompleteSuccessfulStepAndJob now1 now2
            (mkCompleteSuccessfulStepAndJobRequest (rr_JobID request) claimToken
               (rt_FinishedAt result) (rt_ExitCode result) stepRequest)) finish
  else if bool_decide (stepStatusOf result = BuildStepStatusFailed)
       && (TrimSpace (rr_JobID request) != "")
       && rr_RequireAtomicExecutionCompletion request
  then completeTogether
         "execution job repository does not support atomic failed completion"
         (CompleteFailedStepAndJob now1 now2
            (mkCompleteFailedStepAndJobRequest (rr_JobID request) claimToken
               (rt_FinishedAt result) (failureMessage result) (executionFailureKind result)
               (Some (rt_ExitCode result)) stepRequest)) finish
  else completeSeparately request claimToken result skipLegacyLogWrite.

Definition HandleStepResult (request : RunStepRequest) (result : RunStepResult)
    : ServiceM (StepCompletionReport * option error) := handleStepResult request result false.

End completion.
