(* ===== verification/CompletionThms.v ===== *)
(** What the result of a step does to the stores: accepted under the caller's
    claim it ends the step and its job alike, refused it changes nothing. *)

From Stdlib Require Import Ascii.
From stdpp Require Import base gmap strings list pretty sorting numbers.
From S2P Require Import Prelude GoLib GoPath Domain NodeNames Repository BuildRepo BuildRepoFacts.
From S2P Require Import LifecycleSpec Lifecycle LifecycleThms Leases.
From S2P Require Import ExecJobRepo ExecJobFacts ExecJobIndex ExecJobThms Planner.
From S2P Require Import Versioning Schema Pipeline Resolve BuildService ServiceThms StepCompletion.

Open Scope go_scope.
Open Scope Z_scope.

Implicit Types (request : RunStepRequest) (result : RunStepResult) (s : Stores).

(** The job runs under the claim. *)
Definition held_by (token : string) (job : ExecutionJob) : bool :=
  (j_Status job == ExecutionJobStatusRunning) && (j_ClaimToken job == Some token).

(** The job as the result ends it. *)
Definition finishedJob result (job : ExecutionJob) : ExecutionJob :=
  if bool_decide (stepStatusOf result = BuildStepStatusSuccess)
  then completedJob (rt_FinishedAt result) ExecutionJobStatusSuccess None None
         (Some (rt_ExitCode result)) [] job
  else completedJob (rt_FinishedAt result) ExecutionJobStatusFailed (Some (failureMessage result))
         (Some (executionFailureKind result)) (Some (rt_ExitCode result)) [] job.

(** [jobs'] is [jobs] with the job at the id, if it runs under the claim, ended. *)
Definition job_finished result (id token : string) (jobs jobs' : ExecutionJobRepository) : Prop :=
  ∀ i, ej_jobsByID jobs' !! i =
    match ej_jobsByID jobs !! i with
    | Some job => if (i == id) && held_by token job then Some (finishedJob result job) else Some job
    | None => None
    end.

Lemma claimObstacle_held token job :
  match claimObstacle job token with None => held_by token job = true | Some _ => held_by token job = false end.
Proof.
  unfold held_by. destruct (claimObstacle job token) eqn:E.
  - apply not_true_is_false. intros H. bool_to_prop.
    rewrite (proj2 (claimObstacle_None job token)) in E by done. done.
  - apply claimObstacle_None in E as [-> ->]. by rewrite !bool_decide_eq_true_2.
Qed.

Lemma updateClaimedJob_finished result id token jobs :
  job_finished result id token jobs (updateClaimedJob id token (finishedJob result) jobs).1.1.
Proof.
  intros i. unfold updateClaimedJob. destruct (ej_jobsByID jobs !! id) as [job|] eqn:Hj.
  - pose proof (claimObstacle_held token job) as Hc. destruct (claimObstacle job token); simpl.
    + destruct (decide (i = id)) as [->|Hne].
      * by rewrite Hj, Hc, andb_false_r.
      * rewrite bool_decide_eq_false_2 by done. by destruct (_ !! i).
    + destruct (decide (i = id)) as [->|Hne].
      * by rewrite lookup_insert_eq, Hj, Hc, bool_decide_eq_true_2.
      * rewrite lookup_insert_ne by done. rewrite bool_decide_eq_false_2 by done. by destruct (_ !! i).
  - simpl. destruct (decide (i = id)) as [->|Hne]; [by rewrite Hj|].
    rewrite bool_decide_eq_false_2 by done. by destruct (_ !! i).
Qed.

(** The step as the result ends it, and nothing else of the build store but the
    build it belongs to. *)
Definition step_finished request result (token : string) (r r' : BuildRepository) : Prop :=
  ∃ build idx step,
    acceptable r (completionRequest request token result) build idx step ∧
    stepsOf r' (rr_BuildID request) =
      <[idx := completedStep (completionUpdate result) step]> (stepsOf r (rr_BuildID request)) ∧
    ∀ id, id ≠ rr_BuildID request → br_builds r' !! id = br_builds r !! id ∧ stepsOf r' id = stepsOf r id.

Lemma acceptable_finished now request result token r build idx step :
  ids_ok r → acceptable r (completionRequest request token result) build idx step →
  step_finished request result token r
    (BuildRepository_CompleteStep now (completionRequest request token result) r).1.1.
Proof.
  intros Hids H. destruct (completeStep_accepted now _ r build idx step H) as (build' & Ha & E).
  unfold BuildRepository_CompleteStep. rewrite E. cbn [fst].
  destruct H as [Hb Hf Ht Hs Hc Hr].
  assert (Hid : b_ID build' = rr_BuildID request)
    by (by rewrite (advance_id _ _ _ _ _ Ha), moveCursor_id, (Hids _ _ Hb)).
  exists build, idx, step. split; [done|].
  cbn [rq_BuildID completionRequest]. rewrite storeBuild_steps, storeSteps_steps.
  split; [done|]. intros id Hne.
  rewrite storeBuild_builds, storeSteps_builds, storeBuild_steps, storeSteps_steps_ne by done.
  rewrite lookup_insert_ne by congruence. done.
Qed.

(** The contract of a completion: what it leaves of both stores. *)
Definition completion_contract request result (token : string) s
    (out : option (Stores * ((StepCompletionReport * option error) + error))) : Prop :=
  ∃ s' report err, out = Some (s', inl (report, err)) ∧
  if bool_decide (sr_CompletionOutcome report = StepCompletionCompleted)
  then err = None ∧
    step_finished request result token (ss_buildRepo s) (ss_buildRepo s') ∧
    match ss_executionJobRepo s with
    | None => ss_executionJobRepo s' = None
    | Some jobs => ∃ jobs', ss_executionJobRepo s' = Some jobs' ∧
        if TrimSpace (rr_JobID request) == "" then jobs' = jobs
        else job_finished result (rr_JobID request) token jobs jobs'
    end
  else ss_buildRepo s' = ss_buildRepo s ∧ ss_executionJobRepo s' = ss_executionJobRepo s.

Lemma withLogs_outcome skip o e result report :
  sr_CompletionOutcome (withLogs skip o e result report) = sr_CompletionOutcome report.
Proof. unfold withLogs. by repeat case_match. Qed.

Lemma completeSeparately_contract now o e request token result skip s :
  ids_ok (ss_buildRepo s) →
  completion_contract request result token s (completeSeparately now o e request token result skip s).
Proof.
  intros Hids. unfold completion_contract, completeSeparately.
  set (rq := completionRequest request token result).
  destruct (acceptable_or (ss_buildRepo s) rq) as [(build & idx & step & H)|Hno].
  - pose proof (acceptable_finished now request result token _ build idx step Hids H) as Hfin.
    destruct (completeStep_accepted now _ _ build idx step H) as (build' & _ & E). fold rq in Hfin, E.
    unfold BuildRepository_CompleteStep in *. rewrite E in *. cbn [fst] in Hfin.
    cbn [rs_Outcome]. rewrite bool_decide_eq_false_2 by (intros Hn; by destruct Hn).
    unfold mbind, ServiceM_bind, completeJobOf. cbn [ss_executionJobRepo].
    destruct s as [builds [jobs|] outputs]; simpl.
    + destruct (TrimSpace (rr_JobID request) == "") eqn:Eid.
      * do 3 eexists. split; [done|]. rewrite withLogs_outcome. simpl. eauto.
      * pose proof (updateClaimedJob_finished result (rr_JobID request) token jobs) as Hj.
        assert (Hsame : (if bool_decide (stepStatusOf result = BuildStepStatusSuccess)
          then CompleteJobSuccess (rr_JobID request) token (rt_FinishedAt result)
                 (rt_ExitCode result) [] jobs
          else CompleteJobFailure (rr_JobID request) token (rt_FinishedAt result)
                 (failureMessage result) (executionFailureKind result)
                 (Some (rt_ExitCode result)) [] jobs) =
          updateClaimedJob (rr_JobID request) token (finishedJob result) jobs).
        { unfold finishedJob. destruct (bool_decide (stepStatusOf result = BuildStepStatusSuccess)); reflexivity. }
        rewrite Hsame. destruct (updateClaimedJob _ _ _ _) as [[jobs' x] jobErr].
        do 3 eexists. split; [done|]. rewrite withLogs_outcome. simpl. eauto.
    + do 3 eexists. split; [done|]. rewrite withLogs_outcome. simpl. eauto.
  - destruct (completeStep_rejected now rq (ss_buildRepo s) Hno) as [E1 E2].
    unfold BuildRepository_CompleteStep.
    destruct (completeStepLocked now rq (ss_buildRepo s)) as [[b res] err]. simpl in E1, E2. subst b.
    destruct err as [err|].
    + do 3 eexists. split; [done|]. simpl. by destruct s.
    + rewrite bool_decide_eq_true_2 by done. do 3 eexists. split; [done|].
      simpl. rewrite bool_decide_eq_false_2 by done. by destruct s.
Qed.

Lemma live_finished result id token now jobs job :
  ej_jobsByID jobs !! id = Some job → liveClaim now token job = true →
  job_finished result id token jobs
    (jobs <| ej_jobsByID := <[id := finishedJob result job]> (ej_jobsByID jobs) |>).
Proof.
  intros Hj Hl i. unfold liveClaim in Hl. apply andb_true_iff in Hl as [Hl _]. simpl.
  destruct (decide (i = id)) as [->|Hne].
  - rewrite lookup_insert_eq, Hj, bool_decide_eq_true_2 by done. unfold held_by. by rewrite Hl.
  - rewrite lookup_insert_ne, bool_decide_eq_false_2 by done. by destruct (_ !! i).
Qed.

Lemma completeTogether_contract noSupport now1 now2 finish request token result s :
  ids_ok (ss_buildRepo s) → TrimSpace (rr_JobID request) ≠ "" →
  (∀ report, sr_CompletionOutcome (finish report) = sr_CompletionOutcome report) →
  completion_contract request result token s
    (completeTogether noSupport
       (completeStepAndJob now1 now2 (rr_JobID request) token (completionRequest request token result)
          (updateClaimedJob (rr_JobID request) token (finishedJob result))) finish s).
Proof.
  intros Hids Hjob Hfinish. unfold completion_contract, completeTogether.
  set (rq := completionRequest request token result).
  destruct (ss_executionJobRepo s) as [jobs|] eqn:Hjobs.
  2: { do 3 eexists. split; [done|]. simpl. by rewrite Hjobs. }
  pose proof (completeStepAndJob_cases now1 now2 (rr_JobID request) token rq (finishedJob result)
    (ss_buildRepo s) jobs) as Hc. cbv zeta in Hc.
  destruct (completeStepAndJob _ _ _ _ _ _ _ jobs) as [[[jobs' builds] [[res x] outcome]] err].
  cbn [fst snd] in Hc.
  destruct Hc as [(job & build & idx & step & Hj & Hl & Hacc & -> & -> & Hout & -> & ->)|[E Hne]].
  - do 3 eexists. split; [done|]. rewrite Hfinish. cbn [sr_CompletionOutcome].
    rewrite bool_decide_eq_true_2 by done. split; [done|]. split.
    + by apply (acceptable_finished _ _ _ _ _ build idx step).
    + eexists. split; [done|]. rewrite bool_decide_eq_false_2 by done. by apply (live_finished _ _ _ now1).
  - injection E as -> ->. destruct err as [err|].
    + do 3 eexists. split; [done|]. simpl. by rewrite ?Hjobs.
    + do 3 eexists. split; [done|]. rewrite Hfinish. cbn [sr_CompletionOutcome].
      rewrite bool_decide_eq_false_2 by done. by rewrite ?Hjobs.
Qed.

(** C6: the end of a step is all or nothing.  Whatever a runner reports, the
    service answers.  When it answers that the step is completed, the step was
    running under the caller's claim in a running build; it now has the reported
    result, a job that ran under the same claim has ended with it, and no other
    step or job has changed.  Any other answer (a stale claim, a step that has
    ended, an error) leaves both stores as they were. *)
Theorem handleStepResult_all_or_nothing published now now1 now2 stdoutSink stderrSink
    request result skip s :
  stores_reachable s →
  completion_contract request result (TrimSpace (rr_ClaimToken request)) s
    (handleStepResult published now now1 now2 stdoutSink stderrSink request result skip s).
Proof.
  intros [Hr _]. pose proof (ok_ids _ (store_reachable_ok _ Hr)) as Hids. unfold handleStepResult.
  case_bool_decide as Htok.
  { do 3 eexists. split; [done|]. done. }
  assert (Hlogs : ∀ report, sr_CompletionOutcome (withLogs skip stdoutSink stderrSink result report) =
    sr_CompletionOutcome report) by (intros; apply withLogs_outcome).
  destruct (bool_decide (stepStatusOf result = BuildStepStatusSuccess)) eqn:Hst; simpl.
  - destruct (negb _ && _) eqn:Hatomic.
    + apply andb_true_iff in Hatomic as [Hjob%negb_true_iff%bool_decide_eq_false _].
      pose proof (completeTogether_contract
        "execution job repository does not support atomic successful completion" now1 now2 _
        request (TrimSpace (rr_ClaimToken request)) result s Hids Hjob Hlogs) as H.
      unfold finishedJob in H. rewrite Hst in H. exact H.
    + rewrite bool_decide_eq_false_2; [by apply completeSeparately_contract|].
      apply bool_decide_eq_true in Hst. congruence.
  - destruct (bool_decide _ && _ && _) eqn:Hatomic; [|by apply completeSeparately_contract].
    apply andb_true_iff in Hatomic as [Hatomic _].
    apply andb_true_iff in Hatomic as [_ Hjob%negb_true_iff%bool_decide_eq_false].
    pose proof (completeTogether_contract
      "execution job repository does not support atomic failed completion" now1 now2 _
      request (TrimSpace (rr_ClaimToken request)) result s Hids Hjob Hlogs) as H.
    unfold finishedJob in H. rewrite Hst in H. exact H.
Qed.

(** ** The example: the claimed step ends, and a stale report comes late *)

Definition ex_report_request (token : string) : RunStepRequest :=
  mkRunStepRequest "b1" "j1" "s1" 0 "a" "w" token false "" "sh" [] ∅ "." 0 [].
Definition ex_result (status : RunStepStatus) : RunStepResult :=
  mkRunStepResult status 0 false "ok" "" 4 5.
Definition ex_sink : LogSink := λ _ _, None.

Definition ex_handle (token : string) (status : RunStepStatus) : option Stores :=
  fst <$> handleStepResult false 5 5 5 ex_sink ex_sink (ex_report_request token) (ex_result status)
            false ex_stores.

Lemma handleStepResult_all_or_nothing_witness :
  completion_contract (ex_report_request " t1 ") (ex_result RunStepStatusFailed) "t1" ex_stores
    (handleStepResult false 5 5 5 ex_sink ex_sink (ex_report_request " t1 ")
       (ex_result RunStepStatusFailed) true ex_stores).
Proof.
  exact (handleStepResult_all_or_nothing false 5 5 5 ex_sink ex_sink (ex_report_request " t1 ")
    (ex_result RunStepStatusFailed) true ex_stores ex_stores_reachable).
Defined.

Example ex_handled :
  (λ s, (st_Status <$> stepsOf (ss_buildRepo s) "b1",
         j_Status <$> jobsInAnyOrder (default NewExecutionJobRepository (ss_executionJobRepo s))))
    <$> ex_handle "t1" RunStepStatusSuccess =
  Some ([BuildStepStatusSuccess; BuildStepStatusPending],
        [ExecutionJobStatusSuccess; ExecutionJobStatusQueued]).
Proof. vm_compute. reflexivity. Qed.

Example ex_stale : ex_handle "t0" RunStepStatusSuccess = Some ex_stores.
Proof. vm_compute. reflexivity. Qed.

(** In the atomic mode the output of a refused report is written to the logs: a
    sink that fails is heard of. *)
Example ex_stale_logs :
  (λ '(_, out), match out with
     | inl (report, _) => Some (sr_CompletionOutcome report, sr_SideEffectErr report)
     | inr _ => None
     end) <$>
  handleStepResult true 5 5 5 (λ _ _, Some (Errorf "sink")) ex_sink (ex_report_request "t0")
    (ex_result RunStepStatusSuccess) false ex_stores =
  Some (Some (StepCompletionStaleClaim, Some (Errorf "sink"))).
Proof. vm_compute. reflexivity. Qed.
