(* ===== verification/Worker.v ===== *)
(** The execution worker: which work it takes, and how it keeps its claims
    (backend/internal/service/worker: service.go, claim.go, lease.go,
    helpers.go).

    An operation reads the clock once.  The counters of the recovery statistics
    and the logs are left out.  A nil map is the empty map. *)

From Stdlib Require Import Ascii.
From stdpp Require Import base gmap strings list pretty sorting numbers.
From S2P Require Import Prelude GoLib GoPath Domain Repository BuildRepo ExecJobRepo Planner.
From S2P Require Import Versioning Schema Pipeline Resolve BuildService.

Open Scope go_scope.
Open Scope Z_scope.

(** ** The worker (service.go) *)

(** Durations in nanoseconds. *)
Definition Millisecond : Z := 10 ^ 6.
Definition Second : Z := 10 ^ 9.

Record ExecutionWorkerService := mkExecutionWorkerService {
  w_workerID : string;
  w_leaseDuration : Z;
  w_heartbeatWriteInterval : Z;
  w_lastHeartbeatWriteAt : Z;
}.

#[export] Instance eta_ExecutionWorkerService : Eta ExecutionWorkerService := λ w,
  mkExecutionWorkerService (w_workerID w) (w_leaseDuration w) (w_heartbeatWriteInterval w)
    (w_lastHeartbeatWriteAt w).

Definition NewExecutionWorkerServiceWithLease (newID workerID : string) (leaseDuration : Z)
    : ExecutionWorkerService :=
  let resolvedWorkerID := TrimSpace workerID in
  let resolvedWorkerID := if resolvedWorkerID == "" then newID else resolvedWorkerID in
  let leaseDuration := if leaseDuration <=? 0 then 45 * Second else leaseDuration in
  mkExecutionWorkerService resolvedWorkerID leaseDuration (5 * Second) 0.

Definition NewExecutionWorkerService (newID : string) : ExecutionWorkerService :=
  NewExecutionWorkerServiceWithLease newID "" (45 * Second).

Record WorkerRunnableStep := mkWorkerRunnableStep {
  wr_BuildID : string;
  wr_JobID : string;
  wr_StepID : string;
  wr_StepIndex : Z;
  wr_StepName : string;
  wr_ExecutionKind : ExecutionKind;
  wr_RemoteImageBuild : option RemoteImageBuildSpec;
  wr_WorkerID : string;
  wr_ClaimToken : string;
  wr_NodeID : string;
  wr_AttemptNumber : Z;
  wr_Image : string;
  wr_Command : string;
  wr_Args : list string;
  wr_Env : gmap string string;
  wr_WorkingDir : string;
  wr_TimeoutSeconds : Z;
  wr_Cache : option StepCacheConfig;
}.

#[export] Instance eta_WorkerRunnableStep : Eta WorkerRunnableStep := λ r,
  mkWorkerRunnableStep (wr_BuildID r) (wr_JobID r) (wr_StepID r) (wr_StepIndex r) (wr_StepName r)
    (wr_ExecutionKind r) (wr_RemoteImageBuild r) (wr_WorkerID r) (wr_ClaimToken r) (wr_NodeID r)
    (wr_AttemptNumber r) (wr_Image r) (wr_Command r) (wr_Args r) (wr_Env r) (wr_WorkingDir r)
    (wr_TimeoutSeconds r) (wr_Cache r).

(** ** Choices and defaults (helpers.go) *)

Definition workerMaxInt (value minimum : Z) : Z := if value <? minimum then minimum else value.

Definition workerTimeoutFromJob (job : ExecutionJob) : Z :=
  match j_TimeoutSeconds job with None => 0 | Some seconds => workerMaxInt seconds 0 end.

(** The loop over the steps, with its flag. *)
Fixpoint firstRunnable (allPreviousSucceeded : bool) (steps : list BuildStep) : option BuildStep :=
  match steps with
  | [] => None
  | step :: rest =>
      match st_Status step with
      | BuildStepStatusSuccess => firstRunnable allPreviousSucceeded rest
      | BuildStepStatusPending => if negb allPreviousSucceeded then None else Some step
      | _ => firstRunnable false rest
      end
  end.

Definition workerFirstRunnableStep (steps : list BuildStep) : option BuildStep :=
  firstRunnable true steps.

Fixpoint workerFirstReclaimableRunningStep (steps : list BuildStep) (now : Time)
    : option BuildStep :=
  match steps with
  | [] => None
  | step :: rest =>
      if st_Status step == BuildStepStatusSuccess then workerFirstReclaimableRunningStep rest now
      else if st_Status step != BuildStepStatusRunning then None
      else match st_LeaseExpiresAt step with
           | None => None
           | Some lease => if After lease now then None else Some step
           end
  end.

Definition workerDefaultString (value fallback : string) : string :=
  if value == "" then fallback else value.

Definition workerDefaultArgs (args : list string) : list string :=
  if bool_decide (length args = 0%nat)
  then ["-c"; "echo coyote-ci worker default step && exit 0"] else args.

Definition workerDefaultEnv (env : gmap string string) : gmap string string := env.

Definition workerCommandFromJob (job : ExecutionJob) : string :=
  match j_Command job with
  | command :: _ => workerDefaultString command "sh"
  | [] => "sh"
  end.

Definition workerArgsFromJob (job : ExecutionJob) : list string :=
  match j_Command job with
  | _ :: ((_ :: _) as args) => args
  | _ => workerDefaultArgs []
  end.

Definition workerEnvFromJob (job : ExecutionJob) : gmap string string := j_Environment job.

(** ** Heartbeats (lease.go) *)

Definition heartbeatInterval (w : ExecutionWorkerService) : Z :=
  let interval := Z.quot (w_leaseDuration w) 3 in
  if interval <=? 0 then Second else interval.

(** FNV-1a on 32 bits (hash/fnv). *)
Definition fnv_offset32 : Z := 2166136261.
Definition fnv_prime32 : Z := 16777619.
Definition fnv32a_byte (hash : Z) (c : Ascii.ascii) : Z :=
  (Z.lxor hash (Z.of_N (byte_of c)) * fnv_prime32) `mod` 2 ^ 32.
Definition fnv32a_write (hash : Z) (s : string) : Z := foldl fnv32a_byte hash (string_to_list s).

(** The base interval, moved by at most a fifth according to the hash of worker
    and claim, and kept between a tenth of a second and nine tenths of the lease. *)
Definition heartbeatIntervalForStep (w : ExecutionWorkerService) (step : WorkerRunnableStep) : Z :=
  let base := heartbeatInterval w in
  let window := Z.quot base 5 in
  if window <=? 0 then base
  else
    let h := fnv32a_write (fnv32a_write fnv_offset32 (wr_WorkerID step)) (wr_ClaimToken step) in
    let spread := int64_add (int64_mul 2 window) 1 in
    let offset := int64_sub (Z.rem h spread) window in
    let interval := int64_add base offset in
    let minInterval := 100 * Millisecond in
    let interval := if interval <? minInterval then minInterval else interval in
    let maxInterval := int64_sub (w_leaseDuration w) (Z.quot (w_leaseDuration w) 10) in
    if (minInterval <? maxInterval) && (maxInterval <? interval) then maxInterval else interval.

(** A write of the heartbeat is due, and the time it is reserved at. *)
Definition reserveHeartbeatWrite (now : Time) (force : bool) (w : ExecutionWorkerService)
    : ExecutionWorkerService * bool :=
  if force || (w_heartbeatWriteInterval w <=? 0)
  then (w <| w_lastHeartbeatWriteAt := now |>, true)
  else
    let last := w_lastHeartbeatWriteAt w in
    if (negb (last =? 0)) && (int64_sub now last <? w_heartbeatWriteInterval w) then (w, false)
    else (w <| w_lastHeartbeatWriteAt := now |>, true).

Definition newStepClaim (token : string) (now : Time) (w : ExecutionWorkerService) : StepClaim :=
  mkStepClaim (w_workerID w) token now (now + w_leaseDuration w).

(** The stale refusal of an operation is an answer, not an error. *)
Definition unlessStale (m : ServiceM bool) : ServiceM bool := λ s,
  match m s with
  | Some (s, inr err) => if errors_Is err ErrStaleStepClaim then Some (s, inl false) else Some (s, inr err)
  | out => out
  end.

(** The lease of the job is renewed before the lease of its step. *)
Definition renewStepLease (now : Time) (w : ExecutionWorkerService) (step : WorkerRunnableStep)
    : ServiceM bool :=
  let leaseExpiresAt := now + w_leaseDuration w in
  renewed ←
    (if wr_JobID step != "" then
       unlessStale ('(_, renewed) ← svc_RenewJobLease (wr_JobID step) (wr_ClaimToken step) leaseExpiresAt;
                    mret renewed)
     else mret true);
  if negb renewed then mret false
  else unlessStale (_ ← svc_RenewStepLease (wr_BuildID step) (wr_StepIndex step)
                          (wr_ClaimToken step) leaseExpiresAt;
                    mret true).

(** ** Claims (claim.go) *)

(** context_builder.go. *)
Definition ApplicationVersionEnvironmentKey : string := "COYOTE_APPLICATION_VERSION".

Definition environmentFromDurableBuild (buildID : string) (environment : gmap string string)
    : ServiceM (gmap string string) :=
  build ← GetBuild buildID;
  match b_ApplicationVersion build with
  | None => mret environment
  | Some version => mret (<[ApplicationVersionEnvironmentKey := version]> environment)
  end.

(** The step of a claimed job is claimed under the same token, whether it is
    pending or its lease has run out. *)
Definition mirrorJobClaimToStep (job : ExecutionJob) (claim : StepClaim) : ServiceM BuildStep :=
  if j_StepID job == "" then mret zero_BuildStep
  else
    '(claimedStep, claimed) ← svc_ClaimPendingStep (j_BuildID job) (j_StepIndex job) claim;
    if (claimed : bool) then mret claimedStep
    else
      '(reclaimedStep, reclaimed) ← svc_ReclaimExpiredStep (j_BuildID job) (j_StepIndex job)
        (c_ClaimedAt claim) claim;
      if (reclaimed : bool) then mret reclaimedStep
      else fail svc_ErrInvalidBuildStepTransition.

(** The copy the worker makes of an image build; it leaves out the artifacts the
    build takes as inputs. *)
Definition worker_cloneRemoteImageBuildSpec (spec : option RemoteImageBuildSpec)
    : option RemoteImageBuildSpec :=
  match spec with
  | None => None
  | Some spec => Some (mkRemoteImageBuildSpec (ri_ContextPath spec) (ri_DockerfilePath spec)
      (ri_Target spec) (ri_BuildArgs spec) (ri_TargetImageReference spec) [])
  end.

Section claim.
  (** The JSON decoder (encoding/json), of which the code reads the execution kind
      and the remote image build. *)
  Context (json_Unmarshal : string → (ExecutionKind * option RemoteImageBuildSpec) + error).

Definition decodedSpec (specJSON : string) : (ExecutionKind * option RemoteImageBuildSpec) + error :=
  if TrimSpace specJSON != "" then json_Unmarshal specJSON else inl ("", None).

(** What the worker is to run, from the job and its claimed step. *)
Definition runnableFromJob (job : ExecutionJob) (claim : StepClaim) (claimedStep : BuildStep)
    (executionKind : ExecutionKind) (remote : option RemoteImageBuildSpec)
    (environment : gmap string string) : WorkerRunnableStep :=
  mkWorkerRunnableStep (j_BuildID job) (j_ID job) (j_StepID job) (j_StepIndex job) (j_Name job)
    (if executionKind == "" then ExecutionKindShell else executionKind)
    (worker_cloneRemoteImageBuildSpec remote)
    (c_WorkerID claim) (c_ClaimToken claim) (j_NodeID job) (j_AttemptNumber job) (j_Image job)
    (workerCommandFromJob job) (workerArgsFromJob job) environment
    (workerDefaultString (j_WorkingDir job) ".") (workerTimeoutFromJob job)
    (StepCacheConfig_Clone (st_Cache claimedStep)).

Definition claimRunnableStepFromJobs (token : string) (now : Time) (w : ExecutionWorkerService)
    : ServiceM (option WorkerRunnableStep) :=
  let claim := newStepClaim token now w in
  '(job, claimed) ← svc_ClaimNextRunnableJob claim;
  if negb (claimed : bool) then mret None
  else
    claimedStep ← mirrorJobClaimToStep job claim;
    match decodedSpec (j_ResolvedSpecJSON job) with
    | inr err => fail err
    | inl (executionKind, remote) =>
        environment ← environmentFromDurableBuild (j_BuildID job) (workerEnvFromJob job);
        mret (Some (runnableFromJob job claim claimedStep executionKind remote environment))
    end.

End claim.

(** A step taken by itself, and the job it is then bound to. *)
Definition runnableFromStep (buildID : string) (step : BuildStep) (claim : StepClaim)
    : WorkerRunnableStep :=
  mkWorkerRunnableStep buildID "" (st_ID step) (st_StepIndex step) (st_Name step) "" None
    (c_WorkerID claim) (c_ClaimToken claim) "" 0 "" (workerDefaultString (st_Command step) "sh")
    (workerDefaultArgs (st_Args step)) (workerDefaultEnv (st_Env step))
    (workerDefaultString (st_WorkingDir step) ".") (workerMaxInt (st_TimeoutSeconds step) 0)
    (StepCacheConfig_Clone (st_Cache step)).

Definition bindRunnableStepFromJob (step : WorkerRunnableStep) (claim : StepClaim)
    : ServiceM WorkerRunnableStep := λ s,
  if wr_StepID step == "" then Some (s, inl step)
  else match svc_ClaimJobByStepID (wr_StepID step) claim s with
  | None => None
  | Some (s, inr _) | Some (s, inl (_, false)) => Some (s, inl step)
  | Some (s, inl (job, true)) =>
      (environment ← environmentFromDurableBuild (j_BuildID job) (workerEnvFromJob job);
       let step := step <| wr_JobID := j_ID job |> <| wr_Image := j_Image job |> in
       let step := step <| wr_Command := workerCommandFromJob job |> in
       let step := step <| wr_Args := workerArgsFromJob job |> <| wr_Env := environment |> in
       let step := step <| wr_WorkingDir := workerDefaultString (j_WorkingDir job) "." |> in
       mret (match j_TimeoutSeconds job with
             | None => step
             | Some seconds => step <| wr_TimeoutSeconds := workerMaxInt seconds 0 |>
             end)) s
  end.

(** The scan of the builds for a pending step; a pending build is queued first.
    Each build has a supply of its own for its claim and its steps. *)
Fixpoint claimFromBuilds (cfg : ServiceConfig) (us : nat → Supply) (now : Time)
    (w : ExecutionWorkerService) (builds : list Build) : ServiceM (option WorkerRunnableStep) :=
  match builds with
  | [] => mret None
  | build :: rest =>
      let next := claimFromBuilds cfg (λ i, us (S i)) now w rest in
      let take (build : Build) : ServiceM (option WorkerRunnableStep) :=
        steps ← GetBuildSteps (b_ID build);
        match workerFirstRunnableStep steps with
        | None => next
        | Some nextStep =>
            let claim := newStepClaim (uuid (us 0%nat) 0) now w in
            '(claimedStep, claimed) ← svc_ClaimPendingStep (b_ID build) (st_StepIndex nextStep) claim;
            if negb (claimed : bool) then next
            else boundStep ← bindRunnableStepFromJob (runnableFromStep (b_ID build) claimedStep claim) claim;
                 mret (Some boundStep)
        end in
      if IsTerminalBuildStatus (b_Status build) then next
      else if b_Status build == BuildStatusRunning then take build
      else if b_Status build == BuildStatusPending then
        λ s, match QueueBuild cfg (later_draws 1 (us 0%nat)) now (b_ID build) s with
             | Some (s, inr err) =>
                 if errors_Is err svc_ErrInvalidBuildStatusTransition then next s
                 else Some (s, inr err)
             | Some (s, inl queuedBuild) => take queuedBuild s
             | None => None
             end
      else next
  end.

(** The scan for a step whose lease has run out. *)
Fixpoint reclaimFromBuilds (tokens : nat → string) (now : Time) (w : ExecutionWorkerService)
    (builds : list Build) : ServiceM (option WorkerRunnableStep) :=
  match builds with
  | [] => mret None
  | build :: rest =>
      let next := reclaimFromBuilds (λ i, tokens (S i)) now w rest in
      if IsTerminalBuildStatus (b_Status build) then next
      else if b_Status build != BuildStatusRunning then next
      else
        steps ← GetBuildSteps (b_ID build);
        match workerFirstReclaimableRunningStep steps now with
        | None => next
        | Some runningStep =>
            let claim := newStepClaim (tokens 0%nat) now w in
            '(reclaimedStep, claimed) ← svc_ReclaimExpiredStep (b_ID build)
              (st_StepIndex runningStep) (c_ClaimedAt claim) claim;
            if negb (claimed : bool) then next
            else boundStep ← bindRunnableStepFromJob (runnableFromStep (b_ID build) reclaimedStep claim) claim;
                 mret (Some boundStep)
        end
  end.
