(* ===== verification/WorkerThms.v ===== *)
(** What a worker holds after a claim, and how often it renews it. *)

From Stdlib Require Import Ascii.
From stdpp Require Import base gmap strings list pretty sorting numbers.
From S2P Require Import Prelude GoLib GoPath Domain NodeNames Repository BuildRepo BuildRepoFacts.
From S2P Require Import LifecycleSpec Lifecycle LifecycleThms Leases.
From S2P Require Import ExecJobRepo ExecJobFacts ExecJobIndex ExecJobThms Planner.
From S2P Require Import Versioning Schema Pipeline Resolve BuildService ServiceThms.
From S2P Require Import Rerun RerunThms Worker.

Open Scope go_scope.
Open Scope Z_scope.

Implicit Types (s : Stores) (claim : StepClaim) (job : ExecutionJob) (w : ExecutionWorkerService).

(** ** Claims *)

Definition step_held (r : BuildRepository) (id : string) (i : Z) claim : Prop :=
  ∃ idx step, findStep i (stepsOf r id) = Some (idx, step) ∧
    st_Status step = BuildStepStatusRunning ∧ st_WorkerID step = Some (c_WorkerID claim) ∧
    st_ClaimToken step = Some (c_ClaimToken claim) ∧
    st_LeaseExpiresAt step = Some (c_LeaseExpiresAt claim).

Definition job_held (jobs : ExecutionJobRepository) (id : string) claim : Prop :=
  ∃ job, ej_jobsByID jobs !! id = Some job ∧
    j_Status job = ExecutionJobStatusRunning ∧ j_ClaimedBy job = Some (c_WorkerID claim) ∧
    j_ClaimToken job = Some (c_ClaimToken claim) ∧
    j_ClaimExpiresAt job = Some (c_LeaseExpiresAt claim).

Lemma claimed_step_held r id i claim idx step :
  findStep i (stepsOf r id) = Some (idx, step) →
  step_held (storeSteps r id (<[idx := claimedStep claim step]> (stepsOf r id))) id i claim.
Proof.
  intros Hf. exists idx, (claimedStep claim step). rewrite storeSteps_steps. split.
  - apply (findStep_insert i _ idx step); [done|]. rewrite claimedStep_index. by eapply findStep_index.
  - unfold claimedStep. simpl. by destruct (st_StartedAt step).
Qed.

Lemma reclaimed_step_held r id i claim idx step :
  findStep i (stepsOf r id) = Some (idx, step) → st_Status step = BuildStepStatusRunning →
  step_held (storeSteps r id (<[idx := reclaimedStep claim step]> (stepsOf r id))) id i claim.
Proof.
  intros Hf Hs. exists idx, (reclaimedStep claim step). rewrite storeSteps_steps. split.
  - apply (findStep_insert i _ idx step); [done|]. by eapply (findStep_index i _ idx step).
  - done.
Qed.

(** A call on the build store leaves the other stores alone. *)
Lemma on_builds_inl {A} mapErr (f : BuildRepository → BuildRepository * A * option error) s s' x :
  on_builds mapErr f s = Some (s', inl x) →
  s' = s <| ss_buildRepo := ss_buildRepo s' |> ∧ f (ss_buildRepo s) = (ss_buildRepo s', x, None).
Proof.
  unfold on_builds. destruct (f (ss_buildRepo s)) as [[r y] [err|]]; [done|].
  intros [= <- <-]. by destruct s.
Qed.

Lemma mirror_held job claim s s' step :
  mirrorJobClaimToStep job claim s = Some (s', inl step) →
  ss_executionJobRepo s' = ss_executionJobRepo s ∧
  (j_StepID job ≠ "" → step_held (ss_buildRepo s') (j_BuildID job) (j_StepIndex job) claim).
Proof.
  unfold mirrorJobClaimToStep. case_bool_decide as Hid; [by intros [= <- _]|]. intros H.
  apply bind_inl in H as (s1 & [step1 claimed] & [Hs1 E1]%on_builds_inl & H).
  destruct (claimable_or (ss_buildRepo s) (j_BuildID job) (j_StepIndex job))
    as [(build & idx & st & Hc)|Hno].
  - rewrite (ClaimPendingStep_accepted _ _ _ claim _ _ _ Hc) in E1. injection E1 as E _ <-.
    injection H as <- <-. rewrite Hs1. split; [done|]. intros _. cbn. rewrite <-E.
    apply claimed_step_held. apply Hc.
  - pose proof (ClaimPendingStep_rejected _ _ _ claim Hno) as Hr. rewrite E1 in Hr. cbn [fst] in Hr.
    injection Hr as E _ ->. assert (s1 = s) as -> by (rewrite Hs1, E; by destruct s).
    apply bind_inl in H as (s2 & [step2 claimed] & [Hs2 E2]%on_builds_inl & H).
    destruct (reclaimable_or (ss_buildRepo s) (j_BuildID job) (j_StepIndex job) (c_ClaimedAt claim))
      as [(build & idx & st & lease & Hc)|Hno'].
    + rewrite (ReclaimExpiredStep_accepted _ _ _ _ claim _ _ _ _ Hc) in E2. injection E2 as E' _ <-.
      injection H as <- <-. rewrite Hs2. split; [done|]. intros _. cbn. rewrite <-E'.
      destruct Hc as [_ Hf Hrun _ _]. by apply reclaimed_step_held.
    + pose proof (ReclaimExpiredStep_rejected _ _ _ _ claim Hno') as Hr. rewrite E2 in Hr.
      cbn [fst] in Hr. injection Hr as _ _ ->. done.
Qed.

Lemma environment_inl id env s s' env' :
  environmentFromDurableBuild id env s = Some (s', inl env') → s' = s.
Proof.
  unfold environmentFromDurableBuild. intros H.
  apply bind_inl in H as (s1 & build & [-> _]%GetBuild_inl & H).
  destruct (b_ApplicationVersion build); by injection H as <- _.
Qed.

(** The claim of the job store, as the service calls it. *)
Lemma claimNext_inl claim s s' job claimed :
  svc_ClaimNextRunnableJob claim s = Some (s', inl (job, claimed)) →
  jobs_ok (default NewExecutionJobRepository (ss_executionJobRepo s)) →
  if claimed : bool then
    ∃ jobs jobs', ss_executionJobRepo s = Some jobs ∧
      s' = s <| ss_executionJobRepo := Some jobs' |> ∧ job_held jobs' (j_ID job) claim
  else s' = s.
Proof.
  unfold svc_ClaimNextRunnableJob, on_jobs. destruct (ss_executionJobRepo s) as [jobs|] eqn:Hj.
  2: { by intros [= <- _ <-]. }
  rewrite ClaimNextRunnableJob_first. cbn [default id]. intros E Hok.
  pose proof (claimFirst_takes (candidateOrders (Some (ss_buildRepo s)) claim jobs) claim
    (sortedCandidates (Some (ss_buildRepo s)) claim jobs) jobs) as H.
  destruct (list_find _ _) as [[k c]|].
  - destruct H as (old & Hold & _ & H). rewrite H in E. injection E as <- <- <-.
    exists jobs. eexists. split; [done|]. split; [done|].
    exists (claimedJob claim old). split; [apply lookup_insert_eq|]. unfold claimedJob. simpl. by destruct (j_StartedAt old).
  - rewrite H in E. injection E as <- _ <-. rewrite <-Hj. by destruct s.
Qed.


(** ** The example: the pending job of the store is claimed *)

Definition ex_worker : ExecutionWorkerService := NewExecutionWorkerService "w7".
Definition ex_unmarshal (text : string) : (ExecutionKind * option RemoteImageBuildSpec) + error :=
  inl ("", None).
Definition ex_pending_stores : Stores := mkStores ex_pending (Some ex_jobs_created) None.

Lemma ex_pending_reachable : stores_reachable ex_pending_stores.
Proof.
  split.
  - apply run_calls_rtc. unfold ex_calls. cbn [take run_guarded call_guard]. solve_guard.
  - intros jobs E. change (Some ex_jobs_created = Some jobs) in E. apply (inj Some) in E as <-.
    exact ex_jobs_created_reachable.
Qed.


(** When the step refuses the claim, the job stays claimed by the worker that was
    turned away. *)
Example ex_claim_lost :
  (λ '(s, out), (match out with inr err => errors_Is err svc_ErrInvalidBuildStepTransition
                             | inl _ => false end,
     filter (λ job, j_ClaimToken job = Some "t9")
       (jobsInAnyOrder (default NewExecutionJobRepository (ss_executionJobRepo s)))
       ≫= (λ job, [(j_StepIndex job, j_Status job)]))) <$>
    (_ ← claimRunnableStepFromJobs ex_unmarshal "t8" 21 ex_worker;
     claimRunnableStepFromJobs ex_unmarshal "t9" 22 ex_worker) ex_rerun_running =
  Some (true, [(1, ExecutionJobStatusRunning)]).
Proof. vm_compute. reflexivity. Qed.

(** ** Heartbeats *)

Lemma fnv32a_range hash text : 0 ≤ hash < 2 ^ 32 → 0 ≤ fnv32a_write hash text < 2 ^ 32.
Proof.
  unfold fnv32a_write. revert hash. induction (string_to_list text) as [|c l IH]; intros hash H; [done|].
  simpl. apply IH. unfold fnv32a_byte. apply Z.mod_pos_bound. lia.
Qed.

(** The jitter before the bounds are applied. *)
Lemma jitter_range base window h :
  0 < window ≤ 2 ^ 60 → 0 ≤ base ≤ 2 ^ 62 → 0 ≤ h →
  base - window ≤
    int64_add base (int64_sub (Z.rem h (int64_add (int64_mul 2 window) 1)) window) ≤ base + window.
Proof.
  intros Hw Hb Hh.
  assert (E : int64_add (int64_mul 2 window) 1 = 2 * window + 1).
  { unfold int64_mul. rewrite int64_wrap_id, int64_add_id;
      unfold is_int64, min_int64, max_int64; lia. }
  rewrite E. pose proof (Z.rem_bound_pos h (2 * window + 1) Hh ltac:(lia)) as Hr.
  rewrite int64_sub_id, int64_add_id; unfold is_int64, min_int64, max_int64; lia.
Qed.

(** A worker has a positive lease. *)
Lemma lease_positive newID workerID lease :
  is_int64 lease →
  0 < w_leaseDuration (NewExecutionWorkerServiceWithLease newID workerID lease) ≤ max_int64.
Proof.
  unfold NewExecutionWorkerServiceWithLease, is_int64, max_int64, min_int64, Second.
  cbn [w_leaseDuration]. destruct (Z.leb_spec lease 0); lia.
Qed.

(** The heartbeat keeps the lease.  The interval is positive for any lease;
    from 112 milliseconds on it lies between a tenth of a second and nine tenths
    of the lease, so that a renewal comes before the lease ends; from 375
    milliseconds on it is within a fifth of a third of the lease, so that two
    renewals fit, whatever the worker and the claim are called. *)
Theorem heartbeat_keeps_lease newID workerID lease step :
  is_int64 lease →
  let w := NewExecutionWorkerServiceWithLease newID workerID lease in
  let interval := heartbeatIntervalForStep w step in
  let base := heartbeatInterval w in
  0 < interval ∧
  (112 * Millisecond ≤ w_leaseDuration w →
   100 * Millisecond ≤ interval ≤ w_leaseDuration w - Z.quot (w_leaseDuration w) 10) ∧
  (375 * Millisecond ≤ w_leaseDuration w →
   base - Z.quot base 5 ≤ interval ≤ base + Z.quot base 5 ∧ 2 * interval < w_leaseDuration w).
Proof.
  intros Hl w. assert (Hw : 0 < w_leaseDuration w ≤ max_int64).
  { by apply lease_positive. }
  generalize dependent w. clear lease Hl. intros w Hw. set (lease := w_leaseDuration w) in *.
  cbv zeta. unfold max_int64 in Hw.
  assert (Hq : 3 * Z.quot lease 3 ≤ lease < 3 * Z.quot lease 3 + 3).
  { pose proof (Z.quot_rem lease 3). pose proof (Z.rem_bound_pos lease 3). lia. }
  assert (Hb : 0 < heartbeatInterval w ≤ 2 ^ 62 ∧
    (lease < 3 ∧ heartbeatInterval w = Second ∨ heartbeatInterval w = Z.quot lease 3)).
  { unfold heartbeatInterval. fold lease. destruct (Z.leb_spec (Z.quot lease 3) 0); unfold Second; lia. }
  unfold heartbeatIntervalForStep. fold lease. set (base := heartbeatInterval w) in *.
  destruct Hb as [Hb Hbase].
  assert (Hq5 : 5 * Z.quot base 5 ≤ base < 5 * Z.quot base 5 + 5).
  { pose proof (Z.quot_rem base 5). pose proof (Z.rem_bound_pos base 5). lia. }
  assert (Hq10 : 10 * Z.quot lease 10 ≤ lease < 10 * Z.quot lease 10 + 10).
  { pose proof (Z.quot_rem lease 10). pose proof (Z.rem_bound_pos lease 10). lia. }
  set (h := fnv32a_write _ (wr_ClaimToken step)).
  assert (Hh : 0 ≤ h).
  { apply fnv32a_range, fnv32a_range. unfold fnv_offset32. lia. }
  rewrite (int64_sub_id lease) by (unfold is_int64, min_int64, max_int64; lia).
  destruct (Z.leb_spec (Z.quot base 5) 0) as [H0|H0].
  { unfold Millisecond, Second in *. lia. }
  pose proof (jitter_range base (Z.quot base 5) h ltac:(lia) ltac:(lia) Hh) as Hj.
  generalize dependent (int64_add base (int64_sub (Z.rem h (int64_add (int64_mul 2 (Z.quot base 5)) 1))
    (Z.quot base 5))). intros interval Hj.
  unfold Millisecond, Second in *.
  destruct (Z.ltb_spec interval (100 * 10 ^ 6)); destruct (Z.ltb_spec (100 * 10 ^ 6) (lease - Z.quot lease 10));
    cbn [andb]; repeat (case_match eqn:Hmax; [apply Z.ltb_lt in Hmax|apply Z.ltb_ge in Hmax]); lia.
Qed.

Lemma heartbeat_keeps_lease_witness :
  let w := NewExecutionWorkerServiceWithLease "id" " w " (45 * Second) in
  heartbeatInterval w = 15 * Second ∧
  12 * Second ≤ heartbeatIntervalForStep w (runnableFromStep "b1" zero_BuildStep (ex_claim "t" 0 0))
    ≤ 18 * Second.
Proof.
  split; [reflexivity|].
  destruct (heartbeat_keeps_lease "id" " w " (45 * Second)
    (runnableFromStep "b1" zero_BuildStep (ex_claim "t" 0 0))) as (_ & _ & H).
  - split; [discriminate|discriminate].
  - apply H. discriminate.
Defined.

(** Below a tenth of a second the first renewal comes after the lease. *)
Example heartbeat_after_short_lease :
  heartbeatIntervalForStep (NewExecutionWorkerServiceWithLease "id" "w" (50 * Millisecond))
    (runnableFromStep "b1" zero_BuildStep (ex_claim "t" 0 0)) = 100 * Millisecond.
Proof. vm_compute. reflexivity. Qed.

(** ** Choices *)

(** The step a worker looks for is pending, and every step before it succeeded. *)
Lemma firstRunnable_spec steps step :
  workerFirstRunnableStep steps = Some step →
  ∃ before after, steps = before ++ step :: after ∧ st_Status step = BuildStepStatusPending ∧
    Forall (λ previous, st_Status previous = BuildStepStatusSuccess) before.
Proof.
  unfold workerFirstRunnableStep.
  assert (Hno : ∀ l, firstRunnable false l = None).
  { induction l as [|x l IH]; [done|]. simpl. by destruct (st_Status x). }
  induction steps as [|x steps IH]; [done|]. simpl.
  destruct (st_Status x) eqn:Hx; try by rewrite Hno.
  - intros [= ->]. by exists [], steps.
  - intros (before & after & -> & Hp & Hall)%IH. exists (x :: before), after.
    split_and!; [done|done|by constructor].
Qed.

(** A renewal that is answered with yes extends both leases. *)
Lemma renewStepLease_step now w step s s' :
  renewStepLease now w step s = Some (s', inl true) →
  ∃ idx st, findStep (wr_StepIndex step) (stepsOf (ss_buildRepo s') (wr_BuildID step)) = Some (idx, st) ∧
    st_Status st = BuildStepStatusRunning ∧ st_ClaimToken st = Some (wr_ClaimToken step) ∧
    st_LeaseExpiresAt st = Some (now + w_leaseDuration w).
Proof.
  unfold renewStepLease. cbv zeta. intros H.
  apply bind_inl in H as (s1 & renewed & _ & H). destruct renewed; cbn [negb] in H; [|done].
  unfold unlessStale in H. destruct ((svc_RenewStepLease _ _ _ _ ≫= _) s1) as [[s2 [x|err]]|] eqn:E;
    [|by case_match|done].
  injection H as -> ->. apply bind_inl in E as (s3 & y & E & Hret). injection Hret as ->.
  unfold svc_RenewStepLease in E. apply bind_inl in E as (s4 & [st outcome] & [Hs E1]%on_builds_inl & E).
  destruct (renewable_or (ss_buildRepo s1) (wr_BuildID step) (wr_StepIndex step) (wr_ClaimToken step))
    as [(build & idx & old & Hr)|Hno].
  - rewrite (RenewStepLease_accepted _ _ _ _ (now + w_leaseDuration w) _ _ _ Hr) in E1.
    injection E1 as Er _ <-. injection E as <- _.
    exists idx, (old <| st_LeaseExpiresAt := Some (now + w_leaseDuration w) |>).
    rewrite <-Er, storeSteps_steps. destruct Hr as [_ Hf Hst Htok]. split; [|done].
    apply (findStep_insert _ _ idx old); [done|]. by eapply (findStep_index _ _ idx old).
  - destruct (RenewStepLease_rejected _ _ _ _ (now + w_leaseDuration w) Hno) as [_ Hne].
    rewrite E1 in Hne. cbn in Hne. by destruct outcome.
Qed.
