(* ===== verification/ScmDelivery.v ===== *)
(** Commit statuses as deliveries
    (backend/internal/domain/scm_status_delivery.go,
    repository/scm_status_delivery_repository.go and
    scm_status_delivery_ordering.go).

    A delivery is the status one commit has in one context of a repository at
    the provider.  It belongs to the build that asked for it last; a reporter
    claims it for a while, publishes the desired state and records the outcome. *)

From stdpp Require Import base gmap strings list pretty sorting numbers.
From S2P Require Import Prelude GoLib GoPath GoText Domain.

Open Scope go_scope.
Open Scope Z_scope.

(** ** Data

    The enumerations are strings, which [Normalize] trims. *)

Abbreviation SCMCommitStatusState := string (only parsing).
Definition SCMCommitStatusStatePending : SCMCommitStatusState := "pending".
Definition SCMCommitStatusStateSuccess : SCMCommitStatusState := "success".
Definition SCMCommitStatusStateFailure : SCMCommitStatusState := "failure".
Definition SCMCommitStatusStateError : SCMCommitStatusState := "error".

Abbreviation SCMStatusDeliveryStatus := string (only parsing).
Definition SCMStatusDeliveryStatusPending : SCMStatusDeliveryStatus := "pending".
Definition SCMStatusDeliveryStatusSending : SCMStatusDeliveryStatus := "sending".
Definition SCMStatusDeliveryStatusRetryWaiting : SCMStatusDeliveryStatus := "retry_waiting".
Definition SCMStatusDeliveryStatusSent : SCMStatusDeliveryStatus := "sent".
Definition SCMStatusDeliveryStatusFailedPermanent : SCMStatusDeliveryStatus := "failed_permanent".
Definition SCMStatusDeliveryStatusFailedExhausted : SCMStatusDeliveryStatus := "failed_exhausted".
Definition SCMStatusDeliveryStatusSuperseded : SCMStatusDeliveryStatus := "superseded".

Abbreviation SCMStatusDeliveryFailureCategory := string (only parsing).
Definition SCMStatusDeliveryFailureCategoryRetryable : SCMStatusDeliveryFailureCategory := "retryable".
Definition SCMStatusDeliveryFailureCategoryPermanent : SCMStatusDeliveryFailureCategory := "permanent".

Record SCMStatusDelivery := mkSCMStatusDelivery {
  sd_ID : string;
  sd_BuildID : string;
  sd_BuildAttempt : Z;
  sd_BuildCreatedAt : Time;
  sd_Provider : string;
  sd_RepositoryOwner : string;
  sd_RepositoryName : string;
  sd_RegisteredRepositoryID : option string;
  sd_SCMConnectionID : option string;
  sd_ProviderRepositoryID : option string;
  sd_CommitSHA : string;
  sd_Context : string;
  sd_DesiredState : SCMCommitStatusState;
  sd_LastSentState : option SCMCommitStatusState;
  sd_Description : string;
  sd_DetailsURL : option string;
  sd_Status : SCMStatusDeliveryStatus;
  sd_Attempts : Z;
  sd_MaxAttempts : Z;
  sd_LastAttemptAt : option Time;
  sd_NextAttemptAt : option Time;
  sd_ClaimedAt : option Time;
  sd_ClaimExpiresAt : option Time;
  sd_ClaimedBy : option string;
  sd_FailureCategory : option SCMStatusDeliveryFailureCategory;
  sd_FailureReason : option string;
  sd_LastError : option string;
  sd_SentAt : option Time;
  sd_SupersededAt : option Time;
  sd_CreatedAt : Time;
  sd_UpdatedAt : Time;
}.

#[export] Instance eta_SCMStatusDelivery : Eta SCMStatusDelivery := λ d,
  mkSCMStatusDelivery (sd_ID d) (sd_BuildID d) (sd_BuildAttempt d) (sd_BuildCreatedAt d)
    (sd_Provider d) (sd_RepositoryOwner d) (sd_RepositoryName d) (sd_RegisteredRepositoryID d)
    (sd_SCMConnectionID d) (sd_ProviderRepositoryID d) (sd_CommitSHA d) (sd_Context d)
    (sd_DesiredState d) (sd_LastSentState d) (sd_Description d) (sd_DetailsURL d) (sd_Status d)
    (sd_Attempts d) (sd_MaxAttempts d) (sd_LastAttemptAt d) (sd_NextAttemptAt d) (sd_ClaimedAt d)
    (sd_ClaimExpiresAt d) (sd_ClaimedBy d) (sd_FailureCategory d) (sd_FailureReason d)
    (sd_LastError d) (sd_SentAt d) (sd_SupersededAt d) (sd_CreatedAt d) (sd_UpdatedAt d).

(** The zero value of the type. *)
Definition zero_SCMStatusDelivery : SCMStatusDelivery :=
  mkSCMStatusDelivery "" "" 0 zero_time "" "" "" None None None "" "" "" None "" None "" 0 0
    None None None None None None None None None None zero_time zero_time.

(** ** Normalisation *)

Definition trimSCMOptionalString (value : option string) : option string :=
  match value with
  | None => None
  | Some v => let trimmed := TrimSpace v in if trimmed == "" then None else Some trimmed
  end.

Definition normalizeSCMOptionalTime (value : option Time) : option Time :=
  match value with
  | None => None
  | Some t => if IsZero t then None else Some t
  end.

(** Each field is assigned once; the fields [ID], [Attempts], [CreatedAt] and
    [UpdatedAt] are left as they are. *)
Definition SCMStatusDelivery_Normalize (d : SCMStatusDelivery) : SCMStatusDelivery := {|
  sd_ID := sd_ID d;
  sd_BuildID := TrimSpace (sd_BuildID d);
  sd_BuildAttempt := sd_BuildAttempt d;
  sd_BuildCreatedAt := if IsZero (sd_BuildCreatedAt d) then zero_time else sd_BuildCreatedAt d;
  sd_Provider := ToLower (TrimSpace (sd_Provider d));
  sd_RepositoryOwner := TrimSpace (sd_RepositoryOwner d);
  sd_RepositoryName := TrimSpace (sd_RepositoryName d);
  sd_RegisteredRepositoryID := trimSCMOptionalString (sd_RegisteredRepositoryID d);
  sd_SCMConnectionID := trimSCMOptionalString (sd_SCMConnectionID d);
  sd_ProviderRepositoryID := trimSCMOptionalString (sd_ProviderRepositoryID d);
  sd_CommitSHA := TrimSpace (sd_CommitSHA d);
  sd_Context := TrimSpace (sd_Context d);
  sd_DesiredState := TrimSpace (sd_DesiredState d);
  sd_LastSentState := trimSCMOptionalString (sd_LastSentState d);
  sd_Description := TrimSpace (sd_Description d);
  sd_DetailsURL := trimSCMOptionalString (sd_DetailsURL d);
  sd_Status := TrimSpace (sd_Status d);
  sd_Attempts := sd_Attempts d;
  sd_MaxAttempts := if sd_MaxAttempts d <=? 0 then 1 else sd_MaxAttempts d;
  sd_LastAttemptAt := normalizeSCMOptionalTime (sd_LastAttemptAt d);
  sd_NextAttemptAt := normalizeSCMOptionalTime (sd_NextAttemptAt d);
  sd_ClaimedAt := normalizeSCMOptionalTime (sd_ClaimedAt d);
  sd_ClaimExpiresAt := normalizeSCMOptionalTime (sd_ClaimExpiresAt d);
  sd_ClaimedBy := trimSCMOptionalString (sd_ClaimedBy d);
  sd_FailureCategory := trimSCMOptionalString (sd_FailureCategory d);
  sd_FailureReason := trimSCMOptionalString (sd_FailureReason d);
  sd_LastError := trimSCMOptionalString (sd_LastError d);
  sd_SentAt := normalizeSCMOptionalTime (sd_SentAt d);
  sd_SupersededAt := normalizeSCMOptionalTime (sd_SupersededAt d);
  sd_CreatedAt := sd_CreatedAt d;
  sd_UpdatedAt := sd_UpdatedAt d;
|}.

(** ** Validation *)

Definition SCMCommitStatusState_IsValid (s : SCMCommitStatusState) : bool :=
  (s == SCMCommitStatusStatePending) || (s == SCMCommitStatusStateSuccess)
  || (s == SCMCommitStatusStateFailure) || (s == SCMCommitStatusStateError).

Definition SCMCommitStatusState_IsTerminal (s : SCMCommitStatusState) : bool :=
  (s == SCMCommitStatusStateSuccess) || (s == SCMCommitStatusStateFailure)
  || (s == SCMCommitStatusStateError).

Definition SCMStatusDeliveryStatus_IsValid (s : SCMStatusDeliveryStatus) : bool :=
  (s == SCMStatusDeliveryStatusPending) || (s == SCMStatusDeliveryStatusSending)
  || (s == SCMStatusDeliveryStatusRetryWaiting) || (s == SCMStatusDeliveryStatusSent)
  || (s == SCMStatusDeliveryStatusFailedPermanent)
  || (s == SCMStatusDeliveryStatusFailedExhausted) || (s == SCMStatusDeliveryStatusSuperseded).

Definition SCMStatusDeliveryFailureCategory_IsValid (c : SCMStatusDeliveryFailureCategory) : bool :=
  (c == SCMStatusDeliveryFailureCategoryRetryable)
  || (c == SCMStatusDeliveryFailureCategoryPermanent).

Definition SCMStatusDelivery_IsTerminal (d : SCMStatusDelivery) : bool :=
  (sd_Status d == SCMStatusDeliveryStatusSent)
  || (sd_Status d == SCMStatusDeliveryStatusFailedPermanent)
  || (sd_Status d == SCMStatusDeliveryStatusFailedExhausted)
  || (sd_Status d == SCMStatusDeliveryStatusSuperseded).

(** The checks of a validation in order: the first that fails gives the error. *)
Fixpoint failed_check (checks : list (bool * string)) : option error :=
  match checks with
  | [] => None
  | (failed, message) :: rest => if failed then Some (Errorf message) else failed_check rest
  end.

Definition SCMStatusDelivery_ValidateIdentity (d : SCMStatusDelivery) : option error :=
  match failed_check
    [ (sd_BuildID d == "", "scm status delivery build id is required");
      (sd_BuildAttempt d <? 0, "scm status delivery build attempt cannot be negative");
      (IsZero (sd_BuildCreatedAt d), "scm status delivery build created_at is required");
      (sd_Provider d == "", "scm status delivery provider is required");
      ((sd_RepositoryOwner d == "") || (sd_RepositoryName d == ""),
       "scm status delivery repository owner and name are required") ] with
  | Some err => Some err
  | None =>
      match ValidateRepositoryIdentitySnapshot (sd_RegisteredRepositoryID d)
              (sd_SCMConnectionID d) (sd_ProviderRepositoryID d) with
      | Some err => Some (Wrap "scm status delivery" err)
      | None =>
          failed_check
            [ (sd_CommitSHA d == "", "scm status delivery commit sha is required");
              (sd_Context d == "", "scm status delivery context is required");
              (negb (SCMCommitStatusState_IsValid (sd_DesiredState d)),
               "unsupported scm commit status state " +:+ Quote (sd_DesiredState d)) ]
      end
  end.

Definition is_set {A} (value : option A) : bool := match value with Some _ => true | None => false end.

(** [p == nil || *p != v]. *)
Definition differs (value : option string) (expected : string) : bool :=
  match value with None => true | Some v => v != expected end.

(** [p != nil && !p.IsValid()]. *)
Definition set_and_invalid (valid : string → bool) (value : option string) : bool :=
  match value with None => false | Some v => negb (valid v) end.

(** The checks of [Validate] on the normalised delivery after those of its
    identity, in their order. *)
Definition scmStatusDeliveryChecks (d : SCMStatusDelivery) : list (bool * string) :=
  let terminal := SCMStatusDelivery_IsTerminal d in
  let category := sd_FailureCategory d in
  [ (sd_Attempts d <? 0, "scm status delivery attempts cannot be negative");
    (sd_MaxAttempts d <? sd_Attempts d, "scm status delivery attempts cannot exceed max attempts");
    (negb (SCMStatusDeliveryStatus_IsValid (sd_Status d)),
     "unsupported scm status delivery status " +:+ Quote (sd_Status d));
    (set_and_invalid SCMStatusDeliveryFailureCategory_IsValid category,
     "unsupported scm status delivery failure category " +:+ Quote (default "" category));
    (set_and_invalid SCMCommitStatusState_IsValid (sd_LastSentState d),
     "unsupported scm status delivery last sent state " +:+ Quote (default "" (sd_LastSentState d)));
    (terminal && is_set (sd_ClaimedBy d),
     "terminal scm status delivery cannot retain an active claim owner");
    (terminal && is_set (sd_ClaimedAt d),
     "terminal scm status delivery cannot retain claimed_at");
    (terminal && is_set (sd_ClaimExpiresAt d),
     "terminal scm status delivery cannot retain claim_expires_at");
    (terminal && is_set (sd_NextAttemptAt d),
     "terminal scm status delivery cannot retain next_attempt_at");
    ((sd_Status d == SCMStatusDeliveryStatusPending) && is_set (sd_NextAttemptAt d),
     "pending scm status delivery cannot retain next_attempt_at");
    ((sd_Status d == SCMStatusDeliveryStatusPending)
     && (is_set (sd_ClaimedBy d) || is_set (sd_ClaimedAt d) || is_set (sd_ClaimExpiresAt d)),
     "pending scm status delivery cannot retain active claim metadata");
    ((sd_Status d == SCMStatusDeliveryStatusRetryWaiting) && (sd_MaxAttempts d <=? sd_Attempts d),
     "retry-waiting scm status delivery requires attempts below max attempts");
    ((sd_Status d == SCMStatusDeliveryStatusRetryWaiting) && negb (is_set (sd_NextAttemptAt d)),
     "retry-waiting scm status delivery requires next_attempt_at");
    ((sd_Status d == SCMStatusDeliveryStatusRetryWaiting)
     && differs category SCMStatusDeliveryFailureCategoryRetryable,
     "retry-waiting scm status delivery requires retryable failure category");
    ((sd_Status d == SCMStatusDeliveryStatusSending) && (sd_Attempts d <? 1),
     "sending scm status delivery requires at least one attempt");
    ((sd_Status d == SCMStatusDeliveryStatusSending)
     && (negb (is_set (sd_ClaimedBy d)) || negb (is_set (sd_ClaimedAt d))
         || negb (is_set (sd_ClaimExpiresAt d))),
     "sending scm status delivery requires claim owner and expiry");
    ((sd_Status d == SCMStatusDeliveryStatusSending)
     && negb (match sd_ClaimExpiresAt d, sd_ClaimedAt d with
              | Some expires, Some claimed => After expires claimed
              | _, _ => false
              end),
     "scm status delivery claim expiry must be after claim acquisition");
    ((sd_Status d == SCMStatusDeliveryStatusSent) && (sd_Attempts d <? 1),
     "sent scm status delivery requires at least one attempt");
    ((sd_Status d == SCMStatusDeliveryStatusSent) && negb (is_set (sd_SentAt d)),
     "sent scm status delivery requires sent_at");
    ((sd_Status d == SCMStatusDeliveryStatusSent)
     && differs (sd_LastSentState d) (sd_DesiredState d),
     "sent scm status delivery requires last_sent_state to match desired_state");
    ((sd_Status d == SCMStatusDeliveryStatusFailedPermanent)
     && differs category SCMStatusDeliveryFailureCategoryPermanent,
     "permanently failed scm status delivery requires permanent failure category");
    ((sd_Status d == SCMStatusDeliveryStatusFailedExhausted)
     && negb (sd_Attempts d =? sd_MaxAttempts d),
     "exhausted scm status delivery requires attempts to equal max attempts");
    ((sd_Status d == SCMStatusDeliveryStatusFailedExhausted)
     && differs category SCMStatusDeliveryFailureCategoryRetryable,
     "exhausted scm status delivery requires retryable failure category");
    ((sd_Status d == SCMStatusDeliveryStatusSuperseded) && negb (is_set (sd_SupersededAt d)),
     "superseded scm status delivery requires superseded_at") ].

Definition SCMStatusDelivery_Validate (d : SCMStatusDelivery) : option error :=
  match SCMStatusDelivery_ValidateIdentity d with
  | Some err => Some err
  | None =>
      let d := SCMStatusDelivery_Normalize d in
      match SCMStatusDelivery_ValidateIdentity d with
      | Some err => Some err
      | None => failed_check (scmStatusDeliveryChecks d)
      end
  end.

Definition SCMStatusDelivery_CanAttempt (now : Time) (d : SCMStatusDelivery) : bool :=
  if SCMStatusDelivery_IsTerminal d || (sd_MaxAttempts d <=? sd_Attempts d) then false
  else if sd_Status d == SCMStatusDeliveryStatusPending then true
  else if sd_Status d == SCMStatusDeliveryStatusRetryWaiting then
    match sd_NextAttemptAt d with None => false | Some next => negb (Before now next) end
  else if sd_Status d == SCMStatusDeliveryStatusSending then
    match sd_ClaimExpiresAt d with None => false | Some expires => negb (Before now expires) end
  else false.

(** ** Requests and outcomes of a store of deliveries *)

Definition ErrSCMStatusDeliveryNotFound : error :=
  Sentinel "repository.ErrSCMStatusDeliveryNotFound".

Inductive SCMStatusDeliveryClaimOutcome :=
  | SCMStatusDeliveryClaimOutcomeCreatedClaimed
  | SCMStatusDeliveryClaimOutcomeRetryClaimed
  | SCMStatusDeliveryClaimOutcomeStaleClaimReclaimed
  | SCMStatusDeliveryClaimOutcomeAlreadySent
  | SCMStatusDeliveryClaimOutcomePermanentlyFailed
  | SCMStatusDeliveryClaimOutcomeAttemptsExhausted
  | SCMStatusDeliveryClaimOutcomeClaimedByOther
  | SCMStatusDeliveryClaimOutcomeRetryNotDue
  | SCMStatusDeliveryClaimOutcomeSuperseded.

#[export] Instance SCMStatusDeliveryClaimOutcome_eq_dec : EqDecision SCMStatusDeliveryClaimOutcome.
Proof. solve_decision. Defined.

(** [ClaimDuration] in nanoseconds. *)
Record SCMStatusDeliveryClaimInput := mkSCMStatusDeliveryClaimInput {
  sci_Delivery : SCMStatusDelivery;
  sci_ClaimOwner : string;
  sci_Now : Time;
  sci_ClaimDuration : Z;
  sci_MaxAttempts : Z;
}.

Record SCMStatusDeliveryClaimResult := mkSCMStatusDeliveryClaimResult {
  scr_Delivery : SCMStatusDelivery;
  scr_Outcome : SCMStatusDeliveryClaimOutcome;
  scr_ReassertAfter : option Time;
}.

Record SCMStatusDeliveryRecoverableScanInput := mkSCMStatusDeliveryRecoverableScanInput {
  ssi_Now : Time;
  ssi_Limit : Z;
}.

Inductive SCMStatusDeliveryUpdateOutcome :=
  | SCMStatusDeliveryUpdateOutcomeUpdated
  | SCMStatusDeliveryUpdateOutcomeLostClaim.

#[export] Instance SCMStatusDeliveryUpdateOutcome_eq_dec : EqDecision SCMStatusDeliveryUpdateOutcome.
Proof. solve_decision. Defined.

Record SCMStatusDeliveryUpdateResult := mkSCMStatusDeliveryUpdateResult {
  sur_Delivery : SCMStatusDelivery;
  sur_Outcome : SCMStatusDeliveryUpdateOutcome;
}.

Record SCMStatusDeliveryMarkSentInput := mkSCMStatusDeliveryMarkSentInput {
  smi_DeliveryID : string;
  smi_ClaimOwner : string;
  smi_ClaimedAt : Time;
  smi_SentAt : Time;
  smi_State : SCMCommitStatusState;
}.

Record SCMStatusDeliveryRecordFailureInput := mkSCMStatusDeliveryRecordFailureInput {
  sfi_DeliveryID : string;
  sfi_ClaimOwner : string;
  sfi_ClaimedAt : Time;
  sfi_FailedAt : Time;
  sfi_NextAttemptAt : option Time;
  sfi_FailureCategory : SCMStatusDeliveryFailureCategory;
  sfi_FailureReason : string;
  sfi_LastError : option string;
}.

Record SCMStatusDeliveryMarkSupersededInput := mkSCMStatusDeliveryMarkSupersededInput {
  spi_DeliveryID : string;
  spi_ClaimOwner : option string;
  spi_ClaimedAt : option Time;
  spi_SupersededAt : Time;
  spi_Reason : string;
  spi_LastError : option string;
}.

Definition SCMStatusDeliveryClaimOutcomeFromExisting (delivery : SCMStatusDelivery) (now : Time)
    : SCMStatusDeliveryClaimOutcome :=
  if sd_Status delivery == SCMStatusDeliveryStatusSent
  then SCMStatusDeliveryClaimOutcomeAlreadySent
  else if sd_Status delivery == SCMStatusDeliveryStatusFailedPermanent
  then SCMStatusDeliveryClaimOutcomePermanentlyFailed
  else if sd_Status delivery == SCMStatusDeliveryStatusFailedExhausted
  then SCMStatusDeliveryClaimOutcomeAttemptsExhausted
  else if sd_Status delivery == SCMStatusDeliveryStatusSuperseded
  then SCMStatusDeliveryClaimOutcomeSuperseded
  else if sd_Status delivery == SCMStatusDeliveryStatusSending then
    if sd_MaxAttempts delivery <=? sd_Attempts delivery
    then SCMStatusDeliveryClaimOutcomeAttemptsExhausted
    else match sd_ClaimExpiresAt delivery with
         | Some expires =>
             if negb (Before now expires) then SCMStatusDeliveryClaimOutcomeStaleClaimReclaimed
             else SCMStatusDeliveryClaimOutcomeClaimedByOther
         | None => SCMStatusDeliveryClaimOutcomeClaimedByOther
         end
  else if sd_Status delivery == SCMStatusDeliveryStatusRetryWaiting then
    if match sd_NextAttemptAt delivery with Some next => Before now next | None => false end
    then SCMStatusDeliveryClaimOutcomeRetryNotDue
    else if sd_MaxAttempts delivery <=? sd_Attempts delivery
    then SCMStatusDeliveryClaimOutcomeAttemptsExhausted
    else SCMStatusDeliveryClaimOutcomeRetryClaimed
  else if sd_Status delivery == SCMStatusDeliveryStatusPending then
    if sd_MaxAttempts delivery <=? sd_Attempts delivery
    then SCMStatusDeliveryClaimOutcomeAttemptsExhausted
    else SCMStatusDeliveryClaimOutcomeRetryClaimed
  else SCMStatusDeliveryClaimOutcomeClaimedByOther.

(** ** Which build a delivery belongs to (scm_status_delivery_ordering.go) *)

Definition CompareSCMStatusDeliveryOwners (existing incoming : SCMStatusDelivery) : Z :=
  let existing := SCMStatusDelivery_Normalize existing in
  let incoming := SCMStatusDelivery_Normalize incoming in
  if TrimSpace (sd_BuildID existing) == TrimSpace (sd_BuildID incoming) then 0
  else if negb (sd_BuildAttempt existing =? sd_BuildAttempt incoming) then
    if sd_BuildAttempt incoming <? sd_BuildAttempt existing then 1 else -1
  else if After (sd_BuildCreatedAt existing) (sd_BuildCreatedAt incoming) then 1
  else if Before (sd_BuildCreatedAt existing) (sd_BuildCreatedAt incoming) then -1
  else if string_lt (TrimSpace (sd_BuildID incoming)) (TrimSpace (sd_BuildID existing)) then 1
  else -1.

Definition SCMStatusDeliveryIncomingStateObsolete (existing incoming : SCMStatusDelivery) : bool :=
  if SCMCommitStatusState_IsTerminal (sd_DesiredState existing)
     && negb (SCMCommitStatusState_IsTerminal (sd_DesiredState incoming)) then true
  else match sd_LastSentState existing with
       | Some state =>
           SCMCommitStatusState_IsTerminal state
           && negb (SCMCommitStatusState_IsTerminal (sd_DesiredState incoming))
       | None => false
       end.

Definition SCMStatusDeliveryShouldReplaceCurrentState (existing incoming : SCMStatusDelivery)
    : bool := sd_DesiredState existing != sd_DesiredState incoming.

Definition SCMStatusDeliveryReassertAfterReplacement (existing : SCMStatusDelivery) (now : Time)
    : option Time :=
  let existing := SCMStatusDelivery_Normalize existing in
  if sd_Status existing != SCMStatusDeliveryStatusSending then None
  else match sd_ClaimExpiresAt existing with
       | None => None
       | Some expires => if negb (After expires now) then None else Some expires
       end.
