(* ===== verification/ScmRepo.v ===== *)
(** The in-memory store of commit statuses
    (backend/internal/repository/memory/scm_status_delivery_repository.go).

    As in BuildRepo.v a method is a function of the store, its result and its
    error; the context is not canceled.  [uuid.NewString] is the argument
    [newID]. *)

From stdpp Require Import base gmap strings list pretty sorting numbers.
From S2P Require Import Prelude GoLib GoPath GoText Domain ScmDelivery.

Open Scope go_scope.
Open Scope Z_scope.

(** ** State *)

Record SCMStatusDeliveryRepository := mkSCMStatusDeliveryRepository {
  sr_deliveries : gmap string SCMStatusDelivery;
  sr_index : gmap string string;
}.

#[export] Instance eta_SCMStatusDeliveryRepository : Eta SCMStatusDeliveryRepository := λ r,
  mkSCMStatusDeliveryRepository (sr_deliveries r) (sr_index r).

Definition NewSCMStatusDeliveryRepository : SCMStatusDeliveryRepository :=
  mkSCMStatusDeliveryRepository ∅ ∅.

Definition deliveryAt (r : SCMStatusDeliveryRepository) (id : string) : SCMStatusDelivery :=
  default zero_SCMStatusDelivery (sr_deliveries r !! id).

Definition storeDelivery (r : SCMStatusDeliveryRepository) (id : string) (d : SCMStatusDelivery)
    : SCMStatusDeliveryRepository :=
  r <| sr_deliveries := <[id := d]> (sr_deliveries r) |>.

(** ** Keys of streams *)

Definition scmStatusDeliveryRepositoryStreamKey
    (connectionID providerRepositoryID commitSHA contextName : string) : string :=
  "repository|" +:+ TrimSpace connectionID +:+ "|" +:+ TrimSpace providerRepositoryID +:+ "|"
  +:+ TrimSpace commitSHA +:+ "|" +:+ TrimSpace contextName.

Definition scmStatusDeliveryLegacyStreamKey
    (provider repositoryOwner repositoryName commitSHA contextName : string) : string :=
  ToLower (TrimSpace provider) +:+ "|" +:+ TrimSpace repositoryOwner +:+ "|"
  +:+ TrimSpace repositoryName +:+ "|" +:+ TrimSpace commitSHA +:+ "|" +:+ TrimSpace contextName.

Definition scmStatusDeliveryKey (delivery : SCMStatusDelivery) : string :=
  let delivery := SCMStatusDelivery_Normalize delivery in
  match sd_SCMConnectionID delivery, sd_ProviderRepositoryID delivery with
  | Some connectionID, Some providerRepositoryID =>
      scmStatusDeliveryRepositoryStreamKey connectionID providerRepositoryID
        (sd_CommitSHA delivery) (sd_Context delivery)
  | _, _ =>
      scmStatusDeliveryLegacyStreamKey (sd_Provider delivery) (sd_RepositoryOwner delivery)
        (sd_RepositoryName delivery) (sd_CommitSHA delivery) (sd_Context delivery)
  end.

(** ** Claims *)

(** The trimmed delivery, the instant, the owner and the duration of a claim. *)
Definition normalizeSCMClaimInput (input : SCMStatusDeliveryClaimInput)
    : (SCMStatusDelivery * Time * string * Z) + error :=
  match SCMStatusDelivery_ValidateIdentity (sci_Delivery input) with
  | Some err => inr err
  | None =>
      let delivery := SCMStatusDelivery_Normalize (sci_Delivery input) in
      let claimOwner := TrimSpace (sci_ClaimOwner input) in
      if IsZero (sci_Now input) then inr (Errorf "scm status delivery claim time is required")
      else if claimOwner == "" then inr (Errorf "scm status delivery claim owner is required")
      else if sci_ClaimDuration input <=? 0
      then inr (Errorf "scm status delivery claim duration must be positive")
      else if sci_MaxAttempts input <=? 0
      then inr (Errorf "scm status delivery max attempts must be positive")
      else inl (delivery, sci_Now input, claimOwner, sci_ClaimDuration input)
  end.

(** The claim of a delivery that stays the same. *)
Definition claimed_again (delivery : SCMStatusDelivery) (now : Time) (claimOwner : string)
    (claimDuration : Z) : SCMStatusDelivery :=
  delivery <| sd_Status := SCMStatusDeliveryStatusSending |>
           <| sd_Attempts := int64_add (sd_Attempts delivery) 1 |>
           <| sd_LastAttemptAt := Some now |>
           <| sd_NextAttemptAt := None |>
           <| sd_ClaimedAt := Some now |>
           <| sd_ClaimExpiresAt := Some (now + claimDuration) |>
           <| sd_ClaimedBy := Some claimOwner |>
           <| sd_UpdatedAt := now |>.

Definition is_claim (outcome : SCMStatusDeliveryClaimOutcome) : bool :=
  (outcome == SCMStatusDeliveryClaimOutcomeRetryClaimed)
  || (outcome == SCMStatusDeliveryClaimOutcomeStaleClaimReclaimed).

Definition claimSCMStatusDelivery (delivery : SCMStatusDelivery) (now : Time)
    (claimOwner : string) (claimDuration : Z)
    : SCMStatusDelivery * SCMStatusDeliveryClaimOutcome :=
  let delivery := SCMStatusDelivery_Normalize delivery in
  let outcome := SCMStatusDeliveryClaimOutcomeFromExisting delivery now in
  if (outcome != SCMStatusDeliveryClaimOutcomeRetryClaimed)
     && (outcome != SCMStatusDeliveryClaimOutcomeStaleClaimReclaimed)
  then (delivery, outcome)
  else (claimed_again delivery now claimOwner claimDuration, outcome).

(** The first claim of a delivery, which forgets the attempts made so far. *)
Definition claimed_first (delivery : SCMStatusDelivery) (now : Time) (claimOwner : string)
    (claimDuration maxAttempts : Z) (lastSentState : option SCMCommitStatusState)
    : SCMStatusDelivery :=
  delivery <| sd_UpdatedAt := now |>
           <| sd_Status := SCMStatusDeliveryStatusSending |>
           <| sd_Attempts := 1 |>
           <| sd_MaxAttempts := maxAttempts |>
           <| sd_LastAttemptAt := Some now |>
           <| sd_NextAttemptAt := None |>
           <| sd_ClaimedAt := Some now |>
           <| sd_ClaimExpiresAt := Some (now + claimDuration) |>
           <| sd_ClaimedBy := Some claimOwner |>
           <| sd_FailureCategory := None |>
           <| sd_FailureReason := None |>
           <| sd_LastError := None |>
           <| sd_SentAt := None |>
           <| sd_SupersededAt := None |>
           <| sd_LastSentState := lastSentState |>.

Definition claimFreshSCMStatusDelivery (newID id : string) (createdAt : Time)
    (delivery : SCMStatusDelivery) (now : Time) (claimOwner : string)
    (claimDuration maxAttempts : Z) (lastSentState : option SCMCommitStatusState)
    : SCMStatusDelivery + error :=
  let delivery := SCMStatusDelivery_Normalize delivery in
  let delivery := delivery <| sd_ID := TrimSpace id |> in
  let delivery := if sd_ID delivery == "" then delivery <| sd_ID := newID |> else delivery in
  let createdAt := if IsZero createdAt then now else createdAt in
  let delivery := delivery <| sd_CreatedAt := createdAt |> in
  let delivery :=
    claimed_first delivery now claimOwner claimDuration maxAttempts lastSentState in
  match SCMStatusDelivery_Validate delivery with
  | Some err => inr err
  | None => inl delivery
  end.

(** The delivery to answer with, the outcome, whether to store the delivery, and
    when to publish it again. *)
Definition reconcileSCMStatusDeliveryForClaim (newID : string)
    (existing incoming : SCMStatusDelivery) (now : Time) (claimOwner : string)
    (claimDuration maxAttempts : Z)
    : (SCMStatusDelivery * SCMStatusDeliveryClaimOutcome * bool * option Time) + error :=
  let existing := SCMStatusDelivery_Normalize existing in
  let incoming := SCMStatusDelivery_Normalize incoming in
  let ownerComparison := CompareSCMStatusDeliveryOwners existing incoming in
  if 0 <? ownerComparison
  then inl (existing, SCMStatusDeliveryClaimOutcomeSuperseded, false, None)
  else if ownerComparison <? 0 then
    let reassertAfter := SCMStatusDeliveryReassertAfterReplacement existing now in
    match claimFreshSCMStatusDelivery newID (sd_ID existing) (sd_CreatedAt existing) incoming now
            claimOwner claimDuration maxAttempts None with
    | inr err => inr err
    | inl replaced =>
        inl (replaced, SCMStatusDeliveryClaimOutcomeCreatedClaimed, true, reassertAfter)
    end
  else if SCMStatusDeliveryIncomingStateObsolete existing incoming
  then inl (existing, SCMStatusDeliveryClaimOutcomeSuperseded, false, None)
  else if SCMStatusDeliveryShouldReplaceCurrentState existing incoming then
    let reassertAfter := SCMStatusDeliveryReassertAfterReplacement existing now in
    match claimFreshSCMStatusDelivery newID (sd_ID existing) (sd_CreatedAt existing) incoming now
            claimOwner claimDuration maxAttempts (sd_LastSentState existing) with
    | inr err => inr err
    | inl replaced =>
        inl (replaced, SCMStatusDeliveryClaimOutcomeCreatedClaimed, true, reassertAfter)
    end
  else
    let '(claimed, outcome) := claimSCMStatusDelivery existing now claimOwner claimDuration in
    inl (claimed, outcome, is_claim outcome, None).

Definition AcquireForDelivery (newID : string) (input : SCMStatusDeliveryClaimInput)
    (r : SCMStatusDeliveryRepository)
    : SCMStatusDeliveryRepository * (SCMStatusDeliveryClaimResult + error) :=
  match normalizeSCMClaimInput input with
  | inr err => (r, inr err)
  | inl (delivery, now, claimOwner, claimDuration) =>
      let key := scmStatusDeliveryKey delivery in
      match sr_index r !! key with
      | Some existingID =>
          match reconcileSCMStatusDeliveryForClaim newID (deliveryAt r existingID) delivery now
                  claimOwner claimDuration (sci_MaxAttempts input) with
          | inr err => (r, inr err)
          | inl (claimed, outcome, persist, reassertAfter) =>
              (if persist then storeDelivery r existingID claimed else r,
               inl (mkSCMStatusDeliveryClaimResult claimed outcome reassertAfter))
          end
      | None =>
          let delivery :=
            if TrimSpace (sd_ID delivery) == "" then delivery <| sd_ID := newID |> else delivery in
          let delivery :=
            if IsZero (sd_CreatedAt delivery) then delivery <| sd_CreatedAt := now |>
            else delivery in
          let delivery :=
            claimed_first delivery now claimOwner claimDuration (sci_MaxAttempts input) None in
          match SCMStatusDelivery_Validate delivery with
          | Some err => (r, inr err)
          | None =>
              let r := storeDelivery r (sd_ID delivery) delivery in
              (r <| sr_index := <[key := sd_ID delivery]> (sr_index r) |>,
               inl (mkSCMStatusDeliveryClaimResult delivery
                      SCMStatusDeliveryClaimOutcomeCreatedClaimed None))
          end
      end
  end.

(** ** What can be recovered *)

Definition scmStatusDeliveryRecoverableDueAt (delivery : SCMStatusDelivery) (now : Time)
    : option Time :=
  let delivery := SCMStatusDelivery_Normalize delivery in
  if sd_Status delivery == SCMStatusDeliveryStatusRetryWaiting then
    match sd_NextAttemptAt delivery with
    | None => None
    | Some next => if After next now then None else Some next
    end
  else if sd_Status delivery == SCMStatusDeliveryStatusSending then
    match sd_ClaimExpiresAt delivery with
    | None => None
    | Some expires => if After expires now then None else Some expires
    end
  else None.

(** The pairs of a due delivery and its instant, in the order of the map. *)
Definition recoverableCandidates (now : Time) (deliveries : list SCMStatusDelivery)
    : list (SCMStatusDelivery * Time) :=
  omap (λ delivery, pair delivery <$> scmStatusDeliveryRecoverableDueAt delivery now) deliveries.

Definition candidateBefore (i j : SCMStatusDelivery * Time) : bool :=
  if negb (Equal i.2 j.2) then Before i.2 j.2 else string_lt (sd_ID i.1) (sd_ID j.1).

(** [deliveries] lists the values of the map in the order Go iterates it. *)
Definition listRecoverable (deliveries : list SCMStatusDelivery) (now : Time) (limit : Z)
    : list SCMStatusDelivery :=
  let candidates := sort_slice candidateBefore (recoverableCandidates now deliveries) in
  let candidates :=
    if limit <? Z.of_nat (length candidates) then take (Z.to_nat limit) candidates
    else candidates in
  fst <$> candidates.

Definition deliveriesInAnyOrder (r : SCMStatusDeliveryRepository) : list SCMStatusDelivery :=
  snd <$> map_to_list (sr_deliveries r).

Definition ListRecoverable (input : SCMStatusDeliveryRecoverableScanInput)
    (r : SCMStatusDeliveryRepository) : list SCMStatusDelivery + error :=
  if IsZero (ssi_Now input)
  then inr (Errorf "scm status delivery recoverable scan time is required")
  else if ssi_Limit input <=? 0
  then inr (Errorf "scm status delivery recoverable scan limit must be positive")
  else inl (listRecoverable (deliveriesInAnyOrder r) (ssi_Now input) (ssi_Limit input)).

(** ** Outcomes *)

Definition scmStatusDeliveryClaimMatches (delivery : SCMStatusDelivery) (claimOwner : string)
    (claimedAt : Time) : bool :=
  match sd_ClaimedBy delivery with
  | None => false
  | Some owner =>
      if TrimSpace owner != TrimSpace claimOwner then false
      else match sd_ClaimedAt delivery with
           | None => false
           | Some at_ => if IsZero at_ then false else Equal at_ claimedAt
           end
  end.

(** The common end of the updates: a valid delivery is stored under its id. *)
Definition updateDelivery (current : SCMStatusDelivery) (r : SCMStatusDeliveryRepository)
    : SCMStatusDeliveryRepository * (SCMStatusDeliveryUpdateResult + error) :=
  match SCMStatusDelivery_Validate current with
  | Some err => (r, inr err)
  | None =>
      (storeDelivery r (sd_ID current) current,
       inl (mkSCMStatusDeliveryUpdateResult current SCMStatusDeliveryUpdateOutcomeUpdated))
  end.

Definition lostClaim (current : SCMStatusDelivery)
    : SCMStatusDeliveryUpdateResult + error :=
  inl (mkSCMStatusDeliveryUpdateResult current SCMStatusDeliveryUpdateOutcomeLostClaim).

Definition released (current : SCMStatusDelivery) : SCMStatusDelivery :=
  current <| sd_ClaimedAt := None |> <| sd_ClaimExpiresAt := None |> <| sd_ClaimedBy := None |>.

Definition sentDelivery (input : SCMStatusDeliveryMarkSentInput) (current : SCMStatusDelivery)
    : SCMStatusDelivery :=
  let current := current <| sd_Status := SCMStatusDeliveryStatusSent |>
                         <| sd_UpdatedAt := smi_SentAt input |>
                         <| sd_SentAt := Some (smi_SentAt input) |>
                         <| sd_LastSentState := Some (smi_State input) |>
                         <| sd_NextAttemptAt := None |> in
  (released current) <| sd_FailureCategory := None |> <| sd_FailureReason := None |>
                   <| sd_LastError := None |> <| sd_SupersededAt := None |>.

Definition MarkSent (input : SCMStatusDeliveryMarkSentInput) (r : SCMStatusDeliveryRepository)
    : SCMStatusDeliveryRepository * (SCMStatusDeliveryUpdateResult + error) :=
  match sr_deliveries r !! TrimSpace (smi_DeliveryID input) with
  | None => (r, inr ErrSCMStatusDeliveryNotFound)
  | Some current =>
      if negb (scmStatusDeliveryClaimMatches current (TrimSpace (smi_ClaimOwner input))
                 (smi_ClaimedAt input))
      then (r, lostClaim current)
      else updateDelivery (sentDelivery input current) r
  end.

Definition normalizeSCMRecordFailureTime (value : option Time) : option Time :=
  normalizeSCMOptionalTime value.

Definition scmOptionalTrimmedString (value : string) : option string :=
  let trimmed := TrimSpace value in if trimmed == "" then None else Some trimmed.

Definition scmNormalizeOptionalString (value : option string) : option string :=
  trimSCMOptionalString value.

Definition failedDelivery (input : SCMStatusDeliveryRecordFailureInput)
    (status : SCMStatusDeliveryStatus) (current : SCMStatusDelivery) : SCMStatusDelivery :=
  let current := current <| sd_Status := status |>
                         <| sd_UpdatedAt := sfi_FailedAt input |>
                         <| sd_NextAttemptAt :=
                              normalizeSCMRecordFailureTime (sfi_NextAttemptAt input) |> in
  let current := (released current)
                         <| sd_FailureCategory := Some (sfi_FailureCategory input) |>
                         <| sd_FailureReason := scmOptionalTrimmedString (sfi_FailureReason input) |>
                         <| sd_LastError := scmNormalizeOptionalString (sfi_LastError input) |>
                         <| sd_SupersededAt := None |> in
  if (status == SCMStatusDeliveryStatusFailedExhausted)
     && (sd_Attempts current <? sd_MaxAttempts current)
  then current <| sd_Attempts := sd_MaxAttempts current |> else current.

Definition recordFailure (input : SCMStatusDeliveryRecordFailureInput)
    (status : SCMStatusDeliveryStatus) (r : SCMStatusDeliveryRepository)
    : SCMStatusDeliveryRepository * (SCMStatusDeliveryUpdateResult + error) :=
  match sr_deliveries r !! TrimSpace (sfi_DeliveryID input) with
  | None => (r, inr ErrSCMStatusDeliveryNotFound)
  | Some current =>
      if negb (scmStatusDeliveryClaimMatches current (TrimSpace (sfi_ClaimOwner input))
                 (sfi_ClaimedAt input))
      then (r, lostClaim current)
      else updateDelivery (failedDelivery input status current) r
  end.

Definition RecordRetryableFailure (input : SCMStatusDeliveryRecordFailureInput) :=
  recordFailure input SCMStatusDeliveryStatusRetryWaiting.

Definition RecordPermanentFailure (input : SCMStatusDeliveryRecordFailureInput) :=
  recordFailure input SCMStatusDeliveryStatusFailedPermanent.

Definition RecordExhaustedFailure (input : SCMStatusDeliveryRecordFailureInput) :=
  recordFailure input SCMStatusDeliveryStatusFailedExhausted.

Definition supersededDelivery (input : SCMStatusDeliveryMarkSupersededInput)
    (current : SCMStatusDelivery) : SCMStatusDelivery :=
  let current := current <| sd_Status := SCMStatusDeliveryStatusSuperseded |>
                         <| sd_UpdatedAt := spi_SupersededAt input |>
                         <| sd_SupersededAt := Some (spi_SupersededAt input) |>
                         <| sd_NextAttemptAt := None |> in
  (released current) <| sd_FailureCategory := Some SCMStatusDeliveryFailureCategoryPermanent |>
                   <| sd_FailureReason := scmOptionalTrimmedString (spi_Reason input) |>
                   <| sd_LastError := spi_LastError input |>.

(** A claim, when one is given, has to be the current one. *)
Definition supersededClaimLost (input : SCMStatusDeliveryMarkSupersededInput)
    (current : SCMStatusDelivery) : bool :=
  match spi_ClaimOwner input, spi_ClaimedAt input with
  | None, None => false
  | Some owner, Some claimedAt =>
      negb (scmStatusDeliveryClaimMatches current (TrimSpace owner) claimedAt)
  | _, _ => true
  end.

Definition MarkSuperseded (input : SCMStatusDeliveryMarkSupersededInput)
    (r : SCMStatusDeliveryRepository)
    : SCMStatusDeliveryRepository * (SCMStatusDeliveryUpdateResult + error) :=
  match sr_deliveries r !! TrimSpace (spi_DeliveryID input) with
  | None => (r, inr ErrSCMStatusDeliveryNotFound)
  | Some current =>
      if supersededClaimLost input current then (r, lostClaim current)
      else updateDelivery (supersededDelivery input current) r
  end.

(** ** Reads *)

Definition deliveryOfKey (key : string) (r : SCMStatusDeliveryRepository)
    : SCMStatusDelivery + error :=
  match sr_index r !! key with
  | None => inr ErrSCMStatusDeliveryNotFound
  | Some id =>
      match sr_deliveries r !! id with
      | None => inr ErrSCMStatusDeliveryNotFound
      | Some delivery => inl delivery
      end
  end.

Definition GetByKey (provider repositoryOwner repositoryName commitSHA contextName : string)
    : SCMStatusDeliveryRepository → SCMStatusDelivery + error :=
  deliveryOfKey (scmStatusDeliveryLegacyStreamKey (ToLower (TrimSpace provider))
    (TrimSpace repositoryOwner) (TrimSpace repositoryName) (TrimSpace commitSHA)
    (TrimSpace contextName)).

Definition GetByRepositoryIdentity
    (connectionID providerRepositoryID commitSHA contextName : string)
    : SCMStatusDeliveryRepository → SCMStatusDelivery + error :=
  deliveryOfKey (scmStatusDeliveryRepositoryStreamKey connectionID providerRepositoryID commitSHA
    contextName).
