(* ===== verification/DeliverySpec.v ===== *)
(** The life of a delivery, abstractly: what the stores of commit statuses and
    of notifications promise.  A delivery is claimed for a while, its holder
    records an outcome, and a failed attempt is repeated a bounded number of
    times.  ScmThms.v and NotifThms.v prove that the stores refine these
    rules. *)

From stdpp Require Import base gmap strings list numbers.
From S2P Require Import Prelude GoLib.

Open Scope go_scope.
Open Scope Z_scope.

(** ** Attempts *)

Inductive Phase :=
  | Pending
  | Sending (holder : string) (since until : Time)
  | RetryWaiting (next : Time)
  | Sent
  | FailedPermanent
  | FailedExhausted
  | Superseded.

#[export] Instance Phase_eq_dec : EqDecision Phase.
Proof. solve_decision. Defined.

(** Where a delivery stands: its phase, the attempts made and allowed. *)
Record Progress := mkProgress {
  pg_phase : Phase;
  pg_attempts : Z;
  pg_max : Z;
}.

(** When a delivery may be claimed: at once, when the retry is due, or when the
    claim before it has run out. *)
Definition claimable (p : Phase) (now : Time) : Prop :=
  match p with
  | Pending => True
  | RetryWaiting next => next ≤ now
  | Sending _ _ until => until ≤ now
  | _ => False
  end.

Definition final (p : Phase) : bool :=
  match p with
  | Sent | FailedPermanent | FailedExhausted | Superseded => true
  | _ => false
  end.

Inductive progress_step : Progress → Progress → Prop :=
  | ps_claim p n max holder now duration :
      claimable p now → n < max → 0 < duration →
      progress_step (mkProgress p n max)
        (mkProgress (Sending holder now (now + duration)) (n + 1) max)
  | ps_sent holder since until n max :
      progress_step (mkProgress (Sending holder since until) n max) (mkProgress Sent n max)
  | ps_retry holder since until n max next :
      n < max →
      progress_step (mkProgress (Sending holder since until) n max)
        (mkProgress (RetryWaiting next) n max)
  | ps_permanent holder since until n max :
      progress_step (mkProgress (Sending holder since until) n max)
        (mkProgress FailedPermanent n max)
  | ps_exhausted holder since until n max :
      progress_step (mkProgress (Sending holder since until) n max)
        (mkProgress FailedExhausted max max)
  | ps_superseded holder since until n max :
      progress_step (mkProgress (Sending holder since until) n max)
        (mkProgress Superseded n max).

(** The first claim of a delivery. *)
Definition first_claim (g : Progress) : Prop :=
  ∃ holder now duration max, 0 < duration ∧ 0 < max ∧
    g = mkProgress (Sending holder now (now + duration)) 1 max.

(** The number of attempts is bounded and only grows; a claim ends after it
    begins. *)
Definition progress_ok (g : Progress) : Prop :=
  0 ≤ pg_attempts g ≤ pg_max g ∧
  match pg_phase g with
  | Sending _ since until => since < until ∧ 1 ≤ pg_attempts g
  | RetryWaiting _ => pg_attempts g < pg_max g
  | FailedExhausted => pg_attempts g = pg_max g
  | _ => True
  end.

Lemma progress_step_ok g g' : progress_step g g' → progress_ok g → progress_ok g'.
Proof. destruct 1; unfold progress_ok; simpl; lia. Qed.

Lemma first_claim_ok g : first_claim g → progress_ok g.
Proof. intros (?&?&?&?&?&?&->). unfold progress_ok; simpl; lia. Qed.

Lemma progress_step_max g g' : progress_step g g' → pg_max g' = pg_max g.
Proof. by destruct 1. Qed.

Lemma progress_step_final g g' : progress_step g g' → final (pg_phase g) = false.
Proof. destruct 1; simpl; [|done..]. by destruct p. Qed.

(** Every step uses up an attempt or ends one. *)
Definition progress_left (g : Progress) : Z :=
  2 * (pg_max g - pg_attempts g) +
  match pg_phase g with Sending _ _ _ => 1 | _ => 0 end.

Lemma progress_step_left g g' :
  progress_step g g' → progress_ok g → progress_left g' < progress_left g.
Proof.
  intros H [Hn _]. unfold progress_left. destruct H; simpl in *; [|lia..].
  destruct p; lia.
Qed.

Lemma progress_left_bounds g : progress_ok g → 0 ≤ progress_left g.
Proof. intros [? _]. unfold progress_left. destruct (pg_phase g); lia. Qed.

(** A delivery takes at most two steps for each attempt that is left. *)
Lemma progress_ends k g g' :
  progress_ok g → nsteps progress_step k g g' → Z.of_nat k ≤ progress_left g.
Proof.
  intros Hg H. revert Hg. induction H as [g|k g g1 g2 H _ IH]; intros Hg.
  - apply progress_left_bounds in Hg. lia.
  - pose proof (progress_step_left _ _ H Hg). pose proof (IH (progress_step_ok _ _ H Hg)). lia.
Qed.
