(* ===== verification/ScmFacts.v ===== *)
(** Facts about commit statuses and their store: normal forms, the checks of a
    valid delivery, the keys of streams, and the invariant of the store. *)

From stdpp Require Import base gmap strings list pretty sorting numbers.
From S2P Require Import Prelude GoLib GoPath GoText Domain DeliverySpec ScmDelivery ScmRepo.

Open Scope go_scope.
Open Scope Z_scope.

Implicit Types (d : SCMStatusDelivery) (r : SCMStatusDeliveryRepository).

Local Abbreviation norm := SCMStatusDelivery_Normalize.

(** Project the fields of an explicit delivery. *)
Ltac scm_fields :=
  cbn [sd_ID sd_BuildID sd_BuildAttempt sd_BuildCreatedAt sd_Provider sd_RepositoryOwner
       sd_RepositoryName sd_RegisteredRepositoryID sd_SCMConnectionID sd_ProviderRepositoryID
       sd_CommitSHA sd_Context sd_DesiredState sd_LastSentState sd_Description sd_DetailsURL
       sd_Status sd_Attempts sd_MaxAttempts sd_LastAttemptAt sd_NextAttemptAt sd_ClaimedAt
       sd_ClaimExpiresAt sd_ClaimedBy sd_FailureCategory sd_FailureReason sd_LastError
       sd_SentAt sd_SupersededAt sd_CreatedAt sd_UpdatedAt] in *.

(** ** Normal forms *)

Lemma trim_optional_idemp o :
  trimSCMOptionalString (trimSCMOptionalString o) = trimSCMOptionalString o.
Proof.
  destruct o as [v|]; simpl; [|done]. destruct (bool_decide_reflect (TrimSpace v = "")); simpl; [done|].
  rewrite TrimSpace_idemp. by rewrite bool_decide_eq_false_2.
Qed.

Lemma trim_optional_some o v :
  trimSCMOptionalString o = Some v → v ≠ "" ∧ TrimSpace v = v.
Proof.
  destruct o as [w|]; simpl; [|done]. case_bool_decide; [done|]. intros [= <-].
  by rewrite TrimSpace_idemp.
Qed.

Lemma trim_optional_id v : v ≠ "" → TrimSpace v = v → trimSCMOptionalString (Some v) = Some v.
Proof. intros Hv Ht. simpl. rewrite Ht. by rewrite bool_decide_eq_false_2. Qed.

Lemma time_optional_idemp o :
  normalizeSCMOptionalTime (normalizeSCMOptionalTime o) = normalizeSCMOptionalTime o.
Proof. destruct o as [t|]; simpl; [|done]. by destruct (IsZero t) eqn:E; simpl; rewrite ?E. Qed.

Lemma IsZero_later t : zero_time < t → IsZero t = false.
Proof. unfold IsZero. intros. apply Z.eqb_neq. lia. Qed.

Lemma time_optional_id t : zero_time < t → normalizeSCMOptionalTime (Some t) = Some t.
Proof. intros. simpl. by rewrite IsZero_later. Qed.

(** The normal form, field by field. *)
Lemma norm_eq d :
  norm d = mkSCMStatusDelivery (sd_ID d) (TrimSpace (sd_BuildID d)) (sd_BuildAttempt d)
    (sd_BuildCreatedAt d) (ToLower (TrimSpace (sd_Provider d)))
    (TrimSpace (sd_RepositoryOwner d)) (TrimSpace (sd_RepositoryName d))
    (trimSCMOptionalString (sd_RegisteredRepositoryID d))
    (trimSCMOptionalString (sd_SCMConnectionID d))
    (trimSCMOptionalString (sd_ProviderRepositoryID d)) (TrimSpace (sd_CommitSHA d))
    (TrimSpace (sd_Context d)) (TrimSpace (sd_DesiredState d))
    (trimSCMOptionalString (sd_LastSentState d)) (TrimSpace (sd_Description d))
    (trimSCMOptionalString (sd_DetailsURL d)) (TrimSpace (sd_Status d)) (sd_Attempts d)
    (if sd_MaxAttempts d <=? 0 then 1 else sd_MaxAttempts d)
    (normalizeSCMOptionalTime (sd_LastAttemptAt d))
    (normalizeSCMOptionalTime (sd_NextAttemptAt d)) (normalizeSCMOptionalTime (sd_ClaimedAt d))
    (normalizeSCMOptionalTime (sd_ClaimExpiresAt d)) (trimSCMOptionalString (sd_ClaimedBy d))
    (trimSCMOptionalString (sd_FailureCategory d)) (trimSCMOptionalString (sd_FailureReason d))
    (trimSCMOptionalString (sd_LastError d)) (normalizeSCMOptionalTime (sd_SentAt d))
    (normalizeSCMOptionalTime (sd_SupersededAt d)) (sd_CreatedAt d) (sd_UpdatedAt d).
Proof.
  unfold SCMStatusDelivery_Normalize. f_equal. unfold IsZero.
  by destruct (Z.eqb_spec (sd_BuildCreatedAt d) zero_time).
Qed.

#[global] Arguments SCMStatusDelivery_Normalize : simpl never.

Lemma norm_idemp d : norm (norm d) = norm d.
Proof.
  rewrite (norm_eq (norm d)). rewrite (norm_eq d). scm_fields.
  rewrite !TrimSpace_idemp, !trim_optional_idemp, !time_optional_idemp, lower_trim_idemp.
  f_equal. by destruct (Z.leb_spec (sd_MaxAttempts d) 0); [|rewrite (proj2 (Z.leb_gt _ _))].
Qed.

Lemma norm_last_sent_trim d :
  trimSCMOptionalString (sd_LastSentState (norm d)) = sd_LastSentState (norm d).
Proof. rewrite norm_eq. scm_fields. apply trim_optional_idemp. Qed.

(** ** Valid deliveries *)

Lemma no_failed_check checks : failed_check checks = None ↔ Forall (λ c, c.1 = false) checks.
Proof.
  induction checks as [|[b m] checks IH]; simpl; [split; [constructor|done]|].
  rewrite Forall_cons_iff. simpl. destruct b; [naive_solver|]. rewrite IH. naive_solver.
Qed.

Lemma valid_iff d :
  SCMStatusDelivery_Validate d = None ↔
  SCMStatusDelivery_ValidateIdentity d = None ∧
  SCMStatusDelivery_ValidateIdentity (norm d) = None ∧
  Forall (λ c, c.1 = false) (scmStatusDeliveryChecks (norm d)).
Proof.
  unfold SCMStatusDelivery_Validate. rewrite <-no_failed_check. cbv zeta.
  generalize (failed_check (scmStatusDeliveryChecks (norm d))),
    (SCMStatusDelivery_ValidateIdentity (norm d)), (SCMStatusDelivery_ValidateIdentity d).
  intros [] [] []; naive_solver.
Qed.

(** The checks of the identity look at the identity only. *)
Definition identity d :=
  (sd_BuildID d, sd_BuildAttempt d, sd_BuildCreatedAt d,
   (sd_Provider d, sd_RepositoryOwner d, sd_RepositoryName d),
   (sd_RegisteredRepositoryID d, sd_SCMConnectionID d, sd_ProviderRepositoryID d),
   (sd_CommitSHA d, sd_Context d, sd_DesiredState d)).

Lemma ValidateIdentity_identity d d' :
  identity d = identity d' →
  SCMStatusDelivery_ValidateIdentity d = SCMStatusDelivery_ValidateIdentity d'.
Proof.
  intros H. unfold identity in H. simplify_eq. unfold SCMStatusDelivery_ValidateIdentity.
  by repeat match goal with H : _ d = _ |- _ => rewrite H; clear H end.
Qed.

Lemma norm_identity d d' : identity d = identity d' → identity (norm d) = identity (norm d').
Proof.
  intros H. rewrite !norm_eq. unfold identity in *. scm_fields. simplify_eq.
  by repeat match goal with H : _ d = _ |- _ => rewrite H; clear H end.
Qed.

Lemma key_identity d d' : identity d = identity d' → scmStatusDeliveryKey d = scmStatusDeliveryKey d'.
Proof.
  intros H%norm_identity. unfold scmStatusDeliveryKey. cbv zeta.
  generalize dependent (norm d'). generalize dependent (norm d). intros [] []. 
  unfold identity. scm_fields. by intros [= -> -> -> -> -> -> -> -> -> -> -> ->].
Qed.

Lemma key_norm d : scmStatusDeliveryKey (norm d) = scmStatusDeliveryKey d.
Proof. unfold scmStatusDeliveryKey. by rewrite norm_idemp. Qed.

(** The fields of the identity that a valid delivery has in normal form. *)
Lemma valid_desired d :
  SCMStatusDelivery_ValidateIdentity d = None → SCMCommitStatusState_IsValid (sd_DesiredState d) = true.
Proof.
  unfold SCMStatusDelivery_ValidateIdentity. intros H.
  destruct (failed_check _); [done|]. destruct (ValidateRepositoryIdentitySnapshot _ _ _); [done|].
  apply no_failed_check in H. rewrite !Forall_cons_iff in H. simpl in H.
  destruct H as (_ & _ & H & _). by apply negb_false_iff in H.
Qed.

Lemma valid_desired_trim d :
  SCMStatusDelivery_ValidateIdentity d = None → TrimSpace (sd_DesiredState d) = sd_DesiredState d.
Proof.
  intros H%valid_desired. unfold SCMCommitStatusState_IsValid in H.
  repeat (apply orb_true_iff in H as [H|H]);
    apply bool_decide_eq_true in H; rewrite H; vm_compute; reflexivity.
Qed.

(** ** Well-formed deliveries

    What the store keeps: a valid delivery that has a claim exactly while it is
    being sent. *)
Record wf_delivery d : Prop := {
  wf_valid : SCMStatusDelivery_Validate d = None;
  wf_status : TrimSpace (sd_Status d) = sd_Status d;
  wf_claim : sd_Status d = SCMStatusDeliveryStatusSending ∨
    (sd_ClaimedBy d = None ∧ sd_ClaimedAt d = None ∧ sd_ClaimExpiresAt d = None);
  wf_holder o : sd_ClaimedBy d = Some o → o ≠ "" ∧ TrimSpace o = o;
  wf_since t : sd_ClaimedAt d = Some t → zero_time < t;
  wf_until t : sd_ClaimExpiresAt d = Some t → zero_time < t;
  wf_max : 0 < sd_MaxAttempts d ≤ max_int64;
}.

(** The checks of a valid delivery, as propositions on its normal form. *)
Lemma valid_checks d : SCMStatusDelivery_Validate d = None →
  Forall (λ c, c.1 = false) (scmStatusDeliveryChecks (norm d)).
Proof. rewrite valid_iff. tauto. Qed.

(** Pick the [n]th check of the list. *)
Lemma nth_check d n c :
  SCMStatusDelivery_Validate d = None → scmStatusDeliveryChecks (norm d) !! n = Some c → c.1 = false.
Proof. intros H Hn. eapply (Forall_lookup_1 (λ c, c.1 = false)); [by apply valid_checks|done]. Qed.

Ltac check_at H n :=
  let C := fresh "C" in
  pose proof (nth_check _ n _ H eq_refl) as C; cbn [fst] in C.

Lemma norm_attempts d : sd_Attempts (norm d) = sd_Attempts d.
Proof. by rewrite norm_eq. Qed.

Lemma norm_max d : 0 < sd_MaxAttempts d → sd_MaxAttempts (norm d) = sd_MaxAttempts d.
Proof. intros. rewrite norm_eq. scm_fields. by rewrite (proj2 (Z.leb_gt _ _)). Qed.

Lemma norm_status d : sd_Status (norm d) = TrimSpace (sd_Status d).
Proof. by rewrite norm_eq. Qed.

Section wf.
  Context (d : SCMStatusDelivery) (Hd : wf_delivery d).

Lemma wf_norm_status : sd_Status (norm d) = sd_Status d.
Proof. rewrite norm_status. apply wf_status, Hd. Qed.

Lemma wf_norm_max : sd_MaxAttempts (norm d) = sd_MaxAttempts d.
Proof. apply norm_max, (wf_max d Hd). Qed.

Lemma wf_norm_by : sd_ClaimedBy (norm d) = sd_ClaimedBy d.
Proof.
  rewrite norm_eq. scm_fields. destruct (sd_ClaimedBy d) as [o|] eqn:E; [|done].
  by apply trim_optional_id; apply (wf_holder d Hd).
Qed.

Lemma wf_norm_at : sd_ClaimedAt (norm d) = sd_ClaimedAt d.
Proof.
  rewrite norm_eq. scm_fields. destruct (sd_ClaimedAt d) as [t|] eqn:E; [|done].
  by apply time_optional_id, (wf_since d Hd).
Qed.

Lemma wf_norm_until : sd_ClaimExpiresAt (norm d) = sd_ClaimExpiresAt d.
Proof.
  rewrite norm_eq. scm_fields. destruct (sd_ClaimExpiresAt d) as [t|] eqn:E; [|done].
  by apply time_optional_id, (wf_until d Hd).
Qed.

(** A claim that matches is the claim of a delivery that is being sent. *)
Lemma wf_claimed : sd_ClaimedBy d ≠ None → sd_Status d = SCMStatusDeliveryStatusSending.
Proof. intros H. destruct (wf_claim d Hd) as [?|(?&_)]; done. Qed.

Lemma wf_attempts : 0 ≤ sd_Attempts d ≤ sd_MaxAttempts d.
Proof.
  pose proof (wf_valid d Hd) as H. check_at H 0%nat. check_at H 1%nat.
  rewrite norm_attempts, wf_norm_max in *. bool_to_prop. lia.
Qed.

(** The claim of a delivery that is being sent. *)
Lemma wf_sending :
  sd_Status d = SCMStatusDeliveryStatusSending →
  1 ≤ sd_Attempts d ∧ ∃ o t u,
    sd_ClaimedBy d = Some o ∧ sd_ClaimedAt d = Some t ∧ sd_ClaimExpiresAt d = Some u ∧ t < u.
Proof.
  intros Hs. pose proof (wf_valid d Hd) as H.
  check_at H 14%nat. check_at H 15%nat. check_at H 16%nat.
  rewrite norm_attempts, wf_norm_status, wf_norm_by, wf_norm_at, wf_norm_until, Hs in *.
  rewrite bool_decide_eq_true_2 in * by done. simpl in *.
  destruct (sd_ClaimedBy d) as [o|], (sd_ClaimedAt d) as [t|], (sd_ClaimExpiresAt d) as [u|];
    try done.
  apply negb_false_iff, Z.ltb_lt in C1. bool_to_prop. split; [lia|]. naive_solver.
Qed.

Lemma wf_retry :
  sd_Status d = SCMStatusDeliveryStatusRetryWaiting → sd_Attempts d < sd_MaxAttempts d.
Proof.
  intros Hs. pose proof (wf_valid d Hd) as H. check_at H 11%nat.
  rewrite norm_attempts, wf_norm_status, wf_norm_max, Hs in C. by apply Z.leb_gt in C.
Qed.

Lemma wf_sent_state :
  sd_Status d = SCMStatusDeliveryStatusSent →
  sd_LastSentState (norm d) = Some (sd_DesiredState (norm d)).
Proof.
  intros Hs. pose proof (wf_valid d Hd) as H. check_at H 19%nat.
  rewrite wf_norm_status, Hs in C. change (bool_decide _) with true in C.
  change (differs (sd_LastSentState (norm d)) (sd_DesiredState (norm d)) = false) in C.
  unfold differs in C. destruct (sd_LastSentState (norm d)) as [s|]; [|done].
  apply negb_false_iff, bool_decide_eq_true in C. by rewrite C.
Qed.
End wf.
