(* ===== verification/ScmSpec.v ===== *)
(** The life of a commit status, abstractly: which build a stream belongs to,
    the state it should show, the state that was shown last, and the progress of
    its delivery.  The rules say when a stream may change hands. *)

From stdpp Require Import base gmap strings list numbers.
From S2P Require Import Prelude GoLib Domain DeliverySpec ScmDelivery.

Open Scope go_scope.
Open Scope Z_scope.

Record StreamView := mkStreamView {
  sv_build : string;
  sv_desired : SCMCommitStatusState;
  sv_sent : option SCMCommitStatusState;
  sv_progress : Progress;
}.

(** The state a stream is known to show was final, or it is meant to be. *)
Definition settled (v : StreamView) : bool :=
  SCMCommitStatusState_IsTerminal (sv_desired v)
  || match sv_sent v with Some state => SCMCommitStatusState_IsTerminal state | None => false end.

Section spec.

(** The attempt number and the creation of each build. *)
Context (birth : string → Z * Time).

(** Of two builds, the one of the later attempt is newer, then the one created
    later, then the one with the larger id. *)
Definition build_before : string → string → bool :=
  lex_less (λ a b, (birth a).1 <? (birth b).1)
    (lex_less (λ a b, (birth a).2 <? (birth b).2) string_lt).

#[export] Instance build_before_swo : StrictWeakOrder build_before.
Proof.
  apply lex_less_swo; [apply (ltb_key_swo (λ a, (birth a).1))|].
  apply lex_less_swo; [apply (ltb_key_swo (λ a, (birth a).2))|].
  apply (string_key_swo (λ s : string, s)).
Qed.

Inductive stream_step : StreamView → StreamView → Prop :=
  (** An attempt begins or ends; a success shows the desired state. *)
  | ss_progress b desired sent g g' :
      progress_step g g' →
      stream_step (mkStreamView b desired sent g)
        (mkStreamView b desired
           (if decide (pg_phase g' = Sent) then Some desired else sent) g')
  (** A newer build takes the stream over. *)
  | ss_newer b b' desired desired' sent g g' :
      build_before b b' = true → first_claim g' →
      stream_step (mkStreamView b desired sent g) (mkStreamView b' desired' None g')
  (** The build asks for another state; what is settled stays settled. *)
  | ss_state b desired desired' sent g g' :
      desired ≠ desired' → first_claim g' →
      (settled (mkStreamView b desired sent g) = true →
       SCMCommitStatusState_IsTerminal desired' = true) →
      stream_step (mkStreamView b desired sent g) (mkStreamView b desired' sent g').

Definition stream_initial (v : StreamView) : Prop := sv_sent v = None ∧ first_claim (sv_progress v).

(** ** What the rules keep *)

Lemma stream_step_progress v v' :
  stream_step v v' → progress_ok (sv_progress v) → progress_ok (sv_progress v').
Proof. destruct 1; simpl; eauto using progress_step_ok, first_claim_ok. Qed.

(** The build of a stream is never replaced by an older one. *)
Definition not_older (v v' : StreamView) : Prop :=
  sv_build v = sv_build v' ∨ build_before (sv_build v) (sv_build v') = true.

#[export] Instance not_older_preorder : PreOrder not_older.
Proof.
  split; [by left|]. intros v1 v2 v3 [E1|H1] [E2|H2]; unfold not_older;
    rewrite ?E1, <-?E2; auto. right. eapply less_trans; eauto.
Qed.

Lemma stream_step_build v v' : stream_step v v' → not_older v v'.
Proof. by destruct 1; [left|right|left]. Qed.

Lemma stream_steps_build v v' : rtc stream_step v v' → not_older v v'.
Proof. induction 1 as [|v1 v2 v3 H _ IH]; [done|]. etrans; [by apply stream_step_build|done]. Qed.

(** While the stream stays with a build, a final state is not taken back. *)
Lemma stream_step_settled v v' :
  stream_step v v' → build_before (sv_build v) (sv_build v') = false →
  settled v = true → SCMCommitStatusState_IsTerminal (sv_desired v) = true →
  SCMCommitStatusState_IsTerminal (sv_desired v') = true.
Proof. destruct 1; simpl; intros; [done|congruence|auto]. Qed.

Lemma stream_steps_final v v' :
  rtc stream_step v v' → sv_build v = sv_build v' →
  SCMCommitStatusState_IsTerminal (sv_desired v) = true →
  SCMCommitStatusState_IsTerminal (sv_desired v') = true.
Proof.
  induction 1 as [|v1 v2 v3 H1 H2 IH]; [done|]. intros E Ht.
  assert (E12 : build_before (sv_build v1) (sv_build v2) = false).
  { destruct (stream_steps_build _ _ H2) as [E2|E2].
    - rewrite E2, <-E. apply less_irrefl.
    - apply less_asym; [apply _|]. by rewrite E. }
  apply IH.
  - destruct (stream_step_build _ _ H1) as [?|?]; congruence.
  - eapply stream_step_settled; eauto. unfold settled. by rewrite Ht.
Qed.

End spec.
