(* ===== verification/ScmViews.v ===== *)
(** Commit statuses seen as the abstract streams of ScmSpec.v: what a claim and
    an outcome do to the view of one delivery. *)

From stdpp Require Import base gmap strings list pretty sorting numbers.
From S2P Require Import Prelude GoLib GoPath GoText Domain DeliverySpec ScmDelivery ScmRepo.
From S2P Require Import ScmFacts ScmSpec.

Open Scope go_scope.
Open Scope Z_scope.

Implicit Types (d : SCMStatusDelivery) (r : SCMStatusDeliveryRepository).

Local Abbreviation norm := SCMStatusDelivery_Normalize.

(** ** Views *)

Definition phase_of d : Phase :=
  if sd_Status d == SCMStatusDeliveryStatusPending then Pending
  else if sd_Status d == SCMStatusDeliveryStatusSending
  then Sending (default "" (sd_ClaimedBy d)) (default zero_time (sd_ClaimedAt d))
         (default zero_time (sd_ClaimExpiresAt d))
  else if sd_Status d == SCMStatusDeliveryStatusRetryWaiting
  then RetryWaiting (default zero_time (sd_NextAttemptAt d))
  else if sd_Status d == SCMStatusDeliveryStatusSent then Sent
  else if sd_Status d == SCMStatusDeliveryStatusFailedPermanent then FailedPermanent
  else if sd_Status d == SCMStatusDeliveryStatusFailedExhausted then FailedExhausted
  else Superseded.

Definition progress_of d : Progress :=
  mkProgress (phase_of (norm d)) (sd_Attempts d) (sd_MaxAttempts d).

Definition view_of d : StreamView :=
  mkStreamView (sd_BuildID (norm d)) (sd_DesiredState (norm d)) (sd_LastSentState (norm d))
    (progress_of d).

(** What the store says about the stream of a key. *)
Definition stream_view r (key : string) : option StreamView :=
  (λ id, view_of (deliveryAt r id)) <$> sr_index r !! key.

(** ** Claims *)

(** The owner and the times of a claim that is made. *)
Record claim_ok (now : Time) (owner : string) (duration : Z) : Prop := {
  claim_now : zero_time < now;
  claim_owner : owner ≠ "" ∧ TrimSpace owner = owner;
  claim_duration : 0 < duration;
}.

Section claims.
  Context (now : Time) (owner : string) (duration : Z) (Hclaim : claim_ok now owner duration).

Lemma claim_until : zero_time < now + duration.
Proof. destruct Hclaim. lia. Qed.

Lemma norm_claimed_again d :
  norm (claimed_again (norm d) now owner duration) = claimed_again (norm d) now owner duration.
Proof.
  destruct Hclaim as [Hnow [Ho Ht] Hd]. rewrite (norm_eq (claimed_again _ _ _ _)).
  rewrite (norm_eq d). unfold claimed_again. simpl sd_ClaimedBy. simpl sd_ClaimedAt.
  simpl sd_ClaimExpiresAt. simpl sd_LastAttemptAt.
  rewrite trim_optional_id, !time_optional_id by (done || apply claim_until).
  lazy -[TrimSpace ToLower trimSCMOptionalString normalizeSCMOptionalTime Z.leb Z.add int64_add
         SCMStatusDeliveryStatusSending].
  rewrite !TrimSpace_idemp, !trim_optional_idemp, !time_optional_idemp, lower_trim_idemp.
  destruct d. f_equal.
  match goal with |- context [?m <=? 0] => by destruct (Z.leb_spec m 0);
    [|rewrite (proj2 (Z.leb_gt _ _))] end.
Qed.

Lemma identity_claimed_again d :
  identity (claimed_again (norm d) now owner duration) = identity (norm d).
Proof. generalize (norm d). intros []. reflexivity. Qed.

Lemma claimed_again_keeps d :
  let d' := claimed_again d now owner duration in
  sd_ID d' = sd_ID d ∧ sd_BuildID d' = sd_BuildID d ∧ sd_BuildAttempt d' = sd_BuildAttempt d ∧
  sd_BuildCreatedAt d' = sd_BuildCreatedAt d.
Proof. destruct d. by split_and!. Qed.

(** What the checks look at. *)
Lemma claimed_again_fields d :
  let d' := claimed_again d now owner duration in
  (sd_Status d' = SCMStatusDeliveryStatusSending ∧ sd_NextAttemptAt d' = None ∧
   sd_ClaimedBy d' = Some owner ∧ sd_ClaimedAt d' = Some now ∧
   sd_ClaimExpiresAt d' = Some (now + duration)) ∧
  sd_Attempts d' = int64_add (sd_Attempts d) 1 ∧ sd_MaxAttempts d' = sd_MaxAttempts d ∧
  sd_FailureCategory d' = sd_FailureCategory d ∧ sd_LastSentState d' = sd_LastSentState d.
Proof. by split_and!. Qed.

Lemma checks_claimed_again d :
  Forall (λ c, c.1 = false) (scmStatusDeliveryChecks d) →
  0 ≤ sd_Attempts d < sd_MaxAttempts d → sd_MaxAttempts d ≤ max_int64 →
  Forall (λ c, c.1 = false) (scmStatusDeliveryChecks (claimed_again d now owner duration)).
Proof.
  destruct Hclaim as [Hnow [Ho Ht] Hdur]. intros Hc Hn Hm.
  pose proof (Forall_lookup_1 _ _ 3%nat _ Hc eq_refl) as C3.
  pose proof (Forall_lookup_1 _ _ 4%nat _ Hc eq_refl) as C4. clear Hc.
  destruct (claimed_again_fields d) as ((Es&En&Eb&Ea&Eu)&Ec&Em&Ef&El).
  rewrite int64_add_id in Ec by (unfold is_int64, min_int64; lia).
  set (d' := claimed_again d now owner duration) in *. clearbody d'.
  unfold scmStatusDeliveryChecks, SCMStatusDelivery_IsTerminal. cbv zeta.
  rewrite Es, En, Eb, Ea, Eu, Ec, Em, Ef, El.
  repeat (apply Forall_cons_2; [first [exact C3 | exact C4 | reflexivity | cbn [fst]; apply Z.ltb_ge; lia
    | cbn [fst]; unfold After; rewrite (proj2 (Z.ltb_lt _ _)) by lia; reflexivity
    | cbn [fst]; rewrite (proj2 (Z.ltb_ge _ _)) by lia; reflexivity] |]).
  apply Forall_nil_2.
Qed.

(** A due delivery that has attempts left is well-formed once it is claimed. *)
Lemma wf_claimed_again d :
  wf_delivery d → sd_Attempts d < sd_MaxAttempts d →
  wf_delivery (claimed_again (norm d) now owner duration).
Proof.
  intros Hd Hn. pose proof (wf_valid d Hd) as H. pose proof (wf_attempts d Hd) as Ha.
  pose proof (wf_max d Hd) as Hm. pose proof (wf_norm_max d Hd) as Em.
  pose proof Hclaim as [Hnow [Ho Ht] Hdur]. split.
  - apply valid_iff. rewrite norm_claimed_again.
    rewrite !(ValidateIdentity_identity _ _ (identity_claimed_again d)).
    apply valid_iff in H as (_ & H & Hc). split; [done|]. split; [done|].
    apply checks_claimed_again; [done|..]; rewrite Em, ?norm_attempts; lia.
  - reflexivity.
  - by left.
  - simpl. intros o [= <-]. done.
  - simpl. intros t [= <-]. done.
  - simpl. intros t [= <-]. lia.
  - change (0 < sd_MaxAttempts (norm d) ≤ max_int64). by rewrite Em.
Qed.

Lemma wf_claimed_first d maxAttempts lastSent :
  0 < maxAttempts ≤ max_int64 →
  SCMStatusDelivery_Validate (claimed_first d now owner duration maxAttempts lastSent) = None →
  wf_delivery (claimed_first d now owner duration maxAttempts lastSent).
Proof.
  intros Hmax H. destruct Hclaim as [Hnow [Ho Ht] Hdur]. split; [done|reflexivity|by left|..]; simpl.
  - intros o [= <-]. done.
  - intros t [= <-]. done.
  - intros t [= <-]. lia.
  - done.
Qed.
End claims.

(** ** Views of claims *)

Lemma view_claimed_again now owner duration d :
  claim_ok now owner duration → wf_delivery d → sd_Attempts d < sd_MaxAttempts d →
  view_of (claimed_again (norm d) now owner duration) =
  mkStreamView (sd_BuildID (norm d)) (sd_DesiredState (norm d)) (sd_LastSentState (norm d))
    (mkProgress (Sending owner now (now + duration)) (sd_Attempts d + 1) (sd_MaxAttempts d)).
Proof.
  intros Hclaim Hd Hn. unfold view_of, progress_of. rewrite norm_claimed_again by done.
  destruct (claimed_again_fields now owner duration (norm d)) as ((Es&_&Eb&Ea&Eu)&Ec&Em&_&_).
  unfold phase_of. rewrite Es, Eb, Ea, Eu, Ec, Em, (wf_norm_max d Hd), norm_attempts.
  rewrite int64_add_id; [reflexivity|].
  pose proof (wf_max d Hd). pose proof (wf_attempts d Hd). unfold is_int64, min_int64. lia.
Qed.

Lemma view_claimed_first now owner duration d maxAttempts lastSent :
  claim_ok now owner duration →
  view_of (claimed_first d now owner duration maxAttempts lastSent) =
  mkStreamView (sd_BuildID (norm d)) (sd_DesiredState (norm d)) (trimSCMOptionalString lastSent)
    (mkProgress (Sending owner now (now + duration)) 1 maxAttempts).
Proof.
  intros [Hnow [Ho Ht] Hdur]. unfold view_of, progress_of. f_equal. f_equal.
  unfold phase_of. rewrite norm_status.
  change (TrimSpace _) with SCMStatusDeliveryStatusSending. rewrite !bool_decide_eq_false_2 by done.
  rewrite bool_decide_eq_true_2 by done.
  change (sd_ClaimedBy _) with (trimSCMOptionalString (Some owner)).
  change (sd_ClaimedAt _) with (normalizeSCMOptionalTime (Some now)).
  change (sd_ClaimExpiresAt _) with (normalizeSCMOptionalTime (Some (now + duration))).
  by rewrite trim_optional_id, !time_optional_id by (done || lia).
Qed.

(** A delivery is claimed when it is due and has attempts left. *)
Lemma claim_outcome_due now d :
  wf_delivery d → zero_time < now →
  is_claim (SCMStatusDeliveryClaimOutcomeFromExisting (norm d) now) = true →
  claimable (phase_of (norm d)) now ∧ sd_Attempts d < sd_MaxAttempts d.
Proof.
  intros Hd Hnow. unfold SCMStatusDeliveryClaimOutcomeFromExisting, phase_of.
  rewrite norm_attempts, (wf_norm_max d Hd), (wf_norm_status d Hd).
  generalize (sd_Status d), (sd_ClaimExpiresAt (norm d)), (sd_NextAttemptAt (norm d)),
    (default "" (sd_ClaimedBy (norm d))), (default zero_time (sd_ClaimedAt (norm d))).
  intros s expires next holder since. unfold Before.
  repeat case_bool_decide; subst; try done;
    destruct (Z.leb_spec (sd_MaxAttempts d) (sd_Attempts d)); simpl; try done.
  - destruct expires as [u|]; [|done]. destruct (Z.ltb_spec now u); by simpl.
  - by destruct next as [u|]; [destruct (Z.ltb_spec now u)|].
  - destruct next as [u|]; [destruct (Z.ltb_spec now u); by simpl|]. simpl. auto with lia.
Qed.

(** ** Views of outcomes *)

(** The normal form of what an update leaves alone. *)
Lemma norm_kept d d' :
  identity d' = identity d →
  sd_BuildID (norm d') = sd_BuildID (norm d) ∧ sd_DesiredState (norm d') = sd_DesiredState (norm d).
Proof. intros H%norm_identity. unfold identity in H. split; congruence. Qed.

Lemma claim_matches_held d owner at_ :
  wf_delivery d → scmStatusDeliveryClaimMatches d owner at_ = true →
  sd_Status d = SCMStatusDeliveryStatusSending ∧
  sd_ClaimedBy d = Some (TrimSpace owner) ∧ sd_ClaimedAt d = Some at_.
Proof.
  intros Hd. unfold scmStatusDeliveryClaimMatches. destruct (sd_ClaimedBy d) as [o|] eqn:Eo; [|done].
  case_bool_decide as Ho; simpl; [|done]. destruct (sd_ClaimedAt d) as [t|]; [|done].
  destruct (IsZero t); [done|]. intros ->%Z.eqb_eq. split; [apply (wf_claimed d Hd); congruence|].
  split; [|done]. rewrite <-Ho. f_equal. symmetry. by apply (wf_holder d Hd).
Qed.

(** The progress of a delivery that is being sent. *)
Lemma view_sending d :
  wf_delivery d → sd_Status d = SCMStatusDeliveryStatusSending →
  ∃ holder since until, sd_ClaimedBy d = Some holder ∧ sd_ClaimedAt d = Some since ∧
    phase_of (norm d) = Sending holder since until.
Proof.
  intros Hd Hs. destruct (wf_sending d Hd Hs) as (_&o&t&u&Eo&Et&Eu&_). exists o, t, u.
  split; [done|]. split; [done|]. unfold phase_of.
  by rewrite (wf_norm_status d Hd), (wf_norm_by d Hd), (wf_norm_at d Hd), (wf_norm_until d Hd), Hs,
    Eo, Et, Eu.
Qed.

(** An update that is valid, releases the claim and keeps the identity. *)
Lemma wf_released d d' :
  wf_delivery d → SCMStatusDelivery_Validate d' = None → TrimSpace (sd_Status d') = sd_Status d' →
  sd_ClaimedBy d' = None ∧ sd_ClaimedAt d' = None ∧ sd_ClaimExpiresAt d' = None →
  sd_MaxAttempts d' = sd_MaxAttempts d → wf_delivery d'.
Proof.
  intros Hd Hv Hs (E1&E2&E3) Em. split; [done|done|by right|..].
  - by rewrite E1.
  - by rewrite E2.
  - by rewrite E3.
  - rewrite Em. apply (wf_max d Hd).
Qed.

Lemma wf_sent d input :
  wf_delivery d → SCMStatusDelivery_Validate (sentDelivery input d) = None →
  wf_delivery (sentDelivery input d).
Proof. intros Hd Hv. by eapply wf_released. Qed.

Lemma wf_superseded d input :
  wf_delivery d → SCMStatusDelivery_Validate (supersededDelivery input d) = None →
  wf_delivery (supersededDelivery input d).
Proof. intros Hd Hv. by eapply wf_released. Qed.

(** The possible statuses of a failure. *)
Definition failure_status (status : SCMStatusDeliveryStatus) : Prop :=
  status = SCMStatusDeliveryStatusRetryWaiting ∨ status = SCMStatusDeliveryStatusFailedPermanent ∨
  status = SCMStatusDeliveryStatusFailedExhausted.

Lemma failed_fields input status d :
  let d' := failedDelivery input status d in
  sd_Status d' = status ∧ sd_MaxAttempts d' = sd_MaxAttempts d ∧
  (sd_ClaimedBy d' = None ∧ sd_ClaimedAt d' = None ∧ sd_ClaimExpiresAt d' = None) ∧
  sd_ID d' = sd_ID d ∧ identity d' = identity d ∧ sd_LastSentState d' = sd_LastSentState d ∧
  sd_Attempts d' = if (status == SCMStatusDeliveryStatusFailedExhausted) &&
                      (sd_Attempts d <? sd_MaxAttempts d) then sd_MaxAttempts d else sd_Attempts d.
Proof.
  unfold failedDelivery. cbv zeta.
  set (b := (released _) <| sd_FailureCategory := _ |> <| sd_FailureReason := _ |>
    <| sd_LastError := _ |> <| sd_SupersededAt := _ |>).
  assert (Hb : sd_Status b = status ∧ sd_MaxAttempts b = sd_MaxAttempts d ∧
    (sd_ClaimedBy b = None ∧ sd_ClaimedAt b = None ∧ sd_ClaimExpiresAt b = None) ∧
    sd_ID b = sd_ID d ∧ identity b = identity d ∧ sd_LastSentState b = sd_LastSentState d ∧
    sd_Attempts b = sd_Attempts d) by (by split_and!).
  clearbody b. destruct Hb as (E1&E2&E3&E4&E5&E6&E7). rewrite E2, E7.
  destruct (_ && _); [|done]. destruct b; unfold identity in *; simpl in *. by rewrite E2.
Qed.

Lemma wf_failed input status d :
  wf_delivery d → failure_status status →
  SCMStatusDelivery_Validate (failedDelivery input status d) = None →
  wf_delivery (failedDelivery input status d).
Proof.
  intros Hd Hst Hv. destruct (failed_fields input status d) as (Es&Em&Ec&_).
  eapply wf_released; eauto. rewrite Es. by destruct Hst as [->|[->| ->]].
Qed.

(** An outcome of the attempt that is under way. *)
Lemma view_outcome birth d d' :
  wf_delivery d → sd_Status d = SCMStatusDeliveryStatusSending → wf_delivery d' →
  identity d' = identity d →
  (∀ holder since until, progress_step
     (mkProgress (Sending holder since until) (sd_Attempts d) (sd_MaxAttempts d))
     (progress_of d')) →
  sd_LastSentState (norm d') =
    (if decide (pg_phase (progress_of d') = Sent) then Some (sd_DesiredState (norm d))
     else sd_LastSentState (norm d)) →
  stream_step birth (view_of d) (view_of d').
Proof.
  intros Hd Hs Hd' Hi Hg Hl. destruct (view_sending d Hd Hs) as (holder&since&until&_&_&Ep).
  destruct (norm_kept d d' Hi) as [Eb Es].
  unfold view_of. rewrite Eb, Es, Hl. unfold progress_of at 1. rewrite Ep.
  apply ss_progress, Hg.
Qed.

Lemma phase_of_wf d :
  wf_delivery d → pg_phase (progress_of d) = phase_of (norm d) ∧ sd_Status (norm d) = sd_Status d.
Proof. intros Hd. by rewrite (wf_norm_status d Hd). Qed.

Lemma norm_last_sent d d' :
  sd_LastSentState d' = sd_LastSentState d →
  sd_LastSentState (norm d') = sd_LastSentState (norm d).
Proof. intros E. rewrite !norm_eq. scm_fields. by rewrite E. Qed.

Lemma progress_failed input status d :
  wf_delivery d → failure_status status →
  wf_delivery (failedDelivery input status d) →
  (∀ holder since until, progress_step
     (mkProgress (Sending holder since until) (sd_Attempts d) (sd_MaxAttempts d))
     (progress_of (failedDelivery input status d))) ∧
  pg_phase (progress_of (failedDelivery input status d)) ≠ Sent.
Proof.
  intros Hd Hst Hd'. destruct (failed_fields input status d) as (Es&Em&_&_&_&_&Ea).
  pose proof (wf_retry _ Hd') as Hr. pose proof (wf_attempts d Hd).
  set (d' := failedDelivery input status d) in *. clearbody d'.
  unfold progress_of, phase_of. rewrite (wf_norm_status _ Hd'), Es, Em.
  rewrite Es, Em in Hr. clear Es Em Hd'. 
  destruct Hst as [->|[->| ->]]; simpl in *; (split; [intros; rewrite Ea in *|done]).
  - constructor. auto.
  - constructor.
  - destruct (Z.ltb_spec (sd_Attempts d) (sd_MaxAttempts d)); [constructor|].
    replace (sd_Attempts d) with (sd_MaxAttempts d) at 2 by lia. constructor.
Qed.

Lemma view_failed birth input status d :
  wf_delivery d → sd_Status d = SCMStatusDeliveryStatusSending → failure_status status →
  wf_delivery (failedDelivery input status d) →
  stream_step birth (view_of d) (view_of (failedDelivery input status d)).
Proof.
  intros Hd Hs Hst Hd'. destruct (failed_fields input status d) as (_&_&_&_&Ei&El&_).
  destruct (progress_failed input status d Hd Hst Hd') as [Hg Hn].
  apply view_outcome; auto. rewrite decide_False by done. by apply norm_last_sent.
Qed.

Lemma view_sent birth input d :
  wf_delivery d → sd_Status d = SCMStatusDeliveryStatusSending →
  wf_delivery (sentDelivery input d) →
  stream_step birth (view_of d) (view_of (sentDelivery input d)).
Proof.
  intros Hd Hs Hd'.
  assert (E : sd_Status (sentDelivery input d) = SCMStatusDeliveryStatusSent ∧
    sd_Attempts (sentDelivery input d) = sd_Attempts d ∧
    sd_MaxAttempts (sentDelivery input d) = sd_MaxAttempts d ∧
    identity (sentDelivery input d) = identity d) by (by split_and!).
  destruct E as (Es&Ea&Em&Ei). pose proof (wf_sent_state _ Hd' Es) as El.
  destruct (norm_kept _ _ Ei) as [_ Ed].
  assert (Ep : progress_of (sentDelivery input d) = mkProgress Sent (sd_Attempts d) (sd_MaxAttempts d)).
  { unfold progress_of, phase_of. by rewrite (wf_norm_status _ Hd'), Es, Ea, Em. }
  apply view_outcome; [done..| |]; rewrite Ep; [constructor|]. rewrite decide_True by done. by rewrite El, Ed.
Qed.

Lemma view_superseded birth input d :
  wf_delivery d → sd_Status d = SCMStatusDeliveryStatusSending →
  wf_delivery (supersededDelivery input d) →
  stream_step birth (view_of d) (view_of (supersededDelivery input d)).
Proof.
  intros Hd Hs Hd'.
  assert (E : sd_Status (supersededDelivery input d) = SCMStatusDeliveryStatusSuperseded ∧
    sd_Attempts (supersededDelivery input d) = sd_Attempts d ∧
    sd_MaxAttempts (supersededDelivery input d) = sd_MaxAttempts d ∧
    identity (supersededDelivery input d) = identity d ∧
    sd_LastSentState (supersededDelivery input d) = sd_LastSentState d) by (by split_and!).
  destruct E as (Es&Ea&Em&Ei&El).
  assert (Ep : progress_of (supersededDelivery input d) =
    mkProgress Superseded (sd_Attempts d) (sd_MaxAttempts d)).
  { unfold progress_of, phase_of. by rewrite (wf_norm_status _ Hd'), Es, Ea, Em. }
  apply view_outcome; [done..| |]; rewrite Ep; [constructor|]. rewrite decide_False by done. by apply norm_last_sent.
Qed.

Lemma claim_result d now owner duration claimed outcome :
  claimSCMStatusDelivery d now owner duration = (claimed, outcome) → is_claim outcome = true →
  claimed = claimed_again (norm d) now owner duration ∧
  outcome = SCMStatusDeliveryClaimOutcomeFromExisting (norm d) now.
Proof.
  unfold claimSCMStatusDelivery. cbv zeta.
  generalize (SCMStatusDeliveryClaimOutcomeFromExisting (norm d) now),
    (claimed_again (norm d) now owner duration), (norm d).
  intros o x y. unfold is_claim. repeat case_bool_decide; simpl; intros; simplify_eq; done.
Qed.
