(* ===== verification/ScmOutcomes.v ===== *)
(** The outcomes of the holder of a claim are accepted: the updates of a
    delivery that is being sent are valid. *)

From stdpp Require Import base gmap strings list pretty sorting numbers.
From S2P Require Import Prelude GoLib GoPath GoText Domain DeliverySpec ScmDelivery ScmRepo.
From S2P Require Import ScmFacts ScmSpec ScmViews.

Open Scope go_scope.
Open Scope Z_scope.

Implicit Types (d : SCMStatusDelivery) (r : SCMStatusDeliveryRepository).

Local Abbreviation norm := SCMStatusDelivery_Normalize.

Lemma trim_constant s : s ≠ "" → TrimSpace s = s → trimSCMOptionalString (Some s) = Some s.
Proof. apply trim_optional_id. Qed.

(** The fields of the normal form that the checks look at, for a delivery that
    has released its claim. *)
Record released_fields d (status : string) (attempts max : Z) (next sent superseded : option Time)
    (last category : option string) : Prop := {
  rf_status : sd_Status (norm d) = status;
  rf_attempts : sd_Attempts (norm d) = attempts;
  rf_max : sd_MaxAttempts (norm d) = max;
  rf_next : sd_NextAttemptAt (norm d) = next;
  rf_sent : sd_SentAt (norm d) = sent;
  rf_superseded : sd_SupersededAt (norm d) = superseded;
  rf_last : sd_LastSentState (norm d) = last;
  rf_category : sd_FailureCategory (norm d) = category;
  rf_by : sd_ClaimedBy (norm d) = None;
  rf_at : sd_ClaimedAt (norm d) = None;
  rf_until : sd_ClaimExpiresAt (norm d) = None;
}.

(** An update with the identity of a valid delivery is valid when its checks pass. *)
Lemma valid_same_identity d d' :
  SCMStatusDelivery_Validate d = None → identity d' = identity d →
  Forall (λ c, c.1 = false) (scmStatusDeliveryChecks (norm d')) →
  SCMStatusDelivery_Validate d' = None.
Proof.
  rewrite !valid_iff. intros (H1&H2&_) Hi Hc.
  rewrite (ValidateIdentity_identity _ _ Hi).
  by rewrite (ValidateIdentity_identity _ _ (norm_identity _ _ Hi)).
Qed.

Ltac pass_checks R :=
  unfold scmStatusDeliveryChecks, SCMStatusDelivery_IsTerminal; cbv zeta;
  rewrite (rf_status _ _ _ _ _ _ _ _ _ R), (rf_attempts _ _ _ _ _ _ _ _ _ R),
    (rf_max _ _ _ _ _ _ _ _ _ R), (rf_next _ _ _ _ _ _ _ _ _ R), (rf_sent _ _ _ _ _ _ _ _ _ R),
    (rf_superseded _ _ _ _ _ _ _ _ _ R), (rf_last _ _ _ _ _ _ _ _ _ R),
    (rf_category _ _ _ _ _ _ _ _ _ R), (rf_by _ _ _ _ _ _ _ _ _ R), (rf_at _ _ _ _ _ _ _ _ _ R),
    (rf_until _ _ _ _ _ _ _ _ _ R);
  repeat (apply Forall_cons_2; [cbn [fst];
    first [reflexivity | assumption | apply Z.ltb_ge; lia
      | rewrite (proj2 (Z.ltb_ge _ _)) by lia; reflexivity
      | rewrite (proj2 (Z.leb_gt _ _)) by lia; reflexivity
      | rewrite Z.eqb_refl; reflexivity] |]);
  apply Forall_nil_2.

Section holder.
Context d (Hd : wf_delivery d) (Hs : sd_Status d = SCMStatusDeliveryStatusSending).

Lemma sent_valid input :
  zero_time < smi_SentAt input → smi_State input = sd_DesiredState d →
  SCMStatusDelivery_Validate (sentDelivery input d) = None.
Proof.
  intros Ht Hst. pose proof (wf_valid d Hd) as Hv.
  eapply valid_same_identity; [exact Hv|reflexivity|].
  pose proof (wf_attempts d Hd). destruct (wf_sending d Hd Hs) as [Hn _].
  apply valid_iff in Hv as [Hv _]. pose proof (valid_desired _ Hv) as Hdes.
  assert (Et : TrimSpace (sd_DesiredState d) = sd_DesiredState d) by (by apply valid_desired_trim).
  assert (En : sd_DesiredState d ≠ "") by (intros E; by rewrite E in Hdes).
  assert (R : released_fields (sentDelivery input d) SCMStatusDeliveryStatusSent (sd_Attempts d)
    (sd_MaxAttempts d) None (Some (smi_SentAt input)) None (Some (sd_DesiredState d)) None).
  { split; try reflexivity.
    - apply (norm_max (sentDelivery input d)), (wf_max d Hd).
    - by apply time_optional_id.
    - change (trimSCMOptionalString (Some (smi_State input)) = Some (sd_DesiredState d)).
      rewrite Hst. by apply trim_optional_id. }
  assert (Ed : sd_DesiredState (norm (sentDelivery input d)) = sd_DesiredState d) by exact Et.
  assert (C : set_and_invalid SCMCommitStatusState_IsValid (Some (sd_DesiredState d)) = false).
  { simpl. by rewrite Hdes. }
  unfold scmStatusDeliveryChecks. rewrite Ed.
  assert (C' : (SCMStatusDeliveryStatusSent == SCMStatusDeliveryStatusSent)
    && differs (Some (sd_DesiredState d)) (sd_DesiredState d) = false).
  { unfold differs. by rewrite !bool_decide_eq_true_2. }
  pass_checks R.
Qed.

Lemma superseded_valid input :
  zero_time < spi_SupersededAt input →
  SCMStatusDelivery_Validate (supersededDelivery input d) = None.
Proof.
  intros Ht. pose proof (wf_valid d Hd) as Hv.
  eapply valid_same_identity; [exact Hv|reflexivity|].
  pose proof (wf_attempts d Hd).
  pose proof (nth_check d 4%nat _ Hv eq_refl) as C4. cbn [fst] in C4.
  change (set_and_invalid SCMCommitStatusState_IsValid (sd_LastSentState (norm d)) = false) in C4.
  assert (R : released_fields (supersededDelivery input d) SCMStatusDeliveryStatusSuperseded
    (sd_Attempts d) (sd_MaxAttempts d) None (normalizeSCMOptionalTime (sd_SentAt d))
    (Some (spi_SupersededAt input)) (sd_LastSentState (norm d))
    (Some SCMStatusDeliveryFailureCategoryPermanent)).
  { split; try reflexivity.
    - apply (norm_max (supersededDelivery input d)), (wf_max d Hd).
    - by apply time_optional_id. }
  generalize dependent (sd_LastSentState (norm d)). intros last C4 R.
  set (d' := supersededDelivery input d) in *. clearbody d'. pass_checks R.
Qed.

(** The fields of a failure that [failed_fields] leaves out. *)
Lemma failed_fields_more input status :
  let d' := failedDelivery input status d in
  sd_NextAttemptAt d' = normalizeSCMOptionalTime (sfi_NextAttemptAt input) ∧
  sd_FailureCategory d' = Some (sfi_FailureCategory input) ∧
  sd_SentAt d' = sd_SentAt d ∧ sd_SupersededAt d' = None.
Proof.
  unfold failedDelivery. cbv zeta.
  set (b := (released _) <| sd_FailureCategory := _ |> <| sd_FailureReason := _ |>
    <| sd_LastError := _ |> <| sd_SupersededAt := _ |>).
  assert (Hb : sd_NextAttemptAt b = normalizeSCMOptionalTime (sfi_NextAttemptAt input) ∧
    sd_FailureCategory b = Some (sfi_FailureCategory input) ∧
    sd_SentAt b = sd_SentAt d ∧ sd_SupersededAt b = None) by (by split_and!).
  clearbody b. destruct (_ && _); [by destruct b|done].
Qed.

(** What a holder may report: a retry while attempts are left, or an end. *)
Definition failure_fits input status : Prop :=
  (status = SCMStatusDeliveryStatusRetryWaiting ∧ sd_Attempts d < sd_MaxAttempts d ∧
   sfi_FailureCategory input = SCMStatusDeliveryFailureCategoryRetryable ∧
   ∃ next, sfi_NextAttemptAt input = Some next ∧ zero_time < next) ∨
  (status = SCMStatusDeliveryStatusFailedPermanent ∧ sfi_NextAttemptAt input = None ∧
   sfi_FailureCategory input = SCMStatusDeliveryFailureCategoryPermanent) ∨
  (status = SCMStatusDeliveryStatusFailedExhausted ∧ sfi_NextAttemptAt input = None ∧
   sfi_FailureCategory input = SCMStatusDeliveryFailureCategoryRetryable).

Lemma failed_valid input status :
  failure_fits input status →
  SCMStatusDelivery_Validate (failedDelivery input status d) = None.
Proof.
  intros Hf. pose proof (wf_valid d Hd) as Hv. pose proof (wf_attempts d Hd) as Ha.
  pose proof (wf_max d Hd) as Hm. destruct (wf_sending d Hd Hs) as [Hn _].
  destruct (failed_fields input status d) as (Es&Em&(Eb&Ec&Eu)&_&Ei&El&Ea).
  destruct (failed_fields_more input status) as (En&Ef&Et&Ep).
  eapply valid_same_identity; [exact Hv|exact Ei|].
  pose proof (norm_last_sent _ _ El) as El'.
  pose proof (nth_check d 4%nat _ Hv eq_refl) as C4. cbn [fst] in C4.
  change (set_and_invalid SCMCommitStatusState_IsValid (sd_LastSentState (norm d)) = false) in C4.
  generalize dependent (sd_LastSentState (norm d)). intros last El' C4.
  set (d' := failedDelivery input status d) in *. clearbody d'. clear Ei Hv El.
  assert (R : released_fields d' (TrimSpace status) (sd_Attempts d') (sd_MaxAttempts d)
    (normalizeSCMOptionalTime (sd_NextAttemptAt d')) (normalizeSCMOptionalTime (sd_SentAt d)) None
    last (trimSCMOptionalString (Some (sfi_FailureCategory input)))).
  { split; try done; rewrite norm_eq; scm_fields; rewrite ?Es, ?Em, ?Et, ?Ep, ?Ef, ?Eb, ?Ec, ?Eu; try done.
    by rewrite (proj2 (Z.leb_gt _ _)) by lia. }
  rewrite Ea, En in R. clear Ea En Es Em Et Ep Ef Eb Ec Eu.
  destruct Hf as [(->&Hlt&Hc&next&Hx&Hz)|[(->&Hx&Hc)|(->&Hx&Hc)]]; rewrite Hc, Hx in R;
    rewrite ?time_optional_id in R by done; simpl in R.
  - pass_checks R.
  - pass_checks R.
  - replace (if sd_Attempts d <? sd_MaxAttempts d then sd_MaxAttempts d else sd_Attempts d)
      with (sd_MaxAttempts d) in R by (destruct (Z.ltb_spec (sd_Attempts d) (sd_MaxAttempts d)); lia).
    pass_checks R.
Qed.
End holder.
