(* ===== verification/ScmThms.v ===== *)
(** The store of commit statuses refines the abstract life of a stream
    (ScmSpec.v), and what follows: a stream belongs to its newest build, a final
    state is not taken back, attempts are bounded, claims are exclusive. *)

From stdpp Require Import base gmap strings list pretty sorting numbers.
From S2P Require Import Prelude GoLib GoPath GoText Domain DeliverySpec ScmDelivery ScmRepo.
From S2P Require Import ScmFacts ScmSpec ScmViews.

Open Scope go_scope.
Open Scope Z_scope.

Implicit Types (d : SCMStatusDelivery) (r : SCMStatusDeliveryRepository).

Local Abbreviation norm := SCMStatusDelivery_Normalize.

(** ** Calls *)

Inductive ScmCall :=
  | CallAcquire (newID : string) (input : SCMStatusDeliveryClaimInput)
  | CallSent (input : SCMStatusDeliveryMarkSentInput)
  | CallRetryable (input : SCMStatusDeliveryRecordFailureInput)
  | CallPermanent (input : SCMStatusDeliveryRecordFailureInput)
  | CallExhausted (input : SCMStatusDeliveryRecordFailureInput)
  | CallSuperseded (input : SCMStatusDeliveryMarkSupersededInput).

Definition run_scm (c : ScmCall) r : SCMStatusDeliveryRepository :=
  match c with
  | CallAcquire newID input => (AcquireForDelivery newID input r).1
  | CallSent input => (MarkSent input r).1
  | CallRetryable input => (RecordRetryableFailure input r).1
  | CallPermanent input => (RecordPermanentFailure input r).1
  | CallExhausted input => (RecordExhaustedFailure input r).1
  | CallSuperseded input => (MarkSuperseded input r).1
  end.

Section birth.
Context (birth : string → Z * Time).

Definition born d : Prop := (sd_BuildAttempt d, sd_BuildCreatedAt d) = birth (TrimSpace (sd_BuildID d)).

(** What the reporter sees to: the clock is past the year 1, a build has one
    attempt number and one creation, a new identifier is fresh, a request for a
    new stream has no identifier of its own, and only a holder supersedes. *)
Definition scm_guard (c : ScmCall) r : Prop :=
  match c with
  | CallAcquire newID input =>
      zero_time < sci_Now input ∧ sci_MaxAttempts input ≤ max_int64 ∧ born (sci_Delivery input) ∧
      (TrimSpace newID = newID ∧ newID ≠ "" ∧ sr_deliveries r !! newID = None) ∧
      (TrimSpace (sd_ID (sci_Delivery input)) = "" ∨
       is_Some (sr_index r !! scmStatusDeliveryKey (sci_Delivery input)))
  | CallSuperseded input => is_Some (spi_ClaimOwner input) ∧ is_Some (spi_ClaimedAt input)
  | _ => True
  end.

Inductive scm_reachable : SCMStatusDeliveryRepository → Prop :=
  | scm_new : scm_reachable NewSCMStatusDeliveryRepository
  | scm_call c r : scm_reachable r → scm_guard c r → scm_reachable (run_scm c r).

(** ** The invariant of the store *)

Record scm_ok r : Prop := {
  ok_delivery id d : sr_deliveries r !! id = Some d →
    sd_ID d = id ∧ TrimSpace id = id ∧ id ≠ "" ∧ wf_delivery d ∧ born d ∧
    sr_index r !! scmStatusDeliveryKey d = Some id;
  ok_index key id : sr_index r !! key = Some id →
    ∃ d, sr_deliveries r !! id = Some d ∧ scmStatusDeliveryKey d = key;
}.

Lemma deliveryAt_lookup r id d : sr_deliveries r !! id = Some d → deliveryAt r id = d.
Proof. unfold deliveryAt. by intros ->. Qed.

(** What a call may do to a stream. *)
Definition stream_change (v v' : option StreamView) : Prop :=
  match v, v' with
  | None, None => True
  | None, Some v' => stream_initial v'
  | Some v, Some v' => v = v' ∨ stream_step birth v v'
  | Some _, None => False
  end.

Lemma stream_change_refl v : stream_change v v.
Proof. destruct v; simpl; auto. Qed.

Definition call_ok r r' : Prop :=
  scm_ok r' ∧ ∀ key, stream_change (stream_view r key) (stream_view r' key).

Lemma call_ok_refl r : scm_ok r → call_ok r r.
Proof. intros H. split; [done|]. intros. apply stream_change_refl. Qed.

(** A delivery is replaced by one of the same stream. *)
Lemma replace_ok r id d d' :
  scm_ok r → sr_deliveries r !! id = Some d → sd_ID d' = id → wf_delivery d' → born d' →
  scmStatusDeliveryKey d' = scmStatusDeliveryKey d →
  stream_step birth (view_of d) (view_of d') → call_ok r (storeDelivery r id d').
Proof.
  intros [Hd Hi] Hl Hid Hwf Hb Hk Hs. destruct (Hd _ _ Hl) as (_&Ht&Hn&_&_&Hx). split; [split|].
  - simpl. intros id0 d0 [[<- <-]|[Hne H0]]%lookup_insert_Some; [|by apply Hd].
    by rewrite Hk.
  - simpl. intros key id0 H0. destruct (Hi _ _ H0) as (d0&H1&H2).
    destruct (decide (id0 = id)) as [->|Hne].
    + exists d'. rewrite lookup_insert_eq. split; [done|]. rewrite Hk. congruence.
    + exists d0. by rewrite lookup_insert_ne.
  - intros key. unfold stream_view. simpl. destruct (sr_index r !! key) as [id0|] eqn:E; [|done].
    simpl. unfold deliveryAt, storeDelivery. simpl. destruct (decide (id0 = id)) as [->|Hne].
    + rewrite lookup_insert_eq, Hl. by right.
    + rewrite lookup_insert_ne by done. by left.
Qed.

(** An update that validates. *)
Lemma update_ok r id d d' :
  scm_ok r → sr_deliveries r !! id = Some d → sd_ID d' = sd_ID d → identity d' = identity d →
  (SCMStatusDelivery_Validate d' = None → wf_delivery d' ∧ stream_step birth (view_of d) (view_of d')) →
  call_ok r (updateDelivery d' r).1.
Proof.
  intros Hok Hl Hid Hi Hv. unfold updateDelivery.
  destruct (SCMStatusDelivery_Validate d') eqn:E; simpl; [by apply call_ok_refl|].
  destruct (Hv eq_refl) as [Hwf Hs]. destruct (ok_delivery _ Hok _ _ Hl) as (Eid&_&_&_&Hb&_).
  rewrite Hid, Eid. eapply replace_ok; eauto.
  - congruence.
  - unfold born, identity in *. congruence.
  - by apply key_identity.
Qed.

Section outcomes.
Context r (Hok : scm_ok r).

Lemma claim_update_ok id owner at_ d d' :
  sr_deliveries r !! id = Some d → scmStatusDeliveryClaimMatches d owner at_ = true →
  sd_ID d' = sd_ID d → identity d' = identity d →
  (wf_delivery d → SCMStatusDelivery_Validate d' = None → wf_delivery d') →
  (wf_delivery d → sd_Status d = SCMStatusDeliveryStatusSending → wf_delivery d' →
   stream_step birth (view_of d) (view_of d')) →
  call_ok r (updateDelivery d' r).1.
Proof.
  intros Hl Hm Hid Hi Hwf Hs. destruct (ok_delivery _ Hok _ _ Hl) as (_&_&_&Hd&_).
  destruct (claim_matches_held _ _ _ Hd Hm) as [Hst _]. eapply update_ok; eauto.
Qed.

Lemma sent_ok input : call_ok r (MarkSent input r).1.
Proof.
  unfold MarkSent. destruct (sr_deliveries r !! _) as [d|] eqn:El; [|by apply call_ok_refl].
  destruct (scmStatusDeliveryClaimMatches _ _ _) eqn:Em; simpl; [|by apply call_ok_refl].
  eapply claim_update_ok; eauto using wf_sent, view_sent.
Qed.

Lemma failure_ok input status : failure_status status → call_ok r (recordFailure input status r).1.
Proof.
  intros Hst. unfold recordFailure.
  destruct (sr_deliveries r !! _) as [d|] eqn:El; [|by apply call_ok_refl].
  destruct (scmStatusDeliveryClaimMatches _ _ _) eqn:Em; simpl; [|by apply call_ok_refl].
  destruct (failed_fields input status d) as (_&_&_&Eid&Ei&_).
  eapply claim_update_ok; eauto using wf_failed, view_failed.
Qed.

Lemma superseded_ok input :
  is_Some (spi_ClaimOwner input) → is_Some (spi_ClaimedAt input) →
  call_ok r (MarkSuperseded input r).1.
Proof.
  intros [o Eo] [t Et]. unfold MarkSuperseded, supersededClaimLost. rewrite Eo, Et.
  destruct (sr_deliveries r !! _) as [d|] eqn:El; [|by apply call_ok_refl].
  destruct (scmStatusDeliveryClaimMatches _ _ _) eqn:Em; simpl; [|by apply call_ok_refl].
  eapply claim_update_ok; eauto using wf_superseded, view_superseded.
Qed.
End outcomes.

(** ** Claims *)

Lemma born_norm d : born d → (sd_BuildAttempt d, sd_BuildCreatedAt d) = birth (sd_BuildID (norm d)).
Proof. done. Qed.

Lemma norm_born d : born d → born (norm d).
Proof. unfold born. rewrite norm_eq. scm_fields. by rewrite TrimSpace_idemp. Qed.

(** The comparison of owners is the order of the builds. *)
Lemma compare_owners d1 d2 :
  born d1 → born d2 →
  let c := CompareSCMStatusDeliveryOwners d1 d2 in
  let b1 := sd_BuildID (norm d1) in let b2 := sd_BuildID (norm d2) in
  (c = 1 ∧ build_before birth b2 b1 = true) ∨ (c = -1 ∧ build_before birth b1 b2 = true) ∨
  (c = 0 ∧ b1 = b2).
Proof.
  intros H1 H2. cbv zeta. unfold CompareSCMStatusDeliveryOwners. rewrite !norm_eq. scm_fields.
  unfold born in H1, H2. rewrite !TrimSpace_idemp.
  destruct (bool_decide_reflect (TrimSpace (sd_BuildID d1) = TrimSpace (sd_BuildID d2))) as [->|Hne];
    [by right; right|].
  unfold build_before, lex_less, After, Before. rewrite <-H1, <-H2. simpl.
  destruct (Z.eqb_spec (sd_BuildAttempt d1) (sd_BuildAttempt d2)) as [->|Hne1]; simpl.
  - rewrite Z.ltb_irrefl. simpl.
    destruct (Z.ltb_spec (sd_BuildCreatedAt d2) (sd_BuildCreatedAt d1)),
      (Z.ltb_spec (sd_BuildCreatedAt d1) (sd_BuildCreatedAt d2)); simpl;
      try (exfalso; lia); auto.
    destruct (string_lt (TrimSpace (sd_BuildID d2)) (TrimSpace (sd_BuildID d1))) eqn:E1; [by left|].
    destruct (string_lt (TrimSpace (sd_BuildID d1)) (TrimSpace (sd_BuildID d2))) eqn:E2; [by right; left|].
    by destruct Hne; apply string_lt_antisym.
  - destruct (Z.ltb_spec (sd_BuildAttempt d2) (sd_BuildAttempt d1)),
      (Z.ltb_spec (sd_BuildAttempt d1) (sd_BuildAttempt d2)); simpl;
      try (exfalso; lia); auto.
Qed.

Lemma normalize_claim_input input x :
  normalizeSCMClaimInput input = inl x →
  x = (norm (sci_Delivery input), sci_Now input, TrimSpace (sci_ClaimOwner input),
       sci_ClaimDuration input) ∧
  TrimSpace (sci_ClaimOwner input) ≠ "" ∧ 0 < sci_ClaimDuration input ∧ 0 < sci_MaxAttempts input.
Proof.
  unfold normalizeSCMClaimInput. destruct (SCMStatusDelivery_ValidateIdentity _); [done|].
  destruct (IsZero _); [done|]. case_bool_decide; [done|].
  destruct (Z.leb_spec (sci_ClaimDuration input) 0); [done|].
  destruct (Z.leb_spec (sci_MaxAttempts input) 0); [done|]. by intros [= <-].
Qed.

(** The identity and the identifier of a first claim. *)
Lemma claimed_first_fields d now owner duration maxAttempts lastSent :
  let d' := claimed_first d now owner duration maxAttempts lastSent in
  sd_ID d' = sd_ID d ∧ identity d' = identity d ∧ sd_BuildAttempt d' = sd_BuildAttempt d ∧
  sd_BuildCreatedAt d' = sd_BuildCreatedAt d ∧ sd_BuildID d' = sd_BuildID d.
Proof. by split_and!. Qed.

Section acquire.
Context (now : Time) (owner : string) (duration maxAttempts : Z).
Context (Hclaim : claim_ok now owner duration) (Hmax : 0 < maxAttempts ≤ max_int64).

(** A first claim of a delivery with a given identity. *)
Lemma claimed_first_ok d i lastSent :
  SCMStatusDelivery_Validate (claimed_first d now owner duration maxAttempts lastSent) = None →
  identity d = identity (norm i) → born i →
  let d' := claimed_first d now owner duration maxAttempts lastSent in
  wf_delivery d' ∧ born d' ∧ scmStatusDeliveryKey d' = scmStatusDeliveryKey i ∧
  view_of d' = mkStreamView (sd_BuildID (norm i)) (sd_DesiredState (norm i))
    (trimSCMOptionalString lastSent)
    (mkProgress (Sending owner now (now + duration)) 1 maxAttempts).
Proof.
  intros Hv Hi Hb. cbv zeta.
  destruct (claimed_first_fields d now owner duration maxAttempts lastSent) as (_&Ei&_).
  rewrite Hi in Ei. split_and!.
  - by apply wf_claimed_first.
  - apply norm_born in Hb. unfold born, identity in *. congruence.
  - rewrite (key_identity _ _ Ei). apply key_norm.
  - rewrite view_claimed_first by done. destruct (norm_kept _ _ Hi) as [-> ->]. by rewrite norm_idemp.
Qed.

Lemma fresh_claim_spec newID d i lastSent d' :
  claimFreshSCMStatusDelivery newID (sd_ID d) (sd_CreatedAt d) i now owner duration maxAttempts
    lastSent = inl d' →
  sd_ID d ≠ "" → TrimSpace (sd_ID d) = sd_ID d → born i →
  sd_ID d' = sd_ID d ∧ wf_delivery d' ∧ born d' ∧
  scmStatusDeliveryKey d' = scmStatusDeliveryKey i ∧
  view_of d' = mkStreamView (sd_BuildID (norm i)) (sd_DesiredState (norm i))
    (trimSCMOptionalString lastSent)
    (mkProgress (Sending owner now (now + duration)) 1 maxAttempts).
Proof.
  unfold claimFreshSCMStatusDelivery. intros H Hn Ht Hb. cbv zeta in H. rewrite Ht in H.
  simpl sd_ID in H. rewrite bool_decide_eq_false_2 in H by done.
  destruct (SCMStatusDelivery_Validate _) eqn:E; [done|]. injection H as <-.
  split; [done|]. by apply (claimed_first_ok _ i).
Qed.

Lemma obsolete_settled d i b sent g :
  SCMStatusDeliveryIncomingStateObsolete d i = false → sd_LastSentState d = sent →
  settled (mkStreamView b (sd_DesiredState d) sent g) = true →
  SCMCommitStatusState_IsTerminal (sd_DesiredState i) = true.
Proof.
  unfold SCMStatusDeliveryIncomingStateObsolete, settled. intros H <-. simpl.
  destruct (SCMCommitStatusState_IsTerminal (sd_DesiredState i)); [done|].
  destruct (SCMCommitStatusState_IsTerminal (sd_DesiredState d)); [done|]. simpl in *.
  destruct (sd_LastSentState d) as [state|]; [|done].
  by destruct (SCMCommitStatusState_IsTerminal state).
Qed.

Lemma first_claim_progress : first_claim (mkProgress (Sending owner now (now + duration)) 1 maxAttempts).
Proof. destruct Hclaim, Hmax. exists owner, now, duration, maxAttempts. by split_and!. Qed.

(** What a claim stores for an existing stream. *)
Definition same_stream d i claimed : Prop :=
  sd_ID claimed = sd_ID d ∧ wf_delivery claimed ∧ born claimed ∧
  scmStatusDeliveryKey claimed = scmStatusDeliveryKey d ∧
  stream_step birth (view_of d) (view_of claimed) ∧ sv_build (view_of claimed) = sd_BuildID (norm i).

Lemma claimed_again_ok d i claimed outcome :
  claimSCMStatusDelivery (norm d) now owner duration = (claimed, outcome) →
  is_claim outcome = true → wf_delivery d → born d → sd_BuildID (norm d) = sd_BuildID (norm i) →
  same_stream d i claimed.
Proof.
  intros H Ho Hd Hb Hi. destruct (claim_result _ _ _ _ _ _ H Ho) as [-> ->].
  rewrite norm_idemp in Ho |- *. clear H. pose proof Hclaim as [Hnow _ Hdur].
  destruct (claim_outcome_due now d Hd Hnow Ho) as [Hdue Hlt].
  destruct (claimed_again_keeps now owner duration (norm d)) as (Ei&Eb&Ea&Ec). unfold same_stream.
  rewrite Ei, (key_identity _ _ (identity_claimed_again now owner duration d)), key_norm.
  rewrite view_claimed_again by done.
  split; [done|]. split; [by apply wf_claimed_again|]. split; [|split; [done|split; [|done]]].
  - apply norm_born in Hb. unfold born in *. by rewrite Eb, Ea, Ec.
  - pose proof (ss_progress birth (sd_BuildID (norm d)) (sd_DesiredState (norm d))
      (sd_LastSentState (norm d)) _ _
      (ps_claim (phase_of (norm d)) (sd_Attempts d) (sd_MaxAttempts d) owner now duration
         Hdue Hlt Hdur)) as Hs.
    by rewrite decide_False in Hs.
Qed.

Lemma replaced_ok newID d i lastSent claimed :
  claimFreshSCMStatusDelivery newID (sd_ID (norm d)) (sd_CreatedAt (norm d)) (norm i) now owner
    duration maxAttempts lastSent = inl claimed →
  born i → sd_ID d ≠ "" → TrimSpace (sd_ID d) = sd_ID d →
  scmStatusDeliveryKey i = scmStatusDeliveryKey d →
  (∀ g, first_claim g → stream_step birth (view_of d)
     (mkStreamView (sd_BuildID (norm i)) (sd_DesiredState (norm i)) (trimSCMOptionalString lastSent) g)) →
  same_stream d i claimed.
Proof.
  intros E Hb Hn Ht Hk Hs.
  apply (fresh_claim_spec newID (norm d) (norm i)) in E as (E1&E2&E3&E4&E5); [|done..|by apply norm_born].
  rewrite key_norm in E4. unfold same_stream. rewrite E5, norm_idemp.
  split_and!; [exact E1|exact E2|exact E3|congruence| |done]. apply Hs, first_claim_progress.
Qed.

Lemma reconcile_ok newID d i claimed outcome reassert :
  reconcileSCMStatusDeliveryForClaim newID d i now owner duration maxAttempts
    = inl (claimed, outcome, true, reassert) →
  wf_delivery d → born d → born i → sd_ID d ≠ "" → TrimSpace (sd_ID d) = sd_ID d →
  scmStatusDeliveryKey i = scmStatusDeliveryKey d → same_stream d i claimed.
Proof.
  intros H Hd Hbd Hbi Hn Ht Hk. revert H. unfold reconcileSCMStatusDeliveryForClaim. cbv zeta.
  pose proof (compare_owners (norm d) (norm i) (norm_born _ Hbd) (norm_born _ Hbi)) as Hc.
  cbv zeta in Hc. rewrite !norm_idemp in Hc.
  generalize dependent (CompareSCMStatusDeliveryOwners (norm d) (norm i)). intros c Hc.
  destruct Hc as [[-> Hb]|[[-> Hb]|[-> Hb]]]; intros H.
  - discriminate H.
  - destruct (claimFreshSCMStatusDelivery newID _ _ _ _ _ _ _ None) as [d'|] eqn:E; [|discriminate H].
    apply (inj inl) in H. apply pair_equal_spec in H as [H _]. apply pair_equal_spec in H as [H _].
    apply pair_equal_spec in H as [<- _].
    eapply replaced_ok; eauto. intros g Hg. by apply ss_newer.
  - destruct (SCMStatusDeliveryIncomingStateObsolete _ _) eqn:Eo; [discriminate H|].
    destruct (SCMStatusDeliveryShouldReplaceCurrentState _ _) eqn:Er.
    + destruct (claimFreshSCMStatusDelivery _ _ _ _ _ _ _ _ (sd_LastSentState (norm d)))
        as [d'|] eqn:E; [|discriminate H].
      apply (inj inl) in H. apply pair_equal_spec in H as [H _]. apply pair_equal_spec in H as [H _].
      apply pair_equal_spec in H as [<- _].
      eapply replaced_ok; eauto. intros g Hg. rewrite <-Hb.
      rewrite norm_last_sent_trim.
      apply ss_state; [|done|by eapply obsolete_settled].
      unfold SCMStatusDeliveryShouldReplaceCurrentState in Er.
      by apply negb_true_iff, bool_decide_eq_false in Er.
    + destruct (claimSCMStatusDelivery (norm d) now owner duration) as [claimed' outcome'] eqn:E.
      apply (inj inl) in H. apply pair_equal_spec in H as [H _]. apply pair_equal_spec in H as [H Ho].
      apply pair_equal_spec in H as [-> ->]. by eapply claimed_again_ok.
Qed.

(** A claim that stores nothing leaves a stream that is not the older build's. *)
Lemma reconcile_kept_owner newID d i claimed outcome reassert :
  reconcileSCMStatusDeliveryForClaim newID d i now owner duration maxAttempts
    = inl (claimed, outcome, false, reassert) →
  born d → born i →
  sd_BuildID (norm i) = sd_BuildID (norm d) ∨
  build_before birth (sd_BuildID (norm i)) (sd_BuildID (norm d)) = true.
Proof.
  intros H Hbd Hbi. revert H. unfold reconcileSCMStatusDeliveryForClaim. cbv zeta.
  pose proof (compare_owners (norm d) (norm i) (norm_born _ Hbd) (norm_born _ Hbi)) as Hc.
  cbv zeta in Hc. rewrite !norm_idemp in Hc.
  generalize dependent (CompareSCMStatusDeliveryOwners (norm d) (norm i)). intros c Hc.
  destruct Hc as [[-> Hb]|[[-> Hb]|[-> Hb]]]; intros H; [by right| |by left].
  destruct (claimFreshSCMStatusDelivery newID _ _ _ _ _ _ _ None) as [d'|] eqn:E; discriminate H.
Qed.
End acquire.

(** A new stream under a new identifier. *)
Lemma create_ok r d id key :
  scm_ok r → sr_index r !! key = None → sr_deliveries r !! id = None →
  sd_ID d = id → TrimSpace id = id → id ≠ "" → wf_delivery d → born d →
  scmStatusDeliveryKey d = key → stream_initial (view_of d) →
  call_ok r ((storeDelivery r id d) <| sr_index := <[key := id]> (sr_index r) |>).
Proof.
  intros [Hd Hi] Hkey Hnew Hid Ht Hn Hwf Hb Hk Hv. split; [split|]; simpl.
  - intros id0 d0 [[<- <-]|[Hne H0]]%lookup_insert_Some.
    + rewrite Hk, lookup_insert_eq. by split_and!.
    + destruct (Hd _ _ H0) as (?&?&?&?&?&Hx). split_and!; try done.
      rewrite lookup_insert_ne; [done|]. congruence.
  - intros key0 id0 [[<- <-]|[Hne H0]]%lookup_insert_Some.
    + exists d. by rewrite lookup_insert_eq.
    + destruct (Hi _ _ H0) as (d0&H1&H2). exists d0. rewrite lookup_insert_ne; [done|]. congruence.
  - intros key0. unfold stream_view. simpl. destruct (decide (key0 = key)) as [->|Hne].
    + rewrite lookup_insert_eq, Hkey. simpl. unfold deliveryAt. simpl. by rewrite lookup_insert_eq.
    + rewrite lookup_insert_ne by done. destruct (sr_index r !! key0) as [id0|] eqn:E; [|done].
      destruct (Hi _ _ E) as (d0&H1&_). simpl. left. unfold deliveryAt. simpl.
      rewrite lookup_insert_ne; [done|]. congruence.
Qed.

(** The stream of a request belongs to its build or to a newer one. *)
Definition owned_since i r : Prop :=
  ∃ v, stream_view r (scmStatusDeliveryKey i) = Some v ∧
    (sd_BuildID (norm i) = sv_build v ∨ build_before birth (sd_BuildID (norm i)) (sv_build v) = true).

Definition acquire_post i r (x : SCMStatusDeliveryRepository * (SCMStatusDeliveryClaimResult + error))
    : Prop := call_ok r x.1 ∧ ∀ res, x.2 = inl res → owned_since i x.1.

Lemma acquire_fails i r err : scm_ok r → acquire_post i r (r, inr err).
Proof. intros Hr. split; [by apply call_ok_refl|done]. Qed.

Lemma acquire_ok r newID input :
  scm_ok r → scm_guard (CallAcquire newID input) r →
  acquire_post (sci_Delivery input) r (AcquireForDelivery newID input r).
Proof.
  intros Hok (Hnow & Hmax & Hb & (Ht & Hn & Hfree) & Hid). unfold AcquireForDelivery.
  destruct (normalizeSCMClaimInput input) as [x|] eqn:E; [|by apply acquire_fails].
  destruct (normalize_claim_input _ _ E) as (-> & Ho & Hdur & Hpos). clear E. cbv zeta.
  assert (Hclaim : claim_ok (sci_Now input) (TrimSpace (sci_ClaimOwner input)) (sci_ClaimDuration input)).
  { split; [done|split; [done|apply TrimSpace_idemp]|done]. }
  rewrite key_norm. set (i := sci_Delivery input) in *.
  destruct (sr_index r !! scmStatusDeliveryKey i) as [id|] eqn:Ek.
  - destruct (ok_index _ Hok _ _ Ek) as (d&Hl&Hk). rewrite (deliveryAt_lookup _ _ _ Hl).
    destruct (ok_delivery _ Hok _ _ Hl) as (Hid1&Ht1&Hn1&Hwf&Hbd&_).
    destruct (reconcileSCMStatusDeliveryForClaim _ _ _ _ _ _ _) as [[[[claimed outcome] persist] re]|] eqn:E;
      [|by apply acquire_fails].
    destruct persist.
    + apply (reconcile_ok _ _ _ _ Hclaim (conj Hpos Hmax)) in E as (E1&E2&E3&E4&E5&E6);
        [|done..|by apply norm_born|congruence|congruence|by rewrite key_norm].
      split; [eapply replace_ok; eauto; congruence|]. intros _ _. exists (view_of claimed).
      unfold stream_view. simpl. rewrite Ek. simpl. unfold deliveryAt. simpl.
      rewrite lookup_insert_eq. split; [done|]. left. etrans; [|symmetry; exact E6]. by rewrite norm_idemp.
    + split; [by apply call_ok_refl|]. intros _ _. exists (view_of d).
      unfold stream_view. simpl. rewrite Ek. simpl. rewrite (deliveryAt_lookup _ _ _ Hl).
      split; [done|]. apply norm_born in Hb. eapply reconcile_kept_owner in E; [|done..].
      by rewrite norm_idemp in E.
  - destruct Hid as [Hid|[? Hid]]; [|congruence].
    change (sd_ID (norm i)) with (sd_ID i). rewrite (bool_decide_eq_true_2 _ Hid).
    set (d1 := (norm i) <| sd_ID := newID |>).
    set (d2 := if IsZero (sd_CreatedAt d1) then d1 <| sd_CreatedAt := sci_Now input |> else d1).
    assert (H2 : sd_ID d2 = newID ∧ identity d2 = identity (norm i)).
    { subst d2 d1. generalize (norm i). intros e. destruct (IsZero _); destruct e; split; reflexivity. }
    clearbody d2. destruct H2 as [Eid Ei].
    destruct (SCMStatusDelivery_Validate _) eqn:Ev; [by apply acquire_fails|].
    destruct (claimed_first_ok _ _ _ _ Hclaim (conj Hpos Hmax) _ i _ Ev Ei Hb) as (Hwf&Hbd&Hk&Hv).
    destruct (claimed_first_fields d2 (sci_Now input) (TrimSpace (sci_ClaimOwner input))
      (sci_ClaimDuration input) (sci_MaxAttempts input) None) as [Eid' _].
    set (d3 := claimed_first d2 _ _ _ _ None) in *. clearbody d3. rewrite Eid', Eid.
    change (sr_index (storeDelivery r newID d3)) with (sr_index r). split; cbn [fst].
    + apply create_ok; try done; [congruence|]. rewrite Hv. split; [done|].
      by apply first_claim_progress.
    + intros _ _. exists (view_of d3). unfold stream_view. simpl. rewrite lookup_insert_eq. simpl.
      unfold deliveryAt. simpl. rewrite lookup_insert_eq. split; [reflexivity|]. left. symmetry. exact (f_equal sv_build Hv).
Qed.

(** ** Every guarded call keeps the invariant and the rules *)

Lemma scm_call_ok c r : scm_ok r → scm_guard c r → call_ok r (run_scm c r).
Proof.
  intros Hok Hg. destruct c; simpl.
  - by apply (acquire_ok r newID input).
  - by apply sent_ok.
  - apply failure_ok; [done|by left].
  - apply failure_ok; [done|by right; left].
  - apply failure_ok; [done|by right; right].
  - destruct Hg. by apply superseded_ok.
Qed.

Lemma scm_reachable_ok r : scm_reachable r → scm_ok r.
Proof.
  induction 1 as [|c r _ IH Hg]; [by split|]. by apply scm_call_ok.
Qed.

End birth.
