(* ===== verification/ScmProps.v ===== *)
(** What the store of commit statuses guarantees: the refinement of the abstract
    stream, ownership, bounded retries, claims and the scan for recovery. *)

From stdpp Require Import base gmap strings list pretty sorting numbers.
From S2P Require Import Prelude GoLib GoPath GoText Domain DeliverySpec ScmDelivery ScmRepo.
From S2P Require Import ScmFacts ScmSpec ScmViews ScmOutcomes ScmThms.

Open Scope go_scope.
Open Scope Z_scope.

Implicit Types (d : SCMStatusDelivery) (r : SCMStatusDeliveryRepository).

Local Abbreviation norm := SCMStatusDelivery_Normalize.

Section props.
Context (birth : string → Z * Time).

Definition scm_step r r' : Prop := ∃ c, scm_guard birth c r ∧ r' = run_scm c r.

(** C9: the store of commit statuses implements the streams: each stored delivery
    is valid, is listed under the key of its stream and has a claim exactly while
    it is being sent, and a call creates a stream with a first claim, moves it by
    one rule, or leaves it alone. *)
Theorem scm_store_refines_streams r :
  scm_reachable birth r →
  (∀ id d, sr_deliveries r !! id = Some d →
     sd_ID d = id ∧ SCMStatusDelivery_Validate d = None ∧
     sr_index r !! scmStatusDeliveryKey d = Some id ∧
     (sd_Status d = SCMStatusDeliveryStatusSending ↔ is_Some (sd_ClaimedBy d))) ∧
  (∀ c key, scm_guard birth c r →
     stream_change birth (stream_view r key) (stream_view (run_scm c r) key)).
Proof.
  intros Hr%scm_reachable_ok. split.
  - intros id d Hl. destruct (ok_delivery _ _ Hr _ _ Hl) as (?&_&_&Hd&_&?).
    split_and!; [done|apply (wf_valid d Hd)|done|]. split.
    + intros Hs. destruct (wf_sending d Hd Hs) as (_&o&_&_&->&_). eauto.
    + intros [o Ho]. apply (wf_claimed d Hd). congruence.
  - intros c key Hg. by apply (scm_call_ok birth c r Hr Hg).
Qed.

(** ** Sequences of calls *)

Lemma scm_steps_reachable r r' : scm_reachable birth r → rtc scm_step r r' → scm_reachable birth r'.
Proof. intros Hr. induction 1 as [|r1 r2 r3 (c&Hg&->) _ IH]; [done|]. apply IH. by constructor. Qed.

Lemma scm_step_view r r' key v :
  scm_reachable birth r → scm_step r r' → stream_view r key = Some v →
  ∃ v', stream_view r' key = Some v' ∧ (v = v' ∨ stream_step birth v v').
Proof.
  intros Hr%scm_reachable_ok (c&Hg&->) Hv.
  pose proof (proj2 (scm_call_ok birth c r Hr Hg) key) as H. rewrite Hv in H.
  destruct (stream_view (run_scm c r) key) as [v'|]; [|done]. eauto.
Qed.

Lemma scm_steps_view r r' key v :
  scm_reachable birth r → rtc scm_step r r' → stream_view r key = Some v →
  ∃ v', stream_view r' key = Some v' ∧ rtc (stream_step birth) v v'.
Proof.
  intros Hr H. revert v. induction H as [|r1 r2 r3 H12 H23 IH]; intros v Hv; [eauto using rtc_refl|].
  destruct (scm_step_view _ _ _ _ Hr H12 Hv) as (v2&Hv2&Hs).
  assert (Hr2 : scm_reachable birth r2) by (destruct H12 as (c&?&->); by constructor).
  destruct (IH Hr2 v2 Hv2) as (v'&?&?). exists v'. split; [done|].
  destruct Hs as [->|Hs]; [done|]. by eapply rtc_l.
Qed.

(** C10: a stream belongs to its newest build.  Once a request of a build has been
    answered, the stream belongs to that build or to a newer one (of a later
    attempt, or created later, or with a larger id), whatever calls follow; and
    while it stays with a build, a final state (success, failure, error) is not
    taken back to pending. *)
Theorem stream_keeps_newest_build r newID input res r' :
  scm_reachable birth r → scm_guard birth (CallAcquire newID input) r →
  (AcquireForDelivery newID input r).2 = inl res →
  rtc scm_step (AcquireForDelivery newID input r).1 r' →
  let i := sci_Delivery input in let b := TrimSpace (sd_BuildID i) in
  ∃ v v', stream_view (AcquireForDelivery newID input r).1 (scmStatusDeliveryKey i) = Some v ∧
    stream_view r' (scmStatusDeliveryKey i) = Some v' ∧
    (b = sv_build v' ∨ build_before birth b (sv_build v') = true) ∧
    (sv_build v = sv_build v' → SCMCommitStatusState_IsTerminal (sv_desired v) = true →
     SCMCommitStatusState_IsTerminal (sv_desired v') = true).
Proof.
  intros Hr Hg Hres Hsteps. cbv zeta.
  destruct (acquire_ok birth r newID input (scm_reachable_ok birth r Hr) Hg) as [_ Hown].
  destruct (Hown _ Hres) as (v&Hv&Hb).
  assert (Hr1 : scm_reachable birth (AcquireForDelivery newID input r).1).
  { by apply (scm_call birth (CallAcquire newID input)). }
  destruct (scm_steps_view _ _ _ _ Hr1 Hsteps Hv) as (v'&Hv'&Hs).
  exists v, v'. split; [done|]. split; [done|]. split.
  - change (sd_BuildID (norm (sci_Delivery input))) with
      (TrimSpace (sd_BuildID (sci_Delivery input))) in Hb.
    pose proof (stream_steps_build _ _ _ Hs) as [E|H]; [by rewrite <-E|]. right.
    destruct Hb as [->|Hb]; [done|]. exact (less_trans _ _ _ Hb H).
  - intros E Ht. by eapply stream_steps_final.
Qed.

(** A call that moves a stream on within one build and one desired state. *)
Definition same_request_step (key : string) r r' : Prop :=
  scm_step r r' ∧ ∃ v v', stream_view r key = Some v ∧ stream_view r' key = Some v' ∧ v ≠ v' ∧
    sv_build v = sv_build v' ∧ sv_desired v = sv_desired v'.

Lemma stream_step_same v v' :
  stream_step birth v v' → sv_build v = sv_build v' → sv_desired v = sv_desired v' →
  progress_step (sv_progress v) (sv_progress v').
Proof.
  intros H. destruct H as [| |]; simpl; [done| |done]. intros E. exfalso.
  rewrite E, (less_irrefl (less := build_before birth)) in H. done.
Qed.

Lemma view_progress_ok r key v :
  scm_reachable birth r → stream_view r key = Some v → progress_ok (sv_progress v).
Proof.
  intros Hr Hv. revert v Hv. induction Hr as [|c r Hr IH Hg]; intros v' Hv'; [done|].
  pose proof (proj2 (scm_call_ok birth c r (scm_reachable_ok birth r Hr) Hg) key) as H.
  rewrite Hv' in H. destruct (stream_view r key) as [v|]; simpl in H.
  - destruct H as [<-|H]; [by apply IH|]. by eapply stream_step_progress; [|apply IH].
  - destruct H as [_ H]. by apply first_claim_ok.
Qed.

(** Retries end.  As long as a stream stays with its build and its desired
    state, at most two calls for each attempt that is left, and one more while an
    attempt is under way, change it; there are never more attempts than allowed. *)
Theorem retries_end r r' key v k :
  scm_reachable birth r → stream_view r key = Some v → nsteps (same_request_step key) k r r' →
  0 ≤ pg_attempts (sv_progress v) ≤ pg_max (sv_progress v) ∧
  Z.of_nat k ≤ 2 * (pg_max (sv_progress v) - pg_attempts (sv_progress v)) + 1.
Proof.
  intros Hr Hv H. pose proof (view_progress_ok _ _ _ Hr Hv) as Hok. split; [apply Hok|].
  assert (Hk : ∃ g', nsteps progress_step k (sv_progress v) g').
  { clear Hok. revert v Hv. induction H as [|k r1 r2 r3 [H12 (v1&v2&Hv1&Hv2&Hne&Eb&Ed)] _ IH];
      intros v Hv; [eexists; constructor|].
    rewrite Hv1 in Hv. injection Hv as <-.
    destruct (scm_step_view _ _ _ _ Hr H12 Hv1) as (v2'&Hv2'&Hs).
    rewrite Hv2 in Hv2'. injection Hv2' as <-. destruct Hs as [->|Hs]; [done|].
    assert (Hr2 : scm_reachable birth r2) by (destruct H12 as (c&?&->); by constructor).
    destruct (IH Hr2 v2 Hv2) as [g' Hg']. exists g'.
    eapply nsteps_l; [by apply stream_step_same|done]. }
  destruct Hk as [g' Hg']. pose proof (progress_ends _ _ _ Hok Hg') as Hk.
  unfold progress_left in Hk. destruct (pg_phase (sv_progress v)); lia.
Qed.

(** ** Claims and their outcomes *)

Lemma phase_sending d holder since until :
  wf_delivery d → phase_of (norm d) = Sending holder since until →
  sd_Status d = SCMStatusDeliveryStatusSending ∧ sd_ClaimedBy d = Some holder ∧
  sd_ClaimedAt d = Some since ∧ sd_ClaimExpiresAt d = Some until.
Proof.
  intros Hd H. assert (Hs : sd_Status d = SCMStatusDeliveryStatusSending).
  { revert H. unfold phase_of. rewrite (wf_norm_status d Hd). by repeat case_bool_decide. }
  split; [done|]. destruct (wf_sending d Hd Hs) as (_&o&t&u&Eo&Et&Eu&_).
  revert H. unfold phase_of.
  rewrite (wf_norm_status d Hd), (wf_norm_by d Hd), (wf_norm_at d Hd), (wf_norm_until d Hd), Hs,
    Eo, Et, Eu. simpl. by intros [= <- <- <-].
Qed.

(** A claim is held by its owner from the instant it was made. *)
Definition held (owner : string) (claimedAt : Time) d : Prop :=
  ∃ until, phase_of (norm d) = Sending (TrimSpace owner) claimedAt until.

Lemma claim_matches_iff d owner claimedAt :
  wf_delivery d →
  scmStatusDeliveryClaimMatches d (TrimSpace owner) claimedAt = true ↔ held owner claimedAt d.
Proof.
  intros Hd. split.
  - intros H. destruct (claim_matches_held _ _ _ Hd H) as (Hs&Eo&Et).
    destruct (view_sending d Hd Hs) as (h&t&u&Eo'&Et'&Ep). exists u.
    rewrite Ep. rewrite TrimSpace_idemp in Eo. congruence.
  - intros [u H]. destruct (phase_sending _ _ _ _ Hd H) as (_&Eo&Et&_).
    unfold scmStatusDeliveryClaimMatches. rewrite Eo, Et, !TrimSpace_idemp.
    rewrite bool_decide_eq_true_2 by done. simpl.
    rewrite IsZero_later by (by apply (wf_since d Hd)). apply Z.eqb_refl.
Qed.

Lemma claim_matches_false d owner claimedAt :
  wf_delivery d → ¬ held owner claimedAt d →
  scmStatusDeliveryClaimMatches d (TrimSpace owner) claimedAt = false.
Proof. intros Hd Hn. apply not_true_is_false. by rewrite claim_matches_iff. Qed.

Lemma update_valid r id d' :
  sd_ID d' = id → SCMStatusDelivery_Validate d' = None →
  updateDelivery d' r = (storeDelivery r id d',
    inl (mkSCMStatusDeliveryUpdateResult d' SCMStatusDeliveryUpdateOutcomeUpdated)).
Proof. intros <- Hv. unfold updateDelivery. by rewrite Hv. Qed.

Section records.
Context r (Hok : scm_ok birth r) id d (Hl : sr_deliveries r !! id = Some d).

Lemma sent_lost input :
  smi_DeliveryID input = id → ¬ held (smi_ClaimOwner input) (smi_ClaimedAt input) d →
  MarkSent input r = (r, lostClaim d).
Proof.
  destruct (ok_delivery _ _ Hok _ _ Hl) as (_&Ht&_&Hd&_).
  intros Ei Hn. unfold MarkSent. rewrite Ei, Ht, Hl. by rewrite (claim_matches_false _ _ _ Hd Hn).
Qed.

Lemma sent_recorded input :
  smi_DeliveryID input = id → held (smi_ClaimOwner input) (smi_ClaimedAt input) d →
  smi_State input = sd_DesiredState d → zero_time < smi_SentAt input →
  let d' := sentDelivery input d in
  MarkSent input r = (storeDelivery r id d',
    inl (mkSCMStatusDeliveryUpdateResult d' SCMStatusDeliveryUpdateOutcomeUpdated)).
Proof.
  destruct (ok_delivery _ _ Hok _ _ Hl) as (Hid&Ht&_&Hd&_).
  intros Ei Hh Hst Hat. unfold MarkSent. rewrite Ei, Ht, Hl.
  rewrite (proj2 (claim_matches_iff _ _ _ Hd) Hh). simpl.
  destruct Hh as [u Hh]. destruct (phase_sending _ _ _ _ Hd Hh) as [Hs _].
  apply update_valid; [exact Hid|by apply sent_valid].
Qed.

Lemma failure_lost input status :
  sfi_DeliveryID input = id → ¬ held (sfi_ClaimOwner input) (sfi_ClaimedAt input) d →
  recordFailure input status r = (r, lostClaim d).
Proof.
  destruct (ok_delivery _ _ Hok _ _ Hl) as (_&Ht&_&Hd&_).
  intros Ei Hn. unfold recordFailure. rewrite Ei, Ht, Hl. by rewrite (claim_matches_false _ _ _ Hd Hn).
Qed.

Lemma failure_recorded input status :
  sfi_DeliveryID input = id → held (sfi_ClaimOwner input) (sfi_ClaimedAt input) d →
  failure_fits d input status →
  let d' := failedDelivery input status d in
  recordFailure input status r = (storeDelivery r id d',
    inl (mkSCMStatusDeliveryUpdateResult d' SCMStatusDeliveryUpdateOutcomeUpdated)).
Proof.
  destruct (ok_delivery _ _ Hok _ _ Hl) as (Hid&Ht&_&Hd&_).
  intros Ei Hh Hf. unfold recordFailure. rewrite Ei, Ht, Hl.
  rewrite (proj2 (claim_matches_iff _ _ _ Hd) Hh). simpl.
  destruct Hh as [u Hh]. destruct (phase_sending _ _ _ _ Hd Hh) as [Hs _].
  destruct (failed_fields input status d) as (_&_&_&Eid&_).
  apply update_valid; [congruence|by apply failed_valid].
Qed.

Lemma superseded_recorded input owner claimedAt :
  spi_DeliveryID input = id → spi_ClaimOwner input = Some owner →
  spi_ClaimedAt input = Some claimedAt → held owner claimedAt d → zero_time < spi_SupersededAt input →
  let d' := supersededDelivery input d in
  MarkSuperseded input r = (storeDelivery r id d',
    inl (mkSCMStatusDeliveryUpdateResult d' SCMStatusDeliveryUpdateOutcomeUpdated)).
Proof.
  destruct (ok_delivery _ _ Hok _ _ Hl) as (Hid&Ht&_&Hd&_).
  intros Ei Eo Et Hh Hat. unfold MarkSuperseded, supersededClaimLost. rewrite Ei, Eo, Et, Ht, Hl.
  rewrite (proj2 (claim_matches_iff _ _ _ Hd) Hh). simpl.
  destruct Hh as [u Hh]. destruct (phase_sending _ _ _ _ Hd Hh) as [Hs _].
  apply update_valid; [exact Hid|by apply superseded_valid].
Qed.
End records.

(** C32: only the holder of a claim reports its outcome, and it is not refused.  A
    report under another owner or another instant, as of a reporter whose claim
    ran out and was taken over, changes nothing and is told so; the holder's
    success and its failures (a retry while attempts are left, a permanent or an
    exhausting failure) are stored. *)
Theorem outcome_follows_claim r id d owner claimedAt :
  scm_reachable birth r → sr_deliveries r !! id = Some d →
  (∀ input, smi_DeliveryID input = id → smi_ClaimOwner input = owner →
     smi_ClaimedAt input = claimedAt →
     (¬ held owner claimedAt d → MarkSent input r = (r, lostClaim d)) ∧
     (held owner claimedAt d → smi_State input = sd_DesiredState d → zero_time < smi_SentAt input →
      let d' := sentDelivery input d in
      MarkSent input r = (storeDelivery r id d',
        inl (mkSCMStatusDeliveryUpdateResult d' SCMStatusDeliveryUpdateOutcomeUpdated)))) ∧
  (∀ input status, sfi_DeliveryID input = id → sfi_ClaimOwner input = owner →
     sfi_ClaimedAt input = claimedAt →
     (¬ held owner claimedAt d → recordFailure input status r = (r, lostClaim d)) ∧
     (held owner claimedAt d → failure_fits d input status →
      let d' := failedDelivery input status d in
      recordFailure input status r = (storeDelivery r id d',
        inl (mkSCMStatusDeliveryUpdateResult d' SCMStatusDeliveryUpdateOutcomeUpdated)))).
Proof.
  intros Hr%scm_reachable_ok Hl.
  split; intros input; [intros <- <- <-|intros status <- <- <-]; split.
  - by eapply sent_lost.
  - by eapply sent_recorded.
  - by eapply failure_lost.
  - by eapply failure_recorded.
Qed.
End props.
