(* ===== verification/ScmRecover.v ===== *)
(** Recovery of commit statuses: a live claim excludes others, the scan for what
    is due, and a store that shows what happens when the last attempt is lost. *)

From stdpp Require Import base gmap strings list pretty sorting numbers.
From S2P Require Import Prelude GoLib GoPath GoText Domain DeliverySpec ScmDelivery ScmRepo.
From S2P Require Import ScmFacts ScmSpec ScmViews ScmOutcomes ScmThms ScmProps.

Open Scope go_scope.
Open Scope Z_scope.

Implicit Types (d : SCMStatusDelivery) (r : SCMStatusDeliveryRepository).

Local Abbreviation norm := SCMStatusDelivery_Normalize.

(** ** Claims that are refused *)

Definition gives_claim (outcome : SCMStatusDeliveryClaimOutcome) : bool :=
  (outcome == SCMStatusDeliveryClaimOutcomeCreatedClaimed) || is_claim outcome.

Section props.
Context (birth : string → Z * Time).

Lemma sending_refused d holder since until now :
  wf_delivery d → phase_of (norm d) = Sending holder since until →
  now < until ∨ sd_MaxAttempts d ≤ sd_Attempts d →
  gives_claim (SCMStatusDeliveryClaimOutcomeFromExisting (norm d) now) = false.
Proof.
  intros Hd Hp Hor. destruct (phase_sending _ _ _ _ Hd Hp) as (Hs&_&_&Hu).
  unfold SCMStatusDeliveryClaimOutcomeFromExisting.
  rewrite norm_attempts, (wf_norm_max d Hd), (wf_norm_status d Hd), (wf_norm_until d Hd), Hs, Hu.
  simpl. destruct (Z.leb_spec (sd_MaxAttempts d) (sd_Attempts d)); [done|].
  unfold Before. destruct (Z.ltb_spec now until); [done|lia].
Qed.

(** One reporter at a time.  While a claim lasts, a request of the same build
    for the same state is given no claim and changes nothing; once the last
    attempt has begun, this is so for ever. *)
Theorem live_claim_excludes r newID input v holder since until :
  scm_reachable birth r → scm_guard birth (CallAcquire newID input) r →
  let i := sci_Delivery input in
  stream_view r (scmStatusDeliveryKey i) = Some v →
  pg_phase (sv_progress v) = Sending holder since until →
  sv_build v = TrimSpace (sd_BuildID i) → sv_desired v = TrimSpace (sd_DesiredState i) →
  sci_Now input < until ∨ pg_max (sv_progress v) ≤ pg_attempts (sv_progress v) →
  (AcquireForDelivery newID input r).1 = r ∧
  ∀ res, (AcquireForDelivery newID input r).2 = inl res → gives_claim (scr_Outcome res) = false.
Proof.
  cbv zeta. intros Hr Hg Hv Hp Hb Hs Hor. pose proof (scm_reachable_ok _ _ Hr) as Hok.
  unfold AcquireForDelivery. destruct (normalizeSCMClaimInput input) as [x|] eqn:E; [|by split].
  destruct (normalize_claim_input _ _ E) as (-> & _). clear E. cbv zeta. rewrite key_norm.
  set (i := sci_Delivery input) in *. unfold stream_view in Hv.
  destruct (sr_index r !! scmStatusDeliveryKey i) as [id|] eqn:Ek; [|done]. simpl in Hv.
  destruct (ok_index _ _ Hok _ _ Ek) as (d&Hl&_). destruct (ok_delivery _ _ Hok _ _ Hl) as (_&_&_&Hd&Hbd&_).
  rewrite (deliveryAt_lookup _ _ _ Hl) in Hv |- *. injection Hv as <-.
  assert (Hbi : born birth (norm i)) by (apply norm_born, Hg).
  revert Hb Hs. change (sv_build (view_of d)) with (sd_BuildID (norm d)).
  change (sv_desired (view_of d)) with (sd_DesiredState (norm d)). intros Hb Hs.
  unfold reconcileSCMStatusDeliveryForClaim. cbv zeta.
  pose proof (compare_owners birth (norm d) (norm (norm i)) (norm_born _ _ Hbd) (norm_born _ _ Hbi)) as Hc.
  cbv zeta in Hc. rewrite !norm_idemp in Hc. rewrite !norm_idemp.
  generalize dependent (CompareSCMStatusDeliveryOwners (norm d) (norm i)). intros c Hc.
  change (sd_BuildID (norm i)) with (TrimSpace (sd_BuildID i)) in Hc. rewrite <-Hb in Hc.
  assert (c = 0) as ->.
  { destruct Hc as [[_ H]|[[_ H]|[? _]]]; [| |done];
      by rewrite (less_irrefl (less := build_before birth)) in H. }
  change (0 <? 0) with false. cbv iota.
  destruct (SCMStatusDeliveryIncomingStateObsolete _ _); [split; [done|by intros ? [= <-]]|].
  unfold SCMStatusDeliveryShouldReplaceCurrentState.
  change (sd_DesiredState (norm i)) with (TrimSpace (sd_DesiredState i)).
  rewrite (bool_decide_eq_true_2 _ Hs). cbv iota. simpl negb. cbv iota.
  unfold claimSCMStatusDelivery. rewrite norm_idemp.
  pose proof (sending_refused d _ _ _ (sci_Now input) Hd Hp Hor) as Ho.
  set (o := SCMStatusDeliveryClaimOutcomeFromExisting (norm d) (sci_Now input)) in *.
  clearbody o. assert (Hno : is_claim o = false).
  { unfold gives_claim in Ho. by apply orb_false_iff in Ho as [_ ?]. }
  replace ((o != _) && (o != _)) with true
    by (unfold is_claim in Hno; apply orb_false_iff in Hno as [-> ->]; done).
  rewrite Hno. split; [done|]. by intros ? [= <-].
Qed.
End props.

(** ** The scan *)

(** When a delivery in a phase is due for recovery. *)
Definition due_phase (p : Phase) : option Time :=
  match p with
  | RetryWaiting next => Some next
  | Sending _ _ until => Some until
  | _ => None
  end.

Lemma recoverable_due d now :
  wf_delivery d →
  scmStatusDeliveryRecoverableDueAt d now =
  match due_phase (phase_of (norm d)) with
  | Some t => if After t now then None else Some t
  | None => None
  end.
Proof.
  intros Hd. unfold scmStatusDeliveryRecoverableDueAt, phase_of. cbv zeta.
  rewrite (wf_norm_status d Hd).
  assert (Hs : sd_Status d = SCMStatusDeliveryStatusSending → is_Some (sd_ClaimExpiresAt (norm d))).
  { intros Hs. rewrite (wf_norm_until d Hd). destruct (wf_sending d Hd Hs) as (_&_&_&u&_&_&->&_). eauto. }
  assert (Hw : sd_Status d = SCMStatusDeliveryStatusRetryWaiting → is_Some (sd_NextAttemptAt (norm d))).
  { intros Hw. pose proof (wf_valid d Hd) as Hv. pose proof (nth_check d 12%nat _ Hv eq_refl) as C.
    cbn [fst] in C. rewrite (wf_norm_status d Hd), Hw in C.
    change (negb (is_set (sd_NextAttemptAt (norm d))) = false) in C.
    destruct (sd_NextAttemptAt (norm d)); [eauto|done]. }
  revert Hs Hw. generalize (sd_Status d). intros s Hs Hw.
  repeat case_bool_decide; subst; try done.
  - destruct Hw as [t ->]; done.
  - destruct Hs as [t ->]; done.
Qed.

Definition candidate_order (x y : SCMStatusDelivery * Time) : bool :=
  lex_less (λ x y, x.2 <? y.2) (λ x y, string_lt (sd_ID x.1) (sd_ID y.1)) x y.

Lemma candidateBefore_order x y : candidateBefore x y = candidate_order x y.
Proof.
  unfold candidateBefore, candidate_order, Equal, Before.
  lex_key (snd : SCMStatusDelivery * Time → Time) x y. done.
Qed.

#[local] Instance candidateBefore_swo : StrictWeakOrder candidateBefore.
Proof.
  apply (swo_ext _ candidate_order); [apply candidateBefore_order|].
  apply lex_less_swo; [apply (ltb_key_swo snd)|apply (string_key_swo (λ x, sd_ID x.1))].
Qed.

Section scan.
Context r (Hok : ∃ birth, scm_ok birth r).

Lemma stored_delivery d : d ∈ deliveriesInAnyOrder r ↔ ∃ id, sr_deliveries r !! id = Some d.
Proof.
  unfold deliveriesInAnyOrder. rewrite list_elem_of_fmap. split.
  - intros ([id d']&->&H%elem_of_map_to_list). eauto.
  - intros [id H%elem_of_map_to_list]. by exists (id, d).
Qed.

Lemma candidate_iff now d t l :
  l ≡ₚ deliveriesInAnyOrder r →
  (d, t) ∈ recoverableCandidates now l ↔
  (∃ id, sr_deliveries r !! id = Some d) ∧ due_phase (phase_of (norm d)) = Some t ∧ t ≤ now.
Proof.
  intros Hl. unfold recoverableCandidates. rewrite list_elem_of_omap. destruct Hok as [birth Hok'].
  assert (Hdue : ∀ d id, sr_deliveries r !! id = Some d →
    pair d <$> scmStatusDeliveryRecoverableDueAt d now = Some (d, t) ↔
    due_phase (phase_of (norm d)) = Some t ∧ t ≤ now).
  { intros d0 id H. destruct (ok_delivery _ _ Hok' _ _ H) as (_&_&_&Hd&_).
    rewrite (recoverable_due d0 now Hd). unfold After.
    destruct (due_phase _) as [u|]; [|naive_solver].
    destruct (Z.ltb_spec now u); simpl; [naive_solver lia|]. naive_solver lia. }
  split.
  - intros (d'&Hin&Hp). rewrite Hl, stored_delivery in Hin. destruct Hin as [id Hid].
    assert (d' = d) as -> by (destruct (scmStatusDeliveryRecoverableDueAt d' now); naive_solver).
    split; [eauto|]. by eapply Hdue.
  - intros ([id Hid]&Hp). exists d. rewrite Hl, stored_delivery. split; [eauto|]. by eapply Hdue.
Qed.

Lemma candidates_separated now l x y :
  l ≡ₚ deliveriesInAnyOrder r → x ∈ recoverableCandidates now l → y ∈ recoverableCandidates now l →
  candidateBefore x y = false → candidateBefore y x = false → x = y.
Proof.
  intros Hl Hx Hy. rewrite !candidateBefore_order. intros H1 H2.
  destruct (lex_less_incomparable _ _ _ _ H1 H2) as [[H3 H4] [H5 H6]].
  destruct x as [d1 t1], y as [d2 t2]. simpl in *.
  apply (candidate_iff now _ _ _ Hl) in Hx as ([i1 Hi1]&_), Hy as ([i2 Hi2]&_).
  destruct Hok as [birth Hok']. pose proof (string_lt_antisym _ _ H5 H6) as E.
  destruct (ok_delivery _ _ Hok' _ _ Hi1) as (E1&_), (ok_delivery _ _ Hok' _ _ Hi2) as (E2&_).
  assert (t1 = t2) as -> by lia. congruence.
Qed.

(** The scan in full: due deliveries in the order of their due times, as many as
    the limit allows, the earliest first, whatever the order of the map. *)
Lemma listRecoverable_spec now limit l :
  l ≡ₚ deliveriesInAnyOrder r → 0 < limit →
  ∃ due, listRecoverable (deliveriesInAnyOrder r) now limit = fst <$> take (Z.to_nat limit) due ∧
    listRecoverable l now limit = fst <$> take (Z.to_nat limit) due ∧
    StronglySorted (not_after candidateBefore) due ∧
    ∀ d t, (d, t) ∈ due ↔
      (∃ id, sr_deliveries r !! id = Some d) ∧ due_phase (phase_of (norm d)) = Some t ∧ t ≤ now.
Proof.
  intros Hl Hlim. exists (sort_slice candidateBefore (recoverableCandidates now l)).
  assert (Ht : ∀ l', (if limit <? Z.of_nat (length (sort_slice candidateBefore (recoverableCandidates now l')))
    then take (Z.to_nat limit) (sort_slice candidateBefore (recoverableCandidates now l'))
    else sort_slice candidateBefore (recoverableCandidates now l')) =
    take (Z.to_nat limit) (sort_slice candidateBefore (recoverableCandidates now l'))).
  { intros l'. destruct (Z.ltb_spec limit (Z.of_nat (length (sort_slice candidateBefore
      (recoverableCandidates now l'))))); [done|]. rewrite take_ge; [done|lia]. }
  split; [|split; [|split]].
  - unfold listRecoverable. rewrite Ht. f_equal. f_equal.
    apply (sort_slice_perm_eq _ _ _); [|unfold recoverableCandidates; by rewrite Hl].
    intros x y. by apply candidates_separated.
  - unfold listRecoverable. by rewrite Ht.
  - by apply sort_slice_sorted, _.
  - intros d t. rewrite elem_of_sort_slice. by apply candidate_iff.
Qed.

(** What a scan lists, and what it leaves out. *)
Lemma listed_due now limit d :
  0 < limit → d ∈ listRecoverable (deliveriesInAnyOrder r) now limit →
  (∃ id, sr_deliveries r !! id = Some d) ∧
  ∃ t, due_phase (phase_of (norm d)) = Some t ∧ t ≤ now.
Proof.
  intros Hlim. destruct (listRecoverable_spec now limit _ (reflexivity _) Hlim) as (due&->&_&_&Hdue).
  intros ([d' t]&->&Hin)%list_elem_of_fmap. apply elem_of_take in Hin as (k&Hk&_).
  apply list_elem_of_lookup_2, Hdue in Hk as (?&?&?). eauto.
Qed.

Lemma listed_or_full now limit id d t :
  0 < limit → sr_deliveries r !! id = Some d → due_phase (phase_of (norm d)) = Some t → t ≤ now →
  let res := listRecoverable (deliveriesInAnyOrder r) now limit in
  d ∈ res ∨ (Z.of_nat (length res) = limit ∧
    ∀ d', d' ∈ res → ∃ t', due_phase (phase_of (norm d')) = Some t' ∧ t' ≤ t).
Proof.
  intros Hlim Hid Hp Ht. cbv zeta.
  destruct (listRecoverable_spec now limit _ (reflexivity _) Hlim) as (due&->&_&Hsort&Hdue).
  assert (Hin : (d, t) ∈ due) by (apply Hdue; eauto). rewrite length_fmap, length_take.
  apply list_elem_of_lookup in Hin as [k Hk].
  destruct (decide (k < Z.to_nat limit)%nat) as [Hlt|Hge].
  - left. apply list_elem_of_fmap. exists (d, t). split; [done|]. apply elem_of_take. by exists k.
  - right. pose proof (lookup_lt_Some _ _ _ Hk). split; [lia|].
    intros d' ([d1 t1]&->&Hin)%list_elem_of_fmap. apply elem_of_take in Hin as (j&Hj&Hj').
    pose proof (list_elem_of_lookup_2 _ _ _ Hj) as Hin. apply Hdue in Hin as (_&?&_).
    exists t1. split; [done|].
    pose proof (StronglySorted_lookup _ _ _ _ _ _ Hsort Hj Hk ltac:(lia)) as Hle.
    unfold not_after in Hle. rewrite candidateBefore_order in Hle.
    unfold candidate_order, lex_less in Hle. simpl in Hle.
    destruct (Z.ltb_spec t t1); [done|lia].
Qed.

(** A delivery is listed once. *)
Lemma listed_distinct now limit :
  NoDup (sd_ID <$> listRecoverable (deliveriesInAnyOrder r) now limit).
Proof.
  unfold listRecoverable. cbv zeta.
  set (sorted := sort_slice candidateBefore _).
  assert (Hs : NoDup (sd_ID <$> (fst <$> sorted))).
  { unfold sorted. rewrite sort_slice_perm. destruct Hok as [birth Hok'].
    assert (Hin : ∀ d, d ∈ deliveriesInAnyOrder r → sr_deliveries r !! sd_ID d = Some d).
    { intros d [id Hid]%stored_delivery. destruct (ok_delivery _ _ Hok' _ _ Hid) as (->&_). done. }
    assert (Hnd : NoDup (sd_ID <$> deliveriesInAnyOrder r)).
    { unfold deliveriesInAnyOrder in *. rewrite <-list_fmap_compose.
      rewrite (list_fmap_ext _ fst); [apply NoDup_fst_map_to_list|].
      intros i [id d] Hi. apply list_elem_of_lookup_2, elem_of_map_to_list in Hi. simpl.
      by destruct (ok_delivery _ _ Hok' _ _ Hi). }
    clear Hin. unfold recoverableCandidates. revert Hnd. generalize (deliveriesInAnyOrder r).
    intros l. induction l as [|d l IH]; intros Hnd; [constructor|]. rewrite fmap_cons in Hnd.
    apply list.NoDup_cons in Hnd as [Hn Hnd]. specialize (IH Hnd). simpl.
    destruct (scmStatusDeliveryRecoverableDueAt d now) as [t|]; simpl; [|done].
    apply list.NoDup_cons. split; [|done]. intros (d'&E&Hd')%list_elem_of_fmap.
    apply list_elem_of_fmap in Hd' as ([d2 t2]&->&Hd'). apply list_elem_of_omap in Hd' as (d3&Hd3&E3).
    destruct (scmStatusDeliveryRecoverableDueAt d3 now); [|done]. injection E3 as -> _.
    apply Hn. rewrite E. by apply list_elem_of_fmap_2. }
  destruct (_ <? _); [|done]. rewrite !fmap_take.
  rewrite <-(take_drop (Z.to_nat limit) (sd_ID <$> (fst <$> sorted))) in Hs.
  by apply list.NoDup_app in Hs as [Hs _].
Qed.
End scan.

(** A scan lists due deliveries only (a retry whose time has come, a claim that
    ran out), in the order of their due times and then of their ids, no more than
    the limit, and leaves one out only if every listed one is due no later; the
    order in which Go iterates the map does not show. *)
Theorem ListRecoverable_spec birth r input l res :
  scm_reachable birth r → l ≡ₚ deliveriesInAnyOrder r → ListRecoverable input r = inl res →
  res = listRecoverable l (ssi_Now input) (ssi_Limit input) ∧
  Z.of_nat (length res) ≤ ssi_Limit input ∧
  (∀ d, d ∈ res → (∃ id, sr_deliveries r !! id = Some d) ∧
     ∃ t, due_phase (phase_of (norm d)) = Some t ∧ t ≤ ssi_Now input) ∧
  (∀ id d t, sr_deliveries r !! id = Some d → due_phase (phase_of (norm d)) = Some t →
     t ≤ ssi_Now input → d ∈ res ∨
     (Z.of_nat (length res) = ssi_Limit input ∧
      ∀ d', d' ∈ res → ∃ t', due_phase (phase_of (norm d')) = Some t' ∧ t' ≤ t)).
Proof.
  intros Hr%scm_reachable_ok Hl. unfold ListRecoverable. destruct (IsZero _); [done|].
  destruct (Z.leb_spec (ssi_Limit input) 0) as [|Hlim]; [done|]. intros [= <-].
  pose proof (ex_intro (λ birth, scm_ok birth r) birth Hr) as Hok.
  destruct (listRecoverable_spec r Hok (ssi_Now input) (ssi_Limit input) l Hl Hlim) as (due&E1&E2&_).
  split; [by rewrite E1, E2|]. split; [rewrite E1, length_fmap, length_take; lia|]. split.
  - intros d. by apply listed_due.
  - intros id d t. by apply listed_or_full.
Qed.

(** ** Examples *)

Definition ex_birth (build : string) : Z * Time :=
  if build == "b1" then (1, 10) else if build == "b2" then (2, 20) else (1, 30).

Definition ex_request (build sha : string) (state : SCMCommitStatusState) : SCMStatusDelivery :=
  zero_SCMStatusDelivery
    <| sd_BuildID := build |> <| sd_BuildAttempt := (ex_birth build).1 |>
    <| sd_BuildCreatedAt := (ex_birth build).2 |> <| sd_Provider := "GitHub" |>
    <| sd_RepositoryOwner := "octo" |> <| sd_RepositoryName := "repo" |>
    <| sd_CommitSHA := sha |> <| sd_Context := "coyote/p/j" |> <| sd_DesiredState := state |>.

Definition ex_acquire (newID build sha : string) (state : SCMCommitStatusState)
    (owner : string) (now : Time) : ScmCall :=
  CallAcquire newID (mkSCMStatusDeliveryClaimInput (ex_request build sha state) owner now 10 3).

Fixpoint run_scm_calls (cs : list ScmCall) r : SCMStatusDeliveryRepository :=
  match cs with [] => r | c :: cs => run_scm_calls cs (run_scm c r) end.

Fixpoint scm_guarded birth (cs : list ScmCall) r : Prop :=
  match cs with
  | [] => True
  | c :: cs => scm_guard birth c r ∧ scm_guarded birth cs (run_scm c r)
  end.

Lemma run_scm_calls_steps birth cs r :
  scm_guarded birth cs r → rtc (scm_step birth) r (run_scm_calls cs r).
Proof.
  revert r. induction cs as [|c cs IH]; intros r; simpl; [done|]. intros [Hg Hs].
  eapply rtc_l; [by exists c|]. by apply IH.
Qed.

Lemma run_scm_calls_reachable birth cs r :
  scm_reachable birth r → scm_guarded birth cs r → scm_reachable birth (run_scm_calls cs r).
Proof. intros Hr Hg. eapply scm_steps_reachable; [done|]. by apply run_scm_calls_steps. Qed.

(** Three attempts of one status, each by a reporter that never comes back; then
    another commit, whose first attempt fails and is to be repeated. *)
Definition ex_lost : list ScmCall :=
  [ ex_acquire "d1" "b1" "sha1" SCMCommitStatusStateSuccess "w1" 100;
    ex_acquire "x1" "b1" "sha1" SCMCommitStatusStateSuccess "w2" 110;
    ex_acquire "x2" "b1" "sha1" SCMCommitStatusStateSuccess "w3" 120 ].

Definition ex_failed : list ScmCall :=
  [ ex_acquire "d2" "b2" "sha2" SCMCommitStatusStateSuccess "w1" 140;
    CallRetryable (mkSCMStatusDeliveryRecordFailureInput "d2" "w1" 140 141 (Some 150)
      SCMStatusDeliveryFailureCategoryRetryable "network_timeout" None) ].

Definition ex_lost_store : SCMStatusDeliveryRepository := run_scm_calls ex_lost NewSCMStatusDeliveryRepository.
Definition ex_both_store : SCMStatusDeliveryRepository := run_scm_calls ex_failed ex_lost_store.

Ltac solve_scm_guard :=
  repeat match goal with
  | |- True => exact I
  | |- _ ∧ _ => split
  | |- _ < _ => vm_compute; reflexivity
  | |- _ ≤ _ => vm_compute; discriminate
  | |- _ ≠ _ => vm_compute; discriminate
  | |- _ = _ => vm_compute; reflexivity
  | |- is_Some _ => vm_compute; eexists; reflexivity
  | |- _ ∨ _ => left
  end.

Lemma ex_both_reachable : scm_reachable ex_birth ex_lost_store ∧ scm_reachable ex_birth ex_both_store.
Proof.
  assert (H : scm_reachable ex_birth ex_lost_store).
  { apply run_scm_calls_reachable; [constructor|].
    unfold ex_lost, ex_acquire. cbn [scm_guarded scm_guard]. unfold born. solve_scm_guard. }
  split; [done|]. apply run_scm_calls_reachable; [done|].
  unfold ex_failed, ex_acquire. cbn [scm_guarded scm_guard]. unfold born. solve_scm_guard.
Qed.

Definition ids_of (x : list SCMStatusDelivery + error) : list string :=
  match x with inl ds => sd_ID <$> ds | inr _ => [] end.

Definition outcome_of (x : SCMStatusDeliveryClaimResult + error)
    : option SCMStatusDeliveryClaimOutcome :=
  match x with inl res => Some (scr_Outcome res) | inr _ => None end.

Definition ex_late (now : Time) : SCMStatusDeliveryClaimInput :=
  mkSCMStatusDeliveryClaimInput (ex_request "b1" "sha1" SCMCommitStatusStateSuccess) "w4" now 10 3.

(** The first status stays being sent: a request long after the claim ran out is
    given none, and nothing ends the delivery.  Every scan lists it, before all
    that came due later: with a batch of one the second status is never retried. *)
Example lost_attempt_blocks_recovery :
  AcquireForDelivery "x3" (ex_late 500) ex_lost_store =
    (ex_lost_store, inl (mkSCMStatusDeliveryClaimResult (norm (deliveryAt ex_lost_store "d1"))
       SCMStatusDeliveryClaimOutcomeAttemptsExhausted None)) ∧
  sd_Status (deliveryAt ex_lost_store "d1") = SCMStatusDeliveryStatusSending ∧
  ids_of (ListRecoverable (mkSCMStatusDeliveryRecoverableScanInput 500 1) ex_both_store) = ["d1"] ∧
  ids_of (ListRecoverable (mkSCMStatusDeliveryRecoverableScanInput 500 25) ex_both_store) = ["d1"; "d2"].
Proof. vm_compute. split_and!; reflexivity. Qed.

(** ** The theorems on concrete stores *)

Lemma scm_store_refines_streams_witness :
  stream_change ex_birth (stream_view NewSCMStatusDeliveryRepository "github|octo|repo|sha1|coyote/p/j")
    (stream_view (run_scm (ex_acquire "d1" "b1" "sha1" SCMCommitStatusStateSuccess "w1" 100)
       NewSCMStatusDeliveryRepository) "github|octo|repo|sha1|coyote/p/j").
Proof.
  apply (scm_store_refines_streams ex_birth NewSCMStatusDeliveryRepository); [constructor|].
  unfold ex_acquire. cbn [scm_guard]. unfold born. solve_scm_guard.
Defined.

(** A rerun of the build takes the stream of the commit over. *)
Definition ex_rerun_input : SCMStatusDeliveryClaimInput :=
  mkSCMStatusDeliveryClaimInput (ex_request "b2" "sha1" SCMCommitStatusStateFailure) "w5" 300 10 3.

Lemma stream_keeps_newest_build_witness :
  sd_BuildID (deliveryAt (run_scm (ex_acquire "x4" "b1" "sha1" SCMCommitStatusStateSuccess "w6" 310)
    (AcquireForDelivery "x3" ex_rerun_input ex_lost_store).1) "d1") = "b2".
Proof.
  assert (Hg : scm_guard ex_birth (CallAcquire "x3" ex_rerun_input) ex_lost_store).
  { cbn [scm_guard]. unfold born. solve_scm_guard. }
  destruct (stream_keeps_newest_build ex_birth ex_lost_store "x3" ex_rerun_input
    (mkSCMStatusDeliveryClaimResult
       (deliveryAt (AcquireForDelivery "x3" ex_rerun_input ex_lost_store).1 "d1")
       SCMStatusDeliveryClaimOutcomeCreatedClaimed None)
    (run_scm (ex_acquire "x4" "b1" "sha1" SCMCommitStatusStateSuccess "w6" 310)
      (AcquireForDelivery "x3" ex_rerun_input ex_lost_store).1)) as (v&v'&_&Hv'&Hb&_).
  - apply ex_both_reachable.
  - exact Hg.
  - vm_compute. reflexivity.
  - apply rtc_once. exists (ex_acquire "x4" "b1" "sha1" SCMCommitStatusStateSuccess "w6" 310).
    split; [|reflexivity]. unfold ex_acquire. cbn [scm_guard]. unfold born. solve_scm_guard.
  - vm_compute. reflexivity.
Defined.

Lemma retries_end_witness :
  (Z.of_nat 1 ≤ 2 * (3 - 1) + 1)%Z.
Proof.
  destruct (retries_end ex_birth
    (run_scm (ex_acquire "d1" "b1" "sha1" SCMCommitStatusStateSuccess "w1" 100) NewSCMStatusDeliveryRepository)
    (run_scm_calls (take 2 ex_lost) NewSCMStatusDeliveryRepository)
    "github|octo|repo|sha1|coyote/p/j"
    (mkStreamView "b1" "success" None (mkProgress (Sending "w1" 100 110) 1 3)) 1) as [_ H].
  - apply scm_call; [constructor|]. unfold ex_acquire. cbn [scm_guard]. unfold born. solve_scm_guard.
  - vm_compute. reflexivity.
  - eapply nsteps_once. split.
    + exists (ex_acquire "x1" "b1" "sha1" SCMCommitStatusStateSuccess "w2" 110).
      split; [|reflexivity]. unfold ex_acquire. cbn [scm_guard]. unfold born. solve_scm_guard.
    + eexists _, _. split; [vm_compute; reflexivity|]. split; [vm_compute; reflexivity|].
      split; [discriminate|by split].
  - exact H.
Defined.

Lemma outcome_follows_claim_witness :
  MarkSent (mkSCMStatusDeliveryMarkSentInput "d1" "w2" 110 130 SCMCommitStatusStateSuccess) ex_lost_store
    = (ex_lost_store, lostClaim (deliveryAt ex_lost_store "d1")) ∧
  sd_Status (deliveryAt (MarkSent (mkSCMStatusDeliveryMarkSentInput "d1" "w3" 120 130
    SCMCommitStatusStateSuccess) ex_lost_store).1 "d1") = SCMStatusDeliveryStatusSent.
Proof.
  assert (Hl : sr_deliveries ex_lost_store !! "d1" = Some (deliveryAt ex_lost_store "d1"))
    by (vm_compute; reflexivity).
  assert (Hr : scm_reachable ex_birth ex_lost_store) by apply ex_both_reachable.
  destruct (outcome_follows_claim ex_birth ex_lost_store "d1" (deliveryAt ex_lost_store "d1") "w2" 110
    Hr Hl) as [Hlost _].
  destruct (outcome_follows_claim ex_birth ex_lost_store "d1" (deliveryAt ex_lost_store "d1") "w3" 120
    Hr Hl) as [Hheld _].
  specialize (Hlost (mkSCMStatusDeliveryMarkSentInput "d1" "w2" 110 130 SCMCommitStatusStateSuccess)
    eq_refl eq_refl eq_refl).
  specialize (Hheld (mkSCMStatusDeliveryMarkSentInput "d1" "w3" 120 130 SCMCommitStatusStateSuccess)
    eq_refl eq_refl eq_refl).
  destruct Hlost as [Hlost _]. destruct Hheld as [_ Hheld]. split.
  - apply Hlost. intros [u H]. vm_compute in H. discriminate H.
  - rewrite Hheld; [vm_compute; reflexivity| |vm_compute; reflexivity..].
    exists 130. vm_compute. reflexivity.
Defined.

Lemma live_claim_excludes_witness :
  (AcquireForDelivery "x3" (ex_late 125) ex_lost_store).1 = ex_lost_store ∧
  (AcquireForDelivery "x3" (ex_late 500) ex_lost_store).1 = ex_lost_store.
Proof.
  assert (Hr : scm_reachable ex_birth ex_lost_store) by apply ex_both_reachable.
  assert (Hg : scm_guard ex_birth (CallAcquire "x3" (ex_late 125)) ex_lost_store ∧
    scm_guard ex_birth (CallAcquire "x3" (ex_late 500)) ex_lost_store).
  { split; cbn [scm_guard]; unfold born; solve_scm_guard. }
  destruct Hg as [Hg1 Hg2].
  assert (Hv : stream_view ex_lost_store "github|octo|repo|sha1|coyote/p/j" =
    Some (mkStreamView "b1" "success" None (mkProgress (Sending "w3" 120 130) 3 3)))
    by (vm_compute; reflexivity).
  split.
  - destruct (live_claim_excludes ex_birth ex_lost_store "x3" (ex_late 125) _ "w3" 120 130 Hr Hg1 Hv)
      as [H _]; [reflexivity..| |exact H]. left. reflexivity.
  - destruct (live_claim_excludes ex_birth ex_lost_store "x3" (ex_late 500) _ "w3" 120 130 Hr Hg2 Hv)
      as [H _]; [reflexivity..| |exact H]. right. vm_compute. discriminate.
Defined.

Lemma ListRecoverable_spec_witness :
  ids_of (inl (listRecoverable (reverse (deliveriesInAnyOrder ex_both_store)) 500 25)) = ["d1"; "d2"].
Proof.
  destruct (ListRecoverable_spec ex_birth ex_both_store (mkSCMStatusDeliveryRecoverableScanInput 500 25)
    (reverse (deliveriesInAnyOrder ex_both_store))
    (listRecoverable (deliveriesInAnyOrder ex_both_store) 500 25)) as [H _].
  - apply ex_both_reachable.
  - apply reverse_Permutation.
  - reflexivity.
  - cbn [ssi_Now ssi_Limit] in H. rewrite <-H. vm_compute. reflexivity.
Defined.
