(* ===== verification/ScmClaims.v ===== *)
(** What a request to the store of commit statuses is answered with, in detail:
    the claim it stores, and what it leaves alone.  The reporters rely on it. *)

From stdpp Require Import base gmap strings list pretty sorting numbers.
From S2P Require Import Prelude GoLib GoPath GoText Domain DeliverySpec ScmDelivery ScmRepo.
From S2P Require Import ScmFacts ScmSpec ScmViews ScmOutcomes ScmThms ScmProps.

Open Scope go_scope.
Open Scope Z_scope.

Implicit Types (d : SCMStatusDelivery) (r : SCMStatusDeliveryRepository).

Local Abbreviation norm := SCMStatusDelivery_Normalize.

(** The outcomes that give the request the claim. *)
Definition claims (outcome : SCMStatusDeliveryClaimOutcome) : bool :=
  (outcome == SCMStatusDeliveryClaimOutcomeCreatedClaimed)
  || (outcome == SCMStatusDeliveryClaimOutcomeRetryClaimed)
  || (outcome == SCMStatusDeliveryClaimOutcomeStaleClaimReclaimed).

Section claims.
Context (birth : string → Z * Time).

Lemma existing_not_created d now :
  SCMStatusDeliveryClaimOutcomeFromExisting d now ≠ SCMStatusDeliveryClaimOutcomeCreatedClaimed.
Proof.
  unfold SCMStatusDeliveryClaimOutcomeFromExisting.
  repeat first [case_bool_decide | case_match]; discriminate.
Qed.

Lemma claims_existing d now :
  claims (SCMStatusDeliveryClaimOutcomeFromExisting d now) =
  is_claim (SCMStatusDeliveryClaimOutcomeFromExisting d now).
Proof.
  unfold claims, is_claim. by rewrite (bool_decide_eq_false_2 _ (existing_not_created d now)).
Qed.

Lemma claim_outcome_of d now owner duration claimed outcome :
  claimSCMStatusDelivery d now owner duration = (claimed, outcome) →
  outcome = SCMStatusDeliveryClaimOutcomeFromExisting (norm d) now.
Proof.
  unfold claimSCMStatusDelivery. cbv zeta.
  generalize (SCMStatusDeliveryClaimOutcomeFromExisting (norm d) now),
    (claimed_again (norm d) now owner duration), (norm d).
  intros o x y. repeat case_bool_decide; simpl; intros; simplify_eq; done.
Qed.

(** Exactly the outcomes that give a claim are stored. *)
Lemma reconcile_persist newID d i now owner duration maxAttempts claimed outcome persist reassert :
  reconcileSCMStatusDeliveryForClaim newID d i now owner duration maxAttempts
    = inl (claimed, outcome, persist, reassert) → persist = claims outcome.
Proof.
  unfold reconcileSCMStatusDeliveryForClaim. cbv zeta.
  assert (Hi : ∀ (x : (SCMStatusDelivery * SCMStatusDeliveryClaimOutcome * bool * option Time) + error),
    x = inl (claimed, outcome, persist, reassert) →
    match x with inl (_, o, b, _) => b = claims o | inr _ => True end → persist = claims outcome).
  { intros x -> E. exact E. }
  intros H. apply Hi in H; [done|]. clear.
  destruct (0 <? _); [reflexivity|]. destruct (_ <? 0).
  { destruct (claimFreshSCMStatusDelivery _ _ _ _ _ _ _ _ _); [reflexivity|done]. }
  destruct (SCMStatusDeliveryIncomingStateObsolete _ _); [reflexivity|].
  destruct (SCMStatusDeliveryShouldReplaceCurrentState _ _).
  { destruct (claimFreshSCMStatusDelivery _ _ _ _ _ _ _ _ _); [reflexivity|done]. }
  destruct (claimSCMStatusDelivery _ _ _ _) as [c o] eqn:E.
  apply claim_outcome_of in E as ->. symmetry. apply claims_existing.
Qed.

(** A delivery under the claim of an owner since an instant. *)
Definition claimed_by owner now duration d : Prop :=
  wf_delivery d ∧ phase_of (norm d) = Sending owner now (now + duration) ∧
  sd_ClaimedBy d = Some owner ∧ sd_ClaimedAt d = Some now.

Lemma claimed_by_view owner now duration d v n m :
  wf_delivery d → view_of d = v → sv_progress v = mkProgress (Sending owner now (now + duration)) n m →
  claimed_by owner now duration d.
Proof.
  intros Hd <- Hp. assert (Hph : phase_of (norm d) = Sending owner now (now + duration)).
  { exact (f_equal pg_phase Hp). }
  destruct (phase_sending _ _ _ _ Hd Hph) as (_&?&?&_). by split_and!.
Qed.

(** The identity of a delivery is that of a normal form. *)
Definition normalised d : Prop := ∃ x, identity d = identity (norm x).

Lemma fresh_claim_identity newID id createdAt i now owner duration maxAttempts lastSent d :
  claimFreshSCMStatusDelivery newID id createdAt i now owner duration maxAttempts lastSent = inl d →
  identity d = identity (norm i).
Proof.
  unfold claimFreshSCMStatusDelivery. cbv zeta. generalize (norm i). intros x.
  set (x1 := if _ == _ then _ else _). set (x2 := x1 <| sd_CreatedAt := _ |>).
  assert (E : identity x2 = identity x).
  { subst x2 x1. case_bool_decide; by destruct x. }
  destruct (claimed_first_fields x2 now owner duration maxAttempts lastSent) as (_&Ei&_).
  destruct (SCMStatusDelivery_Validate _); [done|].
  intros H. apply (inj inl) in H as <-. by rewrite Ei.
Qed.

Section reconcile.
Context (now : Time) (owner : string) (duration maxAttempts : Z).
Context (Hclaim : claim_ok now owner duration) (Hmax : 0 < maxAttempts ≤ max_int64).

Lemma reconcile_claimed newID d i claimed outcome reassert :
  reconcileSCMStatusDeliveryForClaim newID d i now owner duration maxAttempts
    = inl (claimed, outcome, true, reassert) →
  wf_delivery d → born birth d → born birth i → sd_ID d ≠ "" → TrimSpace (sd_ID d) = sd_ID d →
  claimed_by owner now duration claimed ∧ normalised claimed.
Proof.
  intros H Hd Hbd Hbi Hn Ht.
  assert (Hfresh : ∀ lastSent x,
    claimFreshSCMStatusDelivery newID (sd_ID (norm d)) (sd_CreatedAt (norm d)) (norm i) now owner
      duration maxAttempts lastSent = inl x → claimed_by owner now duration x ∧ normalised x).
  { intros lastSent x E. split; [|exists (norm i); by eapply fresh_claim_identity].
    apply (fresh_claim_spec birth now owner duration maxAttempts Hclaim Hmax newID (norm d) (norm i))
      in E as (_&E2&_&_&E5); [|done..|by apply norm_born].
    eapply claimed_by_view; [exact E2|exact E5|reflexivity]. }
  revert H. unfold reconcileSCMStatusDeliveryForClaim. cbv zeta.
  destruct (0 <? _); [discriminate|]. destruct (_ <? 0).
  { destruct (claimFreshSCMStatusDelivery newID _ _ _ _ _ _ _ None) as [d'|] eqn:E; [|discriminate].
    intros H. apply (inj inl) in H. apply pair_equal_spec in H as [H _].
    apply pair_equal_spec in H as [H _]. apply pair_equal_spec in H as [<- _]. eauto. }
  destruct (SCMStatusDeliveryIncomingStateObsolete _ _); [discriminate|].
  destruct (SCMStatusDeliveryShouldReplaceCurrentState _ _).
  { destruct (claimFreshSCMStatusDelivery newID _ _ _ _ _ _ _ (sd_LastSentState (norm d)))
      as [d'|] eqn:E; [|discriminate].
    intros H. apply (inj inl) in H. apply pair_equal_spec in H as [H _].
    apply pair_equal_spec in H as [H _]. apply pair_equal_spec in H as [<- _]. eauto. }
  destruct (claimSCMStatusDelivery (norm d) now owner duration) as [claimed' outcome'] eqn:E.
  intros H. apply (inj inl) in H. apply pair_equal_spec in H as [H _].
  apply pair_equal_spec in H as [H Ho]. apply pair_equal_spec in H as [<- ->].
  destruct (claim_result _ _ _ _ _ _ E Ho) as [-> ->]. rewrite norm_idemp in Ho |- *.
  destruct Hclaim as [Hnow _ _]. destruct (claim_outcome_due now d Hd Hnow Ho) as [_ Hlt].
  split; [|exists d; by apply identity_claimed_again].
  eapply claimed_by_view; [by apply wf_claimed_again|by apply view_claimed_again|reflexivity].
Qed.
End reconcile.

(** A request leaves the store alone or stores its claim, under the identifier of
    its stream or, for a new stream, under the new one. *)
Definition claim_stored newID input r r' (res : SCMStatusDeliveryClaimResult) : Prop :=
  let d := scr_Delivery res in let key := scmStatusDeliveryKey (sci_Delivery input) in
  claims (scr_Outcome res) = true ∧
  (claimed_by (TrimSpace (sci_ClaimOwner input)) (sci_Now input) (sci_ClaimDuration input) d ∧
   normalised d) ∧
  sr_deliveries r' = <[sd_ID d := d]> (sr_deliveries r) ∧
  (sr_index r !! key = Some (sd_ID d) ∨ sr_index r !! key = None ∧ sd_ID d = newID).

Lemma acquire_cases newID input r :
  scm_ok birth r → scm_guard birth (CallAcquire newID input) r →
  let x := AcquireForDelivery newID input r in
  (x.1 = r ∧ ∀ res, x.2 = inl res → claims (scr_Outcome res) = false) ∨
  ∃ res, x.2 = inl res ∧ claim_stored newID input r x.1 res.
Proof.
  intros Hok (Hnow & Hmax & Hb & (Ht & Hn & Hfree) & Hid). cbv zeta. unfold AcquireForDelivery.
  destruct (normalizeSCMClaimInput input) as [x|] eqn:E; [|by left].
  destruct (normalize_claim_input _ _ E) as (-> & Ho & Hdur & Hpos). clear E.
  assert (Hclaim : claim_ok (sci_Now input) (TrimSpace (sci_ClaimOwner input)) (sci_ClaimDuration input)).
  { split; [done|split; [done|apply TrimSpace_idemp]|done]. }
  unfold claim_stored. rewrite key_norm. set (i := sci_Delivery input) in *.
  destruct (sr_index r !! scmStatusDeliveryKey i) as [id|] eqn:Ek.
  - destruct (ok_index _ _ Hok _ _ Ek) as (d&Hl&Hk). rewrite (deliveryAt_lookup _ _ _ Hl).
    destruct (ok_delivery _ _ Hok _ _ Hl) as (Hid1&Ht1&Hn1&Hwf&Hbd&_).
    destruct (reconcileSCMStatusDeliveryForClaim _ _ _ _ _ _ _) as [[[[claimed outcome] persist] re]|] eqn:E;
      [|by left].
    pose proof (reconcile_persist _ _ _ _ _ _ _ _ _ _ _ E) as ->.
    destruct (claims outcome) eqn:Ec; [right|left].
    + pose proof (reconcile_claimed _ _ _ _ Hclaim (conj Hpos Hmax) _ _ _ _ _ _ E Hwf Hbd
        ltac:(by apply norm_born) ltac:(congruence) ltac:(congruence)) as Hc.
      pose proof (reconcile_ok birth _ _ _ _ Hclaim (conj Hpos Hmax) _ _ _ _ _ _ E Hwf Hbd
        ltac:(by apply norm_born) ltac:(congruence) ltac:(congruence) ltac:(by rewrite key_norm)) as (Eid&_).
      eexists. split; [reflexivity|]. cbn [scr_Outcome scr_Delivery fst].
      split; [done|]. split; [done|]. rewrite Eid, Hid1. split; [reflexivity|by left].
    + split; [done|]. intros res Hres. apply (inj inl) in Hres as <-. done.
  - destruct Hid as [Hid|[? Hid]]; [|congruence].
    change (sd_ID (norm i)) with (sd_ID i). rewrite (bool_decide_eq_true_2 _ Hid).
    set (d1 := (norm i) <| sd_ID := newID |>).
    set (d2 := if IsZero (sd_CreatedAt d1) then d1 <| sd_CreatedAt := sci_Now input |> else d1).
    assert (H2 : sd_ID d2 = newID ∧ identity d2 = identity (norm i)).
    { subst d2 d1. generalize (norm i). intros e. destruct (IsZero _); destruct e; split; reflexivity. }
    clearbody d2. destruct H2 as [Eid Ei].
    destruct (SCMStatusDelivery_Validate _) eqn:Ev; [by left|]. right.
    destruct (claimed_first_ok birth _ _ _ _ Hclaim (conj Hpos Hmax) _ i _ Ev Ei Hb) as (Hwf&_&_&Hv).
    destruct (claimed_first_fields d2 (sci_Now input) (TrimSpace (sci_ClaimOwner input))
      (sci_ClaimDuration input) (sci_MaxAttempts input) None) as [Eid' [Ei' _]].
    set (d3 := claimed_first d2 _ _ _ _ None) in *. clearbody d3.
    eexists. split; [reflexivity|]. cbn [scr_Outcome scr_Delivery fst].
    split; [done|]. split; [split; [by eapply claimed_by_view|exists i; congruence]|]. split; [reflexivity|]. right. by rewrite Eid'.
Qed.

(** ** What calls leave alone *)

(** An update of a delivery changes no other and creates none. *)
Definition only_at (id : string) r r' : Prop :=
  (∀ k, k ≠ id → sr_deliveries r' !! k = sr_deliveries r !! k) ∧
  (sr_deliveries r !! id = None → r' = r).

Lemma update_only_at r id d d' :
  scm_ok birth r → sr_deliveries r !! id = Some d → sd_ID d' = sd_ID d →
  only_at id r (updateDelivery d' r).1.
Proof.
  intros Hok Hl Hid. destruct (ok_delivery _ _ Hok _ _ Hl) as (Eid&_). unfold updateDelivery.
  split; [|congruence]. intros k Hk. destruct (SCMStatusDelivery_Validate d'); [done|]. simpl.
  rewrite lookup_insert_ne; [done|]. congruence.
Qed.

Lemma only_at_refl id r : only_at id r r.
Proof. by split. Qed.

Lemma sent_only_at r input : scm_ok birth r → only_at (TrimSpace (smi_DeliveryID input)) r (MarkSent input r).1.
Proof.
  intros Hok. unfold MarkSent. destruct (sr_deliveries r !! _) as [d|] eqn:El; [|apply only_at_refl].
  destruct (negb _); [apply only_at_refl|]. by eapply update_only_at.
Qed.

Lemma failure_only_at r input status :
  scm_ok birth r → only_at (TrimSpace (sfi_DeliveryID input)) r (recordFailure input status r).1.
Proof.
  intros Hok. unfold recordFailure. destruct (sr_deliveries r !! _) as [d|] eqn:El; [|apply only_at_refl].
  destruct (negb _); [apply only_at_refl|]. eapply update_only_at; [done..|].
  by destruct (failed_fields input status d) as (_&_&_&Eid&_).
Qed.

Lemma superseded_only_at r input :
  scm_ok birth r → only_at (TrimSpace (spi_DeliveryID input)) r (MarkSuperseded input r).1.
Proof.
  intros Hok. unfold MarkSuperseded. destruct (sr_deliveries r !! _) as [d|] eqn:El; [|apply only_at_refl].
  destruct (supersededClaimLost _ _); [apply only_at_refl|]. by eapply update_only_at.
Qed.

(** No call puts a delivery under an identifier that it did not draw. *)
Lemma scm_call_fresh c r k :
  scm_ok birth r → scm_guard birth c r → sr_deliveries r !! k = None →
  (∀ newID input, c = CallAcquire newID input → k ≠ newID) →
  sr_deliveries (run_scm c r) !! k = None.
Proof.
  intros Hok Hg Hk Hne.
  assert (Ho : ∀ id r', only_at id r r' → sr_deliveries r' !! k = None).
  { intros id r' [H1 H2]. destruct (decide (k = id)) as [->|Hn]; [by rewrite H2|by rewrite H1]. }
  destruct c as [newID input|input|input|input|input|input]; simpl;
    eauto using sent_only_at, failure_only_at, superseded_only_at.
  destruct (acquire_cases newID input r Hok Hg) as [[-> _]|(res&_&_&_&->&Hi)]; [done|].
  rewrite lookup_insert_ne; [done|]. intros <-. destruct Hi as [Hi|[_ Hi]].
  - destruct (ok_index _ _ Hok _ _ Hi) as (?&?&_). congruence.
  - by apply (Hne newID input).
Qed.
End claims.
