(* ===== verification/ScmReporter.v ===== *)
(** The reporter of commit statuses
    (backend/internal/service/build: scm_status_reporting.go,
    scm_status_delivery_policy.go, scm_status_recovery_drain.go) and the checks
    of its publishers (github_commit_status_client.go,
    github_app_commit_status_publisher.go).

    An operation is a function on a world: the store of builds, the store of
    deliveries, and what the publisher was asked and answered so far.  Other
    reporters and workers run beside it: before every access to a store the two
    stores may be changed by [others].  The publisher, the projects, the clock
    and the identifiers are arguments, too; contexts are not canceled except as
    an answer of the publisher, and log lines are left out. *)

From Stdlib Require Import Ascii.
From stdpp Require Import base gmap strings list pretty sorting numbers.
From S2P Require Import Prelude GoLib GoPath GoText Domain Repository BuildRepo.
From S2P Require Import ScmDelivery ScmRepo.

Open Scope go_scope.
Open Scope Z_scope.

(** ** Retries (scm_status_delivery_policy.go) *)

Definition scm_Second : Z := 1000000000.

Definition defaultSCMStatusDeliveryMaxAttempts : Z := 3.
Definition defaultSCMStatusDeliveryClaimDuration : Z := 2 * 60 * scm_Second.
Definition defaultSCMStatusRetryInitialDelay : Z := 30 * scm_Second.
Definition defaultSCMStatusRetryMaxDelay : Z := 10 * 60 * scm_Second.

Record scmStatusRetryPolicy := mkScmStatusRetryPolicy {
  srp_maxAttempts : Z;
  srp_initialDelay : Z;
  srp_maxDelay : Z;
}.

Definition defaultSCMStatusRetryPolicy : scmStatusRetryPolicy :=
  mkScmStatusRetryPolicy defaultSCMStatusDeliveryMaxAttempts defaultSCMStatusRetryInitialDelay
    defaultSCMStatusRetryMaxDelay.

(** The loop of [delayForAttempt], which doubles [n] times at most. *)
Fixpoint doubled (maxDelay : Z) (n : nat) (delay : Z) : Z :=
  match n with
  | O => if maxDelay <? delay then maxDelay else delay
  | S n =>
      let delay := int64_mul delay 2 in
      if maxDelay <=? delay then maxDelay else doubled maxDelay n delay
  end.

Definition delayForAttempt (p : scmStatusRetryPolicy) (attempt : Z) : Z :=
  if attempt <=? 1 then srp_initialDelay p
  else doubled (srp_maxDelay p) (Z.to_nat (attempt - 1)) (srp_initialDelay p).

Definition scmStatusClaimDuration (value : Z) : Z :=
  if 0 <? value then value else defaultSCMStatusDeliveryClaimDuration.

Definition validateSCMStatusClaimDuration (value : Z) : option error :=
  if value <=? 0 then Some (Errorf "scm status claim duration must be positive") else None.

Definition scmStatusClaimOwner (value : string) : string :=
  let trimmed := TrimSpace value in
  if trimmed != "" then trimmed else "inline-scm-status-reporter".

(** ** Texts *)

Definition maxSCMStatusContextLength : Z := 100.
Definition maxSCMStatusDescriptionLength : Z := 140.
Definition maxSCMStatusStoredErrorLength : Z := 1024.

Definition truncateSCMStatusText (value : string) (maxRunes : Z) : string :=
  let trimmed := TrimSpace value in
  if (maxRunes <=? 0) || (trimmed == "") then trimmed
  else if RuneCountInString trimmed <=? maxRunes then trimmed
  else TrimSpace (first_runes (Z.to_nat maxRunes) trimmed).

Definition scmStatusContextName (projectSlug jobID : string) : string :=
  let prefix := "coyote/" in
  let trimmedJobID := TrimSpace jobID in
  let trimmedSlug := TrimSpace projectSlug in
  let availableSlugRunes :=
    maxSCMStatusContextLength - RuneCountInString prefix - RuneCountInString trimmedJobID - 1 in
  if availableSlugRunes <=? 0
  then truncateSCMStatusText (prefix +:+ trimmedJobID) maxSCMStatusContextLength
  else prefix +:+ truncateSCMStatusText trimmedSlug availableSlugRunes +:+ "/" +:+ trimmedJobID.

(** notification_format.go. *)
Definition buildFrontendEntityURL (publicBaseURL pathPrefix id : string) : string :=
  let base := TrimRight (TrimSpace publicBaseURL) "/"%char in
  let trimmedID := TrimSpace id in
  if (base == "") || (trimmedID == "") then ""
  else base +:+ pathPrefix +:+ PathEscape trimmedID.

Definition buildBuildDetailURL (publicBaseURL buildID : string) : string :=
  buildFrontendEntityURL publicBaseURL "/builds/" buildID.

Definition scmStatusDetailsURL (publicBaseURL buildID : string) : option string :=
  let urlValue := buildBuildDetailURL publicBaseURL buildID in
  if TrimSpace urlValue == "" then None else Some urlValue.

(** ** What a build asks for *)

(** source.go. *)
Definition buildReadOptionalString (value : option string) : string :=
  match value with None => "" | Some v => TrimSpace v end.

Definition scmStatusCommitSHA (build : Build) : string :=
  let trigger := NormalizeBuildTrigger (b_Trigger build) in
  let fix loop (candidates : list string) : string :=
    match candidates with
    | [] => ""
    | candidate :: rest => let trimmed := TrimSpace candidate in
        if trimmed != "" then trimmed else loop rest
    end in
  loop [buildReadOptionalString (b_CommitSHA build); buildReadOptionalString (b_SourceSHA build);
        buildReadOptionalString (tr_CommitSHA trigger)].

Definition scmStatusStateForBuild (build : Build) : option (SCMCommitStatusState * string) :=
  match b_Status build with
  | BuildStatusPending => Some (SCMCommitStatusStatePending, "Coyote build is pending")
  | BuildStatusQueued => Some (SCMCommitStatusStatePending, "Coyote build is queued")
  | BuildStatusPreparing => Some (SCMCommitStatusStatePending, "Coyote build is preparing")
  | BuildStatusRunning => Some (SCMCommitStatusStatePending, "Coyote build is running")
  | BuildStatusSuccess => Some (SCMCommitStatusStateSuccess, "Coyote build succeeded")
  | BuildStatusFailed => Some (SCMCommitStatusStateFailure, "Coyote build failed")
  | BuildStatusCanceled => Some (SCMCommitStatusStateError, "Coyote build was canceled")
  | BuildStatusOther _ => None
  end.

Definition scmStatusBuildCreatedAt (build : Build) (fallback : Time) : Time :=
  if negb (IsZero (b_CreatedAt build)) then b_CreatedAt build else fallback.

(** domain/project.go. *)
Record Project := mkProject {
  pj_ID : string;
  pj_Name : string;
  pj_Slug : string;
  pj_Description : option string;
  pj_IsPublic : bool;
  pj_CreatedAt : Time;
  pj_UpdatedAt : Time;
}.

(** ** Requests to the publisher *)

Record SCMCommitStatusPublishRequest := mkSCMCommitStatusPublishRequest {
  req_Provider : string;
  req_RepositoryOwner : string;
  req_RepositoryName : string;
  req_RegisteredRepositoryID : option string;
  req_SCMConnectionID : option string;
  req_ProviderRepositoryID : option string;
  req_CommitSHA : string;
  req_Context : string;
  req_State : SCMCommitStatusState;
  req_Description : string;
  req_DetailsURL : option string;
}.

#[export] Instance eta_SCMCommitStatusPublishRequest : Eta SCMCommitStatusPublishRequest := λ r,
  mkSCMCommitStatusPublishRequest (req_Provider r) (req_RepositoryOwner r) (req_RepositoryName r)
    (req_RegisteredRepositoryID r) (req_SCMConnectionID r) (req_ProviderRepositoryID r)
    (req_CommitSHA r) (req_Context r) (req_State r) (req_Description r) (req_DetailsURL r).

(** The request of [executeClaimedDelivery]. *)
Definition deliveryRequest (delivery : SCMStatusDelivery) : SCMCommitStatusPublishRequest := {|
  req_Provider := sd_Provider delivery;
  req_RepositoryOwner := sd_RepositoryOwner delivery;
  req_RepositoryName := sd_RepositoryName delivery;
  req_RegisteredRepositoryID := sd_RegisteredRepositoryID delivery;
  req_SCMConnectionID := sd_SCMConnectionID delivery;
  req_ProviderRepositoryID := sd_ProviderRepositoryID delivery;
  req_CommitSHA := sd_CommitSHA delivery;
  req_Context := sd_Context delivery;
  req_State := sd_DesiredState delivery;
  req_Description := sd_Description delivery;
  req_DetailsURL := sd_DetailsURL delivery;
|}.

(** The request of [reassertAuthoritativeDelivery], without the identities of the
    repository. *)
Definition scmStatusPublishRequest (delivery : SCMStatusDelivery) : SCMCommitStatusPublishRequest := {|
  req_Provider := sd_Provider delivery;
  req_RepositoryOwner := sd_RepositoryOwner delivery;
  req_RepositoryName := sd_RepositoryName delivery;
  req_RegisteredRepositoryID := None;
  req_SCMConnectionID := None;
  req_ProviderRepositoryID := None;
  req_CommitSHA := sd_CommitSHA delivery;
  req_Context := sd_Context delivery;
  req_State := sd_DesiredState delivery;
  req_Description := sd_Description delivery;
  req_DetailsURL := sd_DetailsURL delivery;
|}.

Definition scmStatusPublishEquivalent (left right : SCMStatusDelivery) : bool :=
  let left := SCMStatusDelivery_Normalize left in
  let right := SCMStatusDelivery_Normalize right in
  if (sd_Provider left != sd_Provider right)
     || (sd_RepositoryOwner left != sd_RepositoryOwner right)
     || (sd_RepositoryName left != sd_RepositoryName right)
     || (sd_CommitSHA left != sd_CommitSHA right) || (sd_Context left != sd_Context right)
  then false
  else if (sd_DesiredState left != sd_DesiredState right)
          || (sd_Description left != sd_Description right) then false
  else buildReadOptionalString (sd_DetailsURL left) == buildReadOptionalString (sd_DetailsURL right).

(** ** The publishers' checks *)

Record GitHubCommitStatusError := mkGitHubCommitStatusError {
  ge_statusCode : Z;
  ge_retryable : bool;
  ge_reason : string;
  ge_message : string;
  ge_cause : option error;
}.

Definition invalidInput (message : string) : option GitHubCommitStatusError :=
  Some (mkGitHubCommitStatusError 0 false "github_status_invalid_input" message None).

(** [validURL] is [url.ParseRequestURI] without an error. *)
Definition validateGitHubCommitStatusRequest (validURL : string → bool)
    (req : SCMCommitStatusPublishRequest) : option GitHubCommitStatusError :=
  if negb (SCMCommitStatusState_IsValid (req_State req))
  then invalidInput "github status state is invalid"
  else if (TrimSpace (req_RepositoryOwner req) == "") || (TrimSpace (req_RepositoryName req) == "")
  then invalidInput "github repository owner and name are required"
  else if TrimSpace (req_CommitSHA req) == ""
  then invalidInput "github commit sha is required"
  else if TrimSpace (req_Context req) == ""
  then invalidInput "github status context is required"
  else if TrimSpace (req_Description req) == ""
  then invalidInput "github status description is required"
  else if maxSCMStatusContextLength <? RuneCountInString (TrimSpace (req_Context req))
  then invalidInput "github status context exceeds maximum length"
  else if maxSCMStatusDescriptionLength <? RuneCountInString (TrimSpace (req_Description req))
  then invalidInput "github status description exceeds maximum length"
  else match req_DetailsURL req with
       | Some url =>
           if (TrimSpace url != "") && negb (validURL (TrimSpace url))
           then invalidInput "github status details url is invalid" else None
       | None => None
       end.

Definition scmStatusIdentityError (reason message : string) : GitHubCommitStatusError :=
  mkGitHubCommitStatusError 422 false reason message None.

Definition scmStatusRequestIdentity (req : SCMCommitStatusPublishRequest)
    : (string * string * string) + GitHubCommitStatusError :=
  match req_RegisteredRepositoryID req, req_SCMConnectionID req, req_ProviderRepositoryID req with
  | Some registrationID, Some connectionID, Some providerRepositoryID =>
      let registrationID := TrimSpace registrationID in
      let connectionID := TrimSpace connectionID in
      let providerRepositoryID := TrimSpace providerRepositoryID in
      if (registrationID == "") || (connectionID == "") || (providerRepositoryID == "")
      then inr (scmStatusIdentityError "github_status_delivery_identity_missing"
                  "repository identity snapshot is incomplete")
      else inl (registrationID, connectionID, providerRepositoryID)
  | _, _, _ => inr (scmStatusIdentityError "github_status_delivery_identity_missing"
                      "repository identity snapshot is required")
  end.

(** ** The world of a reporter *)

(** What the code asks of an error: its text, whether a [net.Error] in its tree
    is a timeout, and [Retryable] and [Reason] of an [scmStatusPublisherError]
    in its tree. *)
Class SendErrors := {
  Error : error → string;
  netTimeout : error → bool;
  publisherError : error → option (bool * string);
}.

Definition context_Canceled : error := Sentinel "context.Canceled".
Definition context_DeadlineExceeded : error := Sentinel "context.DeadlineExceeded".

Definition Answers : Type := list (SCMCommitStatusPublishRequest * option error).

Record World := mkWorld {
  w_builds : BuildRepository;
  w_deliveries : SCMStatusDeliveryRepository;
  w_published : Answers;       (* the requests made, in order, with their answers *)
  w_readings : nat;            (* of the clock *)
  w_identifiers : nat;         (* drawn *)
  w_accesses : nat;            (* to a store *)
}.

#[export] Instance eta_World : Eta World := λ w,
  mkWorld (w_builds w) (w_deliveries w) (w_published w) (w_readings w) (w_identifiers w)
    (w_accesses w).

(** What is outside: the clock, the identifiers, the projects, the publisher and
    the other users of the stores, who act before the access of a number. *)
Record Surroundings := mkSurroundings {
  e_clock : nat → Time;
  e_uuid : nat → string;
  e_project : string → Project + error;
  e_publisher : Answers → SCMCommitStatusPublishRequest → option error;
  e_others : nat → BuildRepository * SCMStatusDeliveryRepository →
             BuildRepository * SCMStatusDeliveryRepository;
}.

Record SCMStatusReporter := mkSCMStatusReporter {
  rp_publicBaseURL : string;
  rp_claimOwner : string;
  rp_claimDuration : Z;
  rp_retryPolicy : scmStatusRetryPolicy;
}.

(** The repositories and the publisher of the configuration are not nil. *)
Definition NewSCMStatusReporter (publicBaseURL claimOwner : string) (claimDuration : Z)
    : SCMStatusReporter + error :=
  let claimDuration := scmStatusClaimDuration claimDuration in
  match validateSCMStatusClaimDuration claimDuration with
  | Some err => inr err
  | None =>
      inl (mkSCMStatusReporter (TrimRight (TrimSpace publicBaseURL) "/"%char)
             (scmStatusClaimOwner claimOwner) claimDuration defaultSCMStatusRetryPolicy)
  end.

Definition ReporterM (A : Type) : Type := World → World * A.

#[export] Instance ReporterM_ret : MRet ReporterM := λ A x w, (w, x).
#[export] Instance ReporterM_bind : MBind ReporterM := λ A B f m w,
  let '(w, x) := m w in f x w.

Inductive scmStatusExecutionOutcome :=
  | scmStatusExecutionOutcomeNone
  | scmStatusExecutionOutcomeSent
  | scmStatusExecutionOutcomeReassertScheduled
  | scmStatusExecutionOutcomeRetryScheduled
  | scmStatusExecutionOutcomePermanentlyFailed
  | scmStatusExecutionOutcomeAttemptsExhausted
  | scmStatusExecutionOutcomeLostClaim
  | scmStatusExecutionOutcomeSuperseded.

#[export] Instance scmStatusExecutionOutcome_eq_dec : EqDecision scmStatusExecutionOutcome.
Proof. solve_decision. Defined.

Record scmStatusFailureDecision := mkScmStatusFailureDecision {
  fd_category : SCMStatusDeliveryFailureCategory;
  fd_reason : string;
  fd_retryable : bool;
}.

Record scmStatusRecoveryAttemptResult := mkScmStatusRecoveryAttemptResult {
  ar_claimOutcome : option SCMStatusDeliveryClaimOutcome;
  ar_executionOutcome : scmStatusExecutionOutcome;
  ar_rehydrationFailed : bool;
}.

Record SCMStatusRecoveryIterationResult := mkSCMStatusRecoveryIterationResult {
  ir_Scanned : Z;
  ir_ClaimAcquired : Z;
  ir_RetryClaimed : Z;
  ir_StaleClaimReclaimed : Z;
  ir_Skipped : Z;
  ir_SkippedContention : Z;
  ir_SkippedNotDue : Z;
  ir_SkippedTerminal : Z;
  ir_Sent : Z;
  ir_ReassertScheduled : Z;
  ir_RetryScheduled : Z;
  ir_PermanentlyFailed : Z;
  ir_AttemptsExhausted : Z;
  ir_LostClaim : Z;
  ir_Superseded : Z;
  ir_RehydrationFailed : Z;
  ir_Errors : Z;
}.

#[export] Instance eta_SCMStatusRecoveryIterationResult : Eta SCMStatusRecoveryIterationResult := λ r,
  mkSCMStatusRecoveryIterationResult (ir_Scanned r) (ir_ClaimAcquired r) (ir_RetryClaimed r)
    (ir_StaleClaimReclaimed r) (ir_Skipped r) (ir_SkippedContention r) (ir_SkippedNotDue r)
    (ir_SkippedTerminal r) (ir_Sent r) (ir_ReassertScheduled r) (ir_RetryScheduled r)
    (ir_PermanentlyFailed r) (ir_AttemptsExhausted r) (ir_LostClaim r) (ir_Superseded r)
    (ir_RehydrationFailed r) (ir_Errors r).

Definition scmStatusFailureReasonAuthoritativeReassert : string := "authoritative_reassert_pending".

Section operations.
Context `{SendErrors} (e : Surroundings) (p : SCMStatusReporter).

Definition now : ReporterM Time := λ w,
  (w <| w_readings := S (w_readings w) |>, e_clock e (w_readings w)).

Definition newUUID : ReporterM string := λ w,
  (w <| w_identifiers := S (w_identifiers w) |>, e_uuid e (w_identifiers w)).

(** What the others do before the next access. *)
Definition interference (w : World) : World :=
  let '(builds, deliveries) := e_others e (w_accesses w) (w_builds w, w_deliveries w) in
  w <| w_builds := builds |> <| w_deliveries := deliveries |>
    <| w_accesses := S (w_accesses w) |>.

Definition on_deliveries {A} (f : SCMStatusDeliveryRepository → SCMStatusDeliveryRepository * A)
    : ReporterM A := λ w,
  let w := interference w in
  let '(r, x) := f (w_deliveries w) in (w <| w_deliveries := r |>, x).

Definition read_builds {A} (f : BuildRepository → A) : ReporterM A := λ w,
  let w := interference w in (w, f (w_builds w)).

Definition getBuild (id : string) : ReporterM (Build + error) :=
  read_builds (λ r, match BuildRepository_GetByID id r with
                    | (_, Some err) => inr err
                    | (build, None) => inl build
                    end).

Definition PublishCommitStatus (req : SCMCommitStatusPublishRequest) : ReporterM (option error) := λ w,
  let answer := e_publisher e (w_published w) req in
  (w <| w_published := w_published w ++ [(req, answer)] |>, answer).

(** *** Planning *)

Definition buildContextName (build : Build) : option string + error :=
  match b_JobID build with
  | None => inl None
  | Some jobID =>
      if TrimSpace jobID == "" then inl None
      else match e_project e (TrimSpace (b_ProjectID build)) with
           | inr err => inr err
           | inl project =>
               let projectSlug := TrimSpace (pj_Slug project) in
               if projectSlug == "" then inl None
               else inl (Some (scmStatusContextName projectSlug (TrimSpace jobID)))
           end
  end.

Definition plannedDelivery (build : Build) (commitSHA contextName : string)
    (state : SCMCommitStatusState) (description : string) (at_ : Time) : SCMStatusDelivery := {|
  sd_ID := "";
  sd_BuildID := TrimSpace (b_ID build);
  sd_BuildAttempt := b_AttemptNumber build;
  sd_BuildCreatedAt := scmStatusBuildCreatedAt build at_;
  sd_Provider := "github";
  sd_RepositoryOwner := "repository-snapshot";
  sd_RepositoryName := "repository-snapshot";
  sd_RegisteredRepositoryID := b_RegisteredRepositoryID build;
  sd_SCMConnectionID := b_SCMConnectionID build;
  sd_ProviderRepositoryID := b_ProviderRepositoryID build;
  sd_CommitSHA := commitSHA;
  sd_Context := contextName;
  sd_DesiredState := state;
  sd_LastSentState := None;
  sd_Description := truncateSCMStatusText description maxSCMStatusDescriptionLength;
  sd_DetailsURL := scmStatusDetailsURL (rp_publicBaseURL p) (b_ID build);
  sd_Status := "";
  sd_Attempts := 0;
  sd_MaxAttempts := 0;
  sd_LastAttemptAt := None;
  sd_NextAttemptAt := None;
  sd_ClaimedAt := None;
  sd_ClaimExpiresAt := None;
  sd_ClaimedBy := None;
  sd_FailureCategory := None;
  sd_FailureReason := None;
  sd_LastError := None;
  sd_SentAt := None;
  sd_SupersededAt := None;
  sd_CreatedAt := zero_time;
  sd_UpdatedAt := zero_time;
|}.

(** A build without the identities of its repository, without a commit, or of no
    job has no status. *)
Definition planDelivery (build : Build) : ReporterM (option SCMStatusDelivery + error) :=
  match Build_ValidateRepositoryIdentitySnapshot build, b_RegisteredRepositoryID build,
        b_SCMConnectionID build, b_ProviderRepositoryID build with
  | None, Some _, Some _, Some _ =>
      let commitSHA := scmStatusCommitSHA build in
      if commitSHA == "" then mret (inl None)
      else match buildContextName build with
           | inr err => mret (inr err)
           | inl None => mret (inl None)
           | inl (Some contextName) =>
               match scmStatusStateForBuild build with
               | None => mret (inl None)
               | Some (state, description) =>
                   at_ ← now;
                   mret (inl (Some (SCMStatusDelivery_Normalize
                     (plannedDelivery build commitSHA contextName state description at_))))
               end
           end
  | _, _, _, _ => mret (inl None)
  end.

Definition is_claimed (outcome : SCMStatusDeliveryClaimOutcome) : bool :=
  (outcome == SCMStatusDeliveryClaimOutcomeCreatedClaimed)
  || (outcome == SCMStatusDeliveryClaimOutcomeRetryClaimed)
  || (outcome == SCMStatusDeliveryClaimOutcomeStaleClaimReclaimed).

Definition claimRequest (delivery : SCMStatusDelivery) (at_ : Time) : SCMStatusDeliveryClaimInput :=
  mkSCMStatusDeliveryClaimInput delivery (rp_claimOwner p) at_ (rp_claimDuration p)
    (srp_maxAttempts (rp_retryPolicy p)).

(** The store draws an identifier for a new delivery. *)
Definition acquireFor (delivery : SCMStatusDelivery)
    : ReporterM (SCMStatusDeliveryClaimResult + error) :=
  at_ ← now;
  newID ← newUUID;
  on_deliveries (AcquireForDelivery newID (claimRequest delivery at_)).

(** The claim to send, if there is one. *)
Definition acquireDelivery (build : Build)
    : ReporterM (option SCMStatusDeliveryClaimResult + error) :=
  planned ← planDelivery build;
  match planned with
  | inr err => mret (inr err)
  | inl None => mret (inl None)
  | inl (Some delivery) =>
      result ← acquireFor delivery;
      match result with
      | inr err => mret (inr err)
      | inl result =>
          mret (inl (if is_claimed (scr_Outcome result) then Some result else None))
      end
  end.

(** *** Outcomes *)

Definition claimedSCMStatusTimestamp (delivery : SCMStatusDelivery) : Time + error :=
  match sd_ClaimedAt delivery with
  | None => inr (Errorf "scm status delivery claim timestamp is required")
  | Some at_ =>
      if IsZero at_ then inr (Errorf "scm status delivery claim timestamp is required") else inl at_
  end.

Definition classifySCMStatusDeliveryFailure (err : error) : scmStatusFailureDecision :=
  let retryable := SCMStatusDeliveryFailureCategoryRetryable in
  if errors_Is err context_Canceled || errors_Is err context_DeadlineExceeded
  then mkScmStatusFailureDecision retryable "context_canceled" true
  else if netTimeout err then mkScmStatusFailureDecision retryable "network_timeout" true
  else match publisherError err with
       | Some (again, reason) =>
           mkScmStatusFailureDecision
             (if again then retryable else SCMStatusDeliveryFailureCategoryPermanent) reason again
       | None => mkScmStatusFailureDecision retryable "github_status_send_failed" true
       end.

(** The answer to an update: [lost] when the claim was lost, [updated] otherwise. *)
Definition outcomeOf (updated : scmStatusExecutionOutcome)
    (result : SCMStatusDeliveryUpdateResult + error) : scmStatusExecutionOutcome * option error :=
  match result with
  | inr err => (scmStatusExecutionOutcomeNone, Some err)
  | inl result =>
      (if sur_Outcome result == SCMStatusDeliveryUpdateOutcomeLostClaim
       then scmStatusExecutionOutcomeLostClaim else updated, None)
  end.

Definition markDeliverySent (delivery : SCMStatusDelivery) (sentAt : Time)
    : ReporterM (scmStatusExecutionOutcome * option error) :=
  match claimedSCMStatusTimestamp delivery with
  | inr err => mret (scmStatusExecutionOutcomeNone, Some err)
  | inl claimedAt =>
      result ← on_deliveries (MarkSent (mkSCMStatusDeliveryMarkSentInput (sd_ID delivery)
                 (rp_claimOwner p) claimedAt sentAt (sd_DesiredState delivery)));
      mret (outcomeOf scmStatusExecutionOutcomeSent result)
  end.

Definition markDeliveryReassertPending (delivery : SCMStatusDelivery) (attemptedAt reassertAt : Time)
    : ReporterM (scmStatusExecutionOutcome * option error) :=
  match claimedSCMStatusTimestamp delivery with
  | inr err => mret (scmStatusExecutionOutcomeNone, Some err)
  | inl claimedAt =>
      result ← on_deliveries (RecordRetryableFailure (mkSCMStatusDeliveryRecordFailureInput
                 (sd_ID delivery) (rp_claimOwner p) claimedAt attemptedAt (Some reassertAt)
                 SCMStatusDeliveryFailureCategoryRetryable
                 scmStatusFailureReasonAuthoritativeReassert None));
      mret (outcomeOf scmStatusExecutionOutcomeReassertScheduled result)
  end.

Definition failureInput (delivery : SCMStatusDelivery) (claimedAt attemptedAt : Time)
    (sendErr : error) (nextAttemptAt : option Time) : SCMStatusDeliveryRecordFailureInput :=
  let decision := classifySCMStatusDeliveryFailure sendErr in
  mkSCMStatusDeliveryRecordFailureInput (sd_ID delivery) (rp_claimOwner p) claimedAt attemptedAt
    nextAttemptAt (fd_category decision) (fd_reason decision)
    (Some (truncateSCMStatusText (TrimSpace (Error sendErr)) maxSCMStatusStoredErrorLength)).

Definition markDeliveryFailed (delivery : SCMStatusDelivery) (sendErr : error) (attemptedAt : Time)
    : ReporterM (scmStatusExecutionOutcome * option error) :=
  match claimedSCMStatusTimestamp delivery with
  | inr err => mret (scmStatusExecutionOutcomeNone, Some err)
  | inl claimedAt =>
      let retryable := fd_retryable (classifySCMStatusDeliveryFailure sendErr) in
      let input := failureInput delivery claimedAt attemptedAt sendErr in
      if retryable && (sd_Attempts delivery <? sd_MaxAttempts delivery) then
        let nextAttemptAt :=
          attemptedAt + delayForAttempt (rp_retryPolicy p) (sd_Attempts delivery) in
        result ← on_deliveries (RecordRetryableFailure (input (Some nextAttemptAt)));
        mret (outcomeOf scmStatusExecutionOutcomeRetryScheduled result)
      else if retryable then
        result ← on_deliveries (RecordExhaustedFailure (input None));
        mret (outcomeOf scmStatusExecutionOutcomeAttemptsExhausted result)
      else
        result ← on_deliveries (RecordPermanentFailure (input None));
        mret (outcomeOf scmStatusExecutionOutcomePermanentlyFailed result)
  end.

(** *** Sending *)

(** The builds of the job in the store in memory are listed without an error. *)
Definition isSuperseded (build : Build) (delivery : SCMStatusDelivery) : ReporterM (bool + error) :=
  match b_JobID build with
  | None => mret (inl false)
  | Some jobID =>
      if TrimSpace jobID == "" then mret (inl false)
      else
        builds ← read_builds (BuildRepository_ListByJobID (TrimSpace jobID));
        let newer candidate :=
          if TrimSpace (b_ID candidate) == TrimSpace (b_ID build) then false
          else if scmStatusCommitSHA candidate != sd_CommitSHA delivery then false
          else if b_AttemptNumber build <? b_AttemptNumber candidate then true
          else (b_AttemptNumber candidate =? b_AttemptNumber build)
               && After (b_CreatedAt candidate) (b_CreatedAt build) in
        mret (inl (existsb newer builds))
  end.

(** A failure before or during the sending: it is recorded, and returned. *)
Definition failDelivery (delivery : SCMStatusDelivery) (err : error)
    : ReporterM (scmStatusExecutionOutcome * option error) :=
  at_ ← now;
  '(outcome, markErr) ← markDeliveryFailed delivery err at_;
  match markErr with
  | Some markErr => mret (scmStatusExecutionOutcomeNone, Some (Joined err markErr))
  | None => mret (outcome, Some err)
  end.

Definition supersedeDelivery (delivery : SCMStatusDelivery)
    : ReporterM (scmStatusExecutionOutcome * option error) :=
  match claimedSCMStatusTimestamp delivery with
  | inr err => mret (scmStatusExecutionOutcomeNone, Some err)
  | inl claimedAt =>
      at_ ← now;
      result ← on_deliveries (MarkSuperseded (mkSCMStatusDeliveryMarkSupersededInput
                 (sd_ID delivery) (Some (rp_claimOwner p)) (Some claimedAt) at_
                 "newer_build_attempt_exists" None));
      mret (outcomeOf scmStatusExecutionOutcomeSuperseded result)
  end.

Definition getAuthoritativeDelivery (delivery : SCMStatusDelivery)
    : ReporterM (SCMStatusDelivery + error) :=
  on_deliveries (λ r, (r,
    match sd_SCMConnectionID delivery, sd_ProviderRepositoryID delivery with
    | Some connectionID, Some providerRepositoryID =>
        GetByRepositoryIdentity connectionID providerRepositoryID (sd_CommitSHA delivery)
          (sd_Context delivery) r
    | _, _ =>
        GetByKey (sd_Provider delivery) (sd_RepositoryOwner delivery) (sd_RepositoryName delivery)
          (sd_CommitSHA delivery) (sd_Context delivery) r
    end)).

(** The error of the publisher is logged only. *)
Definition reassertAuthoritativeDelivery (staleDelivery : SCMStatusDelivery)
    : ReporterM (option error) :=
  found ← getAuthoritativeDelivery staleDelivery;
  match found with
  | inr err => mret (if errors_Is err ErrSCMStatusDeliveryNotFound then None else Some err)
  | inl authoritative =>
      if scmStatusPublishEquivalent authoritative staleDelivery then mret None
      else _ ← PublishCommitStatus (scmStatusPublishRequest authoritative); mret None
  end.

(** After an update: the authoritative status is sent again if the claim was lost. *)
Definition settle (delivery : SCMStatusDelivery)
    (updated : scmStatusExecutionOutcome * option error)
    : ReporterM (scmStatusExecutionOutcome * option error) :=
  match updated with
  | (_, Some err) => mret (scmStatusExecutionOutcomeNone, Some err)
  | (outcome, None) =>
      if outcome == scmStatusExecutionOutcomeLostClaim
      then err ← reassertAuthoritativeDelivery delivery; mret (outcome, err)
      else mret (outcome, None)
  end.

Definition recordSent (delivery : SCMStatusDelivery) (reassertAfter : option Time)
    : ReporterM (scmStatusExecutionOutcome * option error) :=
  attemptedAt ← now;
  updated ← match reassertAfter with
            | Some reassertAt =>
                if After reassertAt attemptedAt
                then markDeliveryReassertPending delivery attemptedAt reassertAt
                else markDeliverySent delivery attemptedAt
            | None => markDeliverySent delivery attemptedAt
            end;
  settle delivery updated.

Definition sendDelivery (delivery : SCMStatusDelivery) (reassertAfter : option Time)
    : ReporterM (scmStatusExecutionOutcome * option error) :=
  publishErr ← PublishCommitStatus (deliveryRequest delivery);
  match publishErr with
  | Some err =>
      if errors_Is err context_Canceled || errors_Is err context_DeadlineExceeded
      then mret (scmStatusExecutionOutcomeNone, Some err)
      else failDelivery delivery err
  | None => recordSent delivery reassertAfter
  end.

Definition executeClaimedDelivery (delivery : SCMStatusDelivery) (reassertAfter : option Time)
    : ReporterM (scmStatusExecutionOutcome * option error) :=
  found ← getBuild (sd_BuildID delivery);
  match found with
  | inr err => failDelivery delivery err
  | inl build =>
      superseded ← isSuperseded build delivery;
      match superseded with
      | inr err => failDelivery delivery err
      | inl true => supersedeDelivery delivery
      | inl false => sendDelivery delivery reassertAfter
      end
  end.

Definition NotifyBuildStatus (build : Build) : ReporterM (option error) :=
  acquired ← acquireDelivery build;
  match acquired with
  | inr err => mret (Some err)
  | inl None => mret None
  | inl (Some result) =>
      '(_, executeErr) ← executeClaimedDelivery (scr_Delivery result) (scr_ReassertAfter result);
      mret executeErr
  end.

(** *** Recovery *)

Definition recoverDelivery (candidate : SCMStatusDelivery)
    : ReporterM (scmStatusRecoveryAttemptResult * option error) :=
  result ← acquireFor candidate;
  match result with
  | inr err =>
      mret (mkScmStatusRecoveryAttemptResult None scmStatusExecutionOutcomeNone false, Some err)
  | inl result =>
      let attempt := mkScmStatusRecoveryAttemptResult (Some (scr_Outcome result)) in
      if negb (is_claimed (scr_Outcome result))
      then mret (attempt scmStatusExecutionOutcomeNone false, None)
      else
        found ← getBuild (sd_BuildID candidate);
        match found with
        | inr buildErr =>
            at_ ← now;
            '(outcome, markErr) ← markDeliveryFailed (scr_Delivery result) buildErr at_;
            mret (attempt outcome true, markErr)
        | inl _ =>
            '(outcome, executeErr) ←
              executeClaimedDelivery (scr_Delivery result) (scr_ReassertAfter result);
            mret (attempt outcome false, executeErr)
        end
  end.

(** scm_status_recovery_drain.go. *)
Definition countClaim (outcome : option SCMStatusDeliveryClaimOutcome)
    (result : SCMStatusRecoveryIterationResult) : SCMStatusRecoveryIterationResult :=
  match outcome with
  | Some SCMStatusDeliveryClaimOutcomeCreatedClaimed =>
      result <| ir_ClaimAcquired := int64_add (ir_ClaimAcquired result) 1 |>
  | Some SCMStatusDeliveryClaimOutcomeRetryClaimed =>
      result <| ir_RetryClaimed := int64_add (ir_RetryClaimed result) 1 |>
  | Some SCMStatusDeliveryClaimOutcomeStaleClaimReclaimed =>
      result <| ir_StaleClaimReclaimed := int64_add (ir_StaleClaimReclaimed result) 1 |>
  | Some SCMStatusDeliveryClaimOutcomeClaimedByOther =>
      result <| ir_Skipped := int64_add (ir_Skipped result) 1 |>
             <| ir_SkippedContention := int64_add (ir_SkippedContention result) 1 |>
  | Some SCMStatusDeliveryClaimOutcomeRetryNotDue =>
      result <| ir_Skipped := int64_add (ir_Skipped result) 1 |>
             <| ir_SkippedNotDue := int64_add (ir_SkippedNotDue result) 1 |>
  | Some _ =>
      result <| ir_Skipped := int64_add (ir_Skipped result) 1 |>
             <| ir_SkippedTerminal := int64_add (ir_SkippedTerminal result) 1 |>
  | None => result <| ir_Skipped := int64_add (ir_Skipped result) 1 |>
  end.

Definition countExecution (outcome : scmStatusExecutionOutcome)
    (result : SCMStatusRecoveryIterationResult) : SCMStatusRecoveryIterationResult :=
  match outcome with
  | scmStatusExecutionOutcomeNone => result
  | scmStatusExecutionOutcomeSent => result <| ir_Sent := int64_add (ir_Sent result) 1 |>
  | scmStatusExecutionOutcomeReassertScheduled =>
      result <| ir_ReassertScheduled := int64_add (ir_ReassertScheduled result) 1 |>
  | scmStatusExecutionOutcomeRetryScheduled =>
      result <| ir_RetryScheduled := int64_add (ir_RetryScheduled result) 1 |>
  | scmStatusExecutionOutcomePermanentlyFailed =>
      result <| ir_PermanentlyFailed := int64_add (ir_PermanentlyFailed result) 1 |>
  | scmStatusExecutionOutcomeAttemptsExhausted =>
      result <| ir_AttemptsExhausted := int64_add (ir_AttemptsExhausted result) 1 |>
  | scmStatusExecutionOutcomeLostClaim =>
      result <| ir_LostClaim := int64_add (ir_LostClaim result) 1 |>
  | scmStatusExecutionOutcomeSuperseded =>
      result <| ir_Superseded := int64_add (ir_Superseded result) 1 |>
  end.

Definition applyAttemptResult (attempt : scmStatusRecoveryAttemptResult)
    (result : SCMStatusRecoveryIterationResult) : SCMStatusRecoveryIterationResult :=
  let result := countClaim (ar_claimOutcome attempt) result in
  let result :=
    if ar_rehydrationFailed attempt
    then result <| ir_RehydrationFailed := int64_add (ir_RehydrationFailed result) 1 |>
    else result in
  countExecution (ar_executionOutcome attempt) result.

Definition zero_SCMStatusRecoveryIterationResult : SCMStatusRecoveryIterationResult :=
  mkSCMStatusRecoveryIterationResult 0 0 0 0 0 0 0 0 0 0 0 0 0 0 0 0 0.

(** [errors.Join] of the errors so far and one more. *)
Definition join_error (errs : option error) (err : error) : option error :=
  Some (match errs with None => err | Some errs => Joined errs err end).

Fixpoint recoverAll (candidates : list SCMStatusDelivery)
    (result : SCMStatusRecoveryIterationResult) (errs : option error)
    : ReporterM (SCMStatusRecoveryIterationResult * option error) :=
  match candidates with
  | [] => mret (result, errs)
  | candidate :: candidates =>
      '(attempt, recoverErr) ← recoverDelivery candidate;
      let result := applyAttemptResult attempt result in
      match recoverErr with
      | None => recoverAll candidates result errs
      | Some err =>
          recoverAll candidates (result <| ir_Errors := int64_add (ir_Errors result) 1 |>)
            (join_error errs (Wrap ("delivery " +:+ sd_ID candidate) err))
      end
  end.

Definition RunIteration (batchSize : Z)
    : ReporterM (SCMStatusRecoveryIterationResult * option error) :=
  at_ ← now;
  found ← on_deliveries (λ r, (r, ListRecoverable
            (mkSCMStatusDeliveryRecoverableScanInput at_ batchSize) r));
  match found with
  | inr err => mret (zero_SCMStatusRecoveryIterationResult, Some err)
  | inl candidates =>
      recoverAll candidates (zero_SCMStatusRecoveryIterationResult
        <| ir_Scanned := Z.of_nat (length candidates) |>) None
  end.

End operations.
