(* ===== verification/ScmRequests.v ===== *)
(** What a reporter asks its publisher for: the status planned for a build keeps
    to the limits of the hosting service and carries the identity of its
    repository. *)

From Stdlib Require Import Ascii.
From stdpp Require Import base gmap strings list pretty sorting numbers.
From S2P Require Import Prelude GoLib GoPath GoText RuneFacts Domain Repository BuildRepo.
From S2P Require Import ScmDelivery ScmRepo ScmReporter.

Open Scope go_scope.
Open Scope Z_scope.

Implicit Types (d : SCMStatusDelivery) (s : string).

(** ** Lengths *)

Lemma truncate_count s n : 0 < n → RuneCountInString (truncateSCMStatusText s n) ≤ n.
Proof.
  intros Hn. unfold truncateSCMStatusText. rewrite (proj2 (Z.leb_gt _ _) Hn). simpl.
  case_bool_decide as He.
  { rewrite He. unfold RuneCountInString. simpl. lia. }
  destruct (Z.leb_spec (RuneCountInString (TrimSpace s)) n); [done|].
  etrans; [apply TrimSpace_count|]. etrans; [apply first_runes_count|]. lia.
Qed.

Lemma chars_app s1 s2 : string_to_list (s1 +:+ s2) = string_to_list s1 ++ string_to_list s2.
Proof. induction s1 as [|a s1 IH]; [done|]. simpl. by f_equal. Qed.

Lemma prefix_count s : RuneCountInString ("coyote/" +:+ s) = 7 + RuneCountInString s.
Proof.
  unfold RuneCountInString. rewrite chars_app.
  assert (E : ∀ l, runes (string_to_list "coyote/" ++ l) = runes (string_to_list "coyote/") ++ runes l) by done.
  rewrite E, length_app, Nat2Z.inj_add. reflexivity.
Qed.

Lemma slash_count s1 s2 :
  RuneCountInString (s1 +:+ "/" +:+ s2) = RuneCountInString s1 + 1 + RuneCountInString s2.
Proof.
  unfold RuneCountInString. rewrite chars_app.
  change (string_to_list ("/" +:+ s2)) with ("/"%char :: string_to_list s2).
  rewrite runes_app, length_app by done.
  change (runes ("/"%char :: string_to_list s2)) with (["/"%char] :: runes (string_to_list s2)).
  cbn [length]. lia.
Qed.

Lemma contextName_count slug job : RuneCountInString (scmStatusContextName slug job) ≤ maxSCMStatusContextLength.
Proof.
  unfold scmStatusContextName. cbv zeta.
  set (available := _ - _ - _ - 1).
  destruct (Z.leb_spec available 0); [by apply truncate_count|].
  pose proof (truncate_count (TrimSpace slug) available ltac:(lia)).
  rewrite prefix_count, slash_count.
  assert (available = 92 - RuneCountInString (TrimSpace job))
    by (subst available; change (RuneCountInString "coyote/") with 7; change maxSCMStatusContextLength with 100; lia).
  change maxSCMStatusContextLength with 100. lia.
Qed.

(** The name of a context is not blank. *)
Lemma contextName_visible slug job : TrimSpace (scmStatusContextName slug job) ≠ "".
Proof.
  assert (Hv : (33 ≤ byte_of "c"%char < 128)%N) by (by vm_compute).
  assert (Hc : ∀ s, TrimSpace (String "c" s) ≠ "") by (intros s; by destruct (TrimSpace_head "c"%char s Hv) as [s' ->]).
  unfold scmStatusContextName. cbv zeta. set (available := _ - _ - _ - 1).
  destruct (available <=? 0); [|apply Hc].
  unfold truncateSCMStatusText. rewrite (proj2 (Z.leb_gt _ _)) by done. cbn [orb].
  destruct (TrimSpace_head "c"%char ("oyote/" +:+ TrimSpace job) Hv) as [t Et].
  change ("coyote/" +:+ TrimSpace job) with (String "c" ("oyote/" +:+ TrimSpace job)).
  rewrite Et.
  rewrite bool_decide_eq_false_2 by done. destruct (_ <=? _); [apply Hc|].
  rewrite TrimSpace_idemp. change (first_runes (Z.to_nat maxSCMStatusContextLength) (String "c" t))
    with (String "c" (first_runes 99 t)). apply Hc.
Qed.

(** ** The planned status *)

Lemma identity_complete r c q :
  ValidateRepositoryIdentitySnapshot (Some r) (Some c) (Some q) = None →
  TrimSpace r ≠ "" ∧ TrimSpace c ≠ "" ∧ TrimSpace q ≠ "".
Proof. unfold ValidateRepositoryIdentitySnapshot. simpl. by repeat case_bool_decide. Qed.

Lemma description_fits build state description :
  scmStatusStateForBuild build = Some (state, description) →
  TrimSpace state = state ∧ SCMCommitStatusState_IsValid state = true ∧
  let text := TrimSpace (truncateSCMStatusText description maxSCMStatusDescriptionLength) in
  text ≠ "" ∧ TrimSpace text = text ∧ RuneCountInString text ≤ maxSCMStatusDescriptionLength.
Proof.
  unfold scmStatusStateForBuild.
  destruct (b_Status build); intros [= <- <-]; split_and!; vm_compute; done.
Qed.

Lemma commitSHA_trimmed build : TrimSpace (scmStatusCommitSHA build) = scmStatusCommitSHA build.
Proof.
  unfold scmStatusCommitSHA. cbv zeta.
  repeat match goal with |- context [if ?b then _ else _] => destruct b end;
    first [apply TrimSpace_idemp | apply TrimSpace_empty].
Qed.

Lemma identity_accepted r c q :
  TrimSpace r ≠ "" → TrimSpace c ≠ "" → TrimSpace q ≠ "" →
  ValidateRepositoryIdentitySnapshot (Some r) (Some c) (Some q) = None.
Proof. intros. unfold ValidateRepositoryIdentitySnapshot. simpl. by repeat case_bool_decide. Qed.

(** The context and the description of what is planned. *)
Lemma planned_fields e p build w w' d :
  planDelivery e p build w = (w', inl (Some d)) →
  ∃ slug job state description r c q,
    d = SCMStatusDelivery_Normalize (plannedDelivery p build (scmStatusCommitSHA build)
          (scmStatusContextName slug job) state description (e_clock e (w_readings w))) ∧
    scmStatusStateForBuild build = Some (state, description) ∧ scmStatusCommitSHA build ≠ "" ∧
    (b_RegisteredRepositoryID build = Some r ∧ b_SCMConnectionID build = Some c ∧
     b_ProviderRepositoryID build = Some q) ∧
    TrimSpace r ≠ "" ∧ TrimSpace c ≠ "" ∧ TrimSpace q ≠ "".
Proof.
  unfold planDelivery, Build_ValidateRepositoryIdentitySnapshot.
  destruct (ValidateRepositoryIdentitySnapshot _ _ _) eqn:Ev; [done|].
  destruct (b_RegisteredRepositoryID build) as [r|]; [|done].
  destruct (b_SCMConnectionID build) as [c|]; [|done].
  destruct (b_ProviderRepositoryID build) as [q|]; [|done].
  apply identity_complete in Ev. case_bool_decide as Hs; [done|].
  unfold buildContextName. destruct (b_JobID build) as [job|]; [|done].
  case_bool_decide; [done|]. destruct (e_project e _) as [project|]; [|done].
  case_bool_decide; [done|]. destruct (scmStatusStateForBuild build) as [[state description]|] eqn:Est; [|done].
  unfold mbind, ReporterM_bind, now, mret, ReporterM_ret. intros [= _ <-].
  by exists (TrimSpace (pj_Slug project)), (TrimSpace job), state, description, r, c, q.
Qed.

Lemma trim_optional_visible s : TrimSpace s ≠ "" → trimSCMOptionalString (Some s) = Some (TrimSpace s).
Proof. intros H. simpl. by rewrite bool_decide_eq_false_2. Qed.

(** What is planned for a build. *)
Record planned_ok build (at_ : Time) d : Prop := {
  po_build : sd_BuildID d = TrimSpace (b_ID build) ∧ sd_BuildAttempt d = b_AttemptNumber build ∧
    sd_BuildCreatedAt d = scmStatusBuildCreatedAt build at_ ∧ sd_Provider d = "github";
  po_repository : sd_RepositoryOwner d = "repository-snapshot" ∧ sd_RepositoryName d = "repository-snapshot";
  po_identity : ∃ r c q, (b_RegisteredRepositoryID build = Some r ∧ b_SCMConnectionID build = Some c ∧
      b_ProviderRepositoryID build = Some q) ∧
    (TrimSpace r ≠ "" ∧ TrimSpace c ≠ "" ∧ TrimSpace q ≠ "") ∧
    sd_RegisteredRepositoryID d = Some (TrimSpace r) ∧ sd_SCMConnectionID d = Some (TrimSpace c) ∧
    sd_ProviderRepositoryID d = Some (TrimSpace q);
  po_commit : sd_CommitSHA d ≠ "" ∧ TrimSpace (sd_CommitSHA d) = sd_CommitSHA d;
  po_context : sd_Context d ≠ "" ∧ TrimSpace (sd_Context d) = sd_Context d ∧
    RuneCountInString (sd_Context d) ≤ maxSCMStatusContextLength;
  po_state : SCMCommitStatusState_IsValid (sd_DesiredState d) = true;
  po_description : sd_Description d ≠ "" ∧ TrimSpace (sd_Description d) = sd_Description d ∧
    RuneCountInString (sd_Description d) ≤ maxSCMStatusDescriptionLength;
  po_url : ∀ url, sd_DetailsURL d = Some url → TrimSpace url = url;
}.

Lemma planned e p build w w' d :
  planDelivery e p build w = (w', inl (Some d)) → planned_ok build (e_clock e (w_readings w)) d.
Proof.
  intros (slug&job&state&description&r&c&q&->&Est&Hsha&(Er&Ec&Eq)&Hr&Hc&Hq)%planned_fields.
  destruct (description_fits _ _ _ Est) as (Hstate&Hvalid&Htext&Htrim&Hcount).
  split; cbn [SCMStatusDelivery_Normalize plannedDelivery sd_BuildID sd_BuildAttempt sd_BuildCreatedAt
    sd_Provider sd_RepositoryOwner sd_RepositoryName sd_RegisteredRepositoryID sd_SCMConnectionID
    sd_ProviderRepositoryID sd_CommitSHA sd_Context sd_DesiredState sd_Description sd_DetailsURL].
  - rewrite TrimSpace_idemp. split_and!; try done.
    unfold IsZero. by destruct (Z.eqb_spec (scmStatusBuildCreatedAt build (e_clock e (w_readings w))) zero_time).
  - done.
  - exists r, c, q. by rewrite Er, Ec, Eq, !trim_optional_visible.
  - by rewrite !commitSHA_trimmed.
  - split_and!; [apply contextName_visible|apply TrimSpace_idemp|].
    etrans; [apply TrimSpace_count|apply contextName_count].
  - by rewrite Hstate.
  - done.
  - intros url. unfold trimSCMOptionalString. destruct (scmStatusDetailsURL _ _); [|done].
    case_bool_decide; [done|]. intros [= <-]. apply TrimSpace_idemp.
Qed.

Lemma publisher_accepts validURL build at_ d :
  planned_ok build at_ d → (∀ url, sd_DetailsURL d = Some url → validURL url = true) →
  validateGitHubCommitStatusRequest validURL (deliveryRequest d) = None.
Proof.
  intros [_ [Ho Hn] _ [Hs Hst] (Hc&Hct&Hcc) Hv (Hd&Hdt&Hdc) Hu] Hurl.
  unfold validateGitHubCommitStatusRequest. cbn [deliveryRequest req_State req_RepositoryOwner
    req_RepositoryName req_CommitSHA req_Context req_Description req_DetailsURL].
  rewrite Hv, Ho, Hn, Hst, Hct, Hdt. cbn [negb]. rewrite !bool_decide_eq_false_2 by done. cbn [orb].
  rewrite !(proj2 (Z.ltb_ge _ _)) by done.
  destruct (sd_DetailsURL d) as [url|]; [|done].
  by rewrite (Hu url eq_refl), (Hurl url eq_refl), andb_false_r.
Qed.

Lemma store_accepts build at_ d :
  planned_ok build at_ d → TrimSpace (b_ID build) ≠ "" → 0 ≤ b_AttemptNumber build → zero_time < at_ →
  SCMStatusDelivery_ValidateIdentity d = None.
Proof.
  intros [(Eb&Ea&Et&Ep) [Ho Hn] (r&c&q&_&(Hr&Hcn&Hq)&Er&Ec&Eq) [Hs Hst] (Hc&Hct&_) Hv _ _] Hid Hatt Hat.
  assert (Hz : IsZero (scmStatusBuildCreatedAt build at_) = false).
  { unfold scmStatusBuildCreatedAt. assert (IsZero at_ = false) by (unfold IsZero; lia).
    by destruct (IsZero (b_CreatedAt build)) eqn:Ez; simpl; rewrite ?Ez. }
  unfold SCMStatusDelivery_ValidateIdentity.
  rewrite Er, Ec, Eq, identity_accepted by (by rewrite TrimSpace_idemp).
  rewrite Eb, Ea, Et, Ep, Ho, Hn, Hv, Hz.
  rewrite !bool_decide_eq_false_2 by done. by rewrite (proj2 (Z.ltb_ge _ _)) by done.
Qed.


(** The status that is sent again after a lost claim carries no identity: the
    publisher with the tokens of the application refuses it always. *)
Lemma reassert_refused d :
  scmStatusRequestIdentity (scmStatusPublishRequest d) =
    inr (scmStatusIdentityError "github_status_delivery_identity_missing"
           "repository identity snapshot is required").
Proof. done. Qed.
