(* ===== verification/ScmReporterThms.v ===== *)
(** The reporter of commit statuses beside the other users of its stores: every
    access it makes is a call the store allows for, so that what ScmProps.v and
    ScmRecover.v prove of the store holds while reporters run; and the delays
    between its attempts. *)

From stdpp Require Import base gmap strings list pretty sorting numbers.
From S2P Require Import Prelude GoLib GoPath GoText Domain Repository BuildRepo DeliverySpec.
From S2P Require Import ScmDelivery ScmRepo ScmFacts ScmSpec ScmViews ScmThms ScmProps ScmClaims.
From S2P Require Import ScmReporter.

Open Scope go_scope.
Open Scope Z_scope.

Implicit Types (d : SCMStatusDelivery) (r : SCMStatusDeliveryRepository) (w : World).

(** ** Delays *)

Lemma doubled_spec maxDelay n delay :
  0 < delay ≤ maxDelay → 2 * maxDelay ≤ max_int64 →
  doubled maxDelay n delay = Z.min (delay * 2 ^ Z.of_nat n) maxDelay.
Proof.
  revert delay. induction n as [|n IH]; intros delay Hd Hm; cbn [doubled].
  - rewrite Z.pow_0_r, Z.mul_1_r. destruct (Z.ltb_spec maxDelay delay); lia.
  - assert (E : int64_mul delay 2 = delay * 2).
    { apply int64_wrap_id. unfold is_int64, min_int64 in *. lia. }
    rewrite E. rewrite Nat2Z.inj_succ, Z.pow_succ_r by lia.
    pose proof (Z.pow_pos_nonneg 2 (Z.of_nat n) ltac:(lia) ltac:(lia)).
    destruct (Z.leb_spec maxDelay (delay * 2)); [nia|].
    rewrite IH by lia. f_equal. lia.
Qed.

Definition policy_ok (p : scmStatusRetryPolicy) : Prop :=
  0 < srp_initialDelay p ≤ srp_maxDelay p ∧ 2 * srp_maxDelay p ≤ max_int64 ∧
  srp_maxAttempts p ≤ max_int64.

(** The delay before a retry doubles with each attempt up to the maximum, and
    no intermediate value wraps around. *)
Theorem delayForAttempt_doubles p attempt :
  policy_ok p →
  delayForAttempt p attempt =
    Z.min (srp_initialDelay p * 2 ^ Z.max 0 (attempt - 1)) (srp_maxDelay p) ∧
  srp_initialDelay p ≤ delayForAttempt p attempt ≤ srp_maxDelay p ∧
  delayForAttempt p attempt ≤ delayForAttempt p (attempt + 1).
Proof.
  intros (Hd&Hm&_).
  assert (H : ∀ n, delayForAttempt p n =
    Z.min (srp_initialDelay p * 2 ^ Z.max 0 (n - 1)) (srp_maxDelay p)).
  { intros n. unfold delayForAttempt. destruct (Z.leb_spec n 1).
    - rewrite Z.max_l, Z.pow_0_r by lia. lia.
    - rewrite doubled_spec by done. do 3 f_equal. lia. }
  rewrite !H. split; [done|].
  pose proof (Z.pow_pos_nonneg 2 (Z.max 0 (attempt - 1)) ltac:(lia) ltac:(lia)).
  assert (2 ^ Z.max 0 (attempt - 1) ≤ 2 ^ Z.max 0 (attempt + 1 - 1)) by (apply Z.pow_le_mono_r; lia).
  split; nia.
Qed.

Lemma delayForAttempt_doubles_witness :
  delayForAttempt defaultSCMStatusRetryPolicy 3 = 120 * scm_Second.
Proof.
  destruct (delayForAttempt_doubles defaultSCMStatusRetryPolicy 3) as [E _].
  - split_and!; vm_compute; done.
  - rewrite E. reflexivity.
Defined.

(** ** What a scan lists *)

Lemma listed_stored r now limit d :
  d ∈ listRecoverable (deliveriesInAnyOrder r) now limit → ∃ id, sr_deliveries r !! id = Some d.
Proof.
  unfold listRecoverable. cbv zeta. intros ([d' t]&->&Hin)%list_elem_of_fmap.
  assert (Hin' : (d', t) ∈ sort_slice candidateBefore (recoverableCandidates now (deliveriesInAnyOrder r))).
  { destruct (_ <? _); [|done]. by eapply elem_of_take in Hin as (?&?%list_elem_of_lookup_2&_). }
  apply elem_of_sort_slice in Hin'. unfold recoverableCandidates in Hin'.
  apply list_elem_of_omap in Hin' as (d1&Hin1&H1).
  destruct (scmStatusDeliveryRecoverableDueAt d1 now); [|done]. injection H1 as -> _.
  unfold deliveriesInAnyOrder in Hin1. apply list_elem_of_fmap in Hin1 as ([id d2]&->&H2).
  apply elem_of_map_to_list in H2. eauto.
Qed.

(** ** Worlds *)

Section streams.
Context (birth : string → Z * Time) `{SendErrors} (e : Surroundings) (p : SCMStatusReporter).

(** The identifiers that will be drawn name no delivery. *)
Definition unused (n : nat) r : Prop := ∀ i, (n ≤ i)%nat → sr_deliveries r !! e_uuid e i = None.

(** The others use the store as it allows for and draw identifiers of their own;
    the clock is past the year 1. *)
Record surroundings_ok : Prop := {
  so_others n b r : rtc (scm_step birth) r (e_others e n (b, r)).2;
  so_fresh n b r i : sr_deliveries r !! e_uuid e i = None →
    sr_deliveries (e_others e n (b, r)).2 !! e_uuid e i = None;
  so_clock i : zero_time < e_clock e i;
  so_uuid i : TrimSpace (e_uuid e i) = e_uuid e i ∧ e_uuid e i ≠ "";
  so_uuid_inj i j : e_uuid e i = e_uuid e j → i = j;
}.

Context (Hs : surroundings_ok) (Hp : srp_maxAttempts (rp_retryPolicy p) ≤ max_int64).

Definition world_ok w : Prop :=
  scm_reachable birth (w_deliveries w) ∧ unused (w_identifiers w) (w_deliveries w).

(** From one world to a later one, by steps of the store. *)
Definition advances w w' : Prop :=
  world_ok w' ∧ rtc (scm_step birth) (w_deliveries w) (w_deliveries w') ∧
  (w_readings w ≤ w_readings w')%nat.

Lemma advances_refl w : world_ok w → advances w w.
Proof. intros. split; [done|]. split; [done|lia]. Qed.

Lemma advances_trans w1 w2 w3 : advances w1 w2 → advances w2 w3 → advances w1 w3.
Proof. intros (_&H12&Hn1) (Hok&H23&Hn2). split; [done|]. split; [by etrans|lia]. Qed.

(** An operation that is fit for the worlds after [w0] advances them. *)
Definition guided {A} (w0 : World) (m : ReporterM A) (Q : A → World → Prop) : Prop :=
  ∀ w, advances w0 w → advances w (m w).1 ∧ Q (m w).2 (m w).1.

Lemma guided_ret {A} w0 (x : A) (Q : A → World → Prop) :
  (∀ w, advances w0 w → Q x w) → guided w0 (mret x) Q.
Proof. intros HQ w Hw. split; [by apply advances_refl; destruct Hw|]. by apply HQ. Qed.

Lemma guided_bind {A B} w0 (m : ReporterM A) (f : A → ReporterM B) (Q : A → World → Prop) R :
  guided w0 m Q → (∀ x w1, advances w0 w1 → Q x w1 → guided w1 (f x) R) → guided w0 (m ≫= f) R.
Proof.
  intros Hm Hf w Hw. destruct (Hm w Hw) as [H1 HQ]. unfold mbind, ReporterM_bind.
  destruct (m w) as [w1 x]. cbn [fst snd] in *.
  assert (H01 : advances w0 w1) by (by eapply advances_trans).
  destruct (Hf x w1 H01 HQ w1) as [H2 HR]; [apply advances_refl; by destruct H1|].
  split; [by eapply advances_trans|done].
Qed.

Lemma guided_weaken {A} w0 (m : ReporterM A) (Q Q' : A → World → Prop) :
  guided w0 m Q → (∀ x w, Q x w → Q' x w) → guided w0 m Q'.
Proof. intros Hm HQ w Hw. destruct (Hm w Hw) as [? ?]. auto. Qed.

Lemma guided_later {A} w0 w1 (m : ReporterM A) Q : advances w0 w1 → guided w0 m Q → guided w1 m Q.
Proof. intros Hw Hm w ?. apply Hm. by eapply advances_trans. Qed.

Definition anything {A} : A → World → Prop := λ _ _, True.

(** *** The accesses *)

Lemma interference_advances w : world_ok w → advances w (interference e w).
Proof.
  intros [Hr Hu]. unfold interference.
  pose proof (so_others Hs (w_accesses w) (w_builds w) (w_deliveries w)) as Ho.
  pose proof (so_fresh Hs (w_accesses w) (w_builds w) (w_deliveries w)) as Hf.
  destruct (e_others e _ _) as [b r]. cbn [snd] in *. split; [|split; [exact Ho|reflexivity]]. split; cbn.
  - by eapply scm_steps_reachable.
  - intros i Hi. by apply Hf, Hu.
Qed.

Lemma guided_now w0 : guided w0 (now e) (λ t _, zero_time < t).
Proof.
  intros w [Hw _]. split; [|apply (so_clock Hs)]. split; [exact Hw|]. split; [reflexivity|].
  change (w_readings w ≤ S (w_readings w))%nat. lia.
Qed.

Lemma guided_publish w0 req : guided w0 (PublishCommitStatus e req) anything.
Proof. intros w [Hw _]. split; [exact (advances_refl w Hw)|exact I]. Qed.

Lemma guided_builds {A} w0 (f : BuildRepository → A) : guided w0 (read_builds e f) anything.
Proof. intros w [Hw _]. split; [|exact I]. exact (interference_advances w Hw). Qed.

Lemma guided_read {A} w0 (f : SCMStatusDeliveryRepository → A) (Q : A → World → Prop) :
  (∀ w, world_ok w → Q (f (w_deliveries w)) w) →
  guided w0 (on_deliveries e (λ r, (r, f r))) Q.
Proof.
  intros HQ w [Hw _]. pose proof (interference_advances w Hw) as Hi.
  unfold on_deliveries. destruct (interference e w) as [b r a c i n]. split; [exact Hi|].
  exact (HQ _ (proj1 Hi)).
Qed.

(** A call on the store that is not a request for a claim. *)
Lemma guided_call {A} w0 (f : SCMStatusDeliveryRepository → SCMStatusDeliveryRepository * A) c :
  (∀ r, (f r).1 = run_scm c r) → (∀ r, scm_guard birth c r) →
  (∀ newID input, c ≠ CallAcquire newID input) → guided w0 (on_deliveries e f) anything.
Proof.
  intros Hf Hg Hc w [Hw _]. split; [|exact I]. pose proof (interference_advances w Hw) as [[Hr Hu] [Hi Hn]].
  unfold on_deliveries. destruct (interference e w) as [b r a k i n]. cbn [w_deliveries w_readings] in *.
  specialize (Hf r). destruct (f r) as [r' x]. cbn in Hf |- *. subst r'.
  split; [split|split; [|exact Hn]]; cbn.
  - by constructor.
  - intros j Hj. apply (scm_call_fresh birth); [by apply scm_reachable_ok|done|by apply Hu|].
    intros newID input E. by destruct (Hc newID input).
  - eapply rtc_r; [exact Hi|]. by exists c.
Qed.

(** What a request has to fit: the birth of its build, and no identifier unless
    it repeats a stored delivery. *)
Definition fits d r : Prop :=
  born birth d ∧ (TrimSpace (sd_ID d) = "" ∨ is_Some (sr_index r !! scmStatusDeliveryKey d)).

Lemma fits_step d r r' : scm_reachable birth r → scm_step birth r r' → fits d r → fits d r'.
Proof.
  intros Hr Hstep [Hb Hi]. split; [done|]. destruct Hi as [?|[id Hid]]; [by left|right].
  assert (Hv : is_Some (stream_view r (scmStatusDeliveryKey d))) by (unfold stream_view; by rewrite Hid).
  destruct Hv as [v Hv]. destruct (scm_step_view _ _ _ _ _ Hr Hstep Hv) as (v'&Hv'&_).
  unfold stream_view in Hv'. destruct (sr_index r' !! _); [by eexists|done].
Qed.

Lemma fits_advances d w w' : world_ok w → advances w w' → fits d (w_deliveries w) → fits d (w_deliveries w').
Proof.
  intros [Hr _] (_&H'&_). revert Hr. induction H' as [|r1 r2 r3 H12 _ IH]; [done|]. intros Hr Hd.
  apply IH; [|by eapply fits_step]. destruct H12 as (c&?&->). by constructor.
Qed.

(** A claim that was stored. *)
Definition holds_claim (x : option SCMStatusDeliveryClaimResult) w : Prop :=
  match x with
  | None => True
  | Some res => sr_deliveries (w_deliveries w) !! sd_ID (scr_Delivery res) = Some (scr_Delivery res)
  end.

Lemma guided_acquire w0 d :
  fits d (w_deliveries w0) → world_ok w0 → guided w0 (acquireFor e p d) anything.
Proof.
  intros Hd Hw0 w Hw. split; [|exact I]. change (acquireFor e p d w) with
    (on_deliveries e (AcquireForDelivery (e_uuid e (w_identifiers w))
       (claimRequest p d (e_clock e (w_readings w))))
     (w <| w_readings := S (w_readings w) |> <| w_identifiers := S (w_identifiers w) |>)).
  pose proof (fits_advances _ _ _ Hw0 Hw Hd) as Hdw. destruct Hw as [[Hr Hu] _].
  set (w1 := w <| w_readings := _ |> <| w_identifiers := _ |>).
  assert (H1 : advances w w1).
  { split; [|split; [reflexivity|apply (Nat.le_succ_diag_r (w_readings w))]]. split; [done|]. intros i Hi. apply Hu.
    change (S (w_identifiers w) ≤ i)%nat in Hi. lia. }
  pose proof (interference_advances w1 (proj1 H1)) as H2.
  assert (Hn : sr_deliveries (w_deliveries (interference e w1)) !! e_uuid e (w_identifiers w) = None).
  { unfold interference. pose proof (so_fresh Hs (w_accesses w1) (w_builds w1) (w_deliveries w1)
      (w_identifiers w) (Hu _ (le_n _))) as Hf. by destruct (e_others e _ _). }
  pose proof (fits_advances _ _ _ (conj Hr Hu) (advances_trans _ _ _ H1 H2) Hdw) as [Hb Hid].
  eapply advances_trans; [exact H1|].
  assert (Ei : w_identifiers (interference e w1) = S (w_identifiers w)).
  { unfold interference. by destruct (e_others e _ _). }
  clearbody w1. unfold on_deliveries. destruct H2 as [[Hr2 Hu2] [Hi2 Hn2]].
  destruct (interference e w1) as [b r a k i n]. cbn [w_deliveries w_identifiers w_readings] in *. subst i.
  set (c := CallAcquire (e_uuid e (w_identifiers w)) (claimRequest p d (e_clock e (w_readings w)))).
  assert (Hg : scm_guard birth c r).
  { destruct (so_uuid Hs (w_identifiers w)). split; [apply (so_clock Hs)|]. by split_and!. }
  assert (Hc : (AcquireForDelivery (e_uuid e (w_identifiers w))
    (claimRequest p d (e_clock e (w_readings w))) r).1 = run_scm c r) by done.
  destruct (AcquireForDelivery _ _ _) as [r' x]. change (r' = run_scm c r) in Hc. subst r'.
  split; [split|split; [|exact Hn2]].
  - change (scm_reachable birth (run_scm c r)). by constructor.
  - intros j Hj. change (sr_deliveries (run_scm c r) !! e_uuid e j = None).
    change (S (w_identifiers w) ≤ j)%nat in Hj.
    apply (scm_call_fresh birth); [by apply scm_reachable_ok|done|by apply Hu2|].
    intros newID input E. injection E as <- <-. intros E%(so_uuid_inj Hs). lia.
  - change (rtc (scm_step birth) (w_deliveries w1) (run_scm c r)).
    eapply rtc_r; [exact Hi2|]. by exists c.
Qed.

(** *** The operations *)

Lemma guided_bind_any {A B} w0 (m : ReporterM A) (f : A → ReporterM B) :
  guided w0 m anything → (∀ x w1, advances w0 w1 → guided w1 (f x) anything) →
  guided w0 (m ≫= f) anything.
Proof. intros Hm Hf. eapply guided_bind; [exact Hm|]. intros x w1 H1 _. by apply Hf. Qed.

Lemma guided_ret_any {A} w0 (x : A) : guided w0 (mret x) anything.
Proof. by apply guided_ret. Qed.

Lemma guided_now_any w0 : guided w0 (now e) anything.
Proof. eapply guided_weaken; [apply guided_now|done]. Qed.

Lemma guided_sent w0 input : guided w0 (on_deliveries e (MarkSent input)) anything.
Proof. by apply (guided_call w0 _ (CallSent input)). Qed.

Lemma guided_retryable w0 input : guided w0 (on_deliveries e (RecordRetryableFailure input)) anything.
Proof. by apply (guided_call w0 _ (CallRetryable input)). Qed.

Lemma guided_permanent w0 input : guided w0 (on_deliveries e (RecordPermanentFailure input)) anything.
Proof. by apply (guided_call w0 _ (CallPermanent input)). Qed.

Lemma guided_exhausted w0 input : guided w0 (on_deliveries e (RecordExhaustedFailure input)) anything.
Proof. by apply (guided_call w0 _ (CallExhausted input)). Qed.

Lemma guided_superseded w0 id owner at_ t reason last :
  guided w0 (on_deliveries e (MarkSuperseded
    (mkSCMStatusDeliveryMarkSupersededInput id (Some owner) (Some at_) t reason last))) anything.
Proof.
  apply (guided_call w0 _ (CallSuperseded (mkSCMStatusDeliveryMarkSupersededInput id (Some owner)
    (Some at_) t reason last))); [done| |done]. intros r. by split; eexists.
Qed.

Lemma guided_authoritative w0 d : guided w0 (getAuthoritativeDelivery e d) anything.
Proof. by apply guided_read. Qed.

(** Walk along an operation. *)
Ltac guide_step :=
  lazymatch goal with
  | |- guided _ (mret _) _ => apply guided_ret_any
  | |- guided _ (now _) _ => apply guided_now_any
  | |- guided _ (PublishCommitStatus _ _) _ => apply guided_publish
  | |- guided _ (read_builds _ _) _ => apply guided_builds
  | |- guided _ (getAuthoritativeDelivery _ _) _ => apply guided_authoritative
  | |- guided _ (on_deliveries _ (MarkSent _)) _ => apply guided_sent
  | |- guided _ (on_deliveries _ (RecordRetryableFailure _)) _ => apply guided_retryable
  | |- guided _ (on_deliveries _ (RecordPermanentFailure _)) _ => apply guided_permanent
  | |- guided _ (on_deliveries _ (RecordExhaustedFailure _)) _ => apply guided_exhausted
  | |- guided _ (on_deliveries _ (MarkSuperseded _)) _ => apply guided_superseded
  | |- guided _ (_ ≫= _) _ => apply guided_bind_any; [|intros ? ? _]
  | |- _ => case_match
  end.
Ltac guide := repeat guide_step.

Lemma guided_failed w0 d err t : guided w0 (markDeliveryFailed e p d err t) anything.
Proof. unfold markDeliveryFailed. cbv zeta. guide. Qed.

Lemma guided_fail w0 d err : guided w0 (failDelivery e p d err) anything.
Proof. unfold failDelivery. guide. apply guided_failed. Qed.

Lemma guided_settle w0 d updated : guided w0 (settle e d updated) anything.
Proof. unfold settle, reassertAuthoritativeDelivery. guide. Qed.

Lemma guided_recordSent w0 d reassert : guided w0 (recordSent e p d reassert) anything.
Proof.
  unfold recordSent, markDeliveryReassertPending, markDeliverySent. guide; apply guided_settle.
Qed.

Lemma guided_execute w0 d reassert : guided w0 (executeClaimedDelivery e p d reassert) anything.
Proof.
  unfold executeClaimedDelivery, getBuild, isSuperseded, supersedeDelivery, sendDelivery. cbv zeta.
  repeat first [apply guided_fail | apply guided_recordSent | guide_step].
Qed.

(** The build a status is reported for agrees with the births. *)
Definition build_born (build : Build) : Prop :=
  birth (TrimSpace (b_ID build)) = (b_AttemptNumber build, b_CreatedAt build) ∧
  zero_time < b_CreatedAt build.

Lemma guided_plan w0 build :
  build_born build →
  guided w0 (planDelivery e p build)
    (λ x w, ∀ d, x = inl (Some d) → fits d (w_deliveries w)).
Proof.
  intros [Hb Hz]. unfold planDelivery.
  repeat case_match; try (apply guided_ret; intros w Hw d Hd; discriminate Hd).
  eapply guided_bind; [apply guided_now|]. intros t w1 _ _. apply guided_ret. intros w2 _ d Hd.
  apply (inj inl) in Hd. injection Hd as <-. split; [|left; reflexivity].
  apply norm_born. unfold born.
  change (sd_BuildID (plannedDelivery _ _ _ _ _ _ _)) with (TrimSpace (b_ID build)).
  rewrite TrimSpace_idemp, Hb. unfold plannedDelivery. cbn.
  unfold scmStatusBuildCreatedAt. by rewrite IsZero_later.
Qed.

Lemma guided_notify w0 build :
  world_ok w0 → build_born build → guided w0 (NotifyBuildStatus e p build) anything.
Proof.
  intros Hw0 Hb. unfold NotifyBuildStatus, acquireDelivery.
  eapply guided_bind_any.
  - eapply guided_bind; [by apply guided_plan|]. intros planned w1 H1 Hplan.
    destruct planned as [[d|]|]; [|guide..]. apply guided_bind_any; [|intros ? ? _; guide].
    apply guided_acquire; [by apply Hplan|by destruct H1].
  - intros acquired w1 _. destruct acquired as [[res|]|]; [|guide..].
    apply guided_bind_any; [apply guided_execute|]. intros [o err] w2 _. guide.
Qed.

Lemma guided_recover w0 d :
  world_ok w0 → fits d (w_deliveries w0) → guided w0 (recoverDelivery e p d) anything.
Proof.
  intros Hw0 Hd. unfold recoverDelivery.
  apply guided_bind_any; [by apply guided_acquire|]. intros result w1 _.
  unfold getBuild. repeat first [apply guided_failed | apply guided_execute | guide_step].
Qed.

Lemma guided_recoverAll w0 ds result errs :
  world_ok w0 → Forall (λ d, fits d (w_deliveries w0)) ds →
  guided w0 (recoverAll e p ds result errs) anything.
Proof.
  revert w0 result errs. induction ds as [|d ds IH]; intros w0 result errs Hw0 Hds; cbn [recoverAll];
    [guide|]. apply Forall_cons_1 in Hds as [Hd Hds].
  apply guided_bind_any; [by apply guided_recover|]. intros [attempt err] w1 H1.
  assert (Hds1 : Forall (λ d, fits d (w_deliveries w1)) ds).
  { eapply Forall_impl; [|exact Hds]. intros d' Hd'. by eapply fits_advances. }
  cbv zeta. case_match; apply IH; by destruct H1.
Qed.

(** What a scan lists is stored, and so fits. *)
Lemma scan_fits w input ds :
  world_ok w → ListRecoverable input (w_deliveries w) = inl ds →
  Forall (λ d, fits d (w_deliveries w)) ds.
Proof.
  intros [Hr _]. unfold ListRecoverable. destruct (IsZero _); [done|]. destruct (_ <=? 0); [done|].
  intros [= <-]. apply list.Forall_forall. intros d Hd.
  destruct (listed_stored _ _ _ _ Hd) as [id Hid].
  destruct (ok_delivery _ _ (scm_reachable_ok _ _ Hr) _ _ Hid) as (_&_&_&_&Hb&Hx).
  split; [done|]. right. by eexists.
Qed.

Lemma guided_iteration w0 batchSize : world_ok w0 → guided w0 (RunIteration e p batchSize) anything.
Proof.
  intros Hw0. unfold RunIteration. apply guided_bind_any; [guide|]. intros t w1 H1.
  eapply guided_bind.
  - apply (guided_read w1 (ListRecoverable (mkSCMStatusDeliveryRecoverableScanInput t batchSize))
      (λ x w, ∀ ds, x = inl ds → Forall (λ d, fits d (w_deliveries w)) ds)).
    intros w Hw ds Hds. by eapply scan_fits.
  - intros found w2 [Hw2 _] Hf. destruct found as [ds|]; [|guide].
    apply guided_recoverAll; [done|by apply Hf].
Qed.


(** C11: reporters keep to the rules of the store.  While others use the stores
    between any two of its accesses, what a reporter does for a build and what a
    recovery does is, for the store of commit statuses, a sequence of calls it
    allows for: the store stays reachable, and a stream that has begun moves by
    the rules of the abstract stream only. *)
Theorem reporter_keeps_streams w build batchSize :
  world_ok w → build_born build →
  let after := [(NotifyBuildStatus e p build w).1; (RunIteration e p batchSize w).1] in
  Forall (λ w', scm_reachable birth (w_deliveries w') ∧
    rtc (scm_step birth) (w_deliveries w) (w_deliveries w') ∧
    (∀ key v, stream_view (w_deliveries w) key = Some v →
       ∃ v', stream_view (w_deliveries w') key = Some v' ∧ rtc (stream_step birth) v v')) after.
Proof.
  intros Hw Hb. cbv zeta.
  assert (H1 : advances w (NotifyBuildStatus e p build w).1).
  { by apply (guided_notify w build Hw Hb w), advances_refl. }
  assert (H2 : advances w (RunIteration e p batchSize w).1).
  { by apply (guided_iteration w batchSize Hw w), advances_refl. }
  assert (Hv : ∀ w', advances w w' → scm_reachable birth (w_deliveries w') ∧
    rtc (scm_step birth) (w_deliveries w) (w_deliveries w') ∧
    (∀ key v, stream_view (w_deliveries w) key = Some v →
       ∃ v', stream_view (w_deliveries w') key = Some v' ∧ rtc (stream_step birth) v v')).
  { intros w' ([Hr' _]&Hs'&_). split; [done|]. split; [done|]. intros key v.
    apply scm_steps_view; [by destruct Hw|done]. }
  repeat constructor; by apply Hv.
Qed.
End streams.
