(* ===== verification/ScmSending.v ===== *)
(** What becomes of one status that a reporter has claimed: whether the
    publisher is asked, what is recorded, and what the caller is told, when
    nobody else uses the stores meanwhile. *)

From stdpp Require Import base gmap strings list pretty sorting numbers.
From S2P Require Import Prelude GoLib GoPath GoText Domain Repository BuildRepo DeliverySpec.
From S2P Require Import BuildRepoFacts.
From S2P Require Import ScmDelivery ScmRepo ScmFacts ScmSpec ScmViews ScmOutcomes ScmThms ScmProps.
From S2P Require Import ScmReporter ScmReporterThms.

Open Scope go_scope.
Open Scope Z_scope.

Implicit Types (d : SCMStatusDelivery) (r : SCMStatusDeliveryRepository) (w : World).

Local Abbreviation norm := SCMStatusDelivery_Normalize.

(** ** Phases after an update *)

Lemma phase_sent input d : phase_of (norm (sentDelivery input d)) = Sent.
Proof. reflexivity. Qed.

Lemma phase_superseded input d : phase_of (norm (supersededDelivery input d)) = Superseded.
Proof. reflexivity. Qed.

Lemma phase_failed input status d :
  phase_of (norm (failedDelivery input status d)) =
  if status == SCMStatusDeliveryStatusRetryWaiting
  then RetryWaiting (default zero_time (normalizeSCMOptionalTime (sfi_NextAttemptAt input)))
  else phase_of (norm (failedDelivery input status d)).
Proof.
  case_bool_decide as E; [|done]. destruct (failed_fields input status d) as (Es&_).
  destruct (failed_fields_more d input status) as (En&_).
  set (d' := failedDelivery input status d) in *. clearbody d'. subst status.
  unfold phase_of. rewrite norm_status, Es.
  change (sd_NextAttemptAt (norm d')) with (normalizeSCMOptionalTime (sd_NextAttemptAt d')).
  rewrite En, time_optional_idemp. reflexivity.
Qed.

Lemma phase_failed_end input status d :
  status = SCMStatusDeliveryStatusFailedPermanent ∨ status = SCMStatusDeliveryStatusFailedExhausted →
  phase_of (norm (failedDelivery input status d)) =
  if status == SCMStatusDeliveryStatusFailedPermanent then FailedPermanent else FailedExhausted.
Proof.
  destruct (failed_fields input status d) as (Es&_).
  set (d' := failedDelivery input status d) in *. clearbody d'.
  unfold phase_of. rewrite norm_status, Es. by intros [->| ->].
Qed.

(** ** Newer attempts *)

(** Another build of the job and the commit is of a later attempt, or was created
    later. *)
Definition superseded_by (b : BuildRepository) (build : Build) d : Prop :=
  ∃ jobID id other, b_JobID build = Some jobID ∧ TrimSpace jobID ≠ "" ∧
    br_builds b !! id = Some other ∧ b_JobID other = Some (TrimSpace jobID) ∧
    TrimSpace (b_ID other) ≠ TrimSpace (b_ID build) ∧
    scmStatusCommitSHA other = sd_CommitSHA d ∧
    (b_AttemptNumber build < b_AttemptNumber other ∨
     b_AttemptNumber other = b_AttemptNumber build ∧ b_CreatedAt build < b_CreatedAt other).

Lemma elem_of_ListByJobID jobID b other :
  other ∈ BuildRepository_ListByJobID jobID b ↔
  ∃ id stored, br_builds b !! id = Some stored ∧ b_JobID stored = Some jobID ∧
    other = cloneBuildApplicationVersion stored.
Proof.
  unfold BuildRepository_ListByJobID. rewrite elem_of_sort_slice, list_elem_of_fmap. split.
  - intros (stored&->&[Hj Hin]%list_elem_of_filter). unfold buildsInAnyOrder in Hin.
    apply list_elem_of_fmap in Hin as ([id x]&->&Hx%elem_of_map_to_list). eauto.
  - intros (id&stored&Hid&Hj&->). exists stored. split; [done|]. apply list_elem_of_filter.
    split; [done|]. unfold buildsInAnyOrder. apply list_elem_of_fmap. exists (id, stored).
    by rewrite elem_of_map_to_list.
Qed.

Lemma clone_same b :
  b_ID (cloneBuildApplicationVersion b) = b_ID b ∧
  scmStatusCommitSHA (cloneBuildApplicationVersion b) = scmStatusCommitSHA b ∧
  b_AttemptNumber (cloneBuildApplicationVersion b) = b_AttemptNumber b ∧
  b_CreatedAt (cloneBuildApplicationVersion b) = b_CreatedAt b.
Proof. unfold cloneBuildApplicationVersion. destruct (b_ApplicationVersion b); by split_and!. Qed.

Lemma reporter_bind {A B} (m : ReporterM A) (f : A → ReporterM B) w :
  (m ≫= f) w = f (m w).2 (m w).1.
Proof. unfold mbind, ReporterM_bind. by destruct (m w). Qed.

Section sending.
Context (birth : string → Z * Time) `{SendErrors} (e : Surroundings) (p : SCMStatusReporter).

(** Nobody else uses the stores, and the clock is past the year 1. *)
Record quiet : Prop := {
  q_others n x : e_others e n x = x;
  q_clock i : zero_time < e_clock e i;
}.

Context (Hq : quiet) (Hp : policy_ok (rp_retryPolicy p)).

Lemma interference_quiet w :
  interference e w = w <| w_accesses := S (w_accesses w) |>.
Proof.
  unfold interference. rewrite (q_others Hq). by destruct w.
Qed.

Lemma isSuperseded_spec build d w :
  let x := isSuperseded e build d w in
  (∃ b : bool, x.2 = inl b ∧ (b = true ↔ superseded_by (w_builds w) build d)) ∧
  (x.1 = w ∨ x.1 = w <| w_accesses := S (w_accesses w) |>).
Proof.
  cbv zeta. unfold isSuperseded. destruct (b_JobID build) as [jobID|] eqn:Ej.
  2:{ split; [|by left]. exists false. split; [done|]. split; [done|].
      intros (j&id&o&Hj&_). congruence. }
  case_bool_decide as Ht.
  { split; [|by left]. exists false. split; [done|]. split; [done|].
    intros (j&id&o&Hj&Hn&_). congruence. }
  rewrite reporter_bind. unfold read_builds. cbn [fst snd].
  set (newer := λ candidate, if _ == _ then false else _).
  rewrite interference_quiet. split; [|by right]. cbn [fst snd w_builds].
  eexists. split; [reflexivity|]. rewrite existsb_exists. unfold newer.
  setoid_rewrite <-list_elem_of_In. setoid_rewrite elem_of_ListByJobID. split.
  - intros (c&(id&other&Hid&Hjo&->)&Hc). destruct (clone_same other) as (E1&E2&E3&E4).
    rewrite E1, E2, E3, E4 in Hc. exists jobID, id, other. unfold After in Hc.
    repeat case_bool_decide; try done. split_and!; try done.
    simpl in Hc. revert Hc.
    destruct (Z.ltb_spec (b_AttemptNumber build) (b_AttemptNumber other)); [by left|].
    intros Hc. right. bool_to_prop. lia.
  - intros (j&id&other&Hj&Hn&Hid&Hjo&Hne&Hc&Hnew). assert (j = jobID) as -> by congruence.
    exists (cloneBuildApplicationVersion other). split; [eauto|].
    destruct (clone_same other) as (E1&E2&E3&E4). rewrite E1, E2, E3, E4.
    rewrite (bool_decide_eq_false_2 _ Hne), (bool_decide_eq_true_2 _ Hc). simpl. unfold After.
    destruct Hnew as [Hl|[E Hl]].
    + by rewrite (proj2 (Z.ltb_lt _ _) Hl).
    + rewrite E, Z.ltb_irrefl, Z.eqb_refl. by apply Z.ltb_lt.
Qed.

(** ** The fate of a claimed status *)

Inductive Fate :=
  | FateSent
  | FateSuperseded
  | FateCanceled (err : error)
  | FateFailed (err : error).

Definition canceled_error (err : error) : bool :=
  errors_Is err context_Canceled || errors_Is err context_DeadlineExceeded.

(** Whether the publisher is asked, and what comes of it. *)
Inductive fate w d : bool → Fate → Prop :=
  | fate_no_build build err :
      BuildRepository_GetByID (sd_BuildID d) (w_builds w) = (build, Some err) →
      fate w d false (FateFailed err)
  | fate_superseded build :
      BuildRepository_GetByID (sd_BuildID d) (w_builds w) = (build, None) →
      superseded_by (w_builds w) build d → fate w d false FateSuperseded
  | fate_refused build err :
      BuildRepository_GetByID (sd_BuildID d) (w_builds w) = (build, None) →
      ¬ superseded_by (w_builds w) build d →
      e_publisher e (w_published w) (deliveryRequest d) = Some err →
      fate w d true (if canceled_error err then FateCanceled err else FateFailed err)
  | fate_accepted build :
      BuildRepository_GetByID (sd_BuildID d) (w_builds w) = (build, None) →
      ¬ superseded_by (w_builds w) build d →
      e_publisher e (w_published w) (deliveryRequest d) = None →
      fate w d true FateSent.

Definition retryable_error (err : error) : bool := fd_retryable (classifySCMStatusDeliveryFailure err).

(** Where the delivery stands afterwards, at an instant [at_]. *)
Definition phase_after (f : Fate) d (reassertAfter : option Time) (at_ : Time) : Phase :=
  match f with
  | FateSent =>
      match reassertAfter with
      | Some t => if at_ <? t then RetryWaiting t else Sent
      | None => Sent
      end
  | FateSuperseded => Superseded
  | FateCanceled _ => phase_of (norm d)
  | FateFailed err =>
      if retryable_error err then
        if sd_Attempts d <? sd_MaxAttempts d
        then RetryWaiting (at_ + delayForAttempt (rp_retryPolicy p) (sd_Attempts d))
        else FailedExhausted
      else FailedPermanent
  end.

(** What the caller is told. *)
Definition told (f : Fate) d (reassertAfter : option Time) (at_ : Time)
    : scmStatusExecutionOutcome * option error :=
  match f with
  | FateSent =>
      (match reassertAfter with
       | Some t => if at_ <? t then scmStatusExecutionOutcomeReassertScheduled
                   else scmStatusExecutionOutcomeSent
       | None => scmStatusExecutionOutcomeSent
       end, None)
  | FateSuperseded => (scmStatusExecutionOutcomeSuperseded, None)
  | FateCanceled err => (scmStatusExecutionOutcomeNone, Some err)
  | FateFailed err =>
      (if retryable_error err then
         if sd_Attempts d <? sd_MaxAttempts d then scmStatusExecutionOutcomeRetryScheduled
         else scmStatusExecutionOutcomeAttemptsExhausted
       else scmStatusExecutionOutcomePermanentlyFailed, Some err)
  end.

(** The store with one delivery in another phase. *)
Definition moved d (ph : Phase) r r' : Prop :=
  ∃ d', sr_deliveries r' = <[sd_ID d := d']> (sr_deliveries r) ∧ sr_index r' = sr_index r ∧
    sd_ID d' = sd_ID d ∧ identity d' = identity d ∧ wf_delivery d' ∧ phase_of (norm d') = ph.

(** The builds and what was published stay, the store becomes [r]. *)
Definition leaves w w' r : Prop :=
  w_deliveries w' = r ∧ w_builds w' = w_builds w ∧ w_published w' = w_published w.

Lemma on_deliveries_quiet {A} (f : SCMStatusDeliveryRepository → SCMStatusDeliveryRepository * A) w :
  let x := on_deliveries e f w in
  x.2 = (f (w_deliveries w)).2 ∧ leaves w x.1 (f (w_deliveries w)).1.
Proof.
  cbv zeta. unfold on_deliveries. rewrite interference_quiet. cbn [w_deliveries].
  change (w_deliveries (w <| w_accesses := _ |>)) with (w_deliveries w).
  destruct (f (w_deliveries w)) as [r' x]. by split_and!.
Qed.

Section holder.
Context r d (Hr : scm_ok birth r) (Hl : sr_deliveries r !! sd_ID d = Some d) (since : Time).
Context (Hh : held (rp_claimOwner p) since d).

Lemma holder_facts :
  wf_delivery d ∧ sd_Status d = SCMStatusDeliveryStatusSending ∧
  claimedSCMStatusTimestamp d = inl since.
Proof.
  destruct (ok_delivery _ _ Hr _ _ Hl) as (_&_&_&Hd&_). destruct Hh as [u Hu].
  destruct (phase_sending _ _ _ _ Hd Hu) as (Hs&_&Ht&_). split_and!; [done..|].
  unfold claimedSCMStatusTimestamp. rewrite Ht. by rewrite IsZero_later by (by apply (wf_since d Hd)).
Qed.

(** An update that is stored. *)
Lemma moved_store d' ph :
  sd_ID d' = sd_ID d → identity d' = identity d → wf_delivery d' → phase_of (norm d') = ph →
  moved d ph r (storeDelivery r (sd_ID d) d').
Proof. intros. by exists d'. Qed.

Lemma moved_refl : moved d (phase_of (norm d)) r r.
Proof.
  exists d. rewrite (insert_id _ _ _ Hl). destruct holder_facts as (?&_). by split_and!.
Qed.

Lemma delay_positive at_ : zero_time < at_ → zero_time < at_ + delayForAttempt (rp_retryPolicy p) (sd_Attempts d).
Proof.
  intros Ht. destruct Hp as (Hd&Hm&_). enough (0 < delayForAttempt (rp_retryPolicy p) (sd_Attempts d)) by lia.
  unfold delayForAttempt. destruct (Z.leb_spec (sd_Attempts d) 1); [lia|].
  rewrite doubled_spec by lia.
  pose proof (Z.pow_pos_nonneg 2 (Z.of_nat (Z.to_nat (sd_Attempts d - 1))) ltac:(lia) ltac:(lia)). nia.
Qed.

(** A failure that fits is recorded. *)
Lemma failure_spec w input status updated :
  w_deliveries w = r → sfi_DeliveryID input = sd_ID d → sfi_ClaimOwner input = rp_claimOwner p →
  sfi_ClaimedAt input = since → failure_fits d input status →
  let x := on_deliveries e (recordFailure input status) w in
  outcomeOf updated x.2 = (updated, None) ∧
  leaves w x.1 (storeDelivery r (sd_ID d) (failedDelivery input status d)) ∧
  wf_delivery (failedDelivery input status d) ∧
  sd_ID (failedDelivery input status d) = sd_ID d ∧
  identity (failedDelivery input status d) = identity d.
Proof.
  intros Hw Ei Eo Et Hf. cbv zeta. destruct holder_facts as (Hd&Hs&_).
  destruct (on_deliveries_quiet (recordFailure input status) w) as [E1 E2]. rewrite E1. rewrite Hw in *.
  rewrite <-Eo, <-Et in Hh.
  rewrite (failure_recorded birth r Hr (sd_ID d) d Hl input status Ei Hh Hf) in *. cbn [fst snd] in *.
  split; [reflexivity|]. split; [done|].
  destruct (failed_fields input status d) as (_&_&_&Eid&Eident&_). split; [|done].
  apply wf_failed; [done| |by apply failed_valid].
  destruct Hf as [(->&_)|[(->&_)|(->&_)]]; unfold failure_status; auto.
Qed.

Lemma failed_spec w err at_ re :
  w_deliveries w = r → zero_time < at_ →
  let x := markDeliveryFailed e p d err at_ w in
  x.2 = ((told (FateFailed err) d re at_).1, None) ∧
  ∃ r', leaves w x.1 r' ∧ moved d (phase_after (FateFailed err) d re at_) r r'.
Proof.
  intros Hw Ht. cbv zeta. unfold markDeliveryFailed. destruct holder_facts as (Hd&Hs&->).
  cbn [told phase_after fst]. unfold retryable_error.
  set (dec := classifySCMStatusDeliveryFailure err).
  assert (Hcat : fd_category dec = if fd_retryable dec then SCMStatusDeliveryFailureCategoryRetryable
    else SCMStatusDeliveryFailureCategoryPermanent).
  { unfold dec, classifySCMStatusDeliveryFailure. repeat case_match; simplify_eq; try done. }
  destruct (fd_retryable dec) eqn:Er; cbn [andb];
    [destruct (Z.ltb_spec (sd_Attempts d) (sd_MaxAttempts d)) as [Hlt|Hge]|];
    rewrite reporter_bind; cbn [fst snd mret ReporterM_ret].
  - set (next := at_ + _). pose proof (delay_positive at_ Ht) as Hn. fold next in Hn.
    destruct (failure_spec w (failureInput p d since at_ err (Some next))
      SCMStatusDeliveryStatusRetryWaiting scmStatusExecutionOutcomeRetryScheduled Hw
      eq_refl eq_refl eq_refl) as (E&HL&Hwf&Hid&Hi).
    { left. split_and!; [done|done|exact Hcat|]. by exists next. }
    unfold RecordRetryableFailure. rewrite E. split; [done|]. eexists. split; [exact HL|].
    apply moved_store; [done..|]. rewrite phase_failed, bool_decide_eq_true_2 by done.
    change (sfi_NextAttemptAt _) with (Some next). by rewrite time_optional_id.
  - destruct (failure_spec w (failureInput p d since at_ err None)
      SCMStatusDeliveryStatusFailedExhausted scmStatusExecutionOutcomeAttemptsExhausted Hw
      eq_refl eq_refl eq_refl) as (E&HL&Hwf&Hid&Hi); [right; right; by split_and!|].
    unfold RecordExhaustedFailure. rewrite E. split; [done|]. eexists. split; [exact HL|].
    apply moved_store; [done..|]. by rewrite phase_failed_end by auto.
  - destruct (failure_spec w (failureInput p d since at_ err None)
      SCMStatusDeliveryStatusFailedPermanent scmStatusExecutionOutcomePermanentlyFailed Hw
      eq_refl eq_refl eq_refl) as (E&HL&Hwf&Hid&Hi); [right; left; by split_and!|].
    unfold RecordPermanentFailure. rewrite E. split; [done|]. eexists. split; [exact HL|].
    apply moved_store; [done..|]. by rewrite phase_failed_end by auto.
Qed.

Lemma sent_spec w at_ :
  w_deliveries w = r → zero_time < at_ →
  let x := markDeliverySent e p d at_ w in
  x.2 = (scmStatusExecutionOutcomeSent, None) ∧ ∃ r', leaves w x.1 r' ∧ moved d Sent r r'.
Proof.
  intros Hw Ht. cbv zeta. unfold markDeliverySent. destruct holder_facts as (Hd&Hs&->).
  rewrite reporter_bind. cbn [fst snd mret ReporterM_ret].
  set (input := mkSCMStatusDeliveryMarkSentInput _ _ _ _ _).
  destruct (on_deliveries_quiet (MarkSent input) w) as [E1 E2]. rewrite E1. rewrite Hw in *.
  rewrite (sent_recorded birth r Hr (sd_ID d) d Hl input eq_refl Hh eq_refl Ht) in *.
  split; [reflexivity|]. eexists. split; [exact E2|].
  apply moved_store; [reflexivity..|by apply wf_sent; [|apply sent_valid]|apply phase_sent].
Qed.

Lemma reassert_spec w at_ t :
  w_deliveries w = r → zero_time < t → sd_Attempts d < sd_MaxAttempts d →
  let x := markDeliveryReassertPending e p d at_ t w in
  x.2 = (scmStatusExecutionOutcomeReassertScheduled, None) ∧
  ∃ r', leaves w x.1 r' ∧ moved d (RetryWaiting t) r r'.
Proof.
  intros Hw Ht Hlt. cbv zeta. unfold markDeliveryReassertPending. destruct holder_facts as (Hd&Hs&->).
  rewrite reporter_bind. cbn [fst snd mret ReporterM_ret].
  set (input := mkSCMStatusDeliveryRecordFailureInput _ _ _ _ _ _ _ _).
  destruct (failure_spec w input SCMStatusDeliveryStatusRetryWaiting
    scmStatusExecutionOutcomeReassertScheduled Hw eq_refl eq_refl eq_refl) as (E&HL&Hwf&Hid&Hi).
  { left. split_and!; [done|done|reflexivity|]. by exists t. }
  unfold RecordRetryableFailure. rewrite E. split; [done|]. eexists. split; [exact HL|].
  apply moved_store; [done..|]. rewrite phase_failed, bool_decide_eq_true_2 by done.
  change (sfi_NextAttemptAt input) with (Some t). by rewrite time_optional_id.
Qed.

Lemma supersede_spec w :
  w_deliveries w = r →
  let x := supersedeDelivery e p d w in
  x.2 = (scmStatusExecutionOutcomeSuperseded, None) ∧
  ∃ r', leaves w x.1 r' ∧ moved d Superseded r r'.
Proof.
  intros Hw. cbv zeta. unfold supersedeDelivery. destruct holder_facts as (Hd&Hs&->).
  rewrite !reporter_bind. cbn [fst snd mret ReporterM_ret now].
  set (input := mkSCMStatusDeliveryMarkSupersededInput _ _ _ _ _ _). set (w1 := w <| w_readings := _ |>).
  assert (Hw1 : w_deliveries w1 = r) by exact Hw.
  destruct (on_deliveries_quiet (MarkSuperseded input) w1) as [E1 E2]. rewrite E1. rewrite Hw1 in *.
  rewrite (superseded_recorded birth r Hr (sd_ID d) d Hl input _ _ eq_refl eq_refl eq_refl Hh
    (q_clock Hq _)) in *.
  split; [reflexivity|]. eexists. split; [exact E2|].
  apply moved_store; [reflexivity..| |apply phase_superseded].
  apply wf_superseded; [done|]. apply superseded_valid; [done..|apply (q_clock Hq)].
Qed.

Lemma fail_spec w err re :
  w_deliveries w = r →
  let at_ := e_clock e (w_readings w) in let x := failDelivery e p d err w in
  x.2 = told (FateFailed err) d re at_ ∧
  ∃ r', leaves w x.1 r' ∧ moved d (phase_after (FateFailed err) d re at_) r r'.
Proof.
  intros Hw. cbv zeta. unfold failDelivery. rewrite !reporter_bind. cbn [fst snd now].
  match goal with |- context [markDeliveryFailed e p d err ?t ?w1] =>
    destruct (failed_spec w1 err t re Hw (q_clock Hq _)) as [E HL];
    destruct (markDeliveryFailed e p d err t w1) as [w2 y] end.
  cbn [fst snd] in *. subst y. split; [reflexivity|exact HL].
Qed.

Lemma recordSent_spec w re :
  w_deliveries w = r → sd_Attempts d < sd_MaxAttempts d ∨ re = None →
  (∀ t, re = Some t → zero_time < t) →
  let at_ := e_clock e (w_readings w) in let x := recordSent e p d re w in
  x.2 = told FateSent d re at_ ∧
  ∃ r', leaves w x.1 r' ∧ moved d (phase_after FateSent d re at_) r r'.
Proof.
  intros Hw Hre Ht. cbv zeta. unfold recordSent. rewrite !reporter_bind. cbn [fst snd now].
  set (at_ := e_clock e (w_readings w)). set (w1 := w <| w_readings := _ |>).
  assert (Hw1 : w_deliveries w1 = r) by exact Hw.
  assert (Hsent : ∀ x, x = markDeliverySent e p d at_ w1 →
    (settle e d x.2 x.1).2 = (scmStatusExecutionOutcomeSent, None) ∧
    ∃ r', leaves w (settle e d x.2 x.1).1 r' ∧ moved d Sent r r').
  { intros x ->. destruct (sent_spec w1 at_ Hw1 (q_clock Hq _)) as [E Hl'].
    destruct (markDeliverySent e p d at_ w1) as [w2 y]. cbn [fst snd] in *. subst y. by split. }
  destruct re as [t|]; [|by apply Hsent]. cbn [told phase_after]. unfold After.
  destruct (Z.ltb_spec at_ t); [|by apply Hsent].
  destruct Hre as [Hlt|]; [|done].
  destruct (reassert_spec w1 at_ t Hw1 (Ht _ eq_refl) Hlt) as [E Hl'].
  destruct (markDeliveryReassertPending e p d at_ t w1) as [w2 y]. cbn [fst snd] in *. subst y. by split.
Qed.

(** What sending leads to, from a world with the builds and the answers of [w]. *)
Definition sending_result w (x : World * (scmStatusExecutionOutcome * option error)) re
    (asked : bool) (f : Fate) : Prop :=
  let at_ := e_clock e (w_readings w) in
  x.2 = told f d re at_ ∧ moved d (phase_after f d re at_) r (w_deliveries x.1) ∧
  w_builds x.1 = w_builds w ∧
  w_published x.1 = w_published w ++
    (if asked then [(deliveryRequest d, e_publisher e (w_published w) (deliveryRequest d))] else []).

Lemma result_of_leaves w x re (asked : bool) f r' :
  x.2 = told f d re (e_clock e (w_readings w)) → leaves w x.1 r' →
  moved d (phase_after f d re (e_clock e (w_readings w))) r r' → asked = false →
  sending_result w x re asked f.
Proof.
  intros E (<-&Eb&Ep) Hm ->. unfold sending_result. rewrite app_nil_r. by split_and!.
Qed.

Lemma sendDelivery_spec w re :
  w_deliveries w = r → sd_Attempts d < sd_MaxAttempts d ∨ re = None →
  (∀ t, re = Some t → zero_time < t) →
  sending_result w (sendDelivery e p d re w) re true
    match e_publisher e (w_published w) (deliveryRequest d) with
    | None => FateSent
    | Some err => if canceled_error err then FateCanceled err else FateFailed err
    end.
Proof.
  intros Hw Hre Ht. unfold sendDelivery. rewrite reporter_bind. unfold PublishCommitStatus.
  cbn [fst snd]. set (w1 := w <| w_published := _ |>).
  assert (Hw1 : w_deliveries w1 = r) by exact Hw.
  assert (Hres : ∀ x f r', x.2 = told f d re (e_clock e (w_readings w)) → leaves w1 x.1 r' →
    moved d (phase_after f d re (e_clock e (w_readings w))) r r' → sending_result w x re true f).
  { intros x f r' E (<-&Eb&Epub) Hm. by split_and!. }
  destruct (e_publisher e (w_published w) (deliveryRequest d)) as [err|].
  - unfold canceled_error. destruct (errors_Is _ _ || _) eqn:Ec.
    + apply (Hres _ _ r); [reflexivity|by split|apply moved_refl].
    + destruct (fail_spec w1 err re Hw1) as (E&r'&HL&Hm). by apply (Hres _ _ r').
  - destruct (recordSent_spec w1 re Hw1 Hre Ht) as (E&r'&HL&Hm). by apply (Hres _ _ r').
Qed.

Lemma execute_spec w re :
  w_deliveries w = r → sd_Attempts d < sd_MaxAttempts d ∨ re = None →
  (∀ t, re = Some t → zero_time < t) →
  ∃ asked f, fate w d asked f ∧
    sending_result w (executeClaimedDelivery e p d re w) re asked f.
Proof.
  intros Hw Hre Ht. unfold executeClaimedDelivery, getBuild, read_builds. rewrite reporter_bind.
  cbn [fst snd]. rewrite interference_quiet. set (w1 := w <| w_accesses := _ |>).
  assert (Hw1 : w_deliveries w1 = r) by exact Hw.
  change (w_builds w1) with (w_builds w).
  destruct (BuildRepository_GetByID (sd_BuildID d) (w_builds w)) as [build [err|]] eqn:Eb.
  { exists false, (FateFailed err). split; [by eapply fate_no_build|].
    destruct (fail_spec w1 err re Hw1) as (E&r'&HL&Hm). by eapply result_of_leaves. }
  rewrite reporter_bind.
  destruct (isSuperseded_spec build d w1) as [(b&Eb2&Hb) Hw2].
  destruct (isSuperseded e build d w1) as [w2 y]. cbn [fst snd] in *. subst y.
  assert (Hsame : w_deliveries w2 = r ∧ w_builds w2 = w_builds w ∧ w_published w2 = w_published w ∧
    w_readings w2 = w_readings w) by (by destruct Hw2 as [->| ->]).
  destruct Hsame as (H1&H2&H3&H4). change (w_builds w1) with (w_builds w) in Hb. destruct b.
  - exists false, FateSuperseded. split; [eapply fate_superseded; [done|by apply Hb]|].
    destruct (supersede_spec w2 H1) as (E&r'&(HL1&HL2&HL3)&Hm).
    eapply result_of_leaves; [exact E| |exact Hm|done]. split_and!; [done|congruence..].
  - assert (Hnb : ¬ superseded_by (w_builds w) build d) by (intros ?%Hb; done).
    pose proof (sendDelivery_spec w2 re H1 Hre Ht) as Hs.
    unfold sending_result in *. rewrite H2, H3, H4 in Hs.
    destruct (e_publisher e (w_published w) (deliveryRequest d)) as [err|] eqn:Ep.
    + eexists true, _. split; [by eapply fate_refused|]. exact Hs.
    + exists true, FateSent. split; [by eapply fate_accepted|]. exact Hs.
Qed.
End holder.

End sending.
