(* ===== verification/ScmDrain.v ===== *)
(** The recovery of commit statuses: while the publisher accepts what it is
    asked, an iteration sends every status that it lists, that has attempts left
    and that no newer attempt supersedes. *)

From stdpp Require Import base gmap strings list pretty sorting numbers.
From S2P Require Import Prelude GoLib GoPath GoText Domain Repository BuildRepo DeliverySpec.
From S2P Require Import ScmDelivery ScmRepo ScmFacts ScmSpec ScmViews ScmOutcomes ScmThms ScmProps.
From S2P Require Import ScmRecover ScmClaims ScmReporter ScmReporterThms ScmSending.

Open Scope go_scope.
Open Scope Z_scope.

Implicit Types (d : SCMStatusDelivery) (r : SCMStatusDeliveryRepository) (w : World).

Local Abbreviation norm := SCMStatusDelivery_Normalize.

(** ** What stored deliveries have in common *)

Definition tidy d : Prop := identity (norm d) = identity d.

Lemma tidy_of d x : identity d = identity (norm x) → tidy d.
Proof. intros H. unfold tidy. rewrite (norm_identity _ _ H), norm_idemp. done. Qed.

Lemma tidy_same d d' : identity d' = identity d → tidy d → tidy d'.
Proof. intros H Hd. unfold tidy in *. rewrite (norm_identity _ _ H), H. done. Qed.

(** A final state that was shown is not followed by one that is not final. *)
Definition settled_ok (v : StreamView) : Prop :=
  ∀ state, sv_sent v = Some state → SCMCommitStatusState_IsTerminal state = true →
    SCMCommitStatusState_IsTerminal (sv_desired v) = true.

Lemma settled_ok_step birth v v' : stream_step birth v v' → settled_ok v → settled_ok v'.
Proof.
  intros Hs Hv. destruct Hs as [b desired sent g g'| |b desired desired' sent g g' _ _ Hset];
    intros state; simpl.
  - case_decide; [by intros [= <-]|]. apply (Hv state).
  - done.
  - intros -> Ht. apply Hset. unfold settled. simpl. by rewrite Ht, orb_true_r.
Qed.

Section stored.
Context (birth : string → Z * Time).

Lemma stream_settled r key v :
  scm_reachable birth r → stream_view r key = Some v → settled_ok v.
Proof.
  intros Hr. revert v. induction Hr as [|c r Hr IH Hg]; intros v' Hv'; [done|].
  pose proof (proj2 (scm_call_ok birth c r (scm_reachable_ok birth r Hr) Hg) key) as H.
  rewrite Hv' in H. destruct (stream_view r key) as [v|]; simpl in H.
  - destruct H as [<-|H]; [by apply IH|]. by eapply settled_ok_step; [|apply IH].
  - destruct H as [Hn _]. intros state. by rewrite Hn.
Qed.

Lemma stored_settled r id d :
  scm_reachable birth r → sr_deliveries r !! id = Some d → settled_ok (view_of d).
Proof.
  intros Hr Hl. destruct (ok_delivery _ _ (scm_reachable_ok _ _ Hr) _ _ Hl) as (_&_&_&_&_&Hx).
  apply (stream_settled r (scmStatusDeliveryKey d)); [done|]. unfold stream_view. rewrite Hx. simpl.
  by rewrite (deliveryAt_lookup _ _ _ Hl).
Qed.

Definition all_tidy r : Prop := ∀ k x, sr_deliveries r !! k = Some x → tidy x.

Lemma update_tidy r d' :
  all_tidy r → tidy d' → all_tidy (updateDelivery d' r).1.
Proof.
  intros Hr Hd k x. unfold updateDelivery. destruct (SCMStatusDelivery_Validate d'); [by apply Hr|].
  simpl. intros [[_ <-]|[_ Hx]]%lookup_insert_Some; [done|]. by eapply Hr.
Qed.

Lemma failure_tidy r input status : all_tidy r → all_tidy (recordFailure input status r).1.
Proof.
  intros Hr. unfold recordFailure. destruct (sr_deliveries r !! _) as [d|] eqn:El; [|done].
  destruct (negb _); [done|]. apply update_tidy; [done|].
  destruct (failed_fields input status d) as (_&_&_&_&Ei&_). by eapply tidy_same; [|eapply Hr].
Qed.

(** The store keeps every delivery under the identity of a normal form. *)
Lemma reachable_tidy r : scm_reachable birth r → all_tidy r.
Proof.
  induction 1 as [|c r Hr IH Hg]; [by intros k x|]. destruct c as [newID input|input|input|input|input|input];
    simpl; [|unfold MarkSent|by apply failure_tidy..|unfold MarkSuperseded].
  - destruct (acquire_cases birth newID input r (scm_reachable_ok _ _ Hr) Hg)
      as [[-> _]|(res&_&_&[_ [y Hy]]&E&_)]; [done|].
    intros k x. rewrite E. intros [[_ <-]|[_ Hx]]%lookup_insert_Some; [|by eapply IH].
    by eapply tidy_of.
  - destruct (sr_deliveries r !! _) as [d|] eqn:El; [|done]. destruct (negb _); [done|].
    apply update_tidy; [done|]. eapply tidy_same; [|by eapply IH]. reflexivity.
  - destruct (sr_deliveries r !! _) as [d|] eqn:El; [|done]. destruct (supersededClaimLost _ _); [done|].
    apply update_tidy; [done|]. eapply tidy_same; [|by eapply IH]. reflexivity.
Qed.

(** ** A due delivery is claimed again *)

Lemma due_claimed d now :
  wf_delivery d → claimable (phase_of (norm d)) now → sd_Attempts d < sd_MaxAttempts d →
  is_claim (SCMStatusDeliveryClaimOutcomeFromExisting (norm d) now) = true.
Proof.
  intros Hd. unfold SCMStatusDeliveryClaimOutcomeFromExisting, phase_of.
  rewrite norm_attempts, (wf_norm_max d Hd), (wf_norm_status d Hd).
  assert (Hs : sd_Status d = SCMStatusDeliveryStatusSending → is_Some (sd_ClaimExpiresAt (norm d))).
  { intros Hs. rewrite (wf_norm_until d Hd). destruct (wf_sending d Hd Hs) as (_&_&_&u&_&_&->&_). eauto. }
  revert Hs. generalize (sd_Status d), (sd_ClaimExpiresAt (norm d)), (sd_NextAttemptAt (norm d)),
    (default "" (sd_ClaimedBy (norm d))), (default zero_time (sd_ClaimedAt (norm d))).
  intros s expires next holder since Hs. unfold Before.
  repeat case_bool_decide; subst; simpl; try done; intros Hdue Hlt;
    rewrite (proj2 (Z.leb_gt _ _) Hlt); try done.
  - destruct (Hs eq_refl) as [u ->]. simpl in Hdue. by rewrite (proj2 (Z.ltb_ge _ _) Hdue).
  - destruct next as [u|]; [|done]. simpl in Hdue. by rewrite (proj2 (Z.ltb_ge _ _) Hdue).
Qed.

Lemma compare_self d : CompareSCMStatusDeliveryOwners d d = 0.
Proof. unfold CompareSCMStatusDeliveryOwners. by rewrite bool_decide_eq_true_2. Qed.

Lemma reacquire newID r d owner now duration maxAttempts :
  scm_reachable birth r → sr_deliveries r !! sd_ID d = Some d →
  zero_time < now → TrimSpace owner ≠ "" → 0 < duration → 0 < maxAttempts →
  let o := SCMStatusDeliveryClaimOutcomeFromExisting (norm d) now in
  let d1 := claimed_again (norm d) now (TrimSpace owner) duration in
  AcquireForDelivery newID (mkSCMStatusDeliveryClaimInput d owner now duration maxAttempts) r =
    if is_claim o
    then (storeDelivery r (sd_ID d) d1, inl (mkSCMStatusDeliveryClaimResult d1 o None))
    else (r, inl (mkSCMStatusDeliveryClaimResult (norm d) o None)).
Proof.
  intros Hr Hl Hnow Ho Hdur Hmax. cbv zeta.
  destruct (ok_delivery _ _ (scm_reachable_ok _ _ Hr) _ _ Hl) as (_&_&_&Hd&_&Hx).
  pose proof (stored_settled r _ d Hr Hl) as Hset.
  unfold AcquireForDelivery, normalizeSCMClaimInput. cbn [sci_Delivery sci_ClaimOwner sci_Now
    sci_ClaimDuration sci_MaxAttempts].
  pose proof (proj1 (valid_iff d) (wf_valid d Hd)) as (Hid&_&_). rewrite Hid.
  rewrite (IsZero_later _ Hnow), (bool_decide_eq_false_2 _ Ho), (proj2 (Z.leb_gt _ _) Hdur),
    (proj2 (Z.leb_gt _ _) Hmax).
  rewrite key_norm, Hx, (deliveryAt_lookup _ _ _ Hl).
  unfold reconcileSCMStatusDeliveryForClaim. rewrite !norm_idemp, compare_self. cbn [Z.ltb Z.compare].
  assert (Eo : SCMStatusDeliveryIncomingStateObsolete (norm d) (norm d) = false).
  { unfold SCMStatusDeliveryIncomingStateObsolete. unfold settled_ok, view_of in Hset.
    cbn [sv_sent sv_desired] in Hset. revert Hset.
    generalize (sd_DesiredState (norm d)), (sd_LastSentState (norm d)). intros s o Hs.
    destruct (SCMCommitStatusState_IsTerminal s) eqn:Es; simpl.
    - by destruct o; rewrite ?andb_false_r.
    - destruct o as [x|]; [|done]. rewrite andb_true_r. apply not_true_is_false. intros Ex.
      specialize (Hs x eq_refl Ex). congruence. }
  rewrite Eo. unfold SCMStatusDeliveryShouldReplaceCurrentState.
  rewrite (bool_decide_eq_true_2 (sd_DesiredState (norm d) = _)) by done. cbn [negb].
  unfold claimSCMStatusDelivery. cbv zeta. rewrite norm_idemp.
  generalize (SCMStatusDeliveryClaimOutcomeFromExisting (norm d) now). intros o.
  generalize (claimed_again (norm d) now (TrimSpace owner) duration). intros d1.
  generalize (norm d). intros d0. destruct o; reflexivity.
Qed.
End stored.

(** ** One candidate *)

Section drain.
Context (birth : string → Z * Time) `{SendErrors} (e : Surroundings) (p : SCMStatusReporter).
Context (Hs : surroundings_ok birth e) (Hq : quiet e) (Hp : policy_ok (rp_retryPolicy p)).
Context (Hmax : 0 < srp_maxAttempts (rp_retryPolicy p)).
Context (Howner : TrimSpace (rp_claimOwner p) ≠ "") (Hdur : 0 < rp_claimDuration p).

(** The delivery has attempts left, and no newer build has taken its place. *)
Definition sendable w d : Prop :=
  sd_Attempts d < sd_MaxAttempts d ∧
  ∃ build, BuildRepository_GetByID (sd_BuildID d) (w_builds w) = (build, None) ∧
    ¬ superseded_by (w_builds w) build d.

Definition claimed_now d now : SCMStatusDelivery :=
  claimed_again (norm d) now (TrimSpace (rp_claimOwner p)) (rp_claimDuration p).

(** A candidate is claimed, if it is due, in a world with the builds and the
    answers of the old one. *)
Lemma acquire_candidate w d :
  world_ok birth e w → sr_deliveries (w_deliveries w) !! sd_ID d = Some d →
  let now := e_clock e (w_readings w) in
  let o := SCMStatusDeliveryClaimOutcomeFromExisting (norm d) now in
  let x := acquireFor e p d w in
  w_builds x.1 = w_builds w ∧ w_published x.1 = w_published w ∧
  (w_deliveries x.1, x.2) =
    if is_claim o
    then (storeDelivery (w_deliveries w) (sd_ID d) (claimed_now d now),
          inl (mkSCMStatusDeliveryClaimResult (claimed_now d now) o None))
    else (w_deliveries w, inl (mkSCMStatusDeliveryClaimResult (norm d) o None)).
Proof.
  intros [Hr _] Hl. cbv zeta.
  change (acquireFor e p d w) with
    (on_deliveries e (AcquireForDelivery (e_uuid e (w_identifiers w))
       (claimRequest p d (e_clock e (w_readings w))))
     (w <| w_readings := S (w_readings w) |> <| w_identifiers := S (w_identifiers w) |>)).
  set (w1 := w <| w_readings := _ |> <| w_identifiers := _ |>).
  assert (Hsame : w_deliveries w1 = w_deliveries w ∧ w_builds w1 = w_builds w ∧
    w_published w1 = w_published w) by done.
  clearbody w1. destruct Hsame as (E1&E2&E3).
  destruct (on_deliveries_quiet e Hq (AcquireForDelivery (e_uuid e (w_identifiers w))
       (claimRequest p d (e_clock e (w_readings w)))) w1) as [Ex (El&Eb&Ep)].
  rewrite Ex, El, Eb, Ep, E1, E2, E3. split; [done|]. split; [done|].
  unfold claimRequest. rewrite (reacquire birth _ _ _ _ _ _ _ Hr Hl (q_clock e Hq _) Howner Hdur Hmax).
  by destruct (is_claim _).
Qed.

(** What a recovery may do to the stores: it moves the candidate only. *)
Definition touches_only d w w' : Prop :=
  w_builds w' = w_builds w ∧
  ∀ k, k ≠ sd_ID d → sr_deliveries (w_deliveries w') !! k = sr_deliveries (w_deliveries w) !! k.

Lemma claimed_now_facts r d t :
  scm_reachable birth r → sr_deliveries r !! sd_ID d = Some d → zero_time < t →
  is_claim (SCMStatusDeliveryClaimOutcomeFromExisting (norm d) t) = true →
  let d1 := claimed_now d t in
  sd_ID d1 = sd_ID d ∧ identity d1 = identity d ∧ held (rp_claimOwner p) t d1 ∧
  born birth d1 ∧ wf_delivery d1 ∧ scmStatusDeliveryKey d1 = scmStatusDeliveryKey d ∧
  stream_step birth (view_of d) (view_of d1).
Proof.
  intros Hr Hl Ht Ho. cbv zeta. unfold claimed_now.
  destruct (ok_delivery _ _ (scm_reachable_ok _ _ Hr) _ _ Hl) as (_&_&_&Hd&Hb&_).
  pose proof (reachable_tidy birth r Hr _ _ Hl) as Htidy.
  assert (Hc : claim_ok t (TrimSpace (rp_claimOwner p)) (rp_claimDuration p)).
  { split; [done|split; [done|apply TrimSpace_idemp]|done]. }
  destruct (claim_outcome_due t d Hd Ht Ho) as [Hdue Hlt].
  assert (Hcl : claimSCMStatusDelivery (norm d) t (TrimSpace (rp_claimOwner p)) (rp_claimDuration p) =
    (claimed_again (norm d) t (TrimSpace (rp_claimOwner p)) (rp_claimDuration p),
     SCMStatusDeliveryClaimOutcomeFromExisting (norm d) t)).
  { unfold claimSCMStatusDelivery. cbv zeta. rewrite norm_idemp. revert Ho.
    generalize (SCMStatusDeliveryClaimOutcomeFromExisting (norm d) t). intros o.
    generalize (claimed_again (norm d) t (TrimSpace (rp_claimOwner p)) (rp_claimDuration p)).
    generalize (norm d). intros ? ?. by destruct o. }
  destruct (claimed_again_ok birth t _ _ Hc d d _ _ Hcl Ho Hd Hb eq_refl) as (E1&Hwf&Hb'&Hk&Hst&_).
  pose proof (view_claimed_again t _ _ d Hc Hd Hlt) as Hv.
  split; [exact E1|]. split; [exact (eq_trans (identity_claimed_again t _ _ d) Htidy)|]. split; [|by split_and!].
  exists (t + rp_claimDuration p).
  destruct (claimed_by_view _ _ _ _ _ _ _ Hwf Hv eq_refl) as (_&Hph&_). exact Hph.
Qed.

Lemma candidate_fits w d :
  world_ok birth e w → sr_deliveries (w_deliveries w) !! sd_ID d = Some d →
  fits birth d (w_deliveries w).
Proof.
  intros [Hr _] Hl. destruct (ok_delivery _ _ (scm_reachable_ok _ _ Hr) _ _ Hl) as (_&_&_&_&Hb&Hx).
  split; [done|]. right. by eexists.
Qed.

Lemma moved_touches d d1 ph r w w' :
  moved d1 ph (storeDelivery r (sd_ID d) d1) (w_deliveries w') → sd_ID d1 = sd_ID d →
  w_deliveries w = r → w_builds w' = w_builds w → touches_only d w w'.
Proof.
  intros (d'&E&_) Hid <- Hb. split; [done|]. intros k Hk. rewrite E, Hid. simpl.
  by rewrite !lookup_insert_ne.
Qed.

(** A candidate that was claimed, in the world after the claim. *)
Lemma recover_claimed w w1 d t o :
  scm_ok birth (w_deliveries w1) → w_builds w1 = w_builds w →
  w_deliveries w1 = storeDelivery (w_deliveries w) (sd_ID d) (claimed_now d t) →
  sd_ID (claimed_now d t) = sd_ID d → identity (claimed_now d t) = identity d →
  held (rp_claimOwner p) t (claimed_now d t) →
  let x := (found ← getBuild e (sd_BuildID d);
            match found with
            | inr buildErr =>
                at_ ← now e;
                '(outcome, markErr) ← markDeliveryFailed e p (claimed_now d t) buildErr at_;
                mret (mkScmStatusRecoveryAttemptResult (Some o) outcome true, markErr)
            | inl _ =>
                '(outcome, executeErr) ← executeClaimedDelivery e p (claimed_now d t) None;
                mret (mkScmStatusRecoveryAttemptResult (Some o) outcome false, executeErr)
            end) w1 in
  touches_only d w x.1 ∧
  ((∀ a req, e_publisher e a req = None) → sendable w d →
   x.2.2 = None ∧ ar_executionOutcome x.2.1 = scmStatusExecutionOutcomeSent ∧
   ∃ d', sr_deliveries (w_deliveries x.1) !! sd_ID d = Some d' ∧ phase_of (norm d') = Sent ∧
     identity d' = identity d).
Proof.
  intros Hok Hb Hd1 Hid Hi Hh. cbv zeta. set (d1 := claimed_now d t) in *. clearbody d1.
  rewrite reporter_bind. unfold getBuild, read_builds. cbn [fst snd].
  rewrite (interference_quiet e Hq). set (w2 := w1 <| w_accesses := _ |>).
  assert (H2 : w_deliveries w2 = w_deliveries w1 ∧ w_builds w2 = w_builds w) by done.
  clearbody w2. destruct H2 as [H2 Hb2]. rewrite Hb2.
  assert (Hl1 : sr_deliveries (w_deliveries w1) !! sd_ID d1 = Some d1).
  { rewrite Hd1, Hid. simpl. apply lookup_insert_eq. }
  assert (Ebid : sd_BuildID d1 = sd_BuildID d ∧ sd_CommitSHA d1 = sd_CommitSHA d).
  { unfold identity in Hi. split; congruence. }
  destruct (BuildRepository_GetByID (sd_BuildID d) (w_builds w)) as [build [err|]] eqn:Eg.
  - rewrite !reporter_bind. cbn [fst snd now].
    match goal with |- context [markDeliveryFailed e p d1 err ?t1 ?w3] =>
      destruct (failed_spec birth e p Hq Hp (w_deliveries w1) d1 Hok Hl1 t Hh w3 err t1 None H2
        (q_clock e Hq _)) as [E (r'&(HL1&HL2&_)&Hm)] end.
    rewrite E. cbn [fst snd mret ReporterM_ret]. rewrite Hd1 in Hm. split.
    + eapply moved_touches; [by rewrite HL1|done..|]. by rewrite HL2.
    + intros _ (_&b&Hg&_). congruence.
  - rewrite reporter_bind.
    destruct (execute_spec birth e p Hq Hp (w_deliveries w1) d1 Hok Hl1 t Hh w2 None H2)
      as (asked&f&Hf&E&Hm&Hb'&_); [by right|done|].
    rewrite E. cbn [fst snd mret ReporterM_ret]. rewrite Hd1 in Hm.
    assert (Ht : touches_only d w (executeClaimedDelivery e p d1 None w2).1).
    { eapply moved_touches; [done..|]. by rewrite Hb'. }
    destruct (told f d1 None _) as [outcome err] eqn:Et. cbn [fst snd mret ReporterM_ret].
    split; [exact Ht|]. intros Hacc (_&b&Hg&Hns). rewrite Eg in Hg. injection Hg as ->.
    assert (f = FateSent) as ->.
    { destruct Ebid as [E1 E2]. destruct Hf as [b' err' Hg|b' Hg (j&id&other&Hs')|b' err' Hg _ Ha|];
        [| | |done]; rewrite E1, Hb2 in Hg; rewrite Eg in Hg.
      - discriminate Hg.
      - injection Hg as ->. destruct Hns. exists j, id, other. by rewrite <-E2, <-Hb2.
      - by rewrite Hacc in Ha. }
    cbn [told] in Et. injection Et as <- <-. cbn [phase_after] in Hm.
    split; [done|]. split; [done|]. destruct Hm as (d'&E'&_&Hid'&Hi'&_&Hph).
    exists d'. rewrite E', Hid. split; [apply lookup_insert_eq|]. split; [done|congruence].
Qed.

Lemma recover_one w d :
  world_ok birth e w → sr_deliveries (w_deliveries w) !! sd_ID d = Some d →
  let x := recoverDelivery e p d w in
  touches_only d w x.1 ∧
  ((∀ a req, e_publisher e a req = None) → claimable (phase_of (norm d)) (e_clock e (w_readings w)) →
   sendable w d →
   x.2.2 = None ∧ ar_executionOutcome x.2.1 = scmStatusExecutionOutcomeSent ∧
   ∃ d', sr_deliveries (w_deliveries x.1) !! sd_ID d = Some d' ∧ phase_of (norm d') = Sent ∧
     identity d' = identity d).
Proof.
  intros Hw Hl. cbv zeta. unfold recoverDelivery. rewrite reporter_bind.
  destruct (acquire_candidate w d Hw Hl) as (Eb&_&E).
  assert (Hmax2 : srp_maxAttempts (rp_retryPolicy p) ≤ max_int64) by apply Hp.
  destruct (guided_acquire birth e p Hs Hmax2 w d (candidate_fits w d Hw Hl) Hw w
    (advances_refl _ _ _ Hw)) as [([Hr1 _]&_) _].
  set (t := e_clock e (w_readings w)) in *.
  destruct (acquireFor e p d w) as [w1 y]. cbn [fst snd] in *.
  destruct (ok_delivery _ _ (scm_reachable_ok _ _ (proj1 Hw)) _ _ Hl) as (_&_&_&Hd&_).
  pose proof (claims_existing (norm d) t) as Hcl. change claims with is_claimed in Hcl.
  pose proof (due_claimed d t Hd) as Hdue.
  pose proof (claimed_now_facts (w_deliveries w) d t (proj1 Hw) Hl (q_clock e Hq _)) as Hnow.
  set (o := SCMStatusDeliveryClaimOutcomeFromExisting (norm d) t) in *. clearbody o t.
  destruct (is_claim o) eqn:Ho; apply pair_equal_spec in E as [E1 ->]; cbn [scr_Outcome scr_Delivery
    scr_ReassertAfter]; rewrite Hcl; cbn [negb].
  - destruct (Hnow eq_refl) as (Hid&Hi&Hh&_).
    destruct (recover_claimed w w1 d t o (scm_reachable_ok _ _ Hr1) Eb E1 Hid Hi Hh) as [H1 H2].
    split; [exact H1|]. intros Ha _. by apply H2.
  - unfold mret, ReporterM_ret. cbn [fst snd]. split; [split; [done|intros; by rewrite E1]|]. intros _ Hc (Hlt&_).
    specialize (Hdue Hc Hlt). congruence.
Qed.

(** ** An iteration *)

Lemma claimable_later ph t t' : claimable ph t → t ≤ t' → claimable ph t'.
Proof. destruct ph; simpl; lia || done. Qed.

Lemma due_claimable ph t now : due_phase ph = Some t → t ≤ now → claimable ph now.
Proof. destruct ph; simpl; intros [= ->]; done. Qed.

Lemma sendable_same w w' d : w_builds w' = w_builds w → sendable w d → sendable w' d.
Proof. unfold sendable. by intros ->. Qed.

Definition stored_in w d : Prop := sr_deliveries (w_deliveries w) !! sd_ID d = Some d.

(** What is sent is as it was asked for. *)
Definition sent_in w d : Prop :=
  ∃ d', sr_deliveries (w_deliveries w) !! sd_ID d = Some d' ∧ phase_of (norm d') = Sent ∧
    identity d' = identity d.

Context (Hclock : ∀ i j, (i ≤ j)%nat → e_clock e i ≤ e_clock e j).

Lemma recoverAll_sends t0 ds result errs w :
  world_ok birth e w → NoDup (sd_ID <$> ds) → Forall (stored_in w) ds →
  t0 ≤ e_clock e (w_readings w) →
  let x := recoverAll e p ds result errs w in
  w_builds x.1 = w_builds w ∧
  (∀ k, k ∉ sd_ID <$> ds → sr_deliveries (w_deliveries x.1) !! k = sr_deliveries (w_deliveries w) !! k) ∧
  ((∀ a req, e_publisher e a req = None) → Forall (λ d, claimable (phase_of (norm d)) t0) ds →
   (∀ d, d ∈ ds → sendable w d → sent_in x.1 d) ∧
   ((∀ d, d ∈ ds → sendable w d) → x.2.2 = errs)).
Proof.
  revert result errs w. induction ds as [|d ds IH]; intros result errs w Hw Hnd Hst Ht; cbn [recoverAll].
  { split; [done|]. split; [done|]. intros _ _. split; [|done]. intros d Hd. by apply not_elem_of_nil in Hd. }
  cbv zeta. rewrite fmap_cons in Hnd |- *. apply list.NoDup_cons in Hnd as [Hnin Hnd].
  apply Forall_cons_1 in Hst as [Hl Hst].
  assert (Hmax2 : srp_maxAttempts (rp_retryPolicy p) ≤ max_int64) by apply Hp.
  destruct (guided_recover birth e p Hs Hmax2 w d Hw (candidate_fits w d Hw Hl) w
    (advances_refl _ _ _ Hw)) as [(Hw1&_&Hn1) _].
  destruct (recover_one w d Hw Hl) as [[Hb Hsame] Hsent].
  rewrite reporter_bind. destruct (recoverDelivery e p d w) as [w1 [attempt err]]. cbn [fst snd] in *.
  set (result1 := applyAttemptResult attempt result).
  assert (Hst1 : Forall (stored_in w1) ds).
  { apply list.Forall_forall. intros d' Hd'. unfold stored_in. rewrite Hsame.
    - by apply (proj1 (list.Forall_forall _ _) Hst).
    - intros E. apply Hnin. rewrite <-E. by apply list_elem_of_fmap_2. }
  assert (Ht1 : t0 ≤ e_clock e (w_readings w1)) by (etrans; [exact Ht|by apply Hclock]).
  assert (Hgo : ∀ result' errs',
    let x := recoverAll e p ds result' errs' w1 in
    w_builds x.1 = w_builds w ∧
    (∀ k, k ∉ sd_ID d :: (sd_ID <$> ds) →
       sr_deliveries (w_deliveries x.1) !! k = sr_deliveries (w_deliveries w) !! k) ∧
    ((∀ a req, e_publisher e a req = None) →
     Forall (λ d, claimable (phase_of (norm d)) t0) (d :: ds) →
     (∀ d', d' ∈ d :: ds → sendable w d' → sent_in x.1 d') ∧
     ((∀ d', d' ∈ d :: ds → sendable w d') → x.2.2 = errs'))).
  { intros result' errs'. cbv zeta.
    destruct (IH result' errs' w1 Hw1 Hnd Hst1 Ht1) as (Eb&Ek&Ego).
    split; [congruence|]. split.
    { intros k Hk. apply not_elem_of_cons in Hk as [Hk1 Hk2]. rewrite Ek by done. by apply Hsame. }
    intros Hacc Hcl. apply Forall_cons_1 in Hcl as [Hcl Hcls]. destruct (Ego Hacc Hcls) as [Ego1 Ego2].
    split.
    - intros d' [->|Hd']%elem_of_cons Hd; [|by apply Ego1; [|by eapply sendable_same]].
      destruct (Hsent Hacc (claimable_later _ _ _ Hcl Ht) Hd) as (_&_&d'&Hd'&Hph&Hi).
      exists d'. by rewrite Ek.
    - intros Hall. apply Ego2. intros d' Hd'. eapply sendable_same; [exact Hb|]. apply Hall.
      by right. }
  destruct err as [err|]; [|apply Hgo].
  destruct (Hgo (result1 <| ir_Errors := int64_add (ir_Errors result1) 1 |>)
    (join_error errs (Wrap ("delivery " +:+ sd_ID d) err))) as (G1&G2&G3).
  split; [exact G1|]. split; [exact G2|]. intros Hacc Hcl. destruct (G3 Hacc Hcl) as [G4 G5].
  split; [exact G4|]. intros Hall. exfalso. apply Forall_cons_1 in Hcl as [Hcl _].
  destruct (Hsent Hacc (claimable_later _ _ _ Hcl Ht) (Hall d ltac:(by left))) as [? _]. done.
Qed.

End drain.
