(* ===== verification/ScmExamples.v ===== *)
(** A concrete reporter beside a quiet store, and the theorems about reporters
    on it: one build whose first status waits for its retry. *)

From Stdlib Require Import Ascii.
From stdpp Require Import base gmap strings list pretty sorting numbers.
From S2P Require Import Prelude GoLib GoPath GoText Domain Repository BuildRepo DeliverySpec.
From S2P Require Import ScmDelivery ScmRepo ScmFacts ScmSpec ScmViews ScmOutcomes ScmThms ScmProps.
From S2P Require Import ScmRecover ScmClaims ScmReporter ScmRequests ScmReporterThms ScmSending ScmDrain.

Open Scope go_scope.
Open Scope Z_scope.

(** ** The surroundings *)

#[local] Instance ex_errors : SendErrors := {|
  Error := λ _, "unreachable";
  netTimeout := λ _, false;
  publisherError := λ err, match err with Errorf reason => Some (false, reason) | _ => None end;
|}.

Definition ex_uuid (n : nat) : string := string_of_list (replicate (S n) "u"%char).

Lemma ex_uuid_trimmed n : TrimSpace (ex_uuid n) = ex_uuid n.
Proof.
  assert (H : ∀ p1 p2 p3, p1 "u"%char = false → (∀ a, p2 "u"%char a = false) →
    (∀ a b, p3 "u"%char a b = false) → leads p1 p2 p3 (replicate (S n) "u"%char) = false).
  { intros p1 p2 p3 H1 H2 H3. destruct n as [|[|n]]; simpl; by rewrite H1, ?H2, ?H3. }
  apply TrimSpace_id; unfold ex_uuid; rewrite string_to_of_list; [by apply H|].
  rewrite reverse_replicate. apply H; intros;
    unfold space2, space3; simpl; by rewrite ?andb_false_r.
Qed.

Lemma ex_uuid_inj i j : ex_uuid i = ex_uuid j → i = j.
Proof.
  intros E%(f_equal (λ s, length (string_to_list s))). unfold ex_uuid in E.
  rewrite !string_to_of_list, !length_replicate in E. lia.
Qed.

(** The publisher gives one answer always. *)
Definition ex_surroundings (answer : option error) : Surroundings := {|
  e_clock := λ n, 1000 + Z.of_nat n;
  e_uuid := ex_uuid;
  e_project := λ id, inl (mkProject id "demo" "demo" None false 1 1);
  e_publisher := λ _ _, answer;
  e_others := λ _ stores, stores;
|}.

Definition ex_reporter : SCMStatusReporter :=
  mkSCMStatusReporter "https://ci.example" "w9" 10 defaultSCMStatusRetryPolicy.

Definition ex_build : Build :=
  zero_Build <| b_ID := "b2" |> <| b_AttemptNumber := 2 |> <| b_CreatedAt := 20 |>
    <| b_Status := BuildStatusSuccess |> <| b_JobID := Some "job" |>
    <| b_CommitSHA := Some "sha2" |> <| b_RegisteredRepositoryID := Some "r1" |>
    <| b_SCMConnectionID := Some "c1" |> <| b_ProviderRepositoryID := Some "p1" |>.

Definition ex_waiting_store : SCMStatusDeliveryRepository :=
  run_scm_calls ex_failed NewSCMStatusDeliveryRepository.

Definition ex_builds : BuildRepository := mkBuildRepository {["b2" := ex_build]} ∅ 1 ∅.

Definition ex_world : World :=
  mkWorld ex_builds ex_waiting_store [] 0 0 0.

Lemma ex_surroundings_ok answer : surroundings_ok ex_birth (ex_surroundings answer).
Proof.
  split; simpl.
  - done.
  - done.
  - intros i. unfold zero_time. lia.
  - intros i. split; [apply ex_uuid_trimmed|done].
  - apply ex_uuid_inj.
Qed.

Lemma ex_quiet answer : quiet (ex_surroundings answer).
Proof. split; simpl; [done|]. intros i. unfold zero_time. lia. Qed.

Lemma ex_policy_ok : policy_ok (rp_retryPolicy ex_reporter).
Proof. split_and!; vm_compute; done. Qed.

Lemma ex_world_ok answer : world_ok ex_birth (ex_surroundings answer) ex_world.
Proof.
  split.
  - apply run_scm_calls_reachable; [constructor|].
    unfold ex_failed, ex_acquire. cbn [scm_guarded scm_guard]. unfold born. solve_scm_guard.
  - intros i _. change (e_uuid (ex_surroundings answer) i) with (ex_uuid i).
    change (w_deliveries ex_world) with ex_waiting_store.
    assert (E : sr_deliveries ex_waiting_store = {["d2" := deliveryAt ex_waiting_store "d2"]})
      by (vm_compute; reflexivity).
    rewrite E. apply lookup_singleton_ne. destruct i; discriminate.
Qed.

Definition ex_waiting : SCMStatusDelivery := deliveryAt ex_waiting_store "d2".

Lemma ex_waiting_stored : stored_in ex_world ex_waiting.
Proof. vm_compute. reflexivity. Qed.

(** The only build is not superseded. *)
Lemma ex_build_current build d : b_ID build = b_ID ex_build → ¬ superseded_by ex_builds build d.
Proof.
  intros Ei (jobID&id&other&_&_&Hid&_&Hne&_). apply Hne. rewrite Ei.
  unfold ex_builds in Hid. cbn [br_builds] in Hid. by apply lookup_singleton_Some in Hid as [_ <-].
Qed.

Lemma ex_waiting_sendable : sendable ex_world ex_waiting.
Proof.
  split; [vm_compute; reflexivity|]. exists (cloneBuildApplicationVersion ex_build).
  split; [vm_compute; reflexivity|]. apply (ex_build_current (cloneBuildApplicationVersion ex_build)). reflexivity.
Qed.

(** ** The theorems *)

Lemma reporter_keeps_streams_witness :
  scm_reachable ex_birth
    (w_deliveries (NotifyBuildStatus (ex_surroundings None) ex_reporter ex_build ex_world).1).
Proof.
  pose proof (reporter_keeps_streams ex_birth (ex_surroundings None) ex_reporter
    (ex_surroundings_ok None) ltac:(vm_compute; discriminate) ex_world ex_build 25 (ex_world_ok None)) as H.
  cbv zeta in H. refine (proj1 (Forall_inv (H _))).
  split; vm_compute; reflexivity.
Defined.


(** The publisher refuses for good: the status fails, and the error is told. *)
Definition ex_claimed_world : World :=
  mkWorld ex_builds
    (run_scm (ex_acquire "d2" "b2" "sha2" SCMCommitStatusStateSuccess "w9" 140)
       NewSCMStatusDeliveryRepository) [] 0 0 0.

Definition ex_claimed : SCMStatusDelivery := deliveryAt (w_deliveries ex_claimed_world) "d2".

Lemma ex_claimed_facts :
  scm_reachable ex_birth (w_deliveries ex_claimed_world) ∧
  sr_deliveries (w_deliveries ex_claimed_world) !! sd_ID ex_claimed = Some ex_claimed ∧
  held (rp_claimOwner ex_reporter) 140 ex_claimed.
Proof.
  split_and!.
  - apply scm_call; [constructor|]. unfold ex_acquire. cbn [scm_guard]. unfold born. solve_scm_guard.
  - vm_compute. reflexivity.
  - exists 150. vm_compute. reflexivity.
Qed.

Lemma ex_claimed_build :
  BuildRepository_GetByID (sd_BuildID ex_claimed) ex_builds =
    (cloneBuildApplicationVersion ex_build, None).
Proof. vm_compute. reflexivity. Qed.

Lemma ex_claimed_asked answer asked f :
  fate (ex_surroundings answer) ex_claimed_world ex_claimed asked f → asked = true.
Proof.
  destruct 1 as [b err Hg|b Hg Hsup| |]; [| |done..];
    change (w_builds ex_claimed_world) with ex_builds in Hg; rewrite ex_claimed_build in Hg.
  - by apply pair_equal_spec in Hg as [_ ?].
  - change (w_builds ex_claimed_world) with ex_builds in Hsup.
    apply pair_equal_spec in Hg as [Ei _].
    apply ex_build_current in Hsup; [done|]. rewrite <-Ei. reflexivity.
Qed.


(** It is recorded and told. *)
Example refused_status :
  let x := executeClaimedDelivery (ex_surroundings (Some (Errorf "rejected"))) ex_reporter ex_claimed
             None ex_claimed_world in
  x.2 = (scmStatusExecutionOutcomePermanentlyFailed, Some (Errorf "rejected")) ∧
  sd_Status (deliveryAt (w_deliveries x.1) "d2") = SCMStatusDeliveryStatusFailedPermanent.
Proof. vm_compute. by split. Qed.

(** The status that is planned for the build. *)
Definition ex_planned : SCMStatusDelivery :=
  match (planDelivery (ex_surroundings None) ex_reporter ex_build ex_world).2 with
  | inl (Some d) => d
  | _ => zero_SCMStatusDelivery
  end.

