(* ===== verification/NotifDelivery.v ===== *)
(** Deliveries of notifications: the data, its normal form and validation
    (backend/internal/domain/notification_delivery.go), and the requests and
    outcomes of a store of deliveries
    (backend/internal/repository/notification_delivery_repository.go). *)

From stdpp Require Import base gmap strings list pretty sorting numbers.
From S2P Require Import Prelude GoLib GoPath GoText Domain ScmDelivery.

Open Scope go_scope.
Open Scope Z_scope.

(** ** Data

    As for commit statuses, the enumerations are strings. *)

Abbreviation NotificationEventType := string (only parsing).
Definition NotificationEventTypeBuildSucceeded : NotificationEventType := "build_succeeded".
Definition NotificationEventTypeBuildFailed : NotificationEventType := "build_failed".

Abbreviation NotificationDeliveryStatus := string (only parsing).
Definition NotificationDeliveryStatusPending : NotificationDeliveryStatus := "pending".
Definition NotificationDeliveryStatusSending : NotificationDeliveryStatus := "sending".
Definition NotificationDeliveryStatusRetryWaiting : NotificationDeliveryStatus := "retry_waiting".
Definition NotificationDeliveryStatusSent : NotificationDeliveryStatus := "sent".
Definition NotificationDeliveryStatusFailedPermanent : NotificationDeliveryStatus :=
  "failed_permanent".
Definition NotificationDeliveryStatusFailedExhausted : NotificationDeliveryStatus :=
  "failed_exhausted".

Abbreviation NotificationDeliveryFailureCategory := string (only parsing).
Definition NotificationDeliveryFailureCategoryRetryable : NotificationDeliveryFailureCategory :=
  "retryable".
Definition NotificationDeliveryFailureCategoryPermanent : NotificationDeliveryFailureCategory :=
  "permanent".

Abbreviation NotificationTransport := string (only parsing).
Definition NotificationTransportEmail : NotificationTransport := "email".
Definition NotificationTransportSlackWebhook : NotificationTransport := "slack_webhook".
Definition NotificationTransportSlackDM : NotificationTransport := "slack_dm".

Abbreviation NotificationDestinationKind := string (only parsing).
Definition NotificationDestinationKindPersonalEmail : NotificationDestinationKind :=
  "personal_email".
Definition NotificationDestinationKindSharedTarget : NotificationDestinationKind := "shared_target".
Definition NotificationDestinationKindSlackIdentity : NotificationDestinationKind :=
  "slack_identity".

Record NotificationDelivery := mkNotificationDelivery {
  nd_ID : string;
  nd_BuildID : string;
  nd_EventType : NotificationEventType;
  nd_Transport : NotificationTransport;
  nd_DestinationKind : NotificationDestinationKind;
  nd_DestinationKey : string;
  nd_NotificationTargetID : option string;
  nd_RecipientUserID : option string;
  nd_SlackWorkspaceIntegrationID : option string;
  nd_Recipient : string;
  nd_Status : NotificationDeliveryStatus;
  nd_Attempts : Z;
  nd_MaxAttempts : Z;
  nd_LastAttemptAt : option Time;
  nd_NextAttemptAt : option Time;
  nd_ClaimedAt : option Time;
  nd_ClaimExpiresAt : option Time;
  nd_ClaimedBy : option string;
  nd_FailureCategory : option NotificationDeliveryFailureCategory;
  nd_FailureReason : option string;
  nd_LastError : option string;
  nd_CreatedAt : Time;
  nd_UpdatedAt : Time;
  nd_SentAt : option Time;
}.

#[export] Instance eta_NotificationDelivery : Eta NotificationDelivery := λ d,
  mkNotificationDelivery (nd_ID d) (nd_BuildID d) (nd_EventType d) (nd_Transport d)
    (nd_DestinationKind d) (nd_DestinationKey d) (nd_NotificationTargetID d)
    (nd_RecipientUserID d) (nd_SlackWorkspaceIntegrationID d) (nd_Recipient d) (nd_Status d)
    (nd_Attempts d) (nd_MaxAttempts d) (nd_LastAttemptAt d) (nd_NextAttemptAt d)
    (nd_ClaimedAt d) (nd_ClaimExpiresAt d) (nd_ClaimedBy d) (nd_FailureCategory d)
    (nd_FailureReason d) (nd_LastError d) (nd_CreatedAt d) (nd_UpdatedAt d) (nd_SentAt d).

Definition zero_NotificationDelivery : NotificationDelivery :=
  mkNotificationDelivery "" "" "" "" "" "" None None None "" "" 0 0 None None None None None None
    None None zero_time zero_time None.

(** ** Normalisation *)

Definition trimNotificationOptionalString (value : option string) : option string :=
  match value with
  | None => None
  | Some v => let trimmed := TrimSpace v in if trimmed == "" then None else Some trimmed
  end.

Definition normalizeNotificationOptionalTime (value : option Time) : option Time :=
  match value with
  | None => None
  | Some t => if IsZero t then None else Some t
  end.

Definition maxNotificationAttempts (value : Z) : Z := if value <=? 0 then 0 else value.

Definition NotificationDelivery_Normalize (d : NotificationDelivery) : NotificationDelivery := {|
  nd_ID := nd_ID d;
  nd_BuildID := TrimSpace (nd_BuildID d);
  nd_EventType := TrimSpace (nd_EventType d);
  nd_Transport := TrimSpace (nd_Transport d);
  nd_DestinationKind := TrimSpace (nd_DestinationKind d);
  nd_DestinationKey := TrimSpace (nd_DestinationKey d);
  nd_NotificationTargetID := trimNotificationOptionalString (nd_NotificationTargetID d);
  nd_RecipientUserID := trimNotificationOptionalString (nd_RecipientUserID d);
  nd_SlackWorkspaceIntegrationID :=
    trimNotificationOptionalString (nd_SlackWorkspaceIntegrationID d);
  nd_Recipient := TrimSpace (nd_Recipient d);
  nd_Status := TrimSpace (nd_Status d);
  nd_Attempts := nd_Attempts d;
  nd_MaxAttempts := maxNotificationAttempts (nd_MaxAttempts d);
  nd_LastAttemptAt := normalizeNotificationOptionalTime (nd_LastAttemptAt d);
  nd_NextAttemptAt := normalizeNotificationOptionalTime (nd_NextAttemptAt d);
  nd_ClaimedAt := normalizeNotificationOptionalTime (nd_ClaimedAt d);
  nd_ClaimExpiresAt := normalizeNotificationOptionalTime (nd_ClaimExpiresAt d);
  nd_ClaimedBy := trimNotificationOptionalString (nd_ClaimedBy d);
  nd_FailureCategory := trimNotificationOptionalString (nd_FailureCategory d);
  nd_FailureReason := trimNotificationOptionalString (nd_FailureReason d);
  nd_LastError := trimNotificationOptionalString (nd_LastError d);
  nd_CreatedAt := nd_CreatedAt d;
  nd_UpdatedAt := nd_UpdatedAt d;
  nd_SentAt := normalizeNotificationOptionalTime (nd_SentAt d);
|}.

(** ** Validation *)

Definition NotificationDeliveryStatus_IsValid (s : NotificationDeliveryStatus) : bool :=
  (s == NotificationDeliveryStatusPending) || (s == NotificationDeliveryStatusSending)
  || (s == NotificationDeliveryStatusRetryWaiting) || (s == NotificationDeliveryStatusSent)
  || (s == NotificationDeliveryStatusFailedPermanent)
  || (s == NotificationDeliveryStatusFailedExhausted).

Definition NotificationDeliveryFailureCategory_IsValid (c : NotificationDeliveryFailureCategory)
    : bool :=
  (c == NotificationDeliveryFailureCategoryRetryable)
  || (c == NotificationDeliveryFailureCategoryPermanent).

Definition NotificationTransport_IsValid (t : NotificationTransport) : bool :=
  (t == NotificationTransportEmail) || (t == NotificationTransportSlackWebhook)
  || (t == NotificationTransportSlackDM).

Definition NotificationDestinationKind_IsValid (k : NotificationDestinationKind) : bool :=
  (k == NotificationDestinationKindPersonalEmail) || (k == NotificationDestinationKindSharedTarget)
  || (k == NotificationDestinationKindSlackIdentity).

Definition NotificationDelivery_IsTransportDestinationKindValid (d : NotificationDelivery) : bool :=
  if nd_Transport d == NotificationTransportEmail then
    (nd_DestinationKind d == NotificationDestinationKindPersonalEmail)
    || (nd_DestinationKind d == NotificationDestinationKindSharedTarget)
  else if nd_Transport d == NotificationTransportSlackWebhook then
    nd_DestinationKind d == NotificationDestinationKindSharedTarget
  else if nd_Transport d == NotificationTransportSlackDM then
    nd_DestinationKind d == NotificationDestinationKindSlackIdentity
  else false.

Definition NotificationDelivery_IsTerminal (d : NotificationDelivery) : bool :=
  (nd_Status d == NotificationDeliveryStatusSent)
  || (nd_Status d == NotificationDeliveryStatusFailedPermanent)
  || (nd_Status d == NotificationDeliveryStatusFailedExhausted).

Definition NotificationDelivery_ValidateIdentity (d : NotificationDelivery) : option error :=
  failed_check
    [ (TrimSpace (nd_BuildID d) == "", "notification delivery build id is required");
      (TrimSpace (nd_EventType d) == "", "notification delivery event type is required");
      (negb (NotificationTransport_IsValid (nd_Transport d)),
       "unsupported notification transport " +:+ Quote (nd_Transport d));
      (negb (NotificationDestinationKind_IsValid (nd_DestinationKind d)),
       "unsupported notification destination kind " +:+ Quote (nd_DestinationKind d));
      (TrimSpace (nd_DestinationKey d) == "",
       "notification delivery destination key is required");
      (negb (NotificationDelivery_IsTransportDestinationKindValid d),
       "unsupported notification delivery transport/destination combination "
         +:+ Quote (nd_Transport d) +:+ "/" +:+ Quote (nd_DestinationKind d)) ].

(** The checks of [Validate] on the normalised delivery after those of its
    identity, in their order. *)
Definition notificationDeliveryChecks (d : NotificationDelivery) : list (bool * string) :=
  let terminal := NotificationDelivery_IsTerminal d in
  let category := nd_FailureCategory d in
  let status := nd_Status d in
  let claim_kept := is_set (nd_ClaimedBy d) || is_set (nd_ClaimedAt d) || is_set (nd_ClaimExpiresAt d) in
  [ (nd_Attempts d <? 0, "notification delivery attempts cannot be negative");
    (nd_MaxAttempts d <=? 0, "notification delivery max attempts must be positive");
    (nd_MaxAttempts d <? nd_Attempts d, "notification delivery attempts cannot exceed max attempts");
    (negb (NotificationDeliveryStatus_IsValid status),
     "unsupported notification delivery status " +:+ Quote status);
    (set_and_invalid NotificationDeliveryFailureCategory_IsValid category,
     "unsupported notification delivery failure category " +:+ Quote (default "" category));
    (is_set (nd_SentAt d) && (status != NotificationDeliveryStatusSent),
     "notification delivery sent_at requires sent status");
    ((status == NotificationDeliveryStatusSent) && negb (is_set (nd_SentAt d)),
     "sent notification delivery requires sent_at");
    (terminal && is_set (nd_ClaimedBy d),
     "terminal notification delivery cannot retain an active claim owner");
    (terminal && is_set (nd_ClaimedAt d), "terminal notification delivery cannot retain claimed_at");
    (terminal && is_set (nd_ClaimExpiresAt d),
     "terminal notification delivery cannot retain claim_expires_at");
    (terminal && is_set (nd_NextAttemptAt d),
     "terminal notification delivery cannot retain next_attempt_at");
    ((status == NotificationDeliveryStatusPending) && is_set (nd_NextAttemptAt d),
     "pending notification delivery cannot retain next_attempt_at");
    ((status == NotificationDeliveryStatusPending) && claim_kept,
     "pending notification delivery cannot retain active claim metadata");
    ((status == NotificationDeliveryStatusRetryWaiting) && (nd_MaxAttempts d <=? nd_Attempts d),
     "retry-waiting notification delivery requires attempts below max attempts");
    ((status == NotificationDeliveryStatusRetryWaiting) && negb (is_set (nd_NextAttemptAt d)),
     "retry-waiting notification delivery requires next_attempt_at");
    ((status == NotificationDeliveryStatusRetryWaiting) && claim_kept,
     "retry-waiting notification delivery cannot retain active claim metadata");
    ((status == NotificationDeliveryStatusRetryWaiting)
     && differs category NotificationDeliveryFailureCategoryRetryable,
     "retry-waiting notification delivery requires retryable failure category");
    ((status == NotificationDeliveryStatusSending) && (nd_Attempts d <? 1),
     "sending notification delivery requires at least one attempt");
    ((status == NotificationDeliveryStatusSending)
     && (negb (is_set (nd_ClaimedBy d)) || negb (is_set (nd_ClaimedAt d))
         || negb (is_set (nd_ClaimExpiresAt d))),
     "sending notification delivery requires claim owner and expiry");
    ((status == NotificationDeliveryStatusSending)
     && negb (match nd_ClaimExpiresAt d, nd_ClaimedAt d with
              | Some expires, Some claimed => After expires claimed
              | _, _ => false
              end),
     "notification delivery claim expiry must be after claim acquisition");
    ((status == NotificationDeliveryStatusSending) && is_set (nd_NextAttemptAt d),
     "sending notification delivery cannot retain next_attempt_at");
    ((status == NotificationDeliveryStatusFailedPermanent)
     && differs category NotificationDeliveryFailureCategoryPermanent,
     "permanently failed notification delivery requires permanent failure category");
    ((status == NotificationDeliveryStatusFailedExhausted)
     && negb (nd_Attempts d =? nd_MaxAttempts d),
     "exhausted notification delivery requires attempts to equal max attempts");
    ((status == NotificationDeliveryStatusFailedExhausted)
     && differs category NotificationDeliveryFailureCategoryRetryable,
     "exhausted notification delivery requires retryable failure category");
    ((status == NotificationDeliveryStatusSent) && (nd_Attempts d <? 1),
     "sent notification delivery requires at least one attempt") ].

Definition NotificationDelivery_Validate (d : NotificationDelivery) : option error :=
  let d := NotificationDelivery_Normalize d in
  match NotificationDelivery_ValidateIdentity d with
  | Some err => Some err
  | None => failed_check (notificationDeliveryChecks d)
  end.

Definition NotificationDelivery_CanAttempt (now : Time) (d : NotificationDelivery) : bool :=
  if NotificationDelivery_IsTerminal d || (nd_MaxAttempts d <=? nd_Attempts d) then false
  else if nd_Status d == NotificationDeliveryStatusPending then true
  else if nd_Status d == NotificationDeliveryStatusRetryWaiting then
    match nd_NextAttemptAt d with None => false | Some next => negb (Before now next) end
  else if nd_Status d == NotificationDeliveryStatusSending then
    match nd_ClaimExpiresAt d with None => false | Some expires => negb (Before now expires) end
  else false.

(** ** Keys of destinations *)

Definition NotificationSharedEmailTargetKey (targetID : string)
    : (NotificationDestinationKind * string) + error :=
  let trimmedTargetID := TrimSpace targetID in
  if trimmedTargetID == "" then inr (Errorf "shared email target id is required")
  else inl (NotificationDestinationKindSharedTarget, "email-target:" +:+ trimmedTargetID).

Definition NotificationSharedSlackWebhookTargetKey (targetID : string)
    : (NotificationDestinationKind * string) + error :=
  let trimmedTargetID := TrimSpace targetID in
  if trimmedTargetID == "" then inr (Errorf "shared slack webhook target id is required")
  else inl (NotificationDestinationKindSharedTarget, "slack-webhook-target:" +:+ trimmedTargetID).

Definition NotificationPersonalEmailTargetKey (targetID : string)
    : (NotificationDestinationKind * string) + error :=
  let trimmedTargetID := TrimSpace targetID in
  if trimmedTargetID == "" then inr (Errorf "personal email target id is required")
  else inl (NotificationDestinationKindPersonalEmail, "email-personal:" +:+ trimmedTargetID).

Definition NotificationSlackDMDestinationKey (workspaceIntegrationID slackUserID : string)
    : (NotificationDestinationKind * string) + error :=
  let trimmedWorkspaceID := TrimSpace workspaceIntegrationID in
  let trimmedSlackUserID := TrimSpace slackUserID in
  if trimmedWorkspaceID == "" then inr (Errorf "slack workspace integration id is required")
  else if trimmedSlackUserID == "" then inr (Errorf "slack user id is required")
  else inl (NotificationDestinationKindSlackIdentity,
            "slack-dm:" +:+ trimmedWorkspaceID +:+ ":" +:+ trimmedSlackUserID).

(** ** Requests and outcomes of a store of deliveries *)

Definition ErrNotificationDeliveryNotFound : error :=
  Sentinel "repository.ErrNotificationDeliveryNotFound".
Definition ErrNotificationDeliveryDuplicate : error :=
  Sentinel "repository.ErrNotificationDeliveryDuplicate".

Inductive NotificationDeliveryClaimOutcome :=
  | NotificationDeliveryClaimOutcomeCreatedClaimed
  | NotificationDeliveryClaimOutcomeRetryClaimed
  | NotificationDeliveryClaimOutcomeStaleClaimReclaimed
  | NotificationDeliveryClaimOutcomeAlreadySent
  | NotificationDeliveryClaimOutcomePermanentlyFailed
  | NotificationDeliveryClaimOutcomeAttemptsExhausted
  | NotificationDeliveryClaimOutcomeClaimedByOther
  | NotificationDeliveryClaimOutcomeRetryNotDue.

#[export] Instance NotificationDeliveryClaimOutcome_eq_dec :
  EqDecision NotificationDeliveryClaimOutcome.
Proof. solve_decision. Defined.

Record NotificationDeliveryClaimInput := mkNotificationDeliveryClaimInput {
  nci_Delivery : NotificationDelivery;
  nci_ClaimOwner : string;
  nci_Now : Time;
  nci_ClaimDuration : Z;
  nci_MaxAttempts : Z;
}.

Record NotificationDeliveryClaimResult := mkNotificationDeliveryClaimResult {
  ncr_Delivery : NotificationDelivery;
  ncr_Outcome : NotificationDeliveryClaimOutcome;
}.

Record NotificationDeliveryRecoverableScanInput := mkNotificationDeliveryRecoverableScanInput {
  nsi_Now : Time;
  nsi_Limit : Z;
}.

Inductive NotificationDeliveryUpdateOutcome :=
  | NotificationDeliveryUpdateOutcomeUpdated
  | NotificationDeliveryUpdateOutcomeLostClaim.

#[export] Instance NotificationDeliveryUpdateOutcome_eq_dec :
  EqDecision NotificationDeliveryUpdateOutcome.
Proof. solve_decision. Defined.

Record NotificationDeliveryUpdateResult := mkNotificationDeliveryUpdateResult {
  nur_Delivery : NotificationDelivery;
  nur_Outcome : NotificationDeliveryUpdateOutcome;
}.

Record NotificationDeliveryMarkSentInput := mkNotificationDeliveryMarkSentInput {
  nmi_DeliveryID : string;
  nmi_ClaimOwner : string;
  nmi_ClaimedAt : Time;
  nmi_SentAt : Time;
}.

Record NotificationDeliveryRecordFailureInput := mkNotificationDeliveryRecordFailureInput {
  nfi_DeliveryID : string;
  nfi_ClaimOwner : string;
  nfi_ClaimedAt : Time;
  nfi_FailedAt : Time;
  nfi_NextAttemptAt : option Time;
  nfi_FailureCategory : NotificationDeliveryFailureCategory;
  nfi_FailureReason : string;
  nfi_LastError : option string;
}.

Definition NotificationDeliveryClaimOutcomeFromExisting (delivery : NotificationDelivery)
    (now : Time) : NotificationDeliveryClaimOutcome :=
  if nd_Status delivery == NotificationDeliveryStatusSent
  then NotificationDeliveryClaimOutcomeAlreadySent
  else if nd_Status delivery == NotificationDeliveryStatusFailedPermanent
  then NotificationDeliveryClaimOutcomePermanentlyFailed
  else if nd_Status delivery == NotificationDeliveryStatusFailedExhausted
  then NotificationDeliveryClaimOutcomeAttemptsExhausted
  else if nd_Status delivery == NotificationDeliveryStatusSending then
    if nd_MaxAttempts delivery <=? nd_Attempts delivery
    then NotificationDeliveryClaimOutcomeAttemptsExhausted
    else match nd_ClaimExpiresAt delivery with
         | Some expires =>
             if negb (Before now expires) then NotificationDeliveryClaimOutcomeStaleClaimReclaimed
             else NotificationDeliveryClaimOutcomeClaimedByOther
         | None => NotificationDeliveryClaimOutcomeClaimedByOther
         end
  else if nd_Status delivery == NotificationDeliveryStatusRetryWaiting then
    if match nd_NextAttemptAt delivery with Some next => Before now next | None => false end
    then NotificationDeliveryClaimOutcomeRetryNotDue
    else if nd_MaxAttempts delivery <=? nd_Attempts delivery
    then NotificationDeliveryClaimOutcomeAttemptsExhausted
    else NotificationDeliveryClaimOutcomeRetryClaimed
  else if nd_Status delivery == NotificationDeliveryStatusPending then
    if nd_MaxAttempts delivery <=? nd_Attempts delivery
    then NotificationDeliveryClaimOutcomeAttemptsExhausted
    else NotificationDeliveryClaimOutcomeRetryClaimed
  else NotificationDeliveryClaimOutcomeClaimedByOther.
