(* ===== verification/NotifRepo.v ===== *)
(** The in-memory store of notification deliveries
    (backend/internal/repository/memory/notification_delivery_repository.go).

    As in ScmRepo.v a method is a function of the store, its result and its
    error; the context is not canceled, [uuid.NewString] is the argument [newID]
    and the instant of [Create] and [Update] the argument [now]. *)

From stdpp Require Import base gmap strings list pretty sorting numbers.
From S2P Require Import Prelude GoLib GoPath GoText Domain ScmDelivery NotifDelivery.

Open Scope go_scope.
Open Scope Z_scope.

(** ** State *)

Record NotificationDeliveryRepository := mkNotificationDeliveryRepository {
  nr_deliveries : gmap string NotificationDelivery;
  nr_index : gmap string string;
  nr_recipient : gmap string string;
}.

Definition NewNotificationDeliveryRepository : NotificationDeliveryRepository :=
  mkNotificationDeliveryRepository ∅ ∅ ∅.

Definition notificationAt (r : NotificationDeliveryRepository) (id : string) : NotificationDelivery :=
  default zero_NotificationDelivery (nr_deliveries r !! id).

Definition storeNotification (r : NotificationDeliveryRepository) (id : string)
    (d : NotificationDelivery) : NotificationDeliveryRepository :=
  mkNotificationDeliveryRepository (<[id := d]> (nr_deliveries r)) (nr_index r) (nr_recipient r).

Definition notificationDeliveryLogicalKey (buildID eventType transport destinationKey : string)
    : string :=
  TrimSpace buildID +:+ "|" +:+ TrimSpace eventType +:+ "|" +:+ TrimSpace transport +:+ "|"
  +:+ TrimSpace destinationKey.

Definition notificationDeliveryRecipientKey (buildID eventType recipient : string) : string :=
  TrimSpace buildID +:+ "|" +:+ TrimSpace eventType +:+ "|" +:+ TrimSpace recipient.

(** The logical key of a delivery. *)
Definition logicalKey (d : NotificationDelivery) : string :=
  notificationDeliveryLogicalKey (nd_BuildID d) (nd_EventType d) (nd_Transport d)
    (nd_DestinationKey d).

(** A new delivery, in both indexes. *)
Definition indexNotification (key : string) (d : NotificationDelivery)
    (r : NotificationDeliveryRepository) : NotificationDeliveryRepository :=
  let r := storeNotification r (nd_ID d) d in
  let recipientKey :=
    notificationDeliveryRecipientKey (nd_BuildID d) (nd_EventType d) (nd_Recipient d) in
  mkNotificationDeliveryRepository (nr_deliveries r) (<[key := nd_ID d]> (nr_index r))
    (if recipientKey != "||" then <[recipientKey := nd_ID d]> (nr_recipient r)
     else nr_recipient r).

(** ** Creation *)

Definition createdNotification (newID : string) (now : Time) (delivery : NotificationDelivery)
    : NotificationDelivery :=
  let delivery :=
    if TrimSpace (nd_ID delivery) == "" then delivery <| nd_ID := newID |> else delivery in
  let delivery :=
    if IsZero (nd_CreatedAt delivery) then delivery <| nd_CreatedAt := now |> else delivery in
  let delivery :=
    if IsZero (nd_UpdatedAt delivery) then delivery <| nd_UpdatedAt := nd_CreatedAt delivery |>
    else delivery in
  let delivery :=
    if nd_MaxAttempts delivery <=? 0 then delivery <| nd_MaxAttempts := 1 |> else delivery in
  if TrimSpace (nd_Status delivery) == ""
  then delivery <| nd_Status := NotificationDeliveryStatusPending |> else delivery.

Definition NotificationDeliveryRepository_Create (newID : string) (now : Time)
    (delivery : NotificationDelivery) (r : NotificationDeliveryRepository)
    : NotificationDeliveryRepository * (NotificationDelivery + error) :=
  let delivery := NotificationDelivery_Normalize delivery in
  match NotificationDelivery_ValidateIdentity delivery with
  | Some err => (r, inr err)
  | None =>
      let key := logicalKey delivery in
      match nr_index r !! key with
      | Some _ => (r, inr ErrNotificationDeliveryDuplicate)
      | None =>
          let delivery := createdNotification newID now delivery in
          match NotificationDelivery_Validate delivery with
          | Some err => (r, inr err)
          | None => (indexNotification key delivery r, inl delivery)
          end
      end
  end.

(** ** Claims *)

Definition normalizeNotificationClaimInput (input : NotificationDeliveryClaimInput)
    : (NotificationDelivery * Time * string * Z) + error :=
  let delivery := NotificationDelivery_Normalize (nci_Delivery input) in
  match NotificationDelivery_ValidateIdentity delivery with
  | Some err => inr err
  | None =>
      let claimOwner := TrimSpace (nci_ClaimOwner input) in
      if IsZero (nci_Now input) then inr (Errorf "notification delivery claim time is required")
      else if claimOwner == "" then inr (Errorf "notification delivery claim owner is required")
      else if nci_ClaimDuration input <=? 0
      then inr (Errorf "notification delivery claim duration must be positive")
      else if nci_MaxAttempts input <=? 0
      then inr (Errorf "notification delivery max attempts must be positive")
      else inl (delivery, nci_Now input, claimOwner, nci_ClaimDuration input)
  end.

Definition reclaimedNotification (existing : NotificationDelivery) (now : Time)
    (claimOwner : string) (claimDuration : Z) : NotificationDelivery :=
  existing <| nd_Attempts := int64_add (nd_Attempts existing) 1 |>
           <| nd_Status := NotificationDeliveryStatusSending |>
           <| nd_LastAttemptAt := Some now |>
           <| nd_NextAttemptAt := None |>
           <| nd_ClaimedAt := Some now |>
           <| nd_ClaimExpiresAt := Some (now + claimDuration) |>
           <| nd_ClaimedBy := Some claimOwner |>
           <| nd_UpdatedAt := now |>.

Definition claimNotificationDelivery (existing : NotificationDelivery) (now : Time)
    (claimOwner : string) (claimDuration : Z)
    : NotificationDelivery * NotificationDeliveryClaimOutcome :=
  let existing := NotificationDelivery_Normalize existing in
  let claimed := reclaimedNotification existing now claimOwner claimDuration in
  if NotificationDelivery_IsTerminal existing
  then (existing, NotificationDeliveryClaimOutcomeFromExisting existing now)
  else if nd_MaxAttempts existing <=? nd_Attempts existing
  then (existing, NotificationDeliveryClaimOutcomeAttemptsExhausted)
  else if nd_Status existing == NotificationDeliveryStatusSending then
    if match nd_ClaimExpiresAt existing with Some expires => Before now expires | None => false end
    then (existing, NotificationDeliveryClaimOutcomeClaimedByOther)
    else (claimed, NotificationDeliveryClaimOutcomeStaleClaimReclaimed)
  else if (nd_Status existing == NotificationDeliveryStatusRetryWaiting)
          || (nd_Status existing == NotificationDeliveryStatusPending) then
    if (nd_Status existing == NotificationDeliveryStatusRetryWaiting)
       && match nd_NextAttemptAt existing with Some next => Before now next | None => false end
    then (existing, NotificationDeliveryClaimOutcomeRetryNotDue)
    else (claimed, NotificationDeliveryClaimOutcomeRetryClaimed)
  else (existing, NotificationDeliveryClaimOutcomeFromExisting existing now).

(** The first claim of a new delivery. *)
Definition claimedNotification (newID : string) (delivery : NotificationDelivery) (now : Time)
    (claimOwner : string) (claimDuration maxAttempts : Z) : NotificationDelivery :=
  let delivery :=
    if TrimSpace (nd_ID delivery) == "" then delivery <| nd_ID := newID |> else delivery in
  let delivery :=
    if IsZero (nd_CreatedAt delivery) then delivery <| nd_CreatedAt := now |> else delivery in
  delivery <| nd_UpdatedAt := now |>
           <| nd_Status := NotificationDeliveryStatusSending |>
           <| nd_Attempts := 1 |>
           <| nd_MaxAttempts := maxAttempts |>
           <| nd_LastAttemptAt := Some now |>
           <| nd_NextAttemptAt := None |>
           <| nd_ClaimedAt := Some now |>
           <| nd_ClaimExpiresAt := Some (now + claimDuration) |>
           <| nd_ClaimedBy := Some claimOwner |>
           <| nd_FailureCategory := None |>
           <| nd_FailureReason := None |>
           <| nd_LastError := None |>
           <| nd_SentAt := None |>.

Definition claims_notification (outcome : NotificationDeliveryClaimOutcome) : bool :=
  (outcome == NotificationDeliveryClaimOutcomeRetryClaimed)
  || (outcome == NotificationDeliveryClaimOutcomeStaleClaimReclaimed).

Definition NotificationDeliveryRepository_AcquireForDelivery (newID : string)
    (input : NotificationDeliveryClaimInput) (r : NotificationDeliveryRepository)
    : NotificationDeliveryRepository * (NotificationDeliveryClaimResult + error) :=
  match normalizeNotificationClaimInput input with
  | inr err => (r, inr err)
  | inl (delivery, now, claimOwner, claimDuration) =>
      let key := logicalKey delivery in
      match nr_index r !! key with
      | Some existingID =>
          let '(claimed, outcome) :=
            claimNotificationDelivery (notificationAt r existingID) now claimOwner claimDuration in
          (if claims_notification outcome then storeNotification r existingID claimed else r,
           inl (mkNotificationDeliveryClaimResult claimed outcome))
      | None =>
          let delivery :=
            claimedNotification newID delivery now claimOwner claimDuration
              (nci_MaxAttempts input) in
          match NotificationDelivery_Validate delivery with
          | Some err => (r, inr err)
          | None =>
              (indexNotification key delivery r,
               inl (mkNotificationDeliveryClaimResult delivery
                      NotificationDeliveryClaimOutcomeCreatedClaimed))
          end
      end
  end.

(** ** What can be recovered *)

Definition notificationDeliveryRecoverableDueAt (delivery : NotificationDelivery) (now : Time)
    : option Time :=
  let delivery := NotificationDelivery_Normalize delivery in
  if nd_Status delivery == NotificationDeliveryStatusRetryWaiting then
    match nd_NextAttemptAt delivery with
    | None => None
    | Some next => if After next now then None else Some next
    end
  else if nd_Status delivery == NotificationDeliveryStatusSending then
    match nd_ClaimExpiresAt delivery with
    | None => None
    | Some expires => if After expires now then None else Some expires
    end
  else None.

Definition dueNotifications (now : Time) (deliveries : list NotificationDelivery)
    : list (NotificationDelivery * Time) :=
  omap (λ delivery, pair delivery <$> notificationDeliveryRecoverableDueAt delivery now) deliveries.

Definition dueBefore (i j : NotificationDelivery * Time) : bool :=
  if negb (Equal i.2 j.2) then Before i.2 j.2 else string_lt (nd_ID i.1) (nd_ID j.1).

(** [deliveries] lists the values of the map in the order Go iterates it. *)
Definition recoverableNotifications (deliveries : list NotificationDelivery) (now : Time) (limit : Z)
    : list NotificationDelivery :=
  let candidates := sort_slice dueBefore (dueNotifications now deliveries) in
  let candidates :=
    if limit <? Z.of_nat (length candidates) then take (Z.to_nat limit) candidates
    else candidates in
  fst <$> candidates.

Definition notificationsInAnyOrder (r : NotificationDeliveryRepository) : list NotificationDelivery :=
  snd <$> map_to_list (nr_deliveries r).

Definition NotificationDeliveryRepository_ListRecoverable
    (input : NotificationDeliveryRecoverableScanInput) (r : NotificationDeliveryRepository)
    : list NotificationDelivery + error :=
  if IsZero (nsi_Now input)
  then inr (Errorf "notification delivery recoverable scan time is required")
  else if nsi_Limit input <=? 0
  then inr (Errorf "notification delivery recoverable scan limit must be positive")
  else inl (recoverableNotifications (notificationsInAnyOrder r) (nsi_Now input) (nsi_Limit input)).

(** ** Outcomes *)

Definition notificationDeliveryClaimMatches (delivery : NotificationDelivery) (claimOwner : string)
    (claimedAt : Time) : bool :=
  if nd_Status delivery != NotificationDeliveryStatusSending then false
  else match nd_ClaimedBy delivery, nd_ClaimedAt delivery with
       | Some owner, Some at_ => (TrimSpace owner == claimOwner) && Equal at_ claimedAt
       | _, _ => false
       end.

(** The common end of the updates: a valid delivery is stored under its id. *)
Definition updateNotification (current : NotificationDelivery) (r : NotificationDeliveryRepository)
    : NotificationDeliveryRepository * (NotificationDeliveryUpdateResult + error) :=
  match NotificationDelivery_Validate current with
  | Some err => (r, inr err)
  | None =>
      (storeNotification r (nd_ID current) current,
       inl (mkNotificationDeliveryUpdateResult current NotificationDeliveryUpdateOutcomeUpdated))
  end.

Definition lostNotification (current : NotificationDelivery)
    : NotificationDeliveryUpdateResult + error :=
  inl (mkNotificationDeliveryUpdateResult current NotificationDeliveryUpdateOutcomeLostClaim).

Definition sentNotification (sentAt : Time) (current : NotificationDelivery)
    : NotificationDelivery :=
  current <| nd_Status := NotificationDeliveryStatusSent |>
          <| nd_UpdatedAt := sentAt |>
          <| nd_SentAt := Some sentAt |>
          <| nd_NextAttemptAt := None |>
          <| nd_ClaimedAt := None |>
          <| nd_ClaimExpiresAt := None |>
          <| nd_ClaimedBy := None |>
          <| nd_FailureCategory := None |>
          <| nd_FailureReason := None |>
          <| nd_LastError := None |>.

Definition NotificationDeliveryRepository_MarkSent (input : NotificationDeliveryMarkSentInput)
    (r : NotificationDeliveryRepository)
    : NotificationDeliveryRepository * (NotificationDeliveryUpdateResult + error) :=
  match nr_deliveries r !! TrimSpace (nmi_DeliveryID input) with
  | None => (r, inr ErrNotificationDeliveryNotFound)
  | Some current =>
      if negb (notificationDeliveryClaimMatches current (TrimSpace (nmi_ClaimOwner input))
                 (nmi_ClaimedAt input))
      then (r, lostNotification current)
      else updateNotification (sentNotification (nmi_SentAt input) current) r
  end.

Definition normalizeNotificationRecordFailureTime (value : option Time) : option Time :=
  normalizeNotificationOptionalTime value.

Definition trimMemoryNotificationOptionalString (value : option string) : option string :=
  trimNotificationOptionalString value.

Definition failedNotification (input : NotificationDeliveryRecordFailureInput)
    (status : NotificationDeliveryStatus) (current : NotificationDelivery) : NotificationDelivery :=
  let reason := TrimSpace (nfi_FailureReason input) in
  let current :=
    current <| nd_Status := status |>
            <| nd_UpdatedAt := nfi_FailedAt input |>
            <| nd_NextAttemptAt :=
                 normalizeNotificationRecordFailureTime (nfi_NextAttemptAt input) |>
            <| nd_ClaimedAt := None |>
            <| nd_ClaimExpiresAt := None |>
            <| nd_ClaimedBy := None |>
            <| nd_FailureCategory := Some (nfi_FailureCategory input) |>
            <| nd_FailureReason := (if reason == "" then None else Some reason) |>
            <| nd_LastError := trimMemoryNotificationOptionalString (nfi_LastError input) |> in
  let current :=
    if status != NotificationDeliveryStatusRetryWaiting then current <| nd_NextAttemptAt := None |>
    else current in
  if (status == NotificationDeliveryStatusFailedExhausted)
     && (nd_Attempts current <? nd_MaxAttempts current)
  then current <| nd_Attempts := nd_MaxAttempts current |> else current.

Definition recordNotificationFailure (input : NotificationDeliveryRecordFailureInput)
    (status : NotificationDeliveryStatus) (r : NotificationDeliveryRepository)
    : NotificationDeliveryRepository * (NotificationDeliveryUpdateResult + error) :=
  match nr_deliveries r !! TrimSpace (nfi_DeliveryID input) with
  | None => (r, inr ErrNotificationDeliveryNotFound)
  | Some current =>
      if negb (notificationDeliveryClaimMatches current (TrimSpace (nfi_ClaimOwner input))
                 (nfi_ClaimedAt input))
      then (r, lostNotification current)
      else updateNotification (failedNotification input status current) r
  end.

Definition NotificationDeliveryRepository_RecordRetryableFailure
    (input : NotificationDeliveryRecordFailureInput) :=
  recordNotificationFailure input NotificationDeliveryStatusRetryWaiting.

Definition NotificationDeliveryRepository_RecordPermanentFailure
    (input : NotificationDeliveryRecordFailureInput) :=
  recordNotificationFailure input NotificationDeliveryStatusFailedPermanent.

Definition NotificationDeliveryRepository_RecordExhaustedFailure
    (input : NotificationDeliveryRecordFailureInput) :=
  recordNotificationFailure input NotificationDeliveryStatusFailedExhausted.

(** ** Reads and the unguarded update *)

Definition NotificationDeliveryRepository_GetByBuildEventRecipient
    (buildID eventType recipient : string) (r : NotificationDeliveryRepository)
    : NotificationDelivery + error :=
  match nr_recipient r !! notificationDeliveryRecipientKey buildID eventType recipient with
  | None => inr ErrNotificationDeliveryNotFound
  | Some id =>
      match nr_deliveries r !! id with
      | None => inr ErrNotificationDeliveryNotFound
      | Some delivery => inl delivery
      end
  end.

(** The fields that an update without them keeps. *)
Definition updatedNotification (now : Time) (delivery current : NotificationDelivery)
    : NotificationDelivery :=
  let keep new old := if new == "" then old else new in
  let keep_option (new old : option string) := match new with None => old | Some _ => new end in
  delivery <| nd_BuildID := keep (nd_BuildID delivery) (nd_BuildID current) |>
           <| nd_EventType := keep (nd_EventType delivery) (nd_EventType current) |>
           <| nd_Transport := keep (nd_Transport delivery) (nd_Transport current) |>
           <| nd_DestinationKind := keep (nd_DestinationKind delivery) (nd_DestinationKind current) |>
           <| nd_DestinationKey := keep (nd_DestinationKey delivery) (nd_DestinationKey current) |>
           <| nd_NotificationTargetID :=
                keep_option (nd_NotificationTargetID delivery) (nd_NotificationTargetID current) |>
           <| nd_RecipientUserID :=
                keep_option (nd_RecipientUserID delivery) (nd_RecipientUserID current) |>
           <| nd_SlackWorkspaceIntegrationID :=
                keep_option (nd_SlackWorkspaceIntegrationID delivery)
                  (nd_SlackWorkspaceIntegrationID current) |>
           <| nd_Recipient := keep (nd_Recipient delivery) (nd_Recipient current) |>
           <| nd_CreatedAt :=
                (if IsZero (nd_CreatedAt delivery) then nd_CreatedAt current else nd_CreatedAt delivery) |>
           <| nd_UpdatedAt :=
                (if IsZero (nd_UpdatedAt delivery) then now else nd_UpdatedAt delivery) |>
           <| nd_MaxAttempts :=
                (if nd_MaxAttempts delivery <=? 0 then nd_MaxAttempts current
                 else nd_MaxAttempts delivery) |>.

Definition NotificationDeliveryRepository_Update (now : Time) (delivery : NotificationDelivery)
    (r : NotificationDeliveryRepository)
    : NotificationDeliveryRepository * (NotificationDelivery + error) :=
  match nr_deliveries r !! TrimSpace (nd_ID delivery) with
  | None => (r, inr ErrNotificationDeliveryNotFound)
  | Some current =>
      let delivery := updatedNotification now (NotificationDelivery_Normalize delivery) current in
      match NotificationDelivery_Validate delivery with
      | Some err => (r, inr err)
      | None => (storeNotification r (nd_ID delivery) delivery, inl delivery)
      end
  end.
