(* ===== verification/NotifFacts.v ===== *)
(** Facts about notification deliveries: normal forms, valid deliveries, and what
    a claim and an outcome do to one. *)

From stdpp Require Import base gmap strings list pretty sorting numbers.
From S2P Require Import Prelude GoLib GoPath GoText Domain DeliverySpec ScmDelivery ScmRepo ScmFacts.
From S2P Require Import NotifDelivery NotifRepo.

Open Scope go_scope.
Open Scope Z_scope.

Implicit Types (d : NotificationDelivery).

Local Abbreviation norm := NotificationDelivery_Normalize.

#[global] Arguments NotificationDelivery_Normalize : simpl never.

(** ** Normal forms *)

(** The optional fields are normalised as those of commit statuses. *)
Lemma notif_trim_optional : trimNotificationOptionalString = trimSCMOptionalString.
Proof. reflexivity. Qed.

Lemma notif_time_optional : normalizeNotificationOptionalTime = normalizeSCMOptionalTime.
Proof. reflexivity. Qed.

(** Whom a delivery is for. *)
Definition addressee d :=
  (nd_BuildID d, nd_EventType d, (nd_Transport d, nd_DestinationKind d, nd_DestinationKey d),
   (nd_NotificationTargetID d, nd_RecipientUserID d, nd_SlackWorkspaceIntegrationID d),
   nd_Recipient d).

(** What an attempt and its outcome change, but for the texts of an error. *)
Definition progress_fields d :=
  (nd_Status d, nd_Attempts d, nd_MaxAttempts d, nd_NextAttemptAt d,
   (nd_ClaimedAt d, nd_ClaimExpiresAt d, nd_ClaimedBy d)).

Lemma notif_norm_addressee d :
  addressee (norm d) =
  (TrimSpace (nd_BuildID d), TrimSpace (nd_EventType d),
   (TrimSpace (nd_Transport d), TrimSpace (nd_DestinationKind d), TrimSpace (nd_DestinationKey d)),
   (trimSCMOptionalString (nd_NotificationTargetID d), trimSCMOptionalString (nd_RecipientUserID d),
    trimSCMOptionalString (nd_SlackWorkspaceIntegrationID d)),
   TrimSpace (nd_Recipient d)).
Proof. reflexivity. Qed.

Lemma notif_norm_same d d' : addressee d = addressee d' → addressee (norm d) = addressee (norm d').
Proof. intros H. unfold addressee in H. rewrite !notif_norm_addressee. by simplify_eq; congruence. Qed.

Lemma addressee_norm_norm d : addressee (norm (norm d)) = addressee (norm d).
Proof.
  rewrite notif_norm_addressee. unfold NotificationDelivery_Normalize at 1 2 3 4 5 6 7 8 9.
  cbn [nd_BuildID nd_EventType nd_Transport nd_DestinationKind nd_DestinationKey
    nd_NotificationTargetID nd_RecipientUserID nd_SlackWorkspaceIntegrationID nd_Recipient].
  by rewrite notif_trim_optional, !TrimSpace_idemp, !trim_optional_idemp.
Qed.

Lemma ValidateIdentity_addressee d d' :
  addressee d = addressee d' →
  NotificationDelivery_ValidateIdentity d = NotificationDelivery_ValidateIdentity d'.
Proof.
  intros H. unfold addressee in H. simplify_eq. unfold NotificationDelivery_ValidateIdentity,
    NotificationDelivery_IsTransportDestinationKindValid.
  by repeat match goal with H : _ d = _ |- _ => rewrite H; clear H end.
Qed.

Lemma logicalKey_addressee d d' : addressee d = addressee d' → logicalKey d = logicalKey d'.
Proof. unfold addressee, logicalKey. intros [= -> -> -> _ -> _ _ _ _]. done. Qed.

Lemma logicalKey_norm d : logicalKey (norm d) = logicalKey d.
Proof.
  unfold logicalKey, notificationDeliveryLogicalKey.
  change (nd_BuildID (norm d)) with (TrimSpace (nd_BuildID d)).
  change (nd_EventType (norm d)) with (TrimSpace (nd_EventType d)).
  change (nd_Transport (norm d)) with (TrimSpace (nd_Transport d)).
  change (nd_DestinationKey (norm d)) with (TrimSpace (nd_DestinationKey d)).
  by rewrite !TrimSpace_idemp.
Qed.

(** ** Valid deliveries *)

Lemma notif_valid_iff d :
  NotificationDelivery_Validate d = None ↔
  NotificationDelivery_ValidateIdentity (norm d) = None ∧
  Forall (λ c, c.1 = false) (notificationDeliveryChecks (norm d)).
Proof.
  unfold NotificationDelivery_Validate. rewrite <-no_failed_check. cbv zeta.
  destruct (NotificationDelivery_ValidateIdentity (norm d)); naive_solver.
Qed.

Lemma notif_check d n c :
  NotificationDelivery_Validate d = None → notificationDeliveryChecks (norm d) !! n = Some c → c.1 = false.
Proof.
  intros [_ H]%notif_valid_iff Hn. eapply (Forall_lookup_1 (λ c, c.1 = false)); [exact H|done].
Qed.

Ltac notif_check_at H n :=
  let C := fresh "C" in
  pose proof (notif_check _ n _ H eq_refl) as C; cbn [fst] in C.

(** ** Phases *)

Definition notif_phase d : Phase :=
  if nd_Status d == NotificationDeliveryStatusPending then Pending
  else if nd_Status d == NotificationDeliveryStatusSending
  then Sending (default "" (nd_ClaimedBy d)) (default zero_time (nd_ClaimedAt d))
         (default zero_time (nd_ClaimExpiresAt d))
  else if nd_Status d == NotificationDeliveryStatusRetryWaiting
  then RetryWaiting (default zero_time (nd_NextAttemptAt d))
  else if nd_Status d == NotificationDeliveryStatusSent then Sent
  else if nd_Status d == NotificationDeliveryStatusFailedPermanent then FailedPermanent
  else FailedExhausted.

Definition notif_progress d : Progress :=
  mkProgress (notif_phase d) (nd_Attempts d) (nd_MaxAttempts d).

Lemma notif_progress_fields d d' :
  progress_fields d = progress_fields d' → notif_progress d = notif_progress d'.
Proof.
  unfold progress_fields, notif_progress, notif_phase. by intros [= -> -> -> -> -> -> ->].
Qed.

(** What the store keeps: a valid delivery in the normal form that has a claim
    while it is being sent and an instant while it waits. *)
Record wf_notification d : Prop := {
  wn_valid : NotificationDelivery_Validate d = None;
  wn_addressee : addressee (norm d) = addressee d;
  wn_fields : progress_fields (norm d) = progress_fields d;
  wn_max : 0 < nd_MaxAttempts d ≤ max_int64;
  wn_status : notif_phase d ≠ Pending;
  wn_sending : nd_Status d = NotificationDeliveryStatusSending → ∃ o t u,
    nd_ClaimedBy d = Some o ∧ nd_ClaimedAt d = Some t ∧ nd_ClaimExpiresAt d = Some u ∧
    TrimSpace o = o ∧ zero_time < t < u;
}.

Section wf.
Context d (Hd : wf_notification d).

Lemma wn_norm_status : nd_Status (norm d) = nd_Status d.
Proof. pose proof (wn_fields d Hd) as H. unfold progress_fields in H. congruence. Qed.

Lemma wn_norm :
  nd_Status (norm d) = nd_Status d ∧ nd_Attempts (norm d) = nd_Attempts d ∧
  nd_MaxAttempts (norm d) = nd_MaxAttempts d ∧ nd_NextAttemptAt (norm d) = nd_NextAttemptAt d ∧
  nd_ClaimedAt (norm d) = nd_ClaimedAt d ∧ nd_ClaimExpiresAt (norm d) = nd_ClaimExpiresAt d ∧
  nd_ClaimedBy (norm d) = nd_ClaimedBy d.
Proof.
  pose proof (wn_fields d Hd) as H. unfold progress_fields in H.
  generalize dependent (norm d). intros x H. split_and!; congruence.
Qed.

Lemma wn_attempts : 0 ≤ nd_Attempts d ≤ nd_MaxAttempts d.
Proof.
  pose proof (wn_valid d Hd) as H. notif_check_at H 0%nat. notif_check_at H 2%nat.
  pose proof (wn_fields d Hd) as E. unfold progress_fields in E.
  replace (nd_Attempts (norm d)) with (nd_Attempts d) in * by congruence.
  replace (nd_MaxAttempts (norm d)) with (nd_MaxAttempts d) in * by congruence.
  bool_to_prop. lia.
Qed.

Lemma wn_retry :
  nd_Status d = NotificationDeliveryStatusRetryWaiting →
  nd_Attempts d < nd_MaxAttempts d ∧ is_Some (nd_NextAttemptAt d).
Proof.
  intros Hs. pose proof (wn_valid d Hd) as H. notif_check_at H 13%nat. notif_check_at H 14%nat.
  pose proof (wn_fields d Hd) as E. unfold progress_fields in E.
  replace (nd_Attempts (norm d)) with (nd_Attempts d) in * by congruence.
  replace (nd_MaxAttempts (norm d)) with (nd_MaxAttempts d) in * by congruence.
  replace (nd_NextAttemptAt (norm d)) with (nd_NextAttemptAt d) in * by congruence.
  rewrite wn_norm_status, Hs in *. change (bool_decide _) with true in *. cbn [andb] in *.
  destruct (nd_NextAttemptAt d); [|done]. apply Z.leb_gt in C. eauto.
Qed.

(** A delivery that has not ended was not sent. *)
Lemma wn_unsent :
  NotificationDelivery_IsTerminal (norm d) = false →
  nd_SentAt (norm d) = None ∧
  set_and_invalid NotificationDeliveryFailureCategory_IsValid (nd_FailureCategory (norm d)) = false.
Proof.
  intros Ht. pose proof (wn_valid d Hd) as H. notif_check_at H 4%nat. notif_check_at H 5%nat.
  split; [|done]. unfold NotificationDelivery_IsTerminal in Ht.
  apply orb_false_iff in Ht as [[Ht _]%orb_false_iff _]. rewrite Ht in C0.
  destruct (nd_SentAt (norm d)); [done|reflexivity].
Qed.

Lemma wn_progress_norm : notif_progress (norm d) = notif_progress d.
Proof. apply notif_progress_fields, Hd. Qed.

Lemma notif_progress_ok : progress_ok (notif_progress d).
Proof.
  split; [apply wn_attempts|]. unfold notif_progress, notif_phase. simpl.
  pose proof (wn_valid d Hd) as H. case_bool_decide as Hn1; simpl; [done|].
  case_bool_decide as Hs; simpl.
  { destruct (wn_sending d Hd Hs) as (o&t&u&_&->&->&_&Ht). simpl. split; [lia|].
    notif_check_at H 17%nat. rewrite wn_norm_status, Hs in C. change (bool_decide _) with true in C.
    cbn [andb] in C. apply Z.ltb_ge in C. change (nd_Attempts (norm d)) with (nd_Attempts d) in C. lia. }
  case_bool_decide as Hs2; simpl; [by apply wn_retry|]. case_bool_decide as Hn3; simpl; [done|].
  case_bool_decide as Hn4; simpl; [done|].
  notif_check_at H 3%nat. notif_check_at H 22%nat. rewrite wn_norm_status in *.
  assert (Hx : nd_Status d = NotificationDeliveryStatusFailedExhausted).
  { unfold NotificationDeliveryStatus_IsValid in C. rewrite !bool_decide_eq_false_2 in C by done.
    apply negb_false_iff in C. by apply bool_decide_eq_true in C. }
  rewrite Hx in C0. change (bool_decide _) with true in C0. cbn [andb] in C0.
  apply negb_false_iff, Z.eqb_eq in C0.
  pose proof (wn_fields d Hd) as E. unfold progress_fields in E. congruence.
Qed.

Lemma wn_sending_attempts : nd_Status d = NotificationDeliveryStatusSending → 1 ≤ nd_Attempts d.
Proof.
  intros Hs. destruct (wn_sending d Hd Hs) as (o&t&u&E1&E2&E3&_).
  destruct notif_progress_ok as [_ Hp]. unfold notif_progress, notif_phase in Hp.
  rewrite bool_decide_eq_false_2 in Hp by (by rewrite Hs).
  rewrite bool_decide_eq_true_2 in Hp by done. by destruct Hp.
Qed.
End wf.
