(* ===== verification/NotifViews.v ===== *)
(** What a claim and an outcome do to a notification delivery: they keep it
    well-formed, keep whom it is for, and move its progress by one rule of
    DeliverySpec.v. *)

From stdpp Require Import base gmap strings list pretty sorting numbers.
From S2P Require Import Prelude GoLib GoPath GoText Domain DeliverySpec ScmDelivery ScmRepo ScmFacts.
From S2P Require Import ScmViews NotifDelivery NotifRepo NotifFacts.

Open Scope go_scope.
Open Scope Z_scope.

Implicit Types (d : NotificationDelivery).

Local Abbreviation norm := NotificationDelivery_Normalize.

Lemma norm_progress_fields d :
  progress_fields (norm d) =
  (TrimSpace (nd_Status d), nd_Attempts d, maxNotificationAttempts (nd_MaxAttempts d),
   normalizeSCMOptionalTime (nd_NextAttemptAt d),
   (normalizeSCMOptionalTime (nd_ClaimedAt d), normalizeSCMOptionalTime (nd_ClaimExpiresAt d),
    trimSCMOptionalString (nd_ClaimedBy d))).
Proof. reflexivity. Qed.

Lemma maxNotificationAttempts_id n : 0 < n → maxNotificationAttempts n = n.
Proof. intros. unfold maxNotificationAttempts. by rewrite (proj2 (Z.leb_gt _ _)). Qed.

(** The checks look at these fields only. *)
Lemma checks_fields d status n m next at_ until by_ category sent :
  progress_fields d = (status, n, m, next, (at_, until, by_)) →
  nd_FailureCategory d = category → nd_SentAt d = sent →
  notificationDeliveryChecks d = notificationDeliveryChecks
    (zero_NotificationDelivery <| nd_Status := status |> <| nd_Attempts := n |>
       <| nd_MaxAttempts := m |> <| nd_NextAttemptAt := next |> <| nd_ClaimedAt := at_ |>
       <| nd_ClaimExpiresAt := until |> <| nd_ClaimedBy := by_ |>
       <| nd_FailureCategory := category |> <| nd_SentAt := sent |>).
Proof.
  unfold progress_fields. intros [= E1 E2 E3 E4 E5 E6 E7] E8 E9.
  unfold notificationDeliveryChecks, NotificationDelivery_IsTerminal. cbv zeta.
  by rewrite E1, E2, E3, E4, E5, E6, E7, E8, E9.
Qed.

(** The checks one by one. *)
Ltac solve_checks :=
  repeat (apply Forall_cons_2; [first [reflexivity | assumption
    | cbn; apply Z.ltb_ge; lia | cbn; apply Z.leb_gt; lia
    | cbn; rewrite ?(proj2 (Z.ltb_ge _ _)) by lia; reflexivity
    | cbn; rewrite ?(proj2 (Z.leb_gt _ _)) by lia; reflexivity
    | cbn; unfold After; rewrite (proj2 (Z.ltb_lt _ _)) by lia; reflexivity
    | cbn; rewrite (proj2 (Z.eqb_eq _ _)) by lia; reflexivity] |]); try apply Forall_nil_2.

(** ** Claims *)

Section claims.
Context (now : Time) (owner : string) (duration : Z) (Hclaim : claim_ok now owner duration).

Local Abbreviation reclaimed d := (reclaimedNotification (norm d) now owner duration).

Lemma reclaimed_fields d :
  progress_fields (reclaimed d) =
    (NotificationDeliveryStatusSending, int64_add (nd_Attempts (norm d)) 1, nd_MaxAttempts (norm d),
     None, (Some now, Some (now + duration), Some owner)) ∧
  addressee (reclaimed d) = addressee (norm d) ∧ nd_ID (reclaimed d) = nd_ID d ∧
  nd_FailureCategory (reclaimed d) = nd_FailureCategory (norm d) ∧
  nd_SentAt (reclaimed d) = nd_SentAt (norm d).
Proof. by split_and!. Qed.

(** A claim, first or not, as the store keeps it. *)
Lemma wf_notification_claimed d n m :
  progress_fields d =
    (NotificationDeliveryStatusSending, n, m, None, (Some now, Some (now + duration), Some owner)) →
  0 < m ≤ max_int64 → addressee (norm d) = addressee d →
  NotificationDelivery_Validate d = None →
  wf_notification d ∧ notif_progress d = mkProgress (Sending owner now (now + duration)) n m.
Proof.
  destruct Hclaim as [Hnow [Ho Ht] Hdur]. intros E Hm Ha Hv.
  pose proof E as E'. unfold progress_fields in E'. injection E' as E1 E2 E3 E4 E5 E6 E7.
  assert (Eg : notif_progress d = mkProgress (Sending owner now (now + duration)) n m).
  { unfold notif_progress, notif_phase. by rewrite E1, E2, E3, E5, E6, E7. }
  split; [|done]. split; [done|done| |by rewrite E3| |].
  - rewrite norm_progress_fields, E, E1, E2, E3, E4, E5, E6, E7, maxNotificationAttempts_id,
      trim_optional_id, !time_optional_id by (done || lia). reflexivity.
  - apply (f_equal pg_phase) in Eg. cbn in Eg. by rewrite Eg.
  - intros _. exists owner, now, (now + duration). split_and!; [done..|lia].
Qed.

Lemma reclaimed_valid d :
  wf_notification d → NotificationDelivery_IsTerminal (norm d) = false →
  nd_Attempts d < nd_MaxAttempts d → NotificationDelivery_Validate (reclaimed d) = None.
Proof.
  intros Hd Hterm Hn. destruct (reclaimed_fields d) as (E&Ea&_&Ec&Es).
  destruct (wn_unsent d Hd Hterm) as [Hsent Hcat]. pose proof (wn_max d Hd) as Hm.
  pose proof (wn_attempts d Hd) as Hn0. pose proof (wn_valid d Hd) as Hv.
  destruct Hclaim as [Hnow [Ho Ht] Hdur].
  destruct (wn_norm d Hd) as (_&F1&F2&_). rewrite F1, F2 in E.
  rewrite int64_add_id in E by (unfold is_int64, min_int64; lia).
  set (d' := reclaimed d) in *. clearbody d'. apply notif_valid_iff. split.
  - rewrite (ValidateIdentity_addressee _ (norm d)); [by apply notif_valid_iff in Hv as [Hv _]|].
    rewrite (notif_norm_same _ _ Ea). apply addressee_norm_norm.
  - rewrite (checks_fields (norm d') NotificationDeliveryStatusSending (nd_Attempts d + 1)
      (nd_MaxAttempts d) None (Some now) (Some (now + duration)) (Some owner)
      (nd_FailureCategory (norm d)) None).
    + solve_checks.
    + rewrite norm_progress_fields. unfold progress_fields in E. injection E as -> -> -> -> -> -> ->.
      rewrite maxNotificationAttempts_id, trim_optional_id, !time_optional_id by (done || lia). reflexivity.
    + change (trimNotificationOptionalString (nd_FailureCategory d') = nd_FailureCategory (norm d)).
      rewrite Ec. apply trim_optional_idemp.
    + change (normalizeNotificationOptionalTime (nd_SentAt d') = None). by rewrite Es, Hsent.
Qed.

Lemma wf_reclaimed d :
  wf_notification d → NotificationDelivery_IsTerminal (norm d) = false →
  nd_Attempts d < nd_MaxAttempts d →
  wf_notification (reclaimed d) ∧
  notif_progress (reclaimed d) =
    mkProgress (Sending owner now (now + duration)) (nd_Attempts d + 1) (nd_MaxAttempts d) ∧
  addressee (reclaimed d) = addressee d ∧ nd_ID (reclaimed d) = nd_ID d.
Proof.
  intros Hd Hterm Hn. pose proof (reclaimed_valid d Hd Hterm Hn) as Hv.
  destruct (reclaimed_fields d) as (E&Ea&Ei&_).
  pose proof (wn_attempts d Hd). pose proof (wn_max d Hd).
  destruct (wn_norm d Hd) as (_&F1&F2&_). rewrite F1, F2, int64_add_id in E by (unfold is_int64, min_int64; lia).
  set (d' := reclaimed d) in *. clearbody d'.
  assert (Hn' : addressee (norm d') = addressee d') by (by rewrite (notif_norm_same _ _ Ea), addressee_norm_norm).
  destruct (wf_notification_claimed d' _ _ E) as [Hw Hg]; [done..|].
  split_and!; [done..| |done]. rewrite Ea. apply Hd.
Qed.

(** The first claim. *)
Lemma wf_claimed_new newID i max_ :
  0 < max_ ≤ max_int64 →
  let d := claimedNotification newID (norm i) now owner duration max_ in
  NotificationDelivery_Validate d = None →
  wf_notification d ∧ notif_progress d = mkProgress (Sending owner now (now + duration)) 1 max_ ∧
  addressee d = addressee (norm i) ∧
  nd_ID d = (if TrimSpace (nd_ID i) == "" then newID else nd_ID i).
Proof.
  intros Hm. cbv zeta. intros Hv.
  assert (E : progress_fields (claimedNotification newID (norm i) now owner duration max_) =
    (NotificationDeliveryStatusSending, 1, max_, None, (Some now, Some (now + duration), Some owner)) ∧
    addressee (claimedNotification newID (norm i) now owner duration max_) = addressee (norm i) ∧
    nd_ID (claimedNotification newID (norm i) now owner duration max_) =
      (if TrimSpace (nd_ID i) == "" then newID else nd_ID i)).
  { unfold claimedNotification. cbv zeta. change (nd_ID (norm i)) with (nd_ID i).
    destruct (TrimSpace (nd_ID i) == ""), (IsZero _); by split_and!. }
  destruct E as (E1&E2&E3).
  destruct (wf_notification_claimed _ _ _ E1 Hm) as [Hw Hg]; [|done|done].
  by rewrite (notif_norm_same _ _ E2), addressee_norm_norm.
Qed.

(** What a claim is answered. *)
Lemma claimNotification_cases d :
  wf_notification d → zero_time < now →
  let x := claimNotificationDelivery d now owner duration in
  if claims_notification x.2
  then x.1 = reclaimed d ∧ NotificationDelivery_IsTerminal (norm d) = false ∧
       nd_Attempts d < nd_MaxAttempts d ∧ claimable (notif_phase d) now
  else x.1 = norm d ∧
       (nd_Attempts d < nd_MaxAttempts d → ¬ claimable (notif_phase d) now).
Proof.
  intros Hd Hnow. cbv zeta. unfold claimNotificationDelivery. cbv zeta.
  destruct (wn_norm d Hd) as (F1&F2&F3&F4&F5&F6&F7).
  unfold NotificationDelivery_IsTerminal, NotificationDeliveryClaimOutcomeFromExisting, notif_phase.
  pose proof (wn_status d Hd) as Hp. pose proof (wn_sending d Hd) as Hs. pose proof (wn_retry d Hd) as Hr.
  revert Hp Hs Hr. unfold notif_phase. rewrite F1, F2, F3, F4, F6.
  generalize (reclaimed d), (norm d), (nd_Status d), (nd_ClaimedBy d), (nd_ClaimedAt d),
    (nd_ClaimExpiresAt d), (nd_NextAttemptAt d), (nd_Attempts d), (nd_MaxAttempts d).
  clear. intros x y s b a u n at_ m Hp Hs Hr. unfold Before.
  repeat case_bool_decide; subst; cbn in *; try done;
    destruct (Z.leb_spec m at_); cbn; try (split; [done|lia]); try done.
  - destruct Hs as (o&t&v&->&->&->&_&Hv); [done|]. cbn. destruct (Z.ltb_spec now v); cbn; split_and!; (done || lia).
  - destruct Hr as [Hr [v ->]]; [done|]. cbn. destruct (Z.ltb_spec now v); cbn; split_and!; (done || lia).
Qed.
End claims.

(** ** Outcomes *)

Lemma notification_matches d owner at_ :
  wf_notification d → notificationDeliveryClaimMatches d owner at_ = true →
  nd_Status d = NotificationDeliveryStatusSending ∧ nd_ClaimedBy d = Some owner ∧
  nd_ClaimedAt d = Some at_.
Proof.
  intros Hd. unfold notificationDeliveryClaimMatches. case_bool_decide as Hs; [|done]. simpl.
  destruct (wn_sending d Hd Hs) as (o&t&u&->&->&_&Ho&_). rewrite Ho.
  intros [->%bool_decide_eq_true ->%Z.eqb_eq]%andb_true_iff. done.
Qed.

(** An update that is valid and gives the claim up. *)
Lemma wf_given_up d d' :
  wf_notification d → NotificationDelivery_Validate d' = None → addressee d' = addressee d →
  (nd_Status d' = NotificationDeliveryStatusRetryWaiting ∨
   nd_Status d' = NotificationDeliveryStatusSent ∨
   nd_Status d' = NotificationDeliveryStatusFailedPermanent ∨
   nd_Status d' = NotificationDeliveryStatusFailedExhausted) →
  nd_ClaimedBy d' = None ∧ nd_ClaimedAt d' = None ∧ nd_ClaimExpiresAt d' = None →
  normalizeNotificationOptionalTime (nd_NextAttemptAt d') = nd_NextAttemptAt d' →
  nd_MaxAttempts d' = nd_MaxAttempts d → wf_notification d'.
Proof.
  intros Hd Hv Ha Hs (E1&E2&E3) En Em. pose proof (wn_max d Hd). split; [done|..].
  - rewrite (notif_norm_same _ _ Ha), Ha. apply Hd.
  - rewrite norm_progress_fields. unfold progress_fields.
    rewrite E1, E2, E3, maxNotificationAttempts_id by (rewrite Em; lia).
    rewrite <-notif_time_optional, En. by destruct Hs as [->|[->|[->| ->]]].
  - by rewrite Em.
  - unfold notif_phase. by destruct Hs as [->|[->|[->| ->]]].
  - by destruct Hs as [->|[->|[->| ->]]].
Qed.

Lemma sent_notification_step d t :
  wf_notification d → nd_Status d = NotificationDeliveryStatusSending →
  NotificationDelivery_Validate (sentNotification t d) = None →
  wf_notification (sentNotification t d) ∧
  notif_progress (sentNotification t d) = mkProgress Sent (nd_Attempts d) (nd_MaxAttempts d) ∧
  addressee (sentNotification t d) = addressee d ∧ nd_ID (sentNotification t d) = nd_ID d ∧
  progress_step (notif_progress d) (notif_progress (sentNotification t d)).
Proof.
  intros Hd Hs Hv. split_and!; try reflexivity.
  - eapply wf_given_up; [exact Hd|exact Hv|reflexivity|by right; left|by split_and!|reflexivity|reflexivity].
  - unfold notif_progress at 1, notif_phase. rewrite Hs. apply ps_sent.
Qed.

(** Sending is recorded whenever it is reported. *)
Lemma sent_notification_valid d t :
  wf_notification d → nd_Status d = NotificationDeliveryStatusSending → zero_time < t →
  NotificationDelivery_Validate (sentNotification t d) = None.
Proof.
  intros Hd Hs Ht. pose proof (wn_max d Hd). pose proof (wn_attempts d Hd).
  pose proof (wn_valid d Hd) as Hv. apply notif_valid_iff. split.
  - rewrite (ValidateIdentity_addressee _ (norm d)); [by apply notif_valid_iff in Hv as [Hv _]|].
    by apply notif_norm_same.
  - pose proof (wn_sending_attempts d Hd Hs).
    rewrite (checks_fields _ NotificationDeliveryStatusSent (nd_Attempts d) (nd_MaxAttempts d) None None
      None None None (Some t)).
    + solve_checks.
    + rewrite norm_progress_fields. change (nd_MaxAttempts (sentNotification t d)) with (nd_MaxAttempts d).
      by rewrite maxNotificationAttempts_id by lia.
    + reflexivity.
    + change (normalizeSCMOptionalTime (Some t) = Some t). by apply time_optional_id.
Qed.

(** The statuses of a failure, with the category each requires. *)
Inductive notif_failure : NotificationDeliveryStatus → NotificationDeliveryFailureCategory → Prop :=
  | failure_retry : notif_failure NotificationDeliveryStatusRetryWaiting
      NotificationDeliveryFailureCategoryRetryable
  | failure_permanent : notif_failure NotificationDeliveryStatusFailedPermanent
      NotificationDeliveryFailureCategoryPermanent
  | failure_exhausted : notif_failure NotificationDeliveryStatusFailedExhausted
      NotificationDeliveryFailureCategoryRetryable.

Definition failure_attempts (status : NotificationDeliveryStatus) d : Z :=
  if status == NotificationDeliveryStatusFailedExhausted then nd_MaxAttempts d else nd_Attempts d.

Lemma failed_notification_fields input status d :
  wf_notification d →
  let d' := failedNotification input status d in
  progress_fields d' = (status, failure_attempts status d, nd_MaxAttempts d,
    (if status == NotificationDeliveryStatusRetryWaiting
     then normalizeNotificationOptionalTime (nfi_NextAttemptAt input) else None), (None, None, None)) ∧
  addressee d' = addressee d ∧ nd_ID d' = nd_ID d ∧ nd_SentAt d' = nd_SentAt d ∧
  nd_FailureCategory d' = Some (nfi_FailureCategory input).
Proof.
  intros Hd. pose proof (wn_attempts d Hd). cbv zeta. unfold failedNotification, failure_attempts. cbv zeta.
  destruct (bool_decide_reflect (status = NotificationDeliveryStatusRetryWaiting)) as [->|Hr]; cbn [negb].
  { by split_and!. }
  destruct (bool_decide_reflect (status = NotificationDeliveryStatusFailedExhausted)); cbn [andb].
  - match goal with |- context [if ?b then _ else _] =>
      change b with (nd_Attempts d <? nd_MaxAttempts d) end.
    destruct (Z.ltb_spec (nd_Attempts d) (nd_MaxAttempts d)); [by split_and!|].
    replace (nd_MaxAttempts d) with (nd_Attempts d) at 1 by lia. by split_and!.
  - by split_and!.
Qed.

Lemma failed_notification_step input status d :
  wf_notification d → nd_Status d = NotificationDeliveryStatusSending →
  status = NotificationDeliveryStatusRetryWaiting ∨
    status = NotificationDeliveryStatusFailedPermanent ∨
    status = NotificationDeliveryStatusFailedExhausted →
  let d' := failedNotification input status d in
  NotificationDelivery_Validate d' = None →
  wf_notification d' ∧ addressee d' = addressee d ∧ nd_ID d' = nd_ID d ∧
  progress_step (notif_progress d) (notif_progress d').
Proof.
  intros Hd Hs Hst. cbv zeta. intros Hv.
  destruct (failed_notification_fields input status d Hd) as (E&Ea&Ei&_&_).
  pose proof (wn_sending d Hd Hs) as (o&t&u&E1&E2&E3&_).
  assert (Ep : notif_progress d = mkProgress (Sending o t u) (nd_Attempts d) (nd_MaxAttempts d)).
  { unfold notif_progress, notif_phase. by rewrite Hs, E1, E2, E3. }
  set (d' := failedNotification input status d) in *. clearbody d'.
  unfold progress_fields in E. injection E as F1 F2 F3 F4 F5 F6 F7.
  assert (Hw : wf_notification d').
  { eapply wf_given_up; [exact Hd|done|done| |done| |done].
    - rewrite F1. destruct Hst as [->|[->| ->]]; auto.
    - rewrite F4. case_bool_decide; [|done]. apply time_optional_idemp. }
  split_and!; [done..|]. rewrite Ep. pose proof (wn_retry d' Hw) as Hr.
  unfold notif_progress, notif_phase, failure_attempts in *. rewrite F1, F2, F3 in *.
  destruct Hst as [->|[->| ->]]; cbn in *; [apply ps_retry|apply ps_permanent|apply ps_exhausted].
  by apply Hr.
Qed.

(** A fitting failure is recorded whenever it is reported. *)
Lemma failed_notification_valid input status d :
  wf_notification d → nd_Status d = NotificationDeliveryStatusSending →
  notif_failure status (nfi_FailureCategory input) →
  (status = NotificationDeliveryStatusRetryWaiting →
   nd_Attempts d < nd_MaxAttempts d ∧ ∃ t, nfi_NextAttemptAt input = Some t ∧ zero_time < t) →
  NotificationDelivery_Validate (failedNotification input status d) = None.
Proof.
  intros Hd Hs Hf Hr. destruct (failed_notification_fields input status d Hd) as (E&Ea&_&Es&Ec).
  pose proof (wn_valid d Hd) as Hv. pose proof (wn_max d Hd). pose proof (wn_attempts d Hd).
  destruct (wn_unsent d Hd) as [Esent _].
  { unfold NotificationDelivery_IsTerminal. by rewrite (wn_norm_status d Hd), Hs. }
  set (d' := failedNotification input status d) in *. clearbody d'. apply notif_valid_iff. split.
  { rewrite (ValidateIdentity_addressee _ (norm d)); [by apply notif_valid_iff in Hv as [Hv _]|].
    by apply notif_norm_same. }
  assert (Es' : nd_SentAt (norm d') = None).
  { change (normalizeNotificationOptionalTime (nd_SentAt d') = None). by rewrite Es. }
  assert (En : (if status == NotificationDeliveryStatusRetryWaiting
     then normalizeNotificationOptionalTime (nfi_NextAttemptAt input) else None) =
    if status == NotificationDeliveryStatusRetryWaiting then nfi_NextAttemptAt input else None).
  { case_bool_decide as Hst; [|done]. destruct (Hr Hst) as [_ (t&->&Ht)].
    change (normalizeSCMOptionalTime (Some t) = Some t). by apply time_optional_id. }
  assert (En' : normalizeSCMOptionalTime
     (if status == NotificationDeliveryStatusRetryWaiting then nfi_NextAttemptAt input else None) =
     if status == NotificationDeliveryStatusRetryWaiting then nfi_NextAttemptAt input else None).
  { rewrite <-En. case_bool_decide; [|done]. apply time_optional_idemp. }
  rewrite En in E. unfold progress_fields in E. injection E as F1 F2 F3 F4 F5 F6 F7.
  rewrite (checks_fields (norm d') status (failure_attempts status d) (nd_MaxAttempts d)
    (if status == NotificationDeliveryStatusRetryWaiting then nfi_NextAttemptAt input else None)
    None None None (Some (nfi_FailureCategory input)) None).
  - clear -Hf Hr H H0. unfold failure_attempts.
    assert (Hb : ∀ s, bool_decide (s = s :> string) = true) by (intros; by apply bool_decide_eq_true_2).
    destruct Hf; rewrite ?Hb.
    + destruct (Hr eq_refl) as [Hn (t&->&_)].
      change (bool_decide (NotificationDeliveryStatusRetryWaiting = NotificationDeliveryStatusFailedExhausted))
        with false. cbv iota. solve_checks.
    + change (bool_decide (NotificationDeliveryStatusFailedPermanent = NotificationDeliveryStatusFailedExhausted))
        with false.
      change (bool_decide (NotificationDeliveryStatusFailedPermanent = NotificationDeliveryStatusRetryWaiting))
        with false. cbv iota. solve_checks.
    + change (bool_decide (NotificationDeliveryStatusFailedExhausted = NotificationDeliveryStatusRetryWaiting))
        with false. cbv iota. solve_checks.
  - rewrite norm_progress_fields, F1, F2, F3, F4, F5, F6, F7, En', maxNotificationAttempts_id by lia.
    by destruct Hf.
  - change (trimSCMOptionalString (nd_FailureCategory d') = Some (nfi_FailureCategory input)).
    rewrite Ec. by destruct Hf.
  - done.
Qed.
