(* ===== verification/NotifThms.v ===== *)
(** The store of notifications refines DeliverySpec.v: every call an interface
    allows for moves a delivery by one rule, and keeps whom it is for. *)

From stdpp Require Import base gmap strings list pretty sorting numbers.
From S2P Require Import Prelude GoLib GoPath GoText Domain DeliverySpec ScmDelivery ScmRepo ScmFacts.
From S2P Require Import ScmViews NotifDelivery NotifRepo NotifFacts NotifViews.

Open Scope go_scope.
Open Scope Z_scope.

Implicit Types (d : NotificationDelivery) (r : NotificationDeliveryRepository).

Local Abbreviation norm := NotificationDelivery_Normalize.

(** ** The calls of the interface *)

Inductive NotifCall :=
  | CallClaim (newID : string) (input : NotificationDeliveryClaimInput)
  | CallSent (input : NotificationDeliveryMarkSentInput)
  | CallRetryable (input : NotificationDeliveryRecordFailureInput)
  | CallPermanent (input : NotificationDeliveryRecordFailureInput)
  | CallExhausted (input : NotificationDeliveryRecordFailureInput).

Definition run_notif (c : NotifCall) r : NotificationDeliveryRepository :=
  match c with
  | CallClaim newID input => (NotificationDeliveryRepository_AcquireForDelivery newID input r).1
  | CallSent input => (NotificationDeliveryRepository_MarkSent input r).1
  | CallRetryable input => (NotificationDeliveryRepository_RecordRetryableFailure input r).1
  | CallPermanent input => (NotificationDeliveryRepository_RecordPermanentFailure input r).1
  | CallExhausted input => (NotificationDeliveryRepository_RecordExhaustedFailure input r).1
  end.

(** A claim is requested at an instant after the year 1, without an identifier;
    the one that is drawn is new. *)
Definition notif_guard (c : NotifCall) r : Prop :=
  match c with
  | CallClaim newID input =>
      zero_time < nci_Now input ∧ nci_MaxAttempts input ≤ max_int64 ∧
      TrimSpace (nd_ID (nci_Delivery input)) = "" ∧
      TrimSpace newID = newID ∧ newID ≠ "" ∧ nr_deliveries r !! newID = None
  | _ => True
  end.

Definition notif_step r r' : Prop := ∃ c, notif_guard c r ∧ r' = run_notif c r.

Definition notif_reachable r : Prop := rtc notif_step NewNotificationDeliveryRepository r.

(** ** The invariant of the store *)

Record notif_ok r : Prop := {
  no_delivery id d : nr_deliveries r !! id = Some d →
    nd_ID d = id ∧ TrimSpace id = id ∧ id ≠ "" ∧ wf_notification d ∧
    nr_index r !! logicalKey d = Some id;
  no_index key id : nr_index r !! key = Some id →
    ∃ d, nr_deliveries r !! id = Some d ∧ logicalKey d = key;
}.

(** Whom the delivery of a key is for, and where it stands. *)
Definition notif_view r (key : string) :=
  id ← nr_index r !! key;
  d ← nr_deliveries r !! id;
  Some (addressee d, notif_progress d).

Lemma notif_view_lookup r id d :
  notif_ok r → nr_deliveries r !! id = Some d →
  notif_view r (logicalKey d) = Some (addressee d, notif_progress d).
Proof.
  intros Hr Hl. destruct (no_delivery r Hr _ _ Hl) as (_&_&_&_&Hi).
  unfold notif_view. rewrite Hi. simpl. by rewrite Hl.
Qed.

Lemma notif_view_new r key :
  notif_ok r → nr_index r !! key = None → notif_view r key = None.
Proof. intros _ H. unfold notif_view. by rewrite H. Qed.

(** What a call does: nothing, or it writes one delivery. *)
Inductive writes r : NotificationDeliveryRepository → NotificationDelivery → Prop :=
  | writes_old id d d' r' :
      nr_deliveries r !! id = Some d → wf_notification d' → nd_ID d' = nd_ID d →
      addressee d' = addressee d → progress_step (notif_progress d) (notif_progress d') →
      r' = storeNotification r id d' → writes r r' d'
  | writes_new d r' :
      nr_index r !! logicalKey d = None → nr_deliveries r !! nd_ID d = None →
      TrimSpace (nd_ID d) = nd_ID d → nd_ID d ≠ "" → wf_notification d →
      first_claim (notif_progress d) → r' = indexNotification (logicalKey d) d r → writes r r' d.

Lemma writes_ok r r' d : notif_ok r → writes r r' d → notif_ok r'.
Proof.
  intros Hr [id d0 d' r1 Hl Hw Hi Ha _ ->|d' r1 Hk Hf Ht Hn Hw _ ->].
  - destruct (no_delivery r Hr _ _ Hl) as (Hid&Ht&Hn&_&Hx).
    split; cbn [storeNotification nr_deliveries nr_index].
    + intros id2 d2. rewrite lookup_insert_Some. intros [[<- <-]|[_ H2]]; [|by apply Hr].
      rewrite Hi, (logicalKey_addressee _ _ Ha). by split_and!.
    + intros key id2 H2. destruct (no_index r Hr _ _ H2) as (d2&Hd2&Hk).
      destruct (decide (id2 = id)) as [->|Hne].
      * exists d'. rewrite lookup_insert_eq. split; [done|]. rewrite (logicalKey_addressee _ _ Ha).
        congruence.
      * exists d2. by rewrite lookup_insert_ne.
  - split; cbn [indexNotification storeNotification nr_deliveries nr_index].
    + intros id2 d2. rewrite lookup_insert_Some. intros [[<- <-]|[Hne H2]].
      * split_and!; try done. apply lookup_insert_eq.
      * destruct (no_delivery r Hr _ _ H2) as (?&?&?&?&Hx). split_and!; try done.
        rewrite lookup_insert_ne; [done|]. intros E. rewrite <-E in Hx. congruence.
    + intros key id2. rewrite lookup_insert_Some. intros [[<- <-]|[Hne H2]].
      * exists d'. by rewrite lookup_insert_eq.
      * destruct (no_index r Hr _ _ H2) as (d2&Hd2&Hk2). exists d2.
        rewrite lookup_insert_ne; [done|]. intros E. rewrite <-E in Hd2. congruence.
Qed.

(** Only the delivery that was written is seen to change. *)
Lemma writes_view r r' d key :
  notif_ok r → writes r r' d →
  match notif_view r key, notif_view r' key with
  | Some v, Some v' => v'.1 = v.1 ∧ (v' = v ∨ progress_step v.2 v'.2)
  | None, Some v' => first_claim v'.2
  | None, None => True
  | Some _, None => False
  end.
Proof.
  intros Hr Hw. pose proof (writes_ok _ _ _ Hr Hw) as Hr'.
  destruct (decide (key = logicalKey d)) as [->|Hne].
  - destruct Hw as [id d0 d' r1 Hl Hw Hi Ha Hp E|d' r1 Hk Hf Ht Hn Hw Hp E].
    + assert (E' : nr_deliveries r1 !! id = Some d') by (rewrite E; apply lookup_insert_eq).
      rewrite (notif_view_lookup r1 id d' Hr' E').
      rewrite (logicalKey_addressee _ _ Ha), (notif_view_lookup r id d0 Hr Hl). simpl. auto.
    + assert (E' : nr_deliveries r1 !! nd_ID d' = Some d') by (rewrite E; apply lookup_insert_eq).
      rewrite (notif_view_lookup r1 (nd_ID d') d' Hr' E').
      unfold notif_view. by rewrite Hk.
  - assert (E : notif_view r' key = notif_view r key); [|rewrite E; destruct (notif_view r key); auto].
    destruct Hw as [id d0 d' r1 Hl Hw Hi Ha Hp ->|d' r1 Hk Hf Ht Hn Hw Hp ->]; unfold notif_view;
      cbn [indexNotification storeNotification nr_deliveries nr_index].
    + destruct (nr_index r !! key) as [id2|] eqn:E2; simpl; [|done].
      rewrite lookup_insert_ne; [done|]. intros <-. destruct (no_index r Hr _ _ E2) as (d2&Hd2&Hk2).
      rewrite (logicalKey_addressee _ _ Ha) in Hne. congruence.
    + rewrite lookup_insert_ne by done. destruct (nr_index r !! key) as [id2|] eqn:E2; simpl; [|done].
      rewrite lookup_insert_ne; [done|]. intros <-. destruct (no_index r Hr _ _ E2) as (d2&Hd2&_).
      congruence.
Qed.

(** ** Claims *)

Definition claimed_outcome (o : NotificationDeliveryClaimOutcome) : bool :=
  (o == NotificationDeliveryClaimOutcomeCreatedClaimed) || claims_notification o.

Lemma notif_claim_input input x :
  normalizeNotificationClaimInput input = inl x →
  x = (norm (nci_Delivery input), nci_Now input, TrimSpace (nci_ClaimOwner input), nci_ClaimDuration input) ∧
  NotificationDelivery_ValidateIdentity (norm (nci_Delivery input)) = None ∧
  TrimSpace (nci_ClaimOwner input) ≠ "" ∧ 0 < nci_ClaimDuration input ∧ 0 < nci_MaxAttempts input.
Proof.
  unfold normalizeNotificationClaimInput. cbv zeta.
  destruct (NotificationDelivery_ValidateIdentity _); [done|]. destruct (IsZero _); [done|].
  case_bool_decide; [done|]. destruct (Z.leb_spec (nci_ClaimDuration input) 0); [done|].
  destruct (Z.leb_spec (nci_MaxAttempts input) 0); [done|]. intros [= <-]. done.
Qed.

(** A claim that was made. *)
Definition claim_made input d : Prop :=
  notif_phase d = Sending (TrimSpace (nci_ClaimOwner input)) (nci_Now input)
    (nci_Now input + nci_ClaimDuration input).

Lemma phase_of_progress d ph n m : notif_progress d = mkProgress ph n m → notif_phase d = ph.
Proof. unfold notif_progress. by intros [= ->]. Qed.

(** Only a new delivery is answered as created. *)
Lemma claim_not_created d now owner duration :
  (claimNotificationDelivery d now owner duration).2 ≠ NotificationDeliveryClaimOutcomeCreatedClaimed.
Proof.
  unfold claimNotificationDelivery, NotificationDeliveryClaimOutcomeFromExisting. cbv zeta.
  repeat case_match; done.
Qed.

(** A request for a claim is refused, answered without a claim for a delivery
    that is not due or has no attempts left, or it writes the claim. *)
Lemma claim_cases newID input r :
  notif_ok r → notif_guard (CallClaim newID input) r →
  let x := NotificationDeliveryRepository_AcquireForDelivery newID input r in
  (∃ err, x = (r, inr err)) ∨
  (∃ d, notif_view r (logicalKey (nci_Delivery input)) = Some (addressee d, notif_progress d) ∧
     (∃ id, nr_deliveries r !! id = Some d) ∧
     (nd_Attempts d < nd_MaxAttempts d → ¬ claimable (notif_phase d) (nci_Now input)) ∧
     ∃ o, x = (r, inl (mkNotificationDeliveryClaimResult (norm d) o)) ∧ claimed_outcome o = false) ∨
  (∃ d o, writes r x.1 d ∧ x.2 = inl (mkNotificationDeliveryClaimResult d o) ∧
     claimed_outcome o = true ∧ logicalKey d = logicalKey (nci_Delivery input) ∧ claim_made input d ∧
     nr_deliveries x.1 !! nd_ID d = Some d).
Proof.
  intros Hr (Hnow&Hmax&Hid&Ht&Hn&Hf). cbv zeta. unfold NotificationDeliveryRepository_AcquireForDelivery.
  destruct (normalizeNotificationClaimInput input) as [x|err] eqn:E; [|by left; eexists].
  apply notif_claim_input in E as (->&Hv&Ho&Hdur&Hpos). cbv zeta. rewrite logicalKey_norm.
  set (i := nci_Delivery input) in *. set (owner := TrimSpace (nci_ClaimOwner input)) in *.
  assert (Hc : claim_ok (nci_Now input) owner (nci_ClaimDuration input)).
  { split; [done|split; [done|apply TrimSpace_idemp]|done]. }
  destruct (nr_index r !! logicalKey i) as [id|] eqn:Ek.
  - right. destruct (no_index r Hr _ _ Ek) as (d&Hl&Hk).
    destruct (no_delivery r Hr _ _ Hl) as (Hid'&_&_&Hw&_).
    assert (Ed : notificationAt r id = d) by (unfold notificationAt; by rewrite Hl). rewrite Ed.
    pose proof (claim_not_created d (nci_Now input) owner (nci_ClaimDuration input)) as Hnew.
    pose proof (claimNotification_cases (nci_Now input) owner (nci_ClaimDuration input) d Hw Hnow) as Hcs.
    destruct (claimNotificationDelivery d (nci_Now input) owner (nci_ClaimDuration input)) as [d' o].
    cbn [fst snd] in Hcs, Hnew. destruct (claims_notification o) eqn:Eo.
    + right. destruct Hcs as (->&Hterm&Hlt&Hcl).
      destruct (wf_reclaimed (nci_Now input) owner (nci_ClaimDuration input) Hc d Hw Hterm Hlt)
        as (Hw'&Hp&Ha&Hi).
      set (d' := reclaimedNotification (norm d) _ _ _) in *. clearbody d'. exists d', o. split_and!.
      * eapply writes_old; [exact Hl|done..| |done]. rewrite Hp. by constructor.
      * done.
      * unfold claimed_outcome. by rewrite Eo, orb_true_r.
      * by rewrite (logicalKey_addressee _ _ Ha).
      * by apply phase_of_progress in Hp.
      * rewrite Hi, Hid'. apply lookup_insert_eq.
    + left. destruct Hcs as [-> Hcl]. exists d. split_and!; [|by eexists|done|].
      * rewrite <-Hk. by eapply notif_view_lookup.
      * exists o. split; [done|]. unfold claimed_outcome. rewrite Eo, orb_false_r.
        by apply bool_decide_eq_false_2.
  - set (d' := claimedNotification newID (norm i) (nci_Now input) owner (nci_ClaimDuration input) (nci_MaxAttempts input)).
    destruct (NotificationDelivery_Validate d') eqn:Ev; [by left; eexists|]. right; right.
    destruct (wf_claimed_new (nci_Now input) owner (nci_ClaimDuration input) Hc newID i (nci_MaxAttempts input))
      as (Hw&Hp&Ha&Hi); [done|done|]. fold d' in Hw, Hp, Ha, Hi. clearbody d'.
    rewrite bool_decide_eq_true_2 in Hi by done.
    assert (Hkey : logicalKey d' = logicalKey i) by (by rewrite (logicalKey_addressee _ _ Ha), logicalKey_norm).
    exists d', NotificationDeliveryClaimOutcomeCreatedClaimed. split_and!; try done.
    + apply writes_new; rewrite ?Hkey, ?Hi; try done. rewrite Hp. by exists owner, (nci_Now input), (nci_ClaimDuration input), (nci_MaxAttempts input).
    + by apply phase_of_progress in Hp.
    + apply lookup_insert_eq.
Qed.

(** ** Outcomes *)

(** The delivery an outcome is for is stored, and its holder is the one that
    reports it. *)
Definition held_by d (id owner : string) (at_ : Time) r : Prop :=
  nr_deliveries r !! TrimSpace id = Some d ∧
  notificationDeliveryClaimMatches d (TrimSpace owner) at_ = true.

(** An outcome is refused, lost, or written. *)
Lemma outcome_cases r id owner at_ (f : NotificationDelivery → NotificationDelivery) :
  notif_ok r →
  (∀ d, wf_notification d → nd_Status d = NotificationDeliveryStatusSending →
     NotificationDelivery_Validate (f d) = None →
     wf_notification (f d) ∧ addressee (f d) = addressee d ∧ nd_ID (f d) = nd_ID d ∧
     progress_step (notif_progress d) (notif_progress (f d))) →
  let x := match nr_deliveries r !! TrimSpace id with
    | None => (r, inr ErrNotificationDeliveryNotFound)
    | Some current =>
        if negb (notificationDeliveryClaimMatches current (TrimSpace owner) at_)
        then (r, lostNotification current) else updateNotification (f current) r
    end in
  x.1 = r ∨ ∃ d, held_by d id owner at_ r ∧ writes r x.1 (f d) ∧
    x.1 = storeNotification r (TrimSpace id) (f d).
Proof.
  intros Hr Hf. cbv zeta. destruct (nr_deliveries r !! TrimSpace id) as [d|] eqn:El; [|by left].
  destruct (notificationDeliveryClaimMatches d (TrimSpace owner) at_) eqn:Em; [|by left].
  cbn [negb]. unfold updateNotification.
  destruct (NotificationDelivery_Validate (f d)) eqn:Ev; [by left|]. right.
  destruct (no_delivery r Hr _ _ El) as (Hid&_&_&Hw&_).
  destruct (notification_matches d _ _ Hw Em) as (Hs&_&_).
  destruct (Hf d Hw Hs Ev) as (Hw'&Ha&Hi&Hp). exists d. rewrite Hi, Hid. cbn [fst]. split_and!; try done.
  by eapply writes_old.
Qed.

Lemma failure_cases r input status :
  notif_ok r →
  status = NotificationDeliveryStatusRetryWaiting ∨
    status = NotificationDeliveryStatusFailedPermanent ∨
    status = NotificationDeliveryStatusFailedExhausted →
  (recordNotificationFailure input status r).1 = r ∨
  ∃ d, writes r (recordNotificationFailure input status r).1 d.
Proof.
  intros Hr Hs. destruct (outcome_cases r (nfi_DeliveryID input) (nfi_ClaimOwner input)
    (nfi_ClaimedAt input) (failedNotification input status) Hr) as [H|(d&_&H&_)]; [|by left|by right; eexists].
  intros d Hw Hst Hv. by apply failed_notification_step.
Qed.

(** Every call leaves the store or writes one delivery. *)
Lemma call_writes c r :
  notif_ok r → notif_guard c r → run_notif c r = r ∨ ∃ d, writes r (run_notif c r) d.
Proof.
  intros Hr Hg. destruct c as [newID input|input|input|input|input]; cbn [run_notif].
  - destruct (claim_cases newID input r Hr Hg) as [(err&->)|[(d&_&_&_&o&->&_)|(d&o&H&_)]]; eauto.
  - destruct (outcome_cases r (nmi_DeliveryID input) (nmi_ClaimOwner input) (nmi_ClaimedAt input)
      (sentNotification (nmi_SentAt input)) Hr) as [H|(d&_&H&_)]; [|by left|by right; eexists].
    intros d Hw Hs Hv. destruct (sent_notification_step d (nmi_SentAt input) Hw Hs Hv) as (?&_&?&?&?).
    by split_and!.
  - apply failure_cases; auto.
  - apply failure_cases; auto.
  - apply failure_cases; auto.
Qed.

(** ** Reachable stores *)

Lemma new_notif_ok : notif_ok NewNotificationDeliveryRepository.
Proof. split; intros ??; simpl; by rewrite lookup_empty. Qed.

Lemma notif_step_ok r r' : notif_ok r → notif_step r r' → notif_ok r'.
Proof.
  intros Hr (c&Hg&->). destruct (call_writes c r Hr Hg) as [->|[d Hw]]; [done|].
  by eapply writes_ok.
Qed.

Lemma notif_steps_ok r r' : notif_ok r → rtc notif_step r r' → notif_ok r'.
Proof. intros Hr H. induction H; eauto using notif_step_ok. Qed.

Lemma notif_reachable_ok r : notif_reachable r → notif_ok r.
Proof. apply notif_steps_ok, new_notif_ok. Qed.

(** What one step does to the delivery of a key. *)
Lemma notif_step_view r r' key :
  notif_ok r → notif_step r r' →
  match notif_view r key, notif_view r' key with
  | Some v, Some v' => v'.1 = v.1 ∧ (v' = v ∨ progress_step v.2 v'.2)
  | None, Some v' => first_claim v'.2
  | None, None => True
  | Some _, None => False
  end.
Proof.
  intros Hr (c&Hg&->). destruct (call_writes c r Hr Hg) as [->|[d Hw]].
  - destruct (notif_view r key); auto.
  - by eapply writes_view.
Qed.

(** A final delivery is not moved again. *)
Lemma notif_final_view r r' key v :
  notif_ok r → rtc notif_step r r' → notif_view r key = Some v → final (pg_phase v.2) = true →
  notif_view r' key = Some v.
Proof.
  intros Hr H. revert Hr. induction H as [|r r1 r2 H _ IH]; intros Hr Hv Hf; [done|].
  apply IH; [by eapply notif_step_ok| |done].
  pose proof (notif_step_view r r1 key Hr H) as Hs. rewrite Hv in Hs.
  destruct (notif_view r1 key) as [v1|]; [|done].
  destruct Hs as [_ [->|Hp]]; [done|]. apply progress_step_final in Hp. congruence.
Qed.

Lemma notif_view_inv r key a g :
  notif_ok r → notif_view r key = Some (a, g) →
  ∃ id d, nr_index r !! key = Some id ∧ nr_deliveries r !! id = Some d ∧ addressee d = a ∧
    notif_progress d = g ∧ logicalKey d = key ∧ wf_notification d.
Proof.
  intros Hr. unfold notif_view. destruct (nr_index r !! key) as [id|] eqn:Ek; [|done]. simpl.
  destruct (no_index r Hr _ _ Ek) as (d&Hl&Hk). rewrite Hl. simpl. intros [= <- <-].
  exists id, d. split_and!; try done. by apply (no_delivery r Hr _ _ Hl).
Qed.

(** A sent delivery, asked for again. *)
Lemma claim_sent d now owner duration :
  wf_notification d → notif_phase d = Sent →
  claimNotificationDelivery d now owner duration =
    (norm d, NotificationDeliveryClaimOutcomeAlreadySent).
Proof.
  intros Hw Hp. assert (Hs : nd_Status (norm d) = NotificationDeliveryStatusSent).
  { rewrite (wn_norm_status d Hw). revert Hp. unfold notif_phase. by repeat case_bool_decide. }
  unfold claimNotificationDelivery, NotificationDelivery_IsTerminal,
    NotificationDeliveryClaimOutcomeFromExisting. cbv zeta. by rewrite Hs.
Qed.

(** The holder of a claim, and nobody else, is believed. *)
Lemma sending_matches d o t u owner at_ :
  wf_notification d → notif_phase d = Sending o t u →
  nd_Status d = NotificationDeliveryStatusSending ∧
  notificationDeliveryClaimMatches d owner at_ = (o == owner) && (t =? at_).
Proof.
  intros Hw Hp. assert (Hs : nd_Status d = NotificationDeliveryStatusSending).
  { revert Hp. unfold notif_phase. by repeat case_bool_decide. }
  split; [done|]. destruct (wn_sending d Hw Hs) as (o'&t'&u'&E1&E2&E3&Ho&_).
  unfold notif_phase in Hp. rewrite Hs, E1, E2, E3 in Hp. injection Hp as -> -> ->.
  unfold notificationDeliveryClaimMatches. rewrite Hs, E1, E2. cbn. by rewrite Ho.
Qed.

(** An outcome that is written is what is then known of the key. *)
Lemma outcome_view r d d' :
  notif_ok r → nr_deliveries r !! nd_ID d = Some d → NotificationDelivery_Validate d' = None →
  wf_notification d' ∧ addressee d' = addressee d ∧ nd_ID d' = nd_ID d ∧
    progress_step (notif_progress d) (notif_progress d') →
  notif_view (updateNotification d' r).1 (logicalKey d) = Some (addressee d, notif_progress d').
Proof.
  intros Hr Hl Hv (Hw&Ha&Hi&Hp). unfold updateNotification. rewrite Hv, Hi. cbn [fst].
  assert (Hws : writes r (storeNotification r (nd_ID d) d') d') by (by eapply writes_old).
  rewrite <-Ha, <-(logicalKey_addressee _ _ Ha).
  eapply notif_view_lookup; [by eapply writes_ok|]. apply lookup_insert_eq.
Qed.

(** What a fitting failure makes of a delivery. *)
Lemma failed_progress input status d :
  wf_notification d → notif_failure status (nfi_FailureCategory input) →
  notif_progress (failedNotification input status d) =
    mkProgress
      (if status == NotificationDeliveryStatusRetryWaiting
       then RetryWaiting (default zero_time (normalizeNotificationOptionalTime (nfi_NextAttemptAt input)))
       else if status == NotificationDeliveryStatusFailedPermanent then FailedPermanent
       else FailedExhausted) (failure_attempts status d) (nd_MaxAttempts d).
Proof.
  intros Hw Hf. destruct (failed_notification_fields input status d Hw) as (E&_).
  set (d' := failedNotification input status d) in *. clearbody d'.
  unfold progress_fields in E. injection E as F1 F2 F3 F4 _ _ _.
  unfold notif_progress, notif_phase. rewrite F1, F2, F3, F4. by destruct Hf.
Qed.

(** ** The properties *)

(** C36: the store keeps one delivery for each event and destination, and moves
    it by the rules of DeliverySpec.v only: a call leaves what is known of a
    key, or claims a new delivery for the first time, or takes one step; whom a
    delivery is for never changes. *)
Theorem notification_store_refines_deliveries r r' key :
  notif_reachable r → notif_step r r' →
  match notif_view r key, notif_view r' key with
  | Some v, Some v' => v'.1 = v.1 ∧ (v' = v ∨ progress_step v.2 v'.2)
  | None, Some v' => first_claim v'.2
  | None, None => True
  | Some _, None => False
  end.
Proof. intros Hr. by apply notif_step_view, notif_reachable_ok. Qed.

(** C37: once a notification was recorded as sent, whatever the calls that
    follow, a request to deliver it again is answered that it was sent, and
    changes nothing: nobody is told to send it a second time. *)
Theorem sent_notification_is_final r r' a n m newID input x :
  notif_reachable r →
  notif_view r (logicalKey (nci_Delivery input)) = Some (a, mkProgress Sent n m) →
  rtc notif_step r r' → normalizeNotificationClaimInput input = inl x →
  ∃ d, NotificationDeliveryRepository_AcquireForDelivery newID input r' =
    (r', inl (mkNotificationDeliveryClaimResult d NotificationDeliveryClaimOutcomeAlreadySent)) ∧
    addressee d = a.
Proof.
  intros Hr Hv Hsteps Hx. apply notif_reachable_ok in Hr.
  pose proof (notif_final_view _ _ _ _ Hr Hsteps Hv eq_refl) as Hv'.
  pose proof (notif_steps_ok _ _ Hr Hsteps) as Hr'.
  destruct (notif_view_inv _ _ _ _ Hr' Hv') as (id&d&Hk&Hl&Ha&Hg&_&Hw).
  exists (norm d). split; [|rewrite <-Ha; apply Hw].
  unfold NotificationDeliveryRepository_AcquireForDelivery. rewrite Hx.
  apply notif_claim_input in Hx as (->&_). rewrite logicalKey_norm, Hk.
  assert (Ed : notificationAt r' id = d) by (unfold notificationAt; by rewrite Hl).
  rewrite Ed, claim_sent; [done|done|]. by eapply phase_of_progress.
Qed.

(** A claim that was granted is held by the one that asked for it, and the
    outcome it reports decides what the delivery becomes: sent, waiting for the
    retry, or failed.  Whoever does not hold that claim changes nothing. *)
Theorem notification_outcome_follows_claim r newID input r1 d o :
  notif_reachable r → notif_guard (CallClaim newID input) r →
  NotificationDeliveryRepository_AcquireForDelivery newID input r =
    (r1, inl (mkNotificationDeliveryClaimResult d o)) →
  claimed_outcome o = true →
  let key := logicalKey (nci_Delivery input) in
  let n := nd_Attempts d in
  let m := nd_MaxAttempts d in
  notif_view r1 key = Some (addressee d,
    mkProgress (Sending (TrimSpace (nci_ClaimOwner input)) (nci_Now input)
      (nci_Now input + nci_ClaimDuration input)) n m) ∧
  (∀ owner at_ sentAt, zero_time < sentAt →
     let x := NotificationDeliveryRepository_MarkSent
       (mkNotificationDeliveryMarkSentInput (nd_ID d) owner at_ sentAt) r1 in
     if (TrimSpace (nci_ClaimOwner input) == TrimSpace owner) && (nci_Now input =? at_)
     then notif_view x.1 key = Some (addressee d, mkProgress Sent n m)
     else x = (r1, inl (mkNotificationDeliveryUpdateResult d NotificationDeliveryUpdateOutcomeLostClaim))) ∧
  (∀ failure status, nfi_DeliveryID failure = nd_ID d →
     notif_failure status (nfi_FailureCategory failure) →
     (status = NotificationDeliveryStatusRetryWaiting →
      n < m ∧ ∃ t, nfi_NextAttemptAt failure = Some t ∧ zero_time < t) →
     let x := recordNotificationFailure failure status r1 in
     if (TrimSpace (nci_ClaimOwner input) == TrimSpace (nfi_ClaimOwner failure))
        && (nci_Now input =? nfi_ClaimedAt failure)
     then notif_view x.1 key = Some (addressee d, mkProgress
         (if status == NotificationDeliveryStatusRetryWaiting
          then RetryWaiting (default zero_time (nfi_NextAttemptAt failure))
          else if status == NotificationDeliveryStatusFailedPermanent then FailedPermanent
          else FailedExhausted) (failure_attempts status d) m)
     else x = (r1, inl (mkNotificationDeliveryUpdateResult d NotificationDeliveryUpdateOutcomeLostClaim))).
Proof.
  intros Hr Hg Hx Ho. apply notif_reachable_ok in Hr.
  destruct (claim_cases newID input r Hr Hg) as [(err&E)|[(d0&_&_&_&o'&E&Ho')|(d0&o'&Hw&E&_&Hkey&Hm&Hl)]].
  1: congruence. 1: rewrite Hx in E; simplify_eq; congruence.
  rewrite Hx in Hw, E, Hl. cbn [fst snd] in Hw, E, Hl. injection E as <- <-.
  pose proof (writes_ok _ _ _ Hr Hw) as Hr1. destruct (no_delivery r1 Hr1 _ _ Hl) as (_&Ht&_&Hwf&_).
  rewrite <-Hkey. split; [rewrite (notif_view_lookup r1 _ _ Hr1 Hl); unfold notif_progress; by rewrite Hm|].
  split.
  - intros owner at_ sentAt Hs. destruct (sending_matches d _ _ _ (TrimSpace owner) at_ Hwf Hm) as [Hst Hma].
    unfold NotificationDeliveryRepository_MarkSent. cbn [nmi_DeliveryID nmi_ClaimOwner nmi_ClaimedAt nmi_SentAt].
    rewrite Ht, Hl, Hma. destruct (_ && _); cbn [negb]; [|done].
    pose proof (sent_notification_valid d sentAt Hwf Hst Hs) as Hv.
    destruct (sent_notification_step d sentAt Hwf Hst Hv) as (?&Hp&?&?&?).
    rewrite outcome_view; [by rewrite Hp|done..|by split_and!].
  - intros failure status Hid Hf Hretry.
    destruct (sending_matches d _ _ _ (TrimSpace (nfi_ClaimOwner failure)) (nfi_ClaimedAt failure) Hwf Hm)
      as [Hst Hma].
    unfold recordNotificationFailure. rewrite Hid, Ht, Hl, Hma. destruct (_ && _); cbn [negb]; [|done].
    pose proof (failed_notification_valid failure status d Hwf Hst Hf Hretry) as Hv.
    rewrite outcome_view; [|done..|by apply failed_notification_step; [..|destruct Hf; auto|]].
    rewrite (failed_progress failure status d Hwf Hf). case_bool_decide; [|done].
    destruct (Hretry H) as [_ (t&->&Hz)]. change (normalizeNotificationOptionalTime (Some t))
      with (normalizeSCMOptionalTime (Some t)). by rewrite time_optional_id.
Qed.
