(* ===== verification/NotifExamples.v ===== *)
(** A store of notifications at work: one delivery is claimed, retried and sent;
    the theorems of NotifThms.v at these stores. *)

From stdpp Require Import base gmap strings list pretty sorting numbers.
From S2P Require Import Prelude GoLib GoPath GoText Domain DeliverySpec ScmDelivery ScmRepo ScmFacts.
From S2P Require Import ScmViews NotifDelivery NotifRepo NotifFacts NotifViews NotifThms.

Open Scope go_scope.
Open Scope Z_scope.

Definition ex_notification : NotificationDelivery :=
  zero_NotificationDelivery
    <| nd_BuildID := "b1" |>
    <| nd_EventType := NotificationEventTypeBuildFailed |>
    <| nd_Transport := NotificationTransportSlackDM |>
    <| nd_DestinationKind := NotificationDestinationKindSlackIdentity |>
    <| nd_DestinationKey := "slack-dm:w1:U1" |>
    <| nd_Recipient := "U1" |>.

(** An instant [n] nanoseconds after one in the year 2020. *)
Definition ex_instant (n : Z) : Time := zero_time + 63713433600000000000 + n.

Definition ex_claim (owner : string) (n : Z) : NotificationDeliveryClaimInput :=
  mkNotificationDeliveryClaimInput ex_notification owner (ex_instant n) 10 2.

Definition ex_failure (n : Z) : NotificationDeliveryRecordFailureInput :=
  mkNotificationDeliveryRecordFailureInput "n1" "w1" (ex_instant 0) (ex_instant 5)
    (Some (ex_instant n)) NotificationDeliveryFailureCategoryRetryable "timeout" None.

(** Claimed by w1, failed, claimed again by w2 and sent. *)
Definition ex_store1 := run_notif (CallClaim "n1" (ex_claim "w1" 0)) NewNotificationDeliveryRepository.
Definition ex_store2 := run_notif (CallRetryable (ex_failure 20)) ex_store1.
Definition ex_store3 := run_notif (CallClaim "n2" (ex_claim " w2 " 20)) ex_store2.
Definition ex_store4 :=
  run_notif (CallSent (mkNotificationDeliveryMarkSentInput "n1" "w2" (ex_instant 20) (ex_instant 21)))
    ex_store3.

Definition ex_key : string := logicalKey ex_notification.

Example ex_life :
  (snd <$> notif_view ex_store1 ex_key,
   snd <$> notif_view ex_store2 ex_key,
   snd <$> notif_view ex_store3 ex_key,
   snd <$> notif_view ex_store4 ex_key) =
  (Some (mkProgress (Sending "w1" (ex_instant 0) (ex_instant 10)) 1 2),
   Some (mkProgress (RetryWaiting (ex_instant 20)) 1 2),
   Some (mkProgress (Sending "w2" (ex_instant 20) (ex_instant 30)) 2 2),
   Some (mkProgress Sent 2 2)).
Proof. vm_compute. reflexivity. Qed.

(** The last attempt is reported in vain when its claim ran out and another
    worker holds the next one. *)
Example ex_lost_claim :
  (NotificationDeliveryRepository_MarkSent
     (mkNotificationDeliveryMarkSentInput "n1" "w1" (ex_instant 0) (ex_instant 21)) ex_store3).1 =
  ex_store3.
Proof. vm_compute. reflexivity. Qed.

(** Nor can anybody finish it when that holder does not report: the last attempt
    is listed by every scan and answered as exhausted, and nothing changes. *)
Example ex_lost_last_attempt :
  (NotificationDeliveryRepository_AcquireForDelivery "n3" (ex_claim "w3" 1000) ex_store3).1 = ex_store3 ∧
  (match NotificationDeliveryRepository_ListRecoverable
     (mkNotificationDeliveryRecoverableScanInput (ex_instant 1000) 5) ex_store3 with
   | inl listed => nd_ID <$> listed
   | inr _ => []
   end) = ["n1"].
Proof. split; vm_compute; reflexivity. Qed.

Lemma ex_guard1 : notif_guard (CallClaim "n1" (ex_claim "w1" 0)) NewNotificationDeliveryRepository.
Proof. split_and!; vm_compute; done. Qed.

Lemma ex_guard3 : notif_guard (CallClaim "n2" (ex_claim " w2 " 20)) ex_store2.
Proof. split_and!; vm_compute; done. Qed.

Lemma ex_step1 : notif_step NewNotificationDeliveryRepository ex_store1.
Proof. exists (CallClaim "n1" (ex_claim "w1" 0)). split; [apply ex_guard1|reflexivity]. Qed.

Lemma ex_step2 : notif_step ex_store1 ex_store2.
Proof. exists (CallRetryable (ex_failure 20)). split; [exact I|reflexivity]. Qed.

Lemma ex_step3 : notif_step ex_store2 ex_store3.
Proof. exists (CallClaim "n2" (ex_claim " w2 " 20)). split; [apply ex_guard3|reflexivity]. Qed.

Lemma ex_step4 : notif_step ex_store3 ex_store4.
Proof.
  exists (CallSent (mkNotificationDeliveryMarkSentInput "n1" "w2" (ex_instant 20) (ex_instant 21))).
  split; [exact I|reflexivity].
Qed.

Lemma ex_reachable2 : notif_reachable ex_store2.
Proof. eapply rtc_l; [apply ex_step1|]. eapply rtc_once, ex_step2. Qed.

Lemma ex_reachable4 : notif_reachable ex_store4.
Proof.
  eapply rtc_r; [eapply rtc_r; [apply ex_reachable2|apply ex_step3]|apply ex_step4].
Qed.

Lemma notification_store_refines_deliveries_witness :
  match notif_view ex_store2 ex_key, notif_view ex_store3 ex_key with
  | Some v, Some v' => v'.1 = v.1 ∧ (v' = v ∨ progress_step v.2 v'.2)
  | None, Some v' => first_claim v'.2
  | None, None => True
  | Some _, None => False
  end.
Proof. exact (notification_store_refines_deliveries _ _ ex_key ex_reachable2 ex_step3). Defined.

Definition ex_addressee := addressee ex_notification.

Lemma ex_view4 : notif_view ex_store4 (logicalKey (nci_Delivery (ex_claim "w3" 99))) =
  Some (ex_addressee, mkProgress Sent 2 2).
Proof. vm_compute. reflexivity. Qed.

Definition ex_normalized :=
  (NotificationDelivery_Normalize ex_notification, ex_instant 99, "w3", 10).

Lemma ex_input : normalizeNotificationClaimInput (ex_claim "w3" 99) = inl ex_normalized.
Proof. vm_compute. reflexivity. Qed.

Lemma sent_notification_is_final_witness :
  ∃ d, NotificationDeliveryRepository_AcquireForDelivery "n3" (ex_claim "w3" 99) ex_store4 =
    (ex_store4,
     inl (mkNotificationDeliveryClaimResult d NotificationDeliveryClaimOutcomeAlreadySent)) ∧
    addressee d = ex_addressee.
Proof.
  exact (sent_notification_is_final ex_store4 ex_store4 ex_addressee 2 2 "n3" (ex_claim "w3" 99) _
    ex_reachable4 ex_view4 (rtc_refl _ _) ex_input).
Defined.

Definition ex_claimed3 := notificationAt ex_store3 "n1".

Lemma answer_of {A B} (x : A * B) (y : B) : x.2 = y → x = (x.1, y).
Proof. destruct x; simpl; congruence. Qed.

Lemma ex_answer3 :
  NotificationDeliveryRepository_AcquireForDelivery "n2" (ex_claim " w2 " 20) ex_store2 =
  (ex_store3, inl (mkNotificationDeliveryClaimResult ex_claimed3
     NotificationDeliveryClaimOutcomeRetryClaimed)).
Proof. unfold ex_store3. cbn [run_notif]. apply answer_of. vm_compute. reflexivity. Qed.

Lemma ex_parts3 :
  addressee ex_claimed3 = ex_addressee ∧ nd_Attempts ex_claimed3 = 2 ∧ nd_MaxAttempts ex_claimed3 = 2.
Proof. by vm_compute. Qed.

Lemma ex_late : zero_time < ex_instant 21.
Proof. by vm_compute. Qed.

Lemma notification_outcome_follows_claim_witness :
  notif_view ex_store3 ex_key = Some (ex_addressee,
    mkProgress (Sending "w2" (ex_instant 20) (ex_instant 20 + 10)) 2 2) ∧
  notif_view (NotificationDeliveryRepository_MarkSent
    (mkNotificationDeliveryMarkSentInput (nd_ID ex_claimed3) "w2" (ex_instant 20) (ex_instant 21)) ex_store3).1
    ex_key = Some (ex_addressee, mkProgress Sent 2 2).
Proof.
  destruct (notification_outcome_follows_claim _ _ _ _ _ _ ex_reachable2 ex_guard3 ex_answer3 eq_refl)
    as (H1&H2&_).
  destruct ex_parts3 as (<-&E1&E2). rewrite E1, E2 in H1, H2.
  split; [exact H1|]. exact (H2 "w2" (ex_instant 20) (ex_instant 21) ex_late).
Defined.
