(* ===== verification/NotifDestinations.v ===== *)
(** What the notifier of builds decides without its stores
    (backend/internal/service/build): the retry policy
    (notification_delivery_policy.go), the classes of errors
    (notification_delivery_errors.go), the destinations of targets
    (notification_destinations.go, domain/notification_subscription.go) and the
    recipients of the configuration (notifications.go).

    [mail.ParseAddress], [url.Parse] and what the code asks of the errors of the
    senders are arguments. *)

From Stdlib Require Import Ascii.
From stdpp Require Import base gmap strings list pretty sorting numbers.
From S2P Require Import Prelude GoLib GoPath GoText Domain ScmReporter NotifDelivery.

Open Scope go_scope.
Open Scope Z_scope.

(** ** Retries *)

Definition defaultNotificationDeliveryMaxAttempts : Z := 3.
Definition defaultNotificationDeliveryClaimDuration : Z := 2 * 60 * scm_Second.
Definition defaultNotificationRetryInitialDelay : Z := 30 * scm_Second.
Definition defaultNotificationRetryMaxDelay : Z := 10 * 60 * scm_Second.
Definition notificationClaimSafetyMargin : Z := 30 * scm_Second.

(** platform/email/sender.go, platform/slack/client.go, slack_sender.go. *)
Definition DefaultSMTPTimeout : Z := 10 * scm_Second.
Definition DefaultAPITimeout : Z := 5 * scm_Second.
Definition defaultSlackWebhookTimeout : Z := 5 * scm_Second.

Record notificationRetryPolicy := mkNotificationRetryPolicy {
  nrp_maxAttempts : Z;
  nrp_initialDelay : Z;
  nrp_maxDelay : Z;
}.

Definition defaultNotificationRetryPolicy : notificationRetryPolicy :=
  mkNotificationRetryPolicy defaultNotificationDeliveryMaxAttempts
    defaultNotificationRetryInitialDelay defaultNotificationRetryMaxDelay.

(** The loop is the one of [delayForAttempt] (ScmReporter.v). *)
Definition notificationRetryPolicy_delayForAttempt (p : notificationRetryPolicy) (attempt : Z) : Z :=
  if attempt <=? 1 then nrp_initialDelay p
  else doubled (nrp_maxDelay p) (Z.to_nat (attempt - 1)) (nrp_initialDelay p).

Definition minimumNotificationClaimDuration : Z :=
  let maxProviderTimeout := DefaultSMTPTimeout in
  let maxProviderTimeout :=
    if maxProviderTimeout <? DefaultAPITimeout then DefaultAPITimeout else maxProviderTimeout in
  let maxProviderTimeout :=
    if maxProviderTimeout <? defaultSlackWebhookTimeout then defaultSlackWebhookTimeout
    else maxProviderTimeout in
  maxProviderTimeout + notificationClaimSafetyMargin.

(** [durationText] is [time.Duration.String]. *)
Definition validateNotificationClaimDuration (durationText : Z → string) (value : Z) : option error :=
  let minimum := minimumNotificationClaimDuration in
  if value <? minimum
  then Some (Errorf ("notification claim duration " +:+ durationText value
         +:+ " is too short: must be at least " +:+ durationText minimum
         +:+ " to exceed provider timeouts by the " +:+ durationText notificationClaimSafetyMargin
         +:+ " safety margin"))
  else None.

Definition notificationClaimDuration (value : Z) : Z :=
  if 0 <? value then value else defaultNotificationDeliveryClaimDuration.

Definition notificationClaimOwner (value : string) : string :=
  let trimmed := TrimSpace value in
  if trimmed != "" then trimmed else "inline-notifier".

(** ** Errors *)

Definition ErrInvalidMessage : error := Sentinel "email.ErrInvalidMessage".
Definition ErrSlackWebhookInvalidRequest : error := Sentinel "build.ErrSlackWebhookInvalidRequest".
Definition ErrSlackWebhookUpstreamFailure : error := Sentinel "build.ErrSlackWebhookUpstreamFailure".

(** platform/slack/client.go. *)
Definition ErrRateLimited : error := Sentinel "slack.ErrRateLimited".
Definition ErrUpstreamFailure : error := Sentinel "slack.ErrUpstreamFailure".
Definition ErrInvalidAuth : error := Sentinel "slack.ErrInvalidAuth".
Definition ErrTokenRevoked : error := Sentinel "slack.ErrTokenRevoked".
Definition ErrAccountInactive : error := Sentinel "slack.ErrAccountInactive".
Definition ErrMissingScope : error := Sentinel "slack.ErrMissingScope".
Definition ErrChannelNotFound : error := Sentinel "slack.ErrChannelNotFound".
Definition ErrSlackUserNotFound : error := Sentinel "slack.ErrSlackUserNotFound".
Definition ErrChannelArchived : error := Sentinel "slack.ErrChannelArchived".
Definition ErrSlackUserIDInvalid : error := Sentinel "slack.ErrSlackUserIDInvalid".
Definition ErrMalformedResponse : error := Sentinel "slack.ErrMalformedResponse".
Definition ErrPostMessageFailed : error := Sentinel "slack.ErrPostMessageFailed".

(** The error of an operation: one of another component, a
    [notificationExecutionFailure], the join of several, or one with a label. *)
Inductive notifyError :=
  | GoError (err : error)
  | ExecutionFailure (category : NotificationDeliveryFailureCategory) (reason : string)
      (retryable : bool) (message : string) (cause : option error)
  | JoinedErrors (errs : list notifyError)
  | Labelled (message : string) (inner : notifyError).

Definition permanentNotificationExecutionFailure (reason message : string) (cause : option error)
    : notifyError :=
  ExecutionFailure NotificationDeliveryFailureCategoryPermanent reason false message cause.

Definition retryableNotificationExecutionFailure (reason message : string) (cause : option error)
    : notifyError :=
  ExecutionFailure NotificationDeliveryFailureCategoryRetryable reason true message cause.

(** [errors.Is]. *)
Fixpoint notify_Is (err : notifyError) (target : error) : bool :=
  match err with
  | GoError err => errors_Is err target
  | ExecutionFailure _ _ _ _ cause =>
      match cause with Some cause => errors_Is cause target | None => false end
  | JoinedErrors errs => existsb (λ err, notify_Is err target) errs
  | Labelled _ inner => notify_Is inner target
  end.

Definition is_context_error (err : notifyError) : bool :=
  notify_Is err context_Canceled || notify_Is err context_DeadlineExceeded.

(** [errors.As] for the errors of other components that [f] knows: the first in
    the tree. *)
Fixpoint notify_As {A} (f : error → option A) (err : notifyError) : option A :=
  match err with
  | GoError err => f err
  | ExecutionFailure _ _ _ _ cause => match cause with Some cause => f cause | None => None end
  | JoinedErrors errs =>
      (fix first (errs : list notifyError) : option A :=
         match errs with
         | [] => None
         | err :: errs =>
             match notify_As f err with Some x => Some x | None => first errs end
         end) errs
  | Labelled _ inner => notify_As f inner
  end.

(** What the code asks of an error of another component: its text, the timeout of
    the first [net.Error] in its tree, and the status of the first
    [SlackWebhookHTTPError] in its tree. *)
Class NotifyErrors := {
  notify_text : error → string;
  netError : error → option bool;
  SlackWebhookHTTPError : error → option Z;
}.

Record notificationFailureDecision := mkNotificationFailureDecision {
  nfd_category : NotificationDeliveryFailureCategory;
  nfd_reason : string;
  nfd_retryable : bool;
}.

Definition retryableDecision (reason : string) : notificationFailureDecision :=
  mkNotificationFailureDecision NotificationDeliveryFailureCategoryRetryable reason true.

Definition permanentDecision (reason : string) : notificationFailureDecision :=
  mkNotificationFailureDecision NotificationDeliveryFailureCategoryPermanent reason false.

(** [errors.As] for a [notificationExecutionFailure]; the errors of other
    components hold none. *)
Fixpoint executionErr (err : notifyError) : option notificationFailureDecision :=
  match err with
  | GoError _ => None
  | ExecutionFailure category reason retryable _ _ =>
      Some (mkNotificationFailureDecision category reason retryable)
  | JoinedErrors errs =>
      (fix first (errs : list notifyError) : option notificationFailureDecision :=
         match errs with
         | [] => None
         | err :: errs =>
             match executionErr err with Some x => Some x | None => first errs end
         end) errs
  | Labelled _ inner => executionErr inner
  end.

Definition classifyEmailNotificationError (err : notifyError) : notificationFailureDecision :=
  if notify_Is err ErrInvalidMessage then permanentDecision "invalid_email_message"
  else retryableDecision "email_send_failed".

Definition classifySlackWebhookNotificationError `{NotifyErrors} (err : notifyError)
    : notificationFailureDecision :=
  if notify_Is err ErrSlackWebhookInvalidRequest
  then permanentDecision "invalid_slack_webhook_request"
  else if notify_Is err ErrSlackWebhookUpstreamFailure
  then retryableDecision "slack_webhook_upstream_failure"
  else match notify_As SlackWebhookHTTPError err with
       | Some statusCode =>
           if (statusCode =? 429) || (500 <=? statusCode)
           then retryableDecision "slack_webhook_http_retryable"
           else permanentDecision "slack_webhook_http_permanent"
       | None => retryableDecision "slack_webhook_send_failed"
       end.

Definition classifySlackDMNotificationError (err : notifyError) : notificationFailureDecision :=
  if notify_Is err ErrRateLimited || notify_Is err ErrUpstreamFailure
  then retryableDecision "slack_dm_retryable"
  else if existsb (notify_Is err)
    [ErrInvalidAuth; ErrTokenRevoked; ErrAccountInactive; ErrMissingScope; ErrChannelNotFound;
     ErrSlackUserNotFound; ErrChannelArchived; ErrSlackUserIDInvalid; ErrMalformedResponse;
     ErrPostMessageFailed]
  then permanentDecision "slack_dm_permanent"
  else retryableDecision "slack_dm_send_failed".

Definition classifyNotificationSendError `{NotifyErrors} (transport : NotificationTransport)
    (err : notifyError) : notificationFailureDecision :=
  if is_context_error err then mkNotificationFailureDecision "" "context_canceled" false
  else if match notify_As netError err with Some timeout => timeout | None => false end
  then retryableDecision "network_timeout"
  else if transport == NotificationTransportEmail then classifyEmailNotificationError err
  else if transport == NotificationTransportSlackWebhook
  then classifySlackWebhookNotificationError err
  else if transport == NotificationTransportSlackDM then classifySlackDMNotificationError err
  else permanentDecision "unsupported_transport".

Definition classifyNotificationDeliveryFailure `{NotifyErrors} (transport : NotificationTransport)
    (err : notifyError) : notificationFailureDecision :=
  match executionErr err with
  | Some decision => decision
  | None => classifyNotificationSendError transport err
  end.

(** [Error], where it is stored. *)
Fixpoint notifyError_Error `{NotifyErrors} (err : notifyError) : string :=
  match err with
  | GoError err => notify_text err
  | ExecutionFailure _ _ _ message _ => message
  | JoinedErrors errs =>
      (fix lines (errs : list notifyError) : string :=
         match errs with
         | [] => ""
         | [err] => notifyError_Error err
         | err :: errs => notifyError_Error err +:+ String (Ascii.ascii_of_N 10) "" +:+ lines errs
         end) errs
  | Labelled message inner => message +:+ ": " +:+ notifyError_Error inner
  end.

(** [errors.Join]. *)
Definition joinErrors (errs : list notifyError) : option notifyError :=
  match errs with [] => None | _ => Some (JoinedErrors errs) end.

(** ** Targets (domain/notification_subscription.go) *)

Abbreviation NotificationTargetType := string (only parsing).
Definition NotificationTargetTypeEmail : NotificationTargetType := "email".
Definition NotificationTargetTypeSlackWebhook : NotificationTargetType := "slack_webhook".

Abbreviation NotificationTargetOrigin := string (only parsing).
Definition NotificationTargetOriginManual : NotificationTargetOrigin := "manual".
Definition NotificationTargetOriginConfigDefault : NotificationTargetOrigin := "config_default".

Record NotificationTarget := mkNotificationTarget {
  nt_ID : string;
  nt_OwnerUserID : option string;
  nt_Type : NotificationTargetType;
  nt_Origin : NotificationTargetOrigin;
  nt_Name : string;
  nt_Recipient : string;
  nt_Enabled : bool;
  nt_CreatedAt : Time;
  nt_UpdatedAt : Time;
}.

#[export] Instance eta_NotificationTarget : Eta NotificationTarget := λ t,
  mkNotificationTarget (nt_ID t) (nt_OwnerUserID t) (nt_Type t) (nt_Origin t) (nt_Name t)
    (nt_Recipient t) (nt_Enabled t) (nt_CreatedAt t) (nt_UpdatedAt t).

Record NotificationSubscription := mkNotificationSubscription {
  ns_ID : string;
  ns_TargetID : string;
  ns_ProjectID : option string;
  ns_JobID : option string;
  ns_EventType : NotificationEventType;
  ns_Enabled : bool;
  ns_CreatedAt : Time;
  ns_UpdatedAt : Time;
}.

Record NotificationSubscriptionMatch := mkNotificationSubscriptionMatch {
  nsm_Subscription : NotificationSubscription;
  nsm_Target : NotificationTarget;
}.

(** [mail.ParseAddress] gives the address and the text of what it read; [url.Parse]
    gives the text of a URL that is absolute, with a scheme that is https in
    lower case, and has a host. *)
Class Addresses := {
  ParseAddress : string → (string * string) + error;
  parseHTTPS : string → option string;
}.

Definition trimNotificationTargetOptionalString (value : option string) : option string :=
  match value with
  | None => None
  | Some v => let trimmed := TrimSpace v in if trimmed == "" then None else Some trimmed
  end.

Definition normalizeNotificationTargetRecipient `{Addresses} (targetType : NotificationTargetType)
    (value : string) : string + error :=
  let trimmed := TrimSpace value in
  if targetType == NotificationTargetTypeEmail then
    match ParseAddress trimmed with
    | inr err => inr (Wrap ("invalid notification target recipient " +:+ Quote trimmed) err)
    | inl (_, text) => inl text
    end
  else if targetType == NotificationTargetTypeSlackWebhook then
    match parseHTTPS trimmed with
    | None => inr (Errorf "notification target webhook_url must be a valid https URL")
    | Some text => inl text
    end
  else inr (Errorf ("unsupported notification target type " +:+ Quote targetType)).

Definition normalizeNotificationTargetOrigin (targetType : NotificationTargetType)
    (ownerUserID : option string) (origin : NotificationTargetOrigin)
    : NotificationTargetOrigin + error :=
  let trimmedOrigin := TrimSpace origin in
  let trimmedOrigin :=
    if trimmedOrigin == "" then NotificationTargetOriginManual else trimmedOrigin in
  if trimmedOrigin == NotificationTargetOriginManual then inl trimmedOrigin
  else if trimmedOrigin == NotificationTargetOriginConfigDefault then
    if targetType != NotificationTargetTypeEmail
    then inr (Errorf "config-default notification targets must be email targets")
    else match ownerUserID with
         | Some _ => inr (Errorf "config-default notification targets must be ownerless")
         | None => inl trimmedOrigin
         end
  else inr (Errorf ("unsupported notification target origin " +:+ Quote trimmedOrigin)).

Definition NormalizeNotificationTarget `{Addresses} (target : NotificationTarget)
    : NotificationTarget + error :=
  let type := TrimSpace (nt_Type target) in
  let type := if type == "" then NotificationTargetTypeEmail else type in
  if (type != NotificationTargetTypeEmail) && (type != NotificationTargetTypeSlackWebhook)
  then inr (Errorf ("unsupported notification target type " +:+ Quote type))
  else match normalizeNotificationTargetRecipient type (nt_Recipient target) with
       | inr err => inr err
       | inl recipient =>
           let owner := trimNotificationTargetOptionalString (nt_OwnerUserID target) in
           match normalizeNotificationTargetOrigin type owner (nt_Origin target) with
           | inr err => inr err
           | inl origin =>
               inl (target <| nt_Type := type |> <| nt_Recipient := recipient |>
                           <| nt_Name := TrimSpace (nt_Name target) |>
                           <| nt_OwnerUserID := owner |> <| nt_Origin := origin |>)
           end
       end.

Definition ValidateExplicitNotificationTarget `{Addresses} (target : NotificationTarget)
    : NotificationTarget + error :=
  if TrimSpace (nt_Origin target) == ""
  then inr (Errorf "notification target origin is required")
  else NormalizeNotificationTarget target.

(** ** Destinations (notification_destinations.go) *)

Record notificationDestination := mkNotificationDestination {
  dn_transport : NotificationTransport;
  dn_destinationKind : NotificationDestinationKind;
  dn_destinationKey : string;
  dn_notificationTargetID : option string;
  dn_recipientUserID : option string;
  dn_slackWorkspaceIntegrationID : option string;
  dn_recipient : string;
  dn_emailRecipient : string;
  dn_webhookURL : string;
  dn_slackUserID : string;
  dn_slackBotToken : string;
}.

Definition zero_notificationDestination : notificationDestination :=
  mkNotificationDestination "" "" "" None None None "" "" "" "" "".

Definition personalEmailTargetDestination (target : NotificationTarget)
    : notificationDestination + error :=
  let targetID := TrimSpace (nt_ID target) in
  match NotificationPersonalEmailTargetKey targetID with
  | inr err => inr err
  | inl (destinationKind, destinationKey) =>
      let recipient := TrimSpace (nt_Recipient target) in
      inl (mkNotificationDestination NotificationTransportEmail destinationKind destinationKey
             (Some targetID) (nt_OwnerUserID target) None recipient recipient "" "" "")
  end.

Definition notificationTargetDestination (target : NotificationTarget)
    : notificationDestination + error :=
  let recipient := TrimSpace (nt_Recipient target) in
  if recipient == "" then inl zero_notificationDestination
  else if (nt_Type target == NotificationTargetTypeEmail)
          && match nt_OwnerUserID target with Some _ => true | None => false end
  then personalEmailTargetDestination target
  else
    let targetID := TrimSpace (nt_ID target) in
    if nt_Type target == NotificationTargetTypeSlackWebhook then
      match NotificationSharedSlackWebhookTargetKey targetID with
      | inr err => inr err
      | inl (destinationKind, destinationKey) =>
          inl (mkNotificationDestination NotificationTransportSlackWebhook destinationKind
                 destinationKey (Some targetID) None None (nt_Type target +:+ ":" +:+ targetID) ""
                 recipient "" "")
      end
    else
      match NotificationSharedEmailTargetKey targetID with
      | inr err => inr err
      | inl (destinationKind, destinationKey) =>
          inl (mkNotificationDestination NotificationTransportEmail destinationKind destinationKey
                 (Some targetID) None None recipient recipient "" "" "")
      end.

Definition slackDMDestination (userID workspaceIntegrationID slackUserID slackBotToken : string)
    : notificationDestination + error :=
  match NotificationSlackDMDestinationKey workspaceIntegrationID slackUserID with
  | inr err => inr err
  | inl (destinationKind, destinationKey) =>
      let trimmedUserID := TrimSpace userID in
      let trimmedWorkspaceID := TrimSpace workspaceIntegrationID in
      let trimmedSlackUserID := TrimSpace slackUserID in
      inl (mkNotificationDestination NotificationTransportSlackDM destinationKind destinationKey None
             (Some trimmedUserID) (Some trimmedWorkspaceID)
             ("slack_dm:" +:+ trimmedWorkspaceID +:+ ":" +:+ trimmedSlackUserID) "" ""
             trimmedSlackUserID (TrimSpace slackBotToken))
  end.

(** ** Recipients and addresses *)

(** notifications.go. *)
Definition parseNotificationRecipient `{Addresses} (value : option string) : option string :=
  match value with
  | None => None
  | Some value =>
      let trimmed := TrimSpace value in
      if trimmed == "" then None
      else match ParseAddress trimmed with inr _ => None | inl (_, text) => Some text end
  end.

Fixpoint parseRecipientParts `{Addresses} (parts : list string) : list string + error :=
  match parts with
  | [] => inl []
  | part :: parts =>
      let trimmed := TrimSpace part in
      if trimmed == "" then parseRecipientParts parts
      else match ParseAddress trimmed with
           | inr err => inr (Wrap ("invalid email notification recipient " +:+ Quote trimmed) err)
           | inl (_, text) =>
               match parseRecipientParts parts with
               | inr err => inr err
               | inl recipients => inl (text :: recipients)
               end
           end
  end.

Definition parseNotificationRecipients `{Addresses} (value : string) : list string + error :=
  if TrimSpace value == "" then inl []
  else parseRecipientParts (Split value ","%char).

(** notification_planning.go. *)
Definition normalizeCommitAuthorEmail `{Addresses} (value : option string) : string :=
  match value with
  | None => ""
  | Some value =>
      let trimmed := TrimSpace value in
      if trimmed == "" then ""
      else match ParseAddress trimmed with
           | inr _ => ""
           | inl (address, _) => ToLower (TrimSpace address)
           end
  end.

Definition destinationSeenKey (destination : notificationDestination) : string :=
  TrimSpace (dn_transport destination) +:+ "|" +:+ TrimSpace (dn_destinationKey destination).

Fixpoint dedupeLoop (seen : gset string) (destinations : list notificationDestination)
    : list notificationDestination :=
  match destinations with
  | [] => []
  | destination :: destinations =>
      let key := destinationSeenKey destination in
      if key == "" then dedupeLoop seen destinations
      else if bool_decide (key ∈ seen) then dedupeLoop seen destinations
      else destination :: dedupeLoop ({[key]} ∪ seen) destinations
  end.

Definition dedupeDestinations (destinations : list notificationDestination)
    : list notificationDestination := dedupeLoop ∅ destinations.

(** platform/slack/client.go. *)
Definition IsSlackUserID (value : string) : bool :=
  let trimmed := TrimSpace value in
  if trimmed == "" then false
  else if negb (HasPrefix trimmed "U") && negb (HasPrefix trimmed "W") then false
  else forallb (λ ch, in_range 65 90 ch || in_range 48 57 ch) (string_to_list trimmed).

(** ** Events *)

Definition shouldNotifyBuildStatus (status : BuildStatus) : bool :=
  bool_decide (status = BuildStatusFailed) || bool_decide (status = BuildStatusSuccess).

Definition buildStatusNotificationEventType (status : BuildStatus) : option NotificationEventType :=
  match status with
  | BuildStatusSuccess => Some NotificationEventTypeBuildSucceeded
  | BuildStatusFailed => Some NotificationEventTypeBuildFailed
  | _ => None
  end.
