(* ===== verification/Notifier.v ===== *)
(** The notifier of builds (backend/internal/service/build: notifications.go,
    notification_planning.go, notification_execution.go,
    notification_recovery.go, notification_recovery_drain.go).

    An operation is a function on a world: the store of deliveries and what was
    sent so far.  Other notifiers use the store, too: before every access it may
    be changed by [ne_others].  The other repositories may answer differently at
    every access, so they are functions of the number of accesses made.  The
    senders, the rendering of texts (notification_format.go), the clock and the
    identifiers are arguments; contexts are not canceled except as an answer of
    another component, and log lines and metrics are left out. *)

From Stdlib Require Import Ascii.
From stdpp Require Import base gmap strings list pretty sorting numbers.
From S2P Require Import Prelude GoLib GoPath GoText Domain Repository ScmReporter.
From S2P Require Import NotifDelivery NotifRepo NotifDestinations.

Open Scope go_scope.
Open Scope Z_scope.

(** ** The other components *)

(** domain/user.go. *)
Record User := mkUser {
  us_ID : string;
  us_Email : string;
  us_DisplayName : option string;
  us_GlobalRole : string;
  us_CreatedAt : Time;
  us_UpdatedAt : Time;
}.

(** domain/user_notification_preference.go. *)
Record UserNotificationPreference := mkUserNotificationPreference {
  up_UserID : string;
  up_CommitAuthorFailureEmailEnabled : bool;
  up_CommitAuthorFailureSlackEnabled : bool;
  up_CommitAuthorFailureEmailSource : string;
  up_CommitAuthorSuccessEmailEnabled : bool;
  up_CommitAuthorSuccessSlackEnabled : bool;
  up_CommitAuthorSuccessEmailSource : option string;
  up_CreatedAt : Time;
  up_UpdatedAt : Time;
}.

(** domain/user_slack_identity.go. *)
Record UserSlackIdentity := mkUserSlackIdentity {
  ui_ID : string;
  ui_UserID : string;
  ui_SlackWorkspaceIntegrationID : string;
  ui_SlackUserID : string;
  ui_SlackDisplayName : option string;
  ui_SlackRealName : option string;
  ui_SlackHandle : option string;
  ui_SlackEmail : option string;
  ui_ProfileImageURL : option string;
  ui_Enabled : bool;
  ui_LinkedAt : Time;
  ui_LastVerifiedAt : option Time;
  ui_CreatedAt : Time;
  ui_UpdatedAt : Time;
}.

(** domain/slack_workspace_integration.go. *)
Record SlackWorkspaceIntegration := mkSlackWorkspaceIntegration {
  wi_ID : string;
  wi_WorkspaceID : string;
  wi_WorkspaceName : option string;
  wi_WorkspaceURL : option string;
  wi_BotID : option string;
  wi_AuthedUserID : option string;
  wi_AppID : option string;
  wi_BotTokenSecret : string;
  wi_LinkedIdentityCount : Z;
  wi_Enabled : bool;
  wi_ConnectedAt : Time;
  wi_LastTestedAt : option Time;
  wi_LastTestSucceeded : option bool;
  wi_CreatedAt : Time;
  wi_UpdatedAt : Time;
}.

Definition ErrNotificationTargetNotFound : error := Sentinel "repository.ErrNotificationTargetNotFound".
Definition ErrUserNotFound : error := Sentinel "repository.ErrUserNotFound".
Definition ErrUserNotificationPreferenceNotFound : error :=
  Sentinel "repository.ErrUserNotificationPreferenceNotFound".
Definition ErrUserSlackIdentityNotFound : error := Sentinel "repository.ErrUserSlackIdentityNotFound".
Definition ErrSlackWorkspaceIntegrationNotFound : error :=
  Sentinel "repository.ErrSlackWorkspaceIntegrationNotFound".

Record EnsureConfigNotificationEmailTargetInput := mkEnsureConfigNotificationEmailTargetInput {
  ec_ID : string;
  ec_Name : string;
  ec_Recipient : string;
  ec_CreatedAt : Time;
  ec_UpdatedAt : Time;
}.

(** The repositories, by the number of accesses made before. *)
Record notificationSubscriptionRepository := mkNotificationSubscriptionRepository {
  ListEnabledMatchesForBuildEvent : nat → Build → NotificationEventType →
    list NotificationSubscriptionMatch + error;
  GetOwnedEmailTargetByUserID : nat → string → NotificationTarget + error;
  EnsureConfigEmailTarget : nat → EnsureConfigNotificationEmailTargetInput →
    NotificationTarget + error;
  GetTargetByID : nat → string → NotificationTarget + error;
}.

Abbreviation notificationBuildRepository := (nat → string → Build + error) (only parsing).
Abbreviation notificationUserRepository := (nat → string → User + error) (only parsing).
Abbreviation notificationPreferenceRepository :=
  (nat → string → UserNotificationPreference + error) (only parsing).
Abbreviation notificationSlackIdentityRepository :=
  (nat → string → UserSlackIdentity + error) (only parsing).
Abbreviation notificationSlackWorkspaceRepository :=
  (nat → SlackWorkspaceIntegration + error) (only parsing).

Record notificationContent := mkNotificationContent {
  ct_subject : string;
  ct_body : string;
  ct_slackText : string;
  ct_personalSlackText : string;
}.

(** A service: an optional field is nil or not; of the senders and of the store of
    deliveries only that is kept, what they do is in the world. *)
Record BuildNotificationService := mkBuildNotificationService {
  bn_enabled : bool;
  bn_defaultRecipients : list string;
  bn_sender : bool;
  bn_slackSender : bool;
  bn_slackClient : bool;
  bn_buildRepo : option notificationBuildRepository;
  bn_deliveryRepo : bool;
  bn_subscriptionRepo : option notificationSubscriptionRepository;
  bn_userRepo : option notificationUserRepository;
  bn_preferenceRepo : option notificationPreferenceRepository;
  bn_identityRepo : option notificationSlackIdentityRepository;
  bn_workspaceRepo : option notificationSlackWorkspaceRepository;
  bn_claimOwner : string;
  bn_claimDuration : Z;
  bn_retryPolicy : notificationRetryPolicy;
}.

(** ** The world *)

(** What was sent, and the delivery it was sent for, which is noted here for the
    theorems; without a store there is none. *)
Record Send := mkSend {
  sn_for : option NotificationDelivery;
  sn_destination : notificationDestination;
  sn_content : notificationContent;
  sn_answer : option error;
}.

Record NotifWorld := mkNotifWorld {
  nw_store : NotificationDeliveryRepository;
  nw_sent : list Send;       (* what was sent, in order, with the answers *)
  nw_readings : nat;         (* of the clock *)
  nw_identifiers : nat;      (* drawn *)
  nw_accesses : nat;         (* to a repository *)
}.

#[export] Instance eta_NotifWorld : Eta NotifWorld := λ w,
  mkNotifWorld (nw_store w) (nw_sent w) (nw_readings w) (nw_identifiers w) (nw_accesses w).

Record NotifSurroundings := mkNotifSurroundings {
  ne_clock : nat → Time;
  ne_uuid : nat → string;
  ne_send : list Send → notificationDestination → notificationContent → option error;
  ne_render : nat → Build → NotificationTransport → notificationContent + notifyError;
  ne_others : nat → NotificationDeliveryRepository → NotificationDeliveryRepository;
}.

Definition NotifierM (A : Type) : Type := NotifWorld → NotifWorld * A.

#[export] Instance NotifierM_ret : MRet NotifierM := λ A x w, (w, x).
#[export] Instance NotifierM_bind : MBind NotifierM := λ A B f m w,
  let '(w, x) := m w in f x w.

Inductive notificationExecutionOutcome :=
  | notificationExecutionOutcomeNone
  | notificationExecutionOutcomeSent
  | notificationExecutionOutcomeRetryScheduled
  | notificationExecutionOutcomePermanentlyFailed
  | notificationExecutionOutcomeAttemptsExhausted
  | notificationExecutionOutcomeLostClaim.

#[export] Instance notificationExecutionOutcome_eq_dec : EqDecision notificationExecutionOutcome.
Proof. solve_decision. Defined.

Record notificationRecoveryAttemptResult := mkNotificationRecoveryAttemptResult {
  na_claimOutcome : option NotificationDeliveryClaimOutcome;
  na_executionOutcome : option notificationExecutionOutcome;
  na_rehydrationFailed : bool;
}.

Section operations.
Context `{NotifyErrors} `{Addresses} (e : NotifSurroundings) (s : BuildNotificationService).

Definition notif_now : NotifierM Time := λ w,
  (w <| nw_readings := S (nw_readings w) |>, ne_clock e (nw_readings w)).

Definition notif_uuid : NotifierM string := λ w,
  (w <| nw_identifiers := S (nw_identifiers w) |>, ne_uuid e (nw_identifiers w)).

(** What the others do before the next access. *)
Definition notif_interference (w : NotifWorld) : NotifWorld :=
  w <| nw_store := ne_others e (nw_accesses w) (nw_store w) |>
    <| nw_accesses := S (nw_accesses w) |>.

Definition on_notifications {A}
    (f : NotificationDeliveryRepository → NotificationDeliveryRepository * A) : NotifierM A := λ w,
  let w := notif_interference w in
  let '(r, x) := f (nw_store w) in (w <| nw_store := r |>, x).

(** An access to another repository. *)
Definition ask {A} (f : nat → A) : NotifierM A := λ w,
  let w := notif_interference w in (w, f (nw_accesses w)).

Definition handOver (what : option NotificationDelivery) (destination : notificationDestination)
    (content : notificationContent) : NotifierM (option error) := λ w,
  let answer := ne_send e (nw_sent w) destination content in
  (w <| nw_sent := nw_sent w ++ [mkSend what destination content answer] |>, answer).

Definition renderNotificationContent (build : Build) (transport : NotificationTransport)
    : NotifierM (notificationContent + notifyError) :=
  ask (λ n, ne_render e n build transport).

(** ** Sending (notification_execution.go) *)

Definition sendDestination (what : option NotificationDelivery)
    (destination : notificationDestination) (content : notificationContent)
    : NotifierM (option error) :=
  if dn_transport destination == NotificationTransportSlackWebhook then
    if bn_slackSender s then handOver what destination content
    else mret (Some (Errorf "slack sender is not configured"))
  else if dn_transport destination == NotificationTransportSlackDM then
    if bn_slackClient s then handOver what destination content
    else mret (Some (Errorf "slack client is not configured"))
  else if bn_sender s then handOver what destination content
  else mret (Some (Errorf "email sender is not configured")).

Definition notificationIdentity (delivery : NotificationDelivery) : NotificationDelivery := {|
  nd_ID := "";
  nd_BuildID := nd_BuildID delivery;
  nd_EventType := nd_EventType delivery;
  nd_Transport := nd_Transport delivery;
  nd_DestinationKind := nd_DestinationKind delivery;
  nd_DestinationKey := nd_DestinationKey delivery;
  nd_NotificationTargetID := nd_NotificationTargetID delivery;
  nd_RecipientUserID := nd_RecipientUserID delivery;
  nd_SlackWorkspaceIntegrationID := nd_SlackWorkspaceIntegrationID delivery;
  nd_Recipient := nd_Recipient delivery;
  nd_Status := "";
  nd_Attempts := 0;
  nd_MaxAttempts := 0;
  nd_LastAttemptAt := None;
  nd_NextAttemptAt := None;
  nd_ClaimedAt := None;
  nd_ClaimExpiresAt := None;
  nd_ClaimedBy := None;
  nd_FailureCategory := None;
  nd_FailureReason := None;
  nd_LastError := None;
  nd_CreatedAt := zero_time;
  nd_UpdatedAt := zero_time;
  nd_SentAt := None;
|}.

Definition shouldSendOutcome (outcome : NotificationDeliveryClaimOutcome) : bool :=
  (outcome == NotificationDeliveryClaimOutcomeCreatedClaimed)
  || (outcome == NotificationDeliveryClaimOutcomeRetryClaimed)
  || (outcome == NotificationDeliveryClaimOutcomeStaleClaimReclaimed).

Definition notificationClaimRequest (delivery : NotificationDelivery) (at_ : Time)
    : NotificationDeliveryClaimInput :=
  mkNotificationDeliveryClaimInput (notificationIdentity delivery) (bn_claimOwner s) at_
    (bn_claimDuration s) (nrp_maxAttempts (bn_retryPolicy s)).

(** The store draws an identifier for a new delivery. *)
Definition acquireNotification (delivery : NotificationDelivery)
    : NotifierM ((NotificationDeliveryClaimResult * bool) + error) :=
  at_ ← notif_now;
  newID ← notif_uuid;
  result ← on_notifications
    (NotificationDeliveryRepository_AcquireForDelivery newID (notificationClaimRequest delivery at_));
  match result with
  | inr err => mret (inr err)
  | inl result => mret (inl (result, shouldSendOutcome (ncr_Outcome result)))
  end.

Definition destinationDelivery (buildID : string) (eventType : NotificationEventType)
    (destination : notificationDestination) : NotificationDelivery :=
  zero_NotificationDelivery
    <| nd_BuildID := buildID |>
    <| nd_EventType := eventType |>
    <| nd_Transport := dn_transport destination |>
    <| nd_DestinationKind := dn_destinationKind destination |>
    <| nd_DestinationKey := dn_destinationKey destination |>
    <| nd_NotificationTargetID := dn_notificationTargetID destination |>
    <| nd_RecipientUserID := dn_recipientUserID destination |>
    <| nd_SlackWorkspaceIntegrationID := dn_slackWorkspaceIntegrationID destination |>
    <| nd_Recipient := dn_recipient destination |>.

Definition prepareDelivery (buildID : string) (eventType : NotificationEventType)
    (destination : notificationDestination) : NotifierM ((NotificationDelivery * bool) + error) :=
  result ← acquireNotification (destinationDelivery buildID eventType destination);
  match result with
  | inr err => mret (inr err)
  | inl (result, shouldSend) => mret (inl (ncr_Delivery result, shouldSend))
  end.

Definition claimedNotificationTimestamp (delivery : NotificationDelivery) : Time + error :=
  match nd_ClaimedAt delivery with
  | None => inr (Errorf "notification delivery claim timestamp is required")
  | Some at_ =>
      if IsZero at_ then inr (Errorf "notification delivery claim timestamp is required")
      else inl at_
  end.

(** The answer to an update. *)
Definition notificationOutcomeOf (updated : notificationExecutionOutcome)
    (result : NotificationDeliveryUpdateResult + error)
    : notificationExecutionOutcome * option error :=
  match result with
  | inr err => (notificationExecutionOutcomeNone, Some err)
  | inl result =>
      (if nur_Outcome result == NotificationDeliveryUpdateOutcomeLostClaim
       then notificationExecutionOutcomeLostClaim else updated, None)
  end.

Definition markNotificationSent (delivery : NotificationDelivery) (sentAt : Time)
    : NotifierM (notificationExecutionOutcome * option error) :=
  match claimedNotificationTimestamp delivery with
  | inr err => mret (notificationExecutionOutcomeNone, Some err)
  | inl claimedAt =>
      result ← on_notifications (NotificationDeliveryRepository_MarkSent
        (mkNotificationDeliveryMarkSentInput (nd_ID delivery) (bn_claimOwner s) claimedAt sentAt));
      mret (notificationOutcomeOf notificationExecutionOutcomeSent result)
  end.

Definition notificationFailureInput (delivery : NotificationDelivery) (claimedAt attemptedAt : Time)
    (sendErr : notifyError) (nextAttemptAt : option Time) : NotificationDeliveryRecordFailureInput :=
  let decision := classifyNotificationDeliveryFailure (nd_Transport delivery) sendErr in
  mkNotificationDeliveryRecordFailureInput (nd_ID delivery) (bn_claimOwner s) claimedAt attemptedAt
    nextAttemptAt (nfd_category decision) (nfd_reason decision)
    (Some (TrimSpace (notifyError_Error sendErr))).

Definition markNotificationFailed (delivery : NotificationDelivery) (sendErr : notifyError)
    (attemptedAt : Time) : NotifierM (notificationExecutionOutcome * option error) :=
  match claimedNotificationTimestamp delivery with
  | inr err => mret (notificationExecutionOutcomeNone, Some err)
  | inl claimedAt =>
      let retryable :=
        nfd_retryable (classifyNotificationDeliveryFailure (nd_Transport delivery) sendErr) in
      let input := notificationFailureInput delivery claimedAt attemptedAt sendErr in
      if retryable && (nd_Attempts delivery <? nd_MaxAttempts delivery) then
        let nextAttemptAt := attemptedAt
          + notificationRetryPolicy_delayForAttempt (bn_retryPolicy s) (nd_Attempts delivery) in
        result ← on_notifications
          (NotificationDeliveryRepository_RecordRetryableFailure (input (Some nextAttemptAt)));
        mret (notificationOutcomeOf notificationExecutionOutcomeRetryScheduled result)
      else if retryable then
        result ← on_notifications
          (NotificationDeliveryRepository_RecordExhaustedFailure (input None));
        mret (notificationOutcomeOf notificationExecutionOutcomeAttemptsExhausted result)
      else
        result ← on_notifications
          (NotificationDeliveryRepository_RecordPermanentFailure (input None));
        mret (notificationOutcomeOf notificationExecutionOutcomePermanentlyFailed result)
  end.

(** ** Execution (notification_recovery.go) *)

Definition executeClaimedNotification (delivery : NotificationDelivery)
    (destination : notificationDestination) (content : notificationContent)
    : NotifierM (notificationExecutionOutcome * option notifyError) :=
  sendErr ← sendDestination (Some delivery) destination content;
  attemptedAt ← notif_now;
  match sendErr with
  | Some err =>
      let sendErr := GoError err in
      if is_context_error sendErr then mret (notificationExecutionOutcomeNone, Some sendErr)
      else
        '(outcome, updateErr) ← markNotificationFailed delivery sendErr attemptedAt;
        match updateErr with
        | Some updateErr =>
            mret (notificationExecutionOutcomeNone, joinErrors [sendErr; GoError updateErr])
        | None => mret (outcome, Some sendErr)
        end
  | None =>
      if negb (bn_deliveryRepo s) then mret (notificationExecutionOutcomeSent, None)
      else
        '(outcome, updateErr) ← markNotificationSent delivery attemptedAt;
        match updateErr with
        | Some updateErr =>
            let persistErr := retryableNotificationExecutionFailure "delivery_state_persist_failed"
              "persist sent delivery state failed" (Some updateErr) in
            '(_, markErr) ← markNotificationFailed delivery persistErr attemptedAt;
            match markErr with
            | Some markErr =>
                mret (notificationExecutionOutcomeNone, joinErrors [persistErr; GoError markErr])
            | None => mret (notificationExecutionOutcomeRetryScheduled, Some persistErr)
            end
        | None => mret (outcome, None)
        end
  end.

(** One turn of the loop of [sendTerminalNotification]: an error that ends it, or
    the error it leaves. *)
Definition sendToDestination (build : Build) (eventType : NotificationEventType)
    (destination : notificationDestination) : NotifierM (option notifyError + notifyError) :=
  if negb (bn_deliveryRepo s) then
    content ← renderNotificationContent build (dn_transport destination);
    match content with
    | inr renderErr => mret (inl (Some renderErr))
    | inl content =>
        sendErr ← sendDestination None destination content;
        mret (inl (GoError <$> sendErr))
    end
  else
    prepared ← prepareDelivery (b_ID build) eventType destination;
    match prepared with
    | inr err => mret (inr (GoError err))
    | inl (_, false) => mret (inl None)
    | inl (delivery, true) =>
        content ← renderNotificationContent build (dn_transport destination);
        match content with
        | inr renderErr =>
            if is_context_error renderErr then mret (inr renderErr)
            else
              at_ ← notif_now;
              '(_, markErr) ← markNotificationFailed delivery renderErr at_;
              mret (inl (Some (match markErr with Some markErr => GoError markErr | None => renderErr end)))
        | inl content =>
            '(_, executeErr) ← executeClaimedNotification delivery destination content;
            mret (inl executeErr)
        end
    end.

Fixpoint sendTerminalLoop (build : Build) (eventType : NotificationEventType)
    (destinations : list notificationDestination) (sendErrs : list notifyError)
    : NotifierM (option notifyError) :=
  match destinations with
  | [] => mret (joinErrors sendErrs)
  | destination :: destinations =>
      result ← sendToDestination build eventType destination;
      match result with
      | inr err => mret (Some err)
      | inl None => sendTerminalLoop build eventType destinations sendErrs
      | inl (Some err) => sendTerminalLoop build eventType destinations (sendErrs ++ [err])
      end
  end.

Definition sendTerminalNotification (build : Build) (eventType : NotificationEventType)
    (destinations : list notificationDestination) : NotifierM (option notifyError) :=
  sendTerminalLoop build eventType destinations [].

(** ** Planning (notification_planning.go) *)

Definition resolveConfiguredEmailDestination (recipient : string)
    : NotifierM (notificationDestination + error) :=
  match bn_subscriptionRepo s with
  | None =>
      match parseNotificationRecipient (Some recipient) with
      | None =>
          mret (inr (Errorf ("invalid email notification recipient " +:+ Quote (TrimSpace recipient))))
      | Some parsedRecipient =>
          match ParseAddress parsedRecipient with
          | inr err =>
              mret (inr (Wrap ("invalid email notification recipient "
                                +:+ Quote (TrimSpace recipient)) err))
          | inl (address, _) =>
              mret (inl (mkNotificationDestination NotificationTransportEmail
                NotificationDestinationKindSharedTarget
                ("email-config:" +:+ ToLower (TrimSpace address)) None None None
                parsedRecipient parsedRecipient "" "" ""))
          end
      end
  | Some subscriptionRepo =>
      at_ ← notif_now;
      target ← ask (λ n, EnsureConfigEmailTarget subscriptionRepo n
        (mkEnsureConfigNotificationEmailTargetInput "" recipient recipient at_ at_));
      match target with
      | inr err => mret (inr err)
      | inl target => mret (notificationTargetDestination target)
      end
  end.

Fixpoint configuredDestinations (recipients : list string)
    : NotifierM (list notificationDestination + error) :=
  match recipients with
  | [] => mret (inl [])
  | recipient :: recipients =>
      destination ← resolveConfiguredEmailDestination recipient;
      match destination with
      | inr err => mret (inr err)
      | inl destination =>
          rest ← configuredDestinations recipients;
          match rest with
          | inr err => mret (inr err)
          | inl destinations => mret (inl (destination :: destinations))
          end
      end
  end.

Definition is_blank_destination (destination : notificationDestination) : bool :=
  (dn_recipient destination == "") && (dn_emailRecipient destination == "")
  && (dn_webhookURL destination == "").

Fixpoint matchDestinations (matches : list NotificationSubscriptionMatch)
    : list notificationDestination + error :=
  match matches with
  | [] => inl []
  | m :: matches =>
      match notificationTargetDestination (nsm_Target m) with
      | inr err => inr err
      | inl destination =>
          match matchDestinations matches with
          | inr err => inr err
          | inl destinations =>
              inl (if is_blank_destination destination then destinations
                   else destination :: destinations)
          end
      end
  end.

Definition resolveCommitAuthorEmailDestination (subscriptionRepo : notificationSubscriptionRepository)
    (userID : string) : NotifierM (option notificationDestination + error) :=
  target ← ask (λ n, GetOwnedEmailTargetByUserID subscriptionRepo n userID);
  match target with
  | inr err =>
      mret (if errors_Is err ErrNotificationTargetNotFound then inl None else inr err)
  | inl target =>
      if negb (nt_Enabled target) then mret (inl None)
      else if TrimSpace (nt_Recipient target) == "" then mret (inl None)
      else match personalEmailTargetDestination target with
           | inr err => mret (inr err)
           | inl destination => mret (inl (Some destination))
           end
  end.

Definition resolveCommitAuthorSlackDestination (user : User)
    : NotifierM (option notificationDestination + error) :=
  match bn_identityRepo s, bn_workspaceRepo s, bn_slackClient s with
  | Some identityRepo, Some workspaceRepo, true =>
      identity ← ask (λ n, identityRepo n (us_ID user));
      match identity with
      | inr err => mret (if errors_Is err ErrUserSlackIdentityNotFound then inl None else inr err)
      | inl identity =>
          if negb (ui_Enabled identity) then mret (inl None)
          else
            integration ← ask workspaceRepo;
            match integration with
            | inr err =>
                mret (if errors_Is err ErrSlackWorkspaceIntegrationNotFound then inl None else inr err)
            | inl integration =>
                if negb (wi_Enabled integration)
                   || (wi_ID integration != ui_SlackWorkspaceIntegrationID identity)
                then mret (inl None)
                else if (TrimSpace (wi_BotTokenSecret integration) == "")
                        || negb (IsSlackUserID (TrimSpace (ui_SlackUserID identity)))
                then mret (inl None)
                else match slackDMDestination (us_ID user) (wi_ID integration)
                             (ui_SlackUserID identity) (wi_BotTokenSecret integration) with
                     | inr err => mret (inr err)
                     | inl destination => mret (inl (Some destination))
                     end
            end
      end
  | _, _, _ => mret (inl None)
  end.

(** The e-mail address and then the Slack account of a commit's author, as far as
    the preference enables them. *)
Definition authorDestinations (subscriptionRepo : notificationSubscriptionRepository) (user : User)
    (emailEnabled slackEnabled : bool) : NotifierM (list notificationDestination + error) :=
  email ← (if emailEnabled : bool
           then resolveCommitAuthorEmailDestination subscriptionRepo (us_ID user)
           else mret (inl None));
  match email with
  | inr err => mret (inr err)
  | inl email =>
      slack ← (if slackEnabled : bool then resolveCommitAuthorSlackDestination user
               else mret (inl None));
      match slack with
      | inr err => mret (inr err)
      | inl slack => mret (inl (option_list email ++ option_list slack))
      end
  end.

Definition resolveCommitAuthorDestinations (build : Build) (eventType : NotificationEventType)
    : NotifierM (list notificationDestination + error) :=
  match bn_userRepo s, bn_preferenceRepo s, bn_subscriptionRepo s with
  | Some userRepo, Some preferenceRepo, Some subscriptionRepo =>
      let authorEmail := normalizeCommitAuthorEmail (b_SourceAuthorEmail build) in
      if authorEmail == "" then mret (inl [])
      else
        user ← ask (λ n, userRepo n authorEmail);
        match user with
        | inr err => mret (if errors_Is err ErrUserNotFound then inl [] else inr err)
        | inl user =>
            preference ← ask (λ n, preferenceRepo n (us_ID user));
            match preference with
            | inr err =>
                mret (if errors_Is err ErrUserNotificationPreferenceNotFound then inl [] else inr err)
            | inl preference =>
                if eventType == NotificationEventTypeBuildFailed
                then authorDestinations subscriptionRepo user
                       (up_CommitAuthorFailureEmailEnabled preference)
                       (up_CommitAuthorFailureSlackEnabled preference)
                else if eventType == NotificationEventTypeBuildSucceeded
                then authorDestinations subscriptionRepo user
                       (up_CommitAuthorSuccessEmailEnabled preference)
                       (up_CommitAuthorSuccessSlackEnabled preference)
                else mret (inl [])
            end
        end
  | _, _, _ => mret (inl [])
  end.

Definition resolveSharedDestinations (build : Build) (eventType : NotificationEventType)
    : NotifierM (list notificationDestination + error) :=
  match bn_subscriptionRepo s with
  | None => configuredDestinations (bn_defaultRecipients s)
  | Some subscriptionRepo =>
      matches ← ask (λ n, ListEnabledMatchesForBuildEvent subscriptionRepo n build eventType);
      match matches with
      | inr err => mret (inr err)
      | inl [] => configuredDestinations (bn_defaultRecipients s)
      | inl matches => mret (matchDestinations matches)
      end
  end.

Definition resolveTerminalDestinations (build : Build) (eventType : NotificationEventType)
    : NotifierM (list notificationDestination + error) :=
  shared ← resolveSharedDestinations build eventType;
  match shared with
  | inr err => mret (inr err)
  | inl destinations =>
      if (eventType == NotificationEventTypeBuildFailed)
         || (eventType == NotificationEventTypeBuildSucceeded) then
        personal ← resolveCommitAuthorDestinations build eventType;
        match personal with
        | inr err => mret (inr err)
        | inl personal => mret (inl (dedupeDestinations (destinations ++ personal)))
        end
      else mret (inl (dedupeDestinations destinations))
  end.

(** notifications.go. *)
Definition NotifyTerminalBuild (build : Build) : NotifierM (option notifyError) :=
  if negb (bn_enabled s) then mret None
  else if negb (shouldNotifyBuildStatus (b_Status build)) then mret None
  else match buildStatusNotificationEventType (b_Status build) with
       | None => mret None
       | Some eventType =>
           destinations ← resolveTerminalDestinations build eventType;
           match destinations with
           | inr err => mret (Some (GoError err))
           | inl [] => mret None
           | inl destinations => sendTerminalNotification build eventType destinations
           end
       end.

(** ** Recovery (notification_recovery.go) *)

Definition invalidMetadata (message : string) (cause : option error) : notifyError :=
  permanentNotificationExecutionFailure "delivery_metadata_invalid" message cause.

Definition rehydrationFailure (message : string) (cause : option error) : notifyError :=
  retryableNotificationExecutionFailure "rehydration_failed" message cause.

(** The last check of every kind of destination. *)
Definition sameDestination (delivery : NotificationDelivery) (reason invalid mismatch : string)
    (destination : notificationDestination + error) : notificationDestination + notifyError :=
  match destination with
  | inr err => inr (invalidMetadata invalid (Some err))
  | inl destination =>
      if dn_destinationKey destination != nd_DestinationKey delivery
      then inr (permanentNotificationExecutionFailure reason mismatch None)
      else inl destination
  end.

Definition rehydrateSharedEmailDestination (delivery : NotificationDelivery)
    : NotifierM (notificationDestination + notifyError) :=
  match nd_NotificationTargetID delivery, bn_subscriptionRepo s with
  | None, _ =>
      mret (inr (invalidMetadata "shared email delivery target reference is missing" None))
  | Some _, None =>
      mret (inr (rehydrationFailure "notification subscription repository is not configured" None))
  | Some targetID, Some subscriptionRepo =>
      target ← ask (λ n, GetTargetByID subscriptionRepo n (TrimSpace targetID));
      mret match target with
      | inr err =>
          if errors_Is err ErrNotificationTargetNotFound
          then inr (permanentNotificationExecutionFailure "shared_target_missing"
                      "notification target no longer exists" (Some err))
          else inr (rehydrationFailure "notification target lookup failed" (Some err))
      | inl target =>
          if negb (nt_Enabled target)
          then inr (permanentNotificationExecutionFailure "shared_target_disabled"
                      "notification target is disabled" None)
          else match ValidateExplicitNotificationTarget target with
          | inr err => inr (invalidMetadata "notification target metadata is invalid" (Some err))
          | inl target =>
              if (nt_Type target != NotificationTargetTypeEmail)
                 || match nt_OwnerUserID target with Some _ => true | None => false end
              then inr (invalidMetadata
                "notification target type no longer matches the persisted delivery" None)
              else sameDestination delivery "shared_target_mismatch"
                "notification target metadata is invalid"
                "notification target no longer matches the persisted logical destination"
                (notificationTargetDestination target)
          end
      end
  end.

Definition rehydratePersonalEmailDestination (delivery : NotificationDelivery)
    : NotifierM (notificationDestination + notifyError) :=
  match nd_NotificationTargetID delivery, bn_subscriptionRepo s with
  | None, _ =>
      mret (inr (invalidMetadata "personal email delivery target reference is missing" None))
  | Some _, None =>
      mret (inr (rehydrationFailure "notification subscription repository is not configured" None))
  | Some targetID, Some subscriptionRepo =>
      target ← ask (λ n, GetTargetByID subscriptionRepo n (TrimSpace targetID));
      mret match target with
      | inr err =>
          if errors_Is err ErrNotificationTargetNotFound
          then inr (permanentNotificationExecutionFailure "personal_email_target_missing"
                      "personal notification target no longer exists" (Some err))
          else inr (rehydrationFailure "personal notification target lookup failed" (Some err))
      | inl target =>
          if negb (nt_Enabled target)
          then inr (permanentNotificationExecutionFailure "personal_email_target_disabled"
                      "personal notification target is disabled" None)
          else match nt_OwnerUserID target with
          | None => inr (invalidMetadata "personal notification target metadata is invalid" None)
          | Some owner =>
              if nt_Type target != NotificationTargetTypeEmail
              then inr (invalidMetadata "personal notification target metadata is invalid" None)
              else if match nd_RecipientUserID delivery with
                      | Some userID => TrimSpace userID != TrimSpace owner
                      | None => false
                      end
              then inr (permanentNotificationExecutionFailure "personal_email_target_mismatch"
                          "personal notification target no longer matches the persisted user" None)
              else sameDestination delivery "personal_email_target_mismatch"
                "personal notification target metadata is invalid"
                "personal notification target no longer matches the persisted logical destination"
                (personalEmailTargetDestination target)
          end
      end
  end.

Definition rehydrateSlackWebhookDestination (delivery : NotificationDelivery)
    : NotifierM (notificationDestination + notifyError) :=
  match nd_NotificationTargetID delivery, bn_subscriptionRepo s with
  | None, _ =>
      mret (inr (invalidMetadata "slack webhook delivery target reference is missing" None))
  | Some _, None =>
      mret (inr (rehydrationFailure "notification subscription repository is not configured" None))
  | Some targetID, Some subscriptionRepo =>
      target ← ask (λ n, GetTargetByID subscriptionRepo n (TrimSpace targetID));
      mret match target with
      | inr err =>
          if errors_Is err ErrNotificationTargetNotFound
          then inr (permanentNotificationExecutionFailure "shared_target_missing"
                      "slack webhook target no longer exists" (Some err))
          else inr (rehydrationFailure "slack webhook target lookup failed" (Some err))
      | inl target =>
          if negb (nt_Enabled target)
          then inr (permanentNotificationExecutionFailure "shared_target_disabled"
                      "slack webhook target is disabled" None)
          else if nt_Type target != NotificationTargetTypeSlackWebhook
          then inr (invalidMetadata
            "slack webhook target type no longer matches the persisted delivery" None)
          else sameDestination delivery "shared_target_mismatch"
            "slack webhook target metadata is invalid"
            "slack webhook target no longer matches the persisted logical destination"
            (notificationTargetDestination target)
      end
  end.

(** The Slack account of an identity, through the workspace. *)
Definition rehydrateSlackAccount (delivery : NotificationDelivery) (workspaceID : string)
    (identity : UserSlackIdentity) (integration : SlackWorkspaceIntegration)
    : notificationDestination + notifyError :=
  if negb (wi_Enabled integration)
  then inr (permanentNotificationExecutionFailure "slack_workspace_integration_disabled"
              "slack workspace integration is disabled" None)
  else if TrimSpace (wi_ID integration) != TrimSpace workspaceID
  then inr (permanentNotificationExecutionFailure "slack_workspace_integration_mismatch"
              "slack workspace integration no longer matches the persisted delivery" None)
  else if (TrimSpace (wi_BotTokenSecret integration) == "")
          || negb (IsSlackUserID (TrimSpace (ui_SlackUserID identity)))
  then inr (permanentNotificationExecutionFailure "slack_workspace_credentials_missing"
              "slack delivery credentials are unavailable" None)
  else sameDestination delivery "slack_identity_mismatch"
    "slack identity delivery metadata is invalid"
    "slack identity no longer matches the persisted logical destination"
    (slackDMDestination (ui_UserID identity) (wi_ID integration) (ui_SlackUserID identity)
       (wi_BotTokenSecret integration)).

Definition rehydrateSlackDMDestination (delivery : NotificationDelivery)
    : NotifierM (notificationDestination + notifyError) :=
  match nd_RecipientUserID delivery, nd_SlackWorkspaceIntegrationID delivery with
  | Some userID, Some workspaceID =>
      match bn_identityRepo s, bn_workspaceRepo s, bn_slackClient s with
      | Some identityRepo, Some workspaceRepo, true =>
          identity ← ask (λ n, identityRepo n (TrimSpace userID));
          match identity with
          | inr err =>
              mret (inr (if errors_Is err ErrUserSlackIdentityNotFound
                then permanentNotificationExecutionFailure "slack_identity_missing"
                       "slack identity no longer exists" (Some err)
                else rehydrationFailure "slack identity lookup failed" (Some err)))
          | inl identity =>
              if negb (ui_Enabled identity)
              then mret (inr (permanentNotificationExecutionFailure "slack_identity_disabled"
                                "slack identity is disabled" None))
              else if TrimSpace (ui_SlackWorkspaceIntegrationID identity) != TrimSpace workspaceID
              then mret (inr (permanentNotificationExecutionFailure "slack_identity_mismatch"
                                "slack identity no longer matches the persisted workspace" None))
              else
                integration ← ask workspaceRepo;
                mret match integration with
                | inr err =>
                    inr (if errors_Is err ErrSlackWorkspaceIntegrationNotFound
                      then permanentNotificationExecutionFailure "slack_workspace_integration_missing"
                             "slack workspace integration is unavailable" (Some err)
                      else rehydrationFailure "slack workspace integration lookup failed" (Some err))
                | inl integration => rehydrateSlackAccount delivery workspaceID identity integration
                end
          end
      | _, _, _ =>
          mret (inr (rehydrationFailure "slack delivery dependencies are not configured" None))
      end
  | _, _ => mret (inr (invalidMetadata "slack identity delivery references are missing" None))
  end.

Definition rehydrateDestination (delivery : NotificationDelivery)
    : NotifierM (notificationDestination + notifyError) :=
  let invalid := mret (inr (invalidMetadata "notification delivery transport metadata is invalid" None)) in
  let kind := nd_DestinationKind delivery in
  if nd_Transport delivery == NotificationTransportEmail then
    if kind == NotificationDestinationKindSharedTarget then rehydrateSharedEmailDestination delivery
    else if kind == NotificationDestinationKindPersonalEmail
    then rehydratePersonalEmailDestination delivery else invalid
  else if nd_Transport delivery == NotificationTransportSlackWebhook then
    if kind == NotificationDestinationKindSharedTarget then rehydrateSlackWebhookDestination delivery
    else invalid
  else if nd_Transport delivery == NotificationTransportSlackDM then
    if kind == NotificationDestinationKindSlackIdentity then rehydrateSlackDMDestination delivery
    else invalid
  else invalid.

Definition rehydrateDelivery (delivery : NotificationDelivery)
    : NotifierM ((Build * notificationDestination) + notifyError) :=
  match bn_buildRepo s with
  | None => mret (inr (invalidMetadata "notification build repository is not configured" None))
  | Some buildRepo =>
      build ← ask (λ n, buildRepo n (nd_BuildID delivery));
      match build with
      | inr err =>
          mret (inr (if errors_Is err ErrBuildNotFound
            then permanentNotificationExecutionFailure "build_unavailable"
                   "notification build is no longer available" (Some err)
            else rehydrationFailure "notification build rehydration failed" (Some err)))
      | inl build =>
          if bool_decide (buildStatusNotificationEventType (b_Status build)
                          = Some (nd_EventType delivery)) then
            destination ← rehydrateDestination delivery;
            match destination with
            | inr err => mret (inr err)
            | inl destination => mret (inl (build, destination))
            end
          else mret (inr (permanentNotificationExecutionFailure "build_event_mismatch"
            "notification build event no longer matches the persisted delivery" None))
      end
  end.

Definition recoverNotification (candidate : NotificationDelivery)
    : NotifierM (notificationRecoveryAttemptResult * option notifyError) :=
  acquired ← acquireNotification candidate;
  match acquired with
  | inr err => mret (mkNotificationRecoveryAttemptResult None None false, Some (GoError err))
  | inl (claimResult, shouldSend) =>
      let claimed := ncr_Delivery claimResult in
      let result := mkNotificationRecoveryAttemptResult (Some (ncr_Outcome claimResult)) in
      let failRehydration err :=
        if is_context_error err then mret (result None false, Some err)
        else
          at_ ← notif_now;
          '(outcome, markErr) ← markNotificationFailed claimed err at_;
          mret (result (Some outcome) true, GoError <$> markErr) in
      if negb shouldSend then mret (result None false, None)
      else
        rehydrated ← rehydrateDelivery claimed;
        match rehydrated with
        | inr rehydrateErr => failRehydration rehydrateErr
        | inl (build, destination) =>
            content ← renderNotificationContent build (dn_transport destination);
            match content with
            | inr renderErr => failRehydration renderErr
            | inl content =>
                '(outcome, executeErr) ← executeClaimedNotification claimed destination content;
                mret (result (Some outcome) false, executeErr)
            end
        end
  end.

End operations.

(** ** The drain (notification_recovery_drain.go) *)

Record NotificationRecoveryIterationResult := mkNotificationRecoveryIterationResult {
  nir_Scanned : Z;
  nir_ClaimAcquired : Z;
  nir_RetryClaimed : Z;
  nir_StaleClaimReclaimed : Z;
  nir_SkippedContention : Z;
  nir_SkippedNotDue : Z;
  nir_SkippedTerminal : Z;
  nir_Skipped : Z;
  nir_Sent : Z;
  nir_RetryScheduled : Z;
  nir_PermanentlyFailed : Z;
  nir_AttemptsExhausted : Z;
  nir_LostClaim : Z;
  nir_RehydrationFailed : Z;
  nir_Errors : Z;
}.

#[export] Instance eta_NotificationRecoveryIterationResult :
    Eta NotificationRecoveryIterationResult := λ r,
  mkNotificationRecoveryIterationResult (nir_Scanned r) (nir_ClaimAcquired r) (nir_RetryClaimed r)
    (nir_StaleClaimReclaimed r) (nir_SkippedContention r) (nir_SkippedNotDue r)
    (nir_SkippedTerminal r) (nir_Skipped r) (nir_Sent r) (nir_RetryScheduled r)
    (nir_PermanentlyFailed r) (nir_AttemptsExhausted r) (nir_LostClaim r) (nir_RehydrationFailed r)
    (nir_Errors r).

Definition scanned_result (n : Z) : NotificationRecoveryIterationResult :=
  mkNotificationRecoveryIterationResult n 0 0 0 0 0 0 0 0 0 0 0 0 0 0.

Definition countNotificationClaim (outcome : option NotificationDeliveryClaimOutcome)
    (result : NotificationRecoveryIterationResult) : NotificationRecoveryIterationResult :=
  let skipped := result <| nir_Skipped := int64_add (nir_Skipped result) 1 |> in
  match outcome with
  | Some NotificationDeliveryClaimOutcomeCreatedClaimed =>
      result <| nir_ClaimAcquired := int64_add (nir_ClaimAcquired result) 1 |>
  | Some NotificationDeliveryClaimOutcomeRetryClaimed =>
      result <| nir_RetryClaimed := int64_add (nir_RetryClaimed result) 1 |>
  | Some NotificationDeliveryClaimOutcomeStaleClaimReclaimed =>
      result <| nir_StaleClaimReclaimed := int64_add (nir_StaleClaimReclaimed result) 1 |>
  | Some NotificationDeliveryClaimOutcomeClaimedByOther =>
      skipped <| nir_SkippedContention := int64_add (nir_SkippedContention result) 1 |>
  | Some NotificationDeliveryClaimOutcomeRetryNotDue =>
      skipped <| nir_SkippedNotDue := int64_add (nir_SkippedNotDue result) 1 |>
  | Some _ => skipped <| nir_SkippedTerminal := int64_add (nir_SkippedTerminal result) 1 |>
  | None => skipped
  end.

Definition countNotificationExecution (outcome : option notificationExecutionOutcome)
    (result : NotificationRecoveryIterationResult) : NotificationRecoveryIterationResult :=
  match outcome with
  | None | Some notificationExecutionOutcomeNone => result
  | Some notificationExecutionOutcomeSent => result <| nir_Sent := int64_add (nir_Sent result) 1 |>
  | Some notificationExecutionOutcomeRetryScheduled =>
      result <| nir_RetryScheduled := int64_add (nir_RetryScheduled result) 1 |>
  | Some notificationExecutionOutcomePermanentlyFailed =>
      result <| nir_PermanentlyFailed := int64_add (nir_PermanentlyFailed result) 1 |>
  | Some notificationExecutionOutcomeAttemptsExhausted =>
      result <| nir_AttemptsExhausted := int64_add (nir_AttemptsExhausted result) 1 |>
  | Some notificationExecutionOutcomeLostClaim =>
      result <| nir_LostClaim := int64_add (nir_LostClaim result) 1 |>
  end.

Definition applyNotificationAttempt (attempt : notificationRecoveryAttemptResult)
    (result : NotificationRecoveryIterationResult) : NotificationRecoveryIterationResult :=
  let result := countNotificationClaim (na_claimOutcome attempt) result in
  let result :=
    if na_rehydrationFailed attempt
    then result <| nir_RehydrationFailed := int64_add (nir_RehydrationFailed result) 1 |>
    else result in
  countNotificationExecution (na_executionOutcome attempt) result.

Section drain.
Context `{NotifyErrors} `{Addresses} (e : NotifSurroundings) (s : BuildNotificationService).

Fixpoint recoverNotifications (candidates : list NotificationDelivery)
    (result : NotificationRecoveryIterationResult) (errs : list notifyError)
    : NotifierM (NotificationRecoveryIterationResult * option notifyError) :=
  match candidates with
  | [] => mret (result, joinErrors errs)
  | candidate :: candidates =>
      '(attempt, recoverErr) ← recoverNotification e s candidate;
      let result := applyNotificationAttempt attempt result in
      match recoverErr with
      | None => recoverNotifications candidates result errs
      | Some err =>
          recoverNotifications candidates (result <| nir_Errors := int64_add (nir_Errors result) 1 |>)
            (errs ++ [Labelled ("delivery " +:+ nd_ID candidate) err])
      end
  end.

Definition NotificationRecoveryDrain_RunIteration (batchSize : Z)
    : NotifierM (NotificationRecoveryIterationResult * option notifyError) :=
  at_ ← notif_now e;
  found ← on_notifications e (λ r, (r, NotificationDeliveryRepository_ListRecoverable
            (mkNotificationDeliveryRecoverableScanInput at_ batchSize) r));
  match found with
  | inr err => mret (scanned_result 0, Some (GoError err))
  | inl candidates =>
      recoverNotifications candidates (scanned_result (Z.of_nat (length candidates))) []
  end.

(** What [NewNotificationRecoveryDrain] asks for. *)
Definition NewNotificationRecoveryDrain (interval batchSize : Z) : option error :=
  if negb (bn_deliveryRepo s)
  then Some (Errorf "notification recovery drain requires a delivery repository")
  else match bn_buildRepo s with
       | None => Some (Errorf "notification recovery drain requires a build repository")
       | Some _ =>
           if interval <=? 0
           then Some (Errorf "notification recovery drain interval must be positive")
           else if batchSize <=? 0
           then Some (Errorf "notification recovery drain batch size must be positive")
           else None
       end.
End drain.

(** ** The service (notifications.go) *)

(** A service made from a configuration, whose other fields [cfg] already holds. *)
Definition NewBuildNotificationService `{Addresses} (durationText : Z → string)
    (cfg : BuildNotificationService) (recipients claimOwner : string) (claimDuration : Z)
    : BuildNotificationService + error :=
  match (if bn_enabled cfg then parseNotificationRecipients recipients else inl []) with
  | inr err => inr err
  | inl recipients =>
      let claimDuration := notificationClaimDuration claimDuration in
      match validateNotificationClaimDuration durationText claimDuration with
      | Some err => inr err
      | None =>
          inl (mkBuildNotificationService (bn_enabled cfg) recipients (bn_sender cfg)
            (bn_slackSender cfg) (bn_slackClient cfg) (bn_buildRepo cfg) (bn_deliveryRepo cfg)
            (bn_subscriptionRepo cfg) (bn_userRepo cfg) (bn_preferenceRepo cfg)
            (bn_identityRepo cfg) (bn_workspaceRepo cfg) (notificationClaimOwner claimOwner)
            claimDuration defaultNotificationRetryPolicy)
      end
  end.
