(* ===== verification/NotifierFacts.v ===== *)
(** The accesses of the notifier to its store: each is a call the store allows
    for, and a claim that is granted is an attempt more.  An operation is [fit]
    when it sends no more often than it claims. *)

From stdpp Require Import base gmap strings list pretty sorting numbers.
From S2P Require Import Prelude GoLib GoPath GoText Domain Repository DeliverySpec ScmDelivery ScmRepo.
From S2P Require Import ScmFacts ScmReporter NotifDelivery NotifRepo NotifFacts NotifViews.
From S2P Require Import NotifThms NotifDestinations Notifier.

Open Scope go_scope.
Open Scope Z_scope.

Implicit Types (d : NotificationDelivery) (r : NotificationDeliveryRepository) (w : NotifWorld).

Local Abbreviation norm := NotificationDelivery_Normalize.

(** ** The store while the notifier runs *)

(** What is known of a key will not change any more. *)
Definition finished r (key : string) : Prop :=
  ∃ v, notif_view r key = Some v ∧ final (pg_phase v.2) = true.

Lemma finished_steps r r' key : notif_ok r → rtc notif_step r r' → finished r key → finished r' key.
Proof. intros Hr Hs (v&Hv&Hf). exists v. split; [|done]. by eapply notif_final_view. Qed.

(** The attempts made so far. *)
Definition attempts_of r (key : string) : Z :=
  match notif_view r key with Some v => pg_attempts v.2 | None => 0 end.

Lemma finished_attempts r r' key :
  notif_ok r → rtc notif_step r r' → finished r key → attempts_of r' key = attempts_of r key.
Proof.
  intros Hr Hs (v&Hv&Hf). unfold attempts_of. by rewrite (notif_final_view _ _ _ _ Hr Hs Hv Hf), Hv.
Qed.

Lemma attempts_max r key v : notif_ok r → notif_view r key = Some v → attempts_of r key ≤ pg_max v.2.
Proof.
  intros Hr Hv. unfold attempts_of. rewrite Hv. destruct v as [a g].
  destruct (notif_view_inv _ _ _ _ Hr Hv) as (id&d&_&_&_&<-&_&Hw). by apply (wn_attempts d Hw).
Qed.

Lemma attempts_nonneg r key : notif_ok r → 0 ≤ attempts_of r key.
Proof.
  intros Hr. unfold attempts_of. destruct (notif_view r key) as [[a g]|] eqn:Hv; [|done].
  destruct (notif_view_inv _ _ _ _ Hr Hv) as (id&d&_&_&_&<-&_&Hw). by apply (wn_attempts d Hw).
Qed.

Lemma attempts_step r r' key : notif_ok r → notif_step r r' → attempts_of r key ≤ attempts_of r' key.
Proof.
  intros Hr Hs. pose proof (notif_step_view _ _ key Hr Hs) as H. unfold attempts_of.
  destruct (notif_view r key) as [[a g]|] eqn:Ev, (notif_view r' key) as [v'|]; [| |destruct H as (?&?&?&?&_&_&->)|];
    cbn; try done.
  destruct H as [_ [->|H]]; [done|]. cbn [snd] in H |- *.
  destruct (notif_view_inv _ _ _ _ Hr Ev) as (id&d&_&_&_&Hg&_&Hw).
  pose proof (wn_attempts d Hw) as Hn. unfold notif_progress in Hg. rewrite <-Hg in H.
  rewrite <-Hg. inversion H; cbn in *; lia.
Qed.

Lemma attempts_steps r r' key : notif_ok r → rtc notif_step r r' → attempts_of r key ≤ attempts_of r' key.
Proof.
  intros Hr H. induction H as [|r r1 r2 H _ IH]; [done|].
  pose proof (attempts_step _ _ key Hr H). pose proof (IH (notif_step_ok _ _ Hr H)). lia.
Qed.

(** A claim is an attempt. *)
Lemma claim_attempt r r' d owner since until :
  notif_ok r → writes r r' d → notif_phase d = Sending owner since until →
  attempts_of r' (logicalKey d) = attempts_of r (logicalKey d) + 1.
Proof.
  intros Hr Hw Hph. pose proof (writes_ok _ _ _ Hr Hw) as Hr'. unfold attempts_of.
  destruct Hw as [id d0 d' r1 Hl Hw Hi Ha Hp E|d' r1 Hk Hl Ht Hn Hw Hp E].
  - rewrite (notif_view_lookup r1 id d' Hr') by (rewrite E; apply lookup_insert_eq).
    rewrite (logicalKey_addressee _ _ Ha), (notif_view_lookup r id d0 Hr Hl). cbn [snd].
    unfold notif_progress in Hp |- *. rewrite Hph in Hp. by inversion Hp.
  - rewrite (notif_view_lookup r1 (nd_ID d') d' Hr') by (rewrite E; apply lookup_insert_eq).
    unfold notif_view. rewrite Hk. destruct Hp as (?&?&?&?&_&_&Eg). cbn [snd mbind option_bind].
    by rewrite Eg.
Qed.

Lemma writes_destination r r' d : writes r r' d → nd_DestinationKey d ≠ "".
Proof.
  intros Hw E. assert (Hv : NotificationDelivery_Validate d = None) by (by destruct Hw; apply wn_valid).
  apply notif_valid_iff in Hv as [Hv _]. revert Hv. unfold NotificationDelivery_ValidateIdentity.
  change (nd_DestinationKey (norm d)) with (TrimSpace (nd_DestinationKey d)). rewrite E.
  rewrite no_failed_check. cbn. intros Hv. do 4 apply Forall_inv_tail in Hv. by apply Forall_inv in Hv.
Qed.

(** ** Sends *)

Definition send_key (x : Send) : option string := logicalKey <$> sn_for x.

Definition sends_of (l : list Send) (key : string) : Z :=
  Z.of_nat (length (filter (λ x, send_key x = Some key) l)).

Lemma sends_app l1 l2 key : sends_of (l1 ++ l2) key = sends_of l1 key + sends_of l2 key.
Proof. unfold sends_of. rewrite list.filter_app, length_app. lia. Qed.

(** The key of the notification of an event to a destination. *)
Definition noticeKey (buildID : string) (eventType : NotificationEventType)
    (destination : notificationDestination) : string :=
  logicalKey (destinationDelivery buildID eventType destination).

(** What is sent goes to the destination of its delivery. *)
Definition addressed (x : Send) : Prop :=
  ∃ d buildID eventType, sn_for x = Some d ∧ noticeKey buildID eventType (sn_destination x) = logicalKey d.

Section notifier.
Context `{NotifyErrors} `{Addresses} (e : NotifSurroundings) (s : BuildNotificationService).

(** The others use the store as it allows for and draw identifiers of their own;
    the clock is past the year 1. *)
Record notif_surroundings_ok : Prop := {
  nso_others n r : rtc notif_step r (ne_others e n r);
  nso_fresh n r i : nr_deliveries r !! ne_uuid e i = None →
    nr_deliveries (ne_others e n r) !! ne_uuid e i = None;
  nso_clock i : zero_time < ne_clock e i;
  nso_uuid i : TrimSpace (ne_uuid e i) = ne_uuid e i ∧ ne_uuid e i ≠ "";
  nso_uuid_inj i j : ne_uuid e i = ne_uuid e j → i = j;
}.

Context (Hs : notif_surroundings_ok) (Hp : nrp_maxAttempts (bn_retryPolicy s) ≤ max_int64).

Definition notif_world_ok w : Prop :=
  notif_reachable (nw_store w) ∧
  ∀ i, (nw_identifiers w ≤ i)%nat → nr_deliveries (nw_store w) !! ne_uuid e i = None.

(** From one world to a later one, with [c] more sends of a key than attempts at
    most. *)
Record proceeds (c : string → Z) w w' : Prop := {
  pr_world : notif_world_ok w';
  pr_steps : rtc notif_step (nw_store w) (nw_store w');
  pr_sent : ∃ new, nw_sent w' = nw_sent w ++ new ∧ Forall addressed new;
  pr_paid key : sends_of (nw_sent w') key - sends_of (nw_sent w) key ≤
    attempts_of (nw_store w') key - attempts_of (nw_store w) key + c key;
}.

Definition free : string → Z := λ _, 0.

(** Steps of the store alone, which send nothing. *)
Lemma proceeds_silent c w w' :
  notif_world_ok w → notif_world_ok w' → rtc notif_step (nw_store w) (nw_store w') →
  nw_sent w' = nw_sent w → (∀ key, 0 ≤ c key) → proceeds c w w'.
Proof.
  intros [Hr _] Hw' Hst E Hc. split; [done..|exists []; by rewrite app_nil_r|]. intros key.
  pose proof (attempts_steps _ _ key (notif_reachable_ok _ Hr) Hst). specialize (Hc key). rewrite E. lia.
Qed.

Lemma proceeds_trans c1 c2 c w1 w2 w3 :
  proceeds c1 w1 w2 → proceeds c2 w2 w3 → (∀ key, c1 key + c2 key ≤ c key) → proceeds c w1 w3.
Proof.
  intros [_ H12 (n1&E1&F1) P1] [H3 H23 (n2&E2&F2) P2] Hc. split; [done|by etrans| |].
  - exists (n1 ++ n2). rewrite E2, E1, app_assoc. split; [done|]. by apply Forall_app.
  - intros key. specialize (P1 key). specialize (P2 key). specialize (Hc key). lia.
Qed.

(** An operation that sends at most [c] times more than it attempts, where [c]
    may look at its answer. *)
Definition fit {A} (c : A → string → Z) (m : NotifierM A) (Q : A → Prop) : Prop :=
  ∀ w, notif_world_ok w → proceeds (c (m w).2) w (m w).1 ∧ Q (m w).2.

Definition any {A} : A → Prop := λ _, True.

Lemma fit_ret {A} (c : A → string → Z) (x : A) (Q : A → Prop) :
  (∀ key, 0 ≤ c x key) → Q x → fit c (mret x) Q.
Proof. intros Hc HQ w Hw. split; [|done]. by apply proceeds_silent. Qed.

Lemma fit_bind {A B} c1 c (m : NotifierM A) (f : A → NotifierM B) (Q : A → Prop) R :
  fit c1 m Q → (∀ x, Q x → fit (λ y key, c y key - c1 x key) (f x) R) → fit c (m ≫= f) R.
Proof.
  intros Hm Hf w Hw. destruct (Hm w Hw) as [H1 HQ]. unfold mbind, NotifierM_bind.
  destruct (m w) as [w1 x]. cbn [fst snd] in *.
  destruct (Hf x HQ w1 (pr_world _ _ _ H1)) as [H2 HR].
  split; [|done]. eapply proceeds_trans; [exact H1|exact H2|]. intros key. cbn beta. lia.
Qed.

Lemma fit_weaken {A} (c c' : A → string → Z) (m : NotifierM A) (Q Q' : A → Prop) :
  fit c m Q → (∀ x key, Q x → c x key ≤ c' x key) → (∀ x, Q x → Q' x) → fit c' m Q'.
Proof.
  intros Hm Hc HQ w Hw. destruct (Hm w Hw) as [H1 H2]. split; [|auto].
  destruct H1 as [? ? ? H1]. split; [done..|]. intros key. specialize (H1 key).
  pose proof (Hc _ key H2). lia.
Qed.

(** What is said of an answer in any world. *)
Definition answers {A} (m : NotifierM A) (Q : A → Prop) : Prop := ∀ w, Q (m w).2.

Lemma answers_ret {A} (x : A) (Q : A → Prop) : Q x → answers (mret x) Q.
Proof. by intros HQ w. Qed.

Lemma answers_bind {A B} (m : NotifierM A) (f : A → NotifierM B) (Q : B → Prop) :
  (∀ x, answers (f x) Q) → answers (m ≫= f) Q.
Proof. intros Hf w. unfold mbind, NotifierM_bind. destruct (m w) as [w1 x]. apply Hf. Qed.

Lemma fit_answers {A} c (m : NotifierM A) (Q : A → Prop) : fit c m any → answers m Q → fit c m Q.
Proof. intros Hm HQ w Hw. split; [by apply Hm|apply HQ]. Qed.

(** ** The accesses *)

Lemma interference_proceeds w : notif_world_ok w → proceeds free w (notif_interference e w).
Proof.
  intros [Hr Hu]. apply proceeds_silent; [done| |apply (nso_others Hs)|done|done]. split.
  - unfold notif_reachable. etrans; [exact Hr|apply (nso_others Hs)].
  - intros i Hi. by apply (nso_fresh Hs), Hu.
Qed.

Lemma fit_now : fit (λ _, free) (notif_now e) any.
Proof. intros w Hw. split; [|done]. by apply proceeds_silent. Qed.

Lemma fit_ask {A} (f : nat → A) : fit (λ _, free) (ask e f) any.
Proof. intros w Hw. split; [|done]. exact (interference_proceeds w Hw). Qed.

(** A send has to be paid for. *)
Definition price (key : string) : string → Z := λ key', if key' == key then 1 else 0.

Lemma fit_handOver d destination content :
  (∃ buildID eventType, noticeKey buildID eventType destination = logicalKey d) →
  fit (λ _, price (logicalKey d)) (handOver e (Some d) destination content) any.
Proof.
  intros (b&ev&Hk) w Hw. split; [|done]. split; [exact Hw|reflexivity| |].
  - eexists. split; [reflexivity|]. repeat constructor. by exists d, b, ev.
  - intros key.
    change (nw_store (handOver e (Some d) destination content w).1) with (nw_store w).
    change (nw_sent (handOver e (Some d) destination content w).1) with
      (nw_sent w ++ [mkSend (Some d) destination content (ne_send e (nw_sent w) destination content)]).
    rewrite sends_app. unfold sends_of at 2. cbn [filter list_filter send_key sn_for fmap option_fmap option_map].
    unfold price. destruct (bool_decide_reflect (key = logicalKey d)) as [->|Hne].
    + rewrite decide_True by done. cbn [length]. lia.
    + rewrite decide_False by congruence. cbn [length]. lia.
Qed.

Lemma fit_read {A} (f : NotificationDeliveryRepository → A) :
  fit (λ _, free) (on_notifications e (λ r, (r, f r))) any.
Proof.
  intros w Hw. split; [|done]. pose proof (interference_proceeds w Hw) as Hi.
  unfold on_notifications. by destruct (notif_interference e w).
Qed.

(** A store after a call that stores nothing new. *)
Lemma call_fresh c r id :
  notif_ok r → notif_guard c r → (∀ newID input, c ≠ CallClaim newID input) →
  nr_deliveries r !! id = None → nr_deliveries (run_notif c r) !! id = None.
Proof.
  intros Hr Hg Hc Hid.
  assert (Ho : ∀ i o a f, (∀ d, wf_notification d → nd_Status d = NotificationDeliveryStatusSending →
     NotificationDelivery_Validate (f d) = None →
     wf_notification (f d) ∧ addressee (f d) = addressee d ∧ nd_ID (f d) = nd_ID d ∧
     progress_step (notif_progress d) (notif_progress (f d))) →
    nr_deliveries (match nr_deliveries r !! TrimSpace i with
      | None => (r, inr ErrNotificationDeliveryNotFound)
      | Some current => if negb (notificationDeliveryClaimMatches current (TrimSpace o) a)
        then (r, lostNotification current) else updateNotification (f current) r end).1 !! id = None).
  { intros i o a f Hf. destruct (outcome_cases r i o a f Hr Hf) as [->|(d&[Hl _]&_&->)]; [done|].
    cbn [storeNotification nr_deliveries]. rewrite lookup_insert_ne; [done|]. congruence. }
  destruct c as [newID input|input|input|input|input]; [by destruct (Hc newID input)|..]; apply Ho;
    intros d Hw Hst' Hv.
  - destruct (sent_notification_step d (nmi_SentAt input) Hw Hst' Hv) as (?&_&?&?&?). by split_and!.
  - apply failed_notification_step; auto.
  - apply failed_notification_step; auto.
  - apply failed_notification_step; auto.
Qed.

(** A call on the store that is not a request for a claim. *)
Lemma fit_call {A} (f : NotificationDeliveryRepository → NotificationDeliveryRepository * A) c :
  (∀ r, (f r).1 = run_notif c r) → (∀ r, notif_guard c r) →
  (∀ newID input, c ≠ CallClaim newID input) → fit (λ _, free) (on_notifications e f) any.
Proof.
  intros Hf Hg Hc w Hw. split; [|done].
  destruct (interference_proceeds w Hw) as [[Hr Hu] Hi _ _].
  unfold on_notifications. destruct (notif_interference e w) as [r a k i n] eqn:Ei.
  assert (Ea : a = nw_sent w) by (by injection Ei).
  cbn [nw_store nw_identifiers] in *. specialize (Hf r). destruct (f r) as [r' x].
  cbn [fst] in Hf |- *. subst r' a. apply proceeds_silent; try done.
  - split; cbn; [eapply rtc_r; [exact Hr|]; by exists c|].
    intros j Hj. apply call_fresh; [by apply notif_reachable_ok|done|done|by apply Hu].
  - cbn. eapply rtc_r; [exact Hi|]. by exists c.
Qed.

(** *** Claims *)

Lemma shouldSend_claimed o : shouldSendOutcome o = claimed_outcome o.
Proof. unfold shouldSendOutcome, claimed_outcome, claims_notification. by rewrite orb_assoc. Qed.

Lemma notif_step_claim newID input r :
  notif_guard (CallClaim newID input) r →
  notif_step r (NotificationDeliveryRepository_AcquireForDelivery newID input r).1.
Proof. intros Hg. by exists (CallClaim newID input). Qed.

(** The identifiers that are left are still new after a claim. *)
Lemma claim_fresh newID input r id :
  notif_ok r → notif_guard (CallClaim newID input) r → id ≠ newID →
  nr_deliveries r !! id = None →
  nr_deliveries (NotificationDeliveryRepository_AcquireForDelivery newID input r).1 !! id = None.
Proof.
  intros Hr Hg Hne Hid. pose proof Hg as (_&_&Hempty&_). pose proof (no_index r Hr) as Hidx.
  unfold NotificationDeliveryRepository_AcquireForDelivery.
  destruct (normalizeNotificationClaimInput input) as [x|err] eqn:E; [|done].
  apply notif_claim_input in E as (->&_). cbv zeta. rewrite logicalKey_norm.
  destruct (nr_index r !! _) as [id'|] eqn:Ek.
  - destruct (claimNotificationDelivery _ _ _ _) as [d' o]. destruct (claims_notification o); [|done].
    cbn [fst storeNotification nr_deliveries]. rewrite lookup_insert_ne; [done|].
    destruct (Hidx _ _ Ek) as (d0&Hd0&_). congruence.
  - match goal with |- context [NotificationDelivery_Validate ?x] => set (d' := x) end.
    assert (Hd' : nd_ID d' = newID).
    { subst d'. unfold claimedNotification. cbv zeta.
      change (nd_ID (norm (nci_Delivery input))) with (nd_ID (nci_Delivery input)).
      rewrite Hempty, bool_decide_eq_true_2 by done. by destruct (IsZero _). }
    clearbody d'. destruct (NotificationDelivery_Validate d'); [done|].
    cbn [fst indexNotification storeNotification nr_deliveries]. rewrite lookup_insert_ne; [done|]. congruence.
Qed.

(** What an operation that may send is told of the delivery it claimed, and the
    attempt that the claim is. *)
Definition granted (key : string) (x : (NotificationDeliveryClaimResult * bool) + error) : Prop :=
  ∀ res, x = inl (res, true) →
    logicalKey (ncr_Delivery res) = key ∧ nd_DestinationKey (ncr_Delivery res) ≠ "".

Definition earned (x : (NotificationDeliveryClaimResult * bool) + error) : string → Z :=
  match x with
  | inl (res, true) => λ key, - price (logicalKey (ncr_Delivery res)) key
  | _ => free
  end.

(** [acquireNotification] as one call on the store. *)
Lemma acquire_call d w :
  acquireNotification e s d w =
  (let x := on_notifications e (NotificationDeliveryRepository_AcquireForDelivery
       (ne_uuid e (nw_identifiers w)) (notificationClaimRequest s d (ne_clock e (nw_readings w))))
       (w <| nw_readings := S (nw_readings w) |> <| nw_identifiers := S (nw_identifiers w) |>) in
   (x.1, match x.2 with inr err => inr err | inl res => inl (res, shouldSendOutcome (ncr_Outcome res)) end)).
Proof.
  set (w1 := w <| nw_readings := S (nw_readings w) |> <| nw_identifiers := S (nw_identifiers w) |>).
  change (acquireNotification e s d w) with
    ((on_notifications e (NotificationDeliveryRepository_AcquireForDelivery
       (ne_uuid e (nw_identifiers w)) (notificationClaimRequest s d (ne_clock e (nw_readings w)))) ≫=
      λ result, match result with
        | inr err => mret (inr err)
        | inl result => mret (inl (result, shouldSendOutcome (ncr_Outcome result)))
        end) w1).
  unfold mbind, NotifierM_bind. destruct (on_notifications e _ w1) as [w2 [res|err]]; reflexivity.
Qed.

Lemma fit_acquire d : fit earned (acquireNotification e s d) (granted (logicalKey d)).
Proof.
  intros w Hw. rewrite acquire_call. cbv zeta.
  set (input := notificationClaimRequest s d (ne_clock e (nw_readings w))).
  set (newID := ne_uuid e (nw_identifiers w)).
  destruct (interference_proceeds w Hw) as [[Hr _] Hi _ _].
  assert (Hf : ∀ i, (nw_identifiers w ≤ i)%nat →
    nr_deliveries (nw_store (notif_interference e w)) !! ne_uuid e i = None).
  { intros j Hj. by apply (nso_fresh Hs), (proj2 Hw). }
  unfold on_notifications.
  match goal with |- context [nw_store (notif_interference e ?x)] =>
    change (nw_store (notif_interference e x)) with (nw_store (notif_interference e w)) end.
  set (r := nw_store (notif_interference e w)) in *.
  assert (Hg : notif_guard (CallClaim newID input) r).
  { split_and!; [apply (nso_clock Hs)|exact Hp|reflexivity|apply (nso_uuid Hs)|apply (nso_uuid Hs)|by apply Hf]. }
  pose proof (notif_reachable_ok r Hr) as Hrok.
  pose proof (notif_step_claim _ _ _ Hg) as Hstep.
  assert (Hnew : ∀ i, (S (nw_identifiers w) ≤ i)%nat →
    nr_deliveries (NotificationDeliveryRepository_AcquireForDelivery newID input r).1 !! ne_uuid e i = None).
  { intros j Hj. apply claim_fresh; [done|done| |apply Hf; lia].
    intros Ej. apply (nso_uuid_inj Hs) in Ej. lia. }
  pose proof (claim_cases newID input r Hrok Hg) as Hcs.
  destruct (NotificationDeliveryRepository_AcquireForDelivery newID input r) as [r' x].
  cbn [fst snd] in *.
  assert (Hw' : notif_world_ok (mkNotifWorld r' (nw_sent w) (S (nw_readings w)) (S (nw_identifiers w))
    (S (nw_accesses w)))).
  { split; [|exact Hnew]. unfold notif_reachable. eapply rtc_r; [exact Hr|exact Hstep]. }
  assert (Hrtc : rtc notif_step (nw_store w) r') by (eapply rtc_r; [exact Hi|exact Hstep]).
  destruct Hcs as [(err&[= -> ->])|[(d0&_&_&_&o&[= -> ->]&Ho)|(d0&o&Hwr&->&Ho&Hk&Hm&_)]];
    cbn [ncr_Outcome]; rewrite ?shouldSend_claimed, ?Ho.
  - split; [by apply proceeds_silent|done].
  - split; [by apply proceeds_silent|done].
  - split; [|intros res [= <-]; split; [exact Hk|by eapply writes_destination]].
    split; [exact Hw'|exact Hrtc|by exists []; rewrite app_nil_r|]. intros key.
    match goal with |- sends_of ?l key - _ ≤ attempts_of ?r1 key - _ + _ =>
      change l with (nw_sent w); change r1 with r' end.
    pose proof (attempts_steps _ _ key (notif_reachable_ok _ (proj1 Hw)) Hi).
    cbn [earned ncr_Delivery]. unfold price. case_bool_decide as Hkey.
    + subst key. pose proof (claim_attempt _ _ _ _ _ _ Hrok Hwr Hm). lia.
    + pose proof (attempts_step _ _ key Hrok Hstep). lia.
Qed.
End notifier.
