(* ===== verification/NotifierThms.v ===== *)
(** The notifier beside the other users of its store: it sends a notification no
    more often than it was claimed, and never one that was finished; and what
    becomes of a claimed delivery. *)

From stdpp Require Import base gmap strings list pretty sorting numbers.
From S2P Require Import Prelude GoLib GoPath GoText Domain Repository DeliverySpec ScmDelivery ScmRepo.
From S2P Require Import ScmFacts ScmReporter ScmReporterThms NotifDelivery NotifRepo NotifFacts NotifViews.
From S2P Require Import NotifThms NotifDestinations Notifier NotifierFacts.

Open Scope go_scope.
Open Scope Z_scope.

Implicit Types (d : NotificationDelivery) (r : NotificationDeliveryRepository) (w : NotifWorld).

Section notifier.
Context `{NotifyErrors} `{Addresses} (e : NotifSurroundings) (s : BuildNotificationService).
Context (Hs : notif_surroundings_ok e) (Hp : nrp_maxAttempts (bn_retryPolicy s) ≤ max_int64).
Context (Hrepo : bn_deliveryRepo s = true).

(** ** The operations *)

(** An operation of which every send was claimed by itself. *)
Definition paid {A} (m : NotifierM A) : Prop := fit e (λ _, free) m any.

Lemma paid_ret {A} (x : A) : paid (mret x).
Proof. by apply fit_ret. Qed.

Lemma fit_bind_paid {A B} c (m : NotifierM A) (f : A → NotifierM B) (R : B → Prop) :
  paid m → (∀ x, fit e c (f x) R) → fit e c (m ≫= f) R.
Proof.
  intros Hm Hf. eapply fit_bind; [exact Hm|]. intros x _. eapply fit_weaken; [apply Hf| |done].
  intros y key _. unfold free. lia.
Qed.

Lemma paid_bind {A B} (m : NotifierM A) (f : A → NotifierM B) :
  paid m → (∀ x, paid (f x)) → paid (m ≫= f).
Proof. apply fit_bind_paid. Qed.

Lemma bind_paid {A B} k (m : NotifierM A) (f : A → NotifierM B) :
  fit e (λ _, k) m any → (∀ x, paid (f x)) → fit e (λ _, k) (m ≫= f) any.
Proof.
  intros Hm Hf. eapply fit_bind; [exact Hm|]. intros x _. eapply fit_weaken; [apply Hf| |done].
  intros y key _. unfold free. lia.
Qed.

Lemma paid_fit {A} key (m : NotifierM A) : paid m → fit e (λ _, price key) m any.
Proof.
  intros Hm. eapply fit_weaken; [exact Hm| |done]. intros x k _. unfold free, price. by case_bool_decide.
Qed.

(** An operation that sends nothing is paid when its accesses are. *)
Ltac pays :=
  repeat first
    [ apply paid_ret
    | apply fit_ask, Hs
    | apply fit_now
    | apply paid_bind; [|intros ?]
    | case_match ].

Lemma paid_sent d t : paid (markNotificationSent e s d t).
Proof.
  unfold markNotificationSent. case_match; [|pays]. apply paid_bind; [|intros ?; pays].
  by eapply (fit_call e Hs _ (CallSent _)).
Qed.

Lemma paid_failed d err t : paid (markNotificationFailed e s d err t).
Proof.
  unfold markNotificationFailed. case_match; [|pays]. cbv zeta.
  destruct (nfd_retryable _); [destruct (_ <? _)|]; cbn [andb];
    (apply paid_bind; [|intros ?; pays]).
  - by eapply (fit_call e Hs _ (CallRetryable _)).
  - by eapply (fit_call e Hs _ (CallExhausted _)).
  - by eapply (fit_call e Hs _ (CallPermanent _)).
Qed.

(** The destination of a delivery. *)
Definition destined d destination : Prop :=
  ∃ buildID eventType, noticeKey buildID eventType destination = logicalKey d.

Lemma fit_send d destination content :
  destined d destination →
  fit e (λ _, price (logicalKey d)) (sendDestination e s (Some d) destination content) any.
Proof.
  intros Hd. unfold sendDestination.
  repeat case_match; first [by apply fit_handOver|apply paid_fit; pays].
Qed.

Lemma fit_execute d destination content :
  destined d destination →
  fit e (λ _, price (logicalKey d)) (executeClaimedNotification e s d destination content) any.
Proof.
  intros Hd. unfold executeClaimedNotification. apply bind_paid; [by apply fit_send|intros answer].
  apply paid_bind; [by apply fit_now|intros t]. destruct answer as [err|]; cbv zeta.
  - case_match; [pays|]. apply paid_bind; [apply paid_failed|]. intros [outcome updateErr]. pays.
  - case_match; [pays|]. apply paid_bind; [apply paid_sent|]. intros [outcome [err|]]; [|pays].
    apply paid_bind; [apply paid_failed|]. intros [? ?]. pays.
Qed.

(** After a claim: what was granted pays for one send. *)
Lemma paid_acquire {B} d (f : (NotificationDeliveryClaimResult * bool) + error → NotifierM B) :
  (∀ res, logicalKey (ncr_Delivery res) = logicalKey d → nd_DestinationKey (ncr_Delivery res) ≠ "" →
     fit e (λ _, price (logicalKey (ncr_Delivery res))) (f (inl (res, true))) any) →
  (∀ res, paid (f (inl (res, false)))) → (∀ err, paid (f (inr err))) →
  paid (acquireNotification e s d ≫= f).
Proof.
  intros Ht Hf He. eapply fit_bind; [by apply fit_acquire|].
  intros [[res []]|err] Hx.
  - destruct (Hx res eq_refl) as [Hk Hn]. eapply fit_weaken; [by apply Ht| |done].
    intros y key _. cbn [earned]. unfold free. lia.
  - eapply fit_weaken; [apply Hf| |done]. intros y key _. cbn [earned]. unfold free. lia.
  - eapply fit_weaken; [apply He| |done]. intros y key _. cbn [earned]. unfold free. lia.
Qed.

Lemma bind_assoc {A B C} (m : NotifierM A) (f : A → NotifierM B) (g : B → NotifierM C) w :
  ((m ≫= f) ≫= g) w = (m ≫= λ x, f x ≫= g) w.
Proof. unfold mbind, NotifierM_bind. by destruct (m w). Qed.

Lemma paid_ext {A} (m m' : NotifierM A) : (∀ w, m w = m' w) → paid m' → paid m.
Proof. intros E Hm w Hw. rewrite E. by apply Hm. Qed.

Lemma paid_toDestination build eventType destination :
  paid (sendToDestination e s build eventType destination).
Proof.
  unfold sendToDestination. rewrite Hrepo. cbn [negb]. unfold prepareDelivery.
  eapply paid_ext; [intros w; apply bind_assoc|]. apply paid_acquire.
  - intros [d o] Hk _. cbn [ncr_Delivery] in *. 
    assert (Hd : destined d destination) by (by exists (b_ID build), eventType).
    change (mret (inl ?x) ≫= ?f) with (f (inl x)). cbn beta iota.
    apply fit_bind_paid; [by apply fit_ask|]. intros [content|err].
    + apply bind_paid; [by apply fit_execute|]. intros [? ?]. pays.
    + apply paid_fit. case_match; [pays|]. apply paid_bind; [by apply fit_now|intros t].
      apply paid_bind; [apply paid_failed|]. intros [? ?]. pays.
  - intros [d o]. change (mret (inl ?x) ≫= ?f) with (f (inl x)). apply paid_ret.
  - intros err. change (mret (inr ?x) ≫= ?f) with (f (inr x)). apply paid_ret.
Qed.

Lemma paid_loop build eventType destinations errs :
  paid (sendTerminalLoop e s build eventType destinations errs).
Proof.
  revert errs. induction destinations as [|destination l IH]; intros errs; cbn [sendTerminalLoop];
    [pays|]. apply paid_bind; [apply paid_toDestination|].
  intros [[err|]|err]; [apply IH|apply IH|pays].
Qed.

Lemma paid_configured recipients : paid (configuredDestinations e s recipients).
Proof.
  induction recipients as [|recipient l IH]; cbn [configuredDestinations]; [pays|].
  apply paid_bind; [unfold resolveConfiguredEmailDestination; pays|].
  intros [destination|err]; [|pays]. apply paid_bind; [exact IH|]. intros [?|?]; pays.
Qed.

Lemma paid_author repo user email slack : paid (authorDestinations e s repo user email slack).
Proof.
  unfold authorDestinations, resolveCommitAuthorEmailDestination, resolveCommitAuthorSlackDestination. pays.
Qed.

Lemma paid_authors build eventType : paid (resolveCommitAuthorDestinations e s build eventType).
Proof.
  unfold resolveCommitAuthorDestinations. cbv zeta. destruct (bn_userRepo s); [|pays].
  destruct (bn_preferenceRepo s); [|pays]. destruct (bn_subscriptionRepo s); [|pays].
  case_match; [pays|]. apply paid_bind; [by apply fit_ask|]. intros [user|err]; [|pays].
  apply paid_bind; [by apply fit_ask|]. intros [preference|err]; [|pays].
  repeat case_match; first [apply paid_author|pays].
Qed.

Lemma paid_resolve build eventType : paid (resolveTerminalDestinations e s build eventType).
Proof.
  unfold resolveTerminalDestinations. apply paid_bind.
  - unfold resolveSharedDestinations. case_match; [|apply paid_configured].
    apply paid_bind; [by apply fit_ask|]. intros [[|m l]|err]; [apply paid_configured|pays..].
  - intros [destinations|err]; [|pays]. case_match; [|pays].
    apply paid_bind; [apply paid_authors|intros [?|?]; pays].
Qed.

Lemma paid_notify build : paid (NotifyTerminalBuild e s build).
Proof.
  unfold NotifyTerminalBuild. destruct (negb (bn_enabled s)); [pays|].
  destruct (negb _); [pays|]. destruct (buildStatusNotificationEventType (b_Status build)) as [eventType|]; [|pays].
  apply paid_bind; [apply paid_resolve|]. intros [[|destination l]|err]; [pays|apply paid_loop|pays].
Qed.

(** ** Recovery *)

(** What is sent in a recovery goes to the destination of the delivery. *)
Definition restored d (x : notificationDestination + notifyError) : Prop :=
  ∀ destination, x = inl destination →
    dn_transport destination = nd_Transport d ∧ dn_destinationKey destination = nd_DestinationKey d.

Lemma sameDestination_restored d reason invalid mismatch destination :
  nd_DestinationKey d ≠ "" →
  (∀ x, destination = inl x → dn_destinationKey x = "" ∨ dn_transport x = nd_Transport d) →
  restored d (sameDestination d reason invalid mismatch destination).
Proof.
  intros Hkey Hx x Ex. unfold sameDestination in Ex. destruct destination as [y|]; [|done].
  revert Ex. case_bool_decide as Hk; [|done]. intros [= <-]. destruct (Hx y eq_refl); [congruence|done].
Qed.

Lemma target_transport target x :
  notificationTargetDestination target = inl x →
  dn_destinationKey x = "" ∨
  dn_transport x = (if nt_Type target == NotificationTargetTypeSlackWebhook
                    then NotificationTransportSlackWebhook else NotificationTransportEmail).
Proof.
  unfold notificationTargetDestination, personalEmailTargetDestination. cbv zeta.
  destruct (TrimSpace (nt_Recipient target) == ""); [intros [= <-]; by left|].
  case_bool_decide as Ht; [rewrite Ht|]; cbn [andb].
  - destruct (nt_OwnerUserID target); repeat case_match; intros; simplify_eq; by right.
  - repeat case_match; intros; simplify_eq; by right.
Qed.

Lemma personal_transport target x :
  personalEmailTargetDestination target = inl x → dn_transport x = NotificationTransportEmail.
Proof. unfold personalEmailTargetDestination. repeat case_match; intros; by simplify_eq. Qed.

Lemma slack_transport u wid sid token x :
  slackDMDestination u wid sid token = inl x → dn_transport x = NotificationTransportSlackDM.
Proof. unfold slackDMDestination. repeat case_match; intros; by simplify_eq. Qed.

Lemma restored_error d err : answers (mret (inr err)) (restored d).
Proof. by intros w x Ex. Qed.

Lemma shared_restored d :
  nd_DestinationKey d ≠ "" → nd_Transport d = NotificationTransportEmail →
  answers (rehydrateSharedEmailDestination e s d) (restored d).
Proof.
  intros Hkey Ht. unfold rehydrateSharedEmailDestination.
  destruct (nd_NotificationTargetID d) as [id|]; [|apply restored_error].
  destruct (bn_subscriptionRepo s) as [repo|]; [|apply restored_error].
  apply answers_bind. intros [target|err]; [|case_match; apply restored_error].
  destruct (negb _); [apply restored_error|].
  destruct (ValidateExplicitNotificationTarget target) as [t|err]; [|apply restored_error].
  destruct (bool_decide_reflect (nt_Type t = NotificationTargetTypeEmail)) as [Et|];
    cbn [negb orb]; [|apply restored_error].
  destruct (nt_OwnerUserID t); [apply restored_error|].
  apply answers_ret, sameDestination_restored; [done|].
  intros x Hx. apply target_transport in Hx. rewrite Et in Hx. rewrite Ht. exact Hx.
Qed.

Lemma personal_restored d :
  nd_DestinationKey d ≠ "" → nd_Transport d = NotificationTransportEmail →
  answers (rehydratePersonalEmailDestination e s d) (restored d).
Proof.
  intros Hkey Ht. unfold rehydratePersonalEmailDestination.
  destruct (nd_NotificationTargetID d) as [id|]; [|apply restored_error].
  destruct (bn_subscriptionRepo s) as [repo|]; [|apply restored_error].
  apply answers_bind. intros [target|err]; [|case_match; apply restored_error].
  destruct (negb (nt_Enabled target)); [apply restored_error|].
  destruct (nt_OwnerUserID target); [|apply restored_error].
  destruct (negb _); [apply restored_error|]. case_match; [apply restored_error|].
  apply answers_ret, sameDestination_restored; [done|].
  intros x Hx. right. rewrite Ht. by eapply personal_transport.
Qed.

Lemma webhook_restored d :
  nd_DestinationKey d ≠ "" → nd_Transport d = NotificationTransportSlackWebhook →
  answers (rehydrateSlackWebhookDestination e s d) (restored d).
Proof.
  intros Hkey Ht. unfold rehydrateSlackWebhookDestination.
  destruct (nd_NotificationTargetID d) as [id|]; [|apply restored_error].
  destruct (bn_subscriptionRepo s) as [repo|]; [|apply restored_error].
  apply answers_bind. intros [target|err]; [|case_match; apply restored_error].
  destruct (negb (nt_Enabled target)); [apply restored_error|].
  destruct (bool_decide_reflect (nt_Type target = NotificationTargetTypeSlackWebhook)) as [Et|];
    cbn [negb]; [|apply restored_error].
  apply answers_ret, sameDestination_restored; [done|].
  intros x Hx. apply target_transport in Hx. rewrite Et in Hx. rewrite Ht. exact Hx.
Qed.

Lemma slack_restored d :
  nd_DestinationKey d ≠ "" → nd_Transport d = NotificationTransportSlackDM →
  answers (rehydrateSlackDMDestination e s d) (restored d).
Proof.
  intros Hkey Ht. unfold rehydrateSlackDMDestination.
  destruct (nd_RecipientUserID d); [|apply restored_error].
  destruct (nd_SlackWorkspaceIntegrationID d); [|apply restored_error].
  destruct (bn_identityRepo s); [|apply restored_error].
  destruct (bn_workspaceRepo s); [|apply restored_error].
  destruct (bn_slackClient s); [|apply restored_error].
  apply answers_bind. intros [identity|err]; [|apply restored_error].
  destruct (negb _); [apply restored_error|]. case_match; [apply restored_error|].
  apply answers_bind. intros [integration|err]; [|apply restored_error]. unfold rehydrateSlackAccount.
  repeat (case_match; [apply restored_error|]). apply answers_ret, sameDestination_restored; [done|].
  intros x Hx. right. rewrite Ht. by eapply slack_transport.
Qed.

Lemma rehydrate_restored d :
  nd_DestinationKey d ≠ "" → answers (rehydrateDestination e s d) (restored d).
Proof.
  intros Hkey. unfold rehydrateDestination. cbv zeta.
  case_bool_decide as Ht.
  { case_bool_decide; [by apply shared_restored|].
    case_bool_decide; [by apply personal_restored|apply restored_error]. }
  case_bool_decide as Hw; [case_bool_decide; [by apply webhook_restored|apply restored_error]|].
  case_bool_decide as Hd; [|apply restored_error].
  case_bool_decide; [by apply slack_restored|apply restored_error].
Qed.

Lemma paid_rehydrate d : paid (rehydrateDestination e s d).
Proof.
  unfold rehydrateDestination, rehydrateSharedEmailDestination, rehydratePersonalEmailDestination,
    rehydrateSlackWebhookDestination, rehydrateSlackDMDestination. cbv zeta. pays.
Qed.

Lemma logicalKey_fields d d' :
  nd_BuildID d = nd_BuildID d' → nd_EventType d = nd_EventType d' →
  nd_Transport d = nd_Transport d' → nd_DestinationKey d = nd_DestinationKey d' →
  logicalKey d = logicalKey d'.
Proof. unfold logicalKey. by intros -> -> -> ->. Qed.

Lemma restored_destined d destination :
  dn_transport destination = nd_Transport d → dn_destinationKey destination = nd_DestinationKey d →
  destined d destination.
Proof.
  intros Et Ek. exists (nd_BuildID d), (nd_EventType d).
  apply logicalKey_fields; [reflexivity|reflexivity|exact Et|exact Ek].
Qed.

Lemma fit_rehydrateDelivery d :
  nd_DestinationKey d ≠ "" →
  fit e (λ _, free) (rehydrateDelivery e s d) (λ x, ∀ build destination,
    x = inl (build, destination) → destined d destination).
Proof.
  intros Hkey. apply fit_answers.
  - unfold rehydrateDelivery. case_match; [|pays]. apply paid_bind; [by apply fit_ask|].
    intros [build|err]; [|pays]. case_match; [|pays]. apply paid_bind; [apply paid_rehydrate|].
    intros [?|?]; pays.
  - unfold rehydrateDelivery. case_match; [|by apply answers_ret]. apply answers_bind.
    intros [build|err]; [|by apply answers_ret]. case_match; [|by apply answers_ret].
    intros w. pose proof (rehydrate_restored d Hkey w) as Hr. unfold mbind, NotifierM_bind.
    destruct (rehydrateDestination e s d w) as [w' [destination|err]]; [|done].
    intros b dest [= <- <-]. destruct (Hr destination eq_refl). by apply restored_destined.
Qed.

Lemma paid_recover candidate : paid (recoverNotification e s candidate).
Proof.
  unfold recoverNotification. apply paid_acquire; [|intros res; pays|intros err; pays].
  intros [d o] _ Hkey. cbn [ncr_Delivery ncr_Outcome negb] in *.
  assert (Hfail : ∀ result err, paid (if is_context_error err
      then mret (result None false, Some err)
      else at_ ← notif_now e; '(outcome, markErr) ← markNotificationFailed e s d err at_;
        mret (result (Some outcome) true, GoError <$> markErr) :
        NotifierM (notificationRecoveryAttemptResult * option notifyError))).
  { intros result err. case_match; [pays|]. apply paid_bind; [by apply fit_now|intros t].
    apply paid_bind; [apply paid_failed|]. intros [? ?]. pays. }
  eapply fit_bind; [by apply fit_rehydrateDelivery|]. intros [[build destination]|err] Hx.
  - specialize (Hx build destination eq_refl). eapply fit_weaken with (c := λ _, price (logicalKey d)); [| |done].
    2: { intros y key _. unfold free. lia. }
    apply fit_bind_paid; [by apply fit_ask|]. intros [content|err].
    + apply bind_paid; [by apply fit_execute|]. intros [? ?]. pays.
    + apply paid_fit, Hfail.
  - eapply fit_weaken with (c := λ _, price (logicalKey d)); [apply paid_fit, Hfail| |done].
    intros y key _. unfold free. lia.
Qed.

Lemma paid_recoverAll candidates result errs : paid (recoverNotifications e s candidates result errs).
Proof.
  revert result errs. induction candidates as [|d l IH]; intros result errs; cbn [recoverNotifications]; [pays|].
  apply paid_bind; [apply paid_recover|]. intros [attempt [err|]]; apply IH.
Qed.

Lemma paid_iteration batchSize : paid (NotificationRecoveryDrain_RunIteration e s batchSize).
Proof.
  unfold NotificationRecoveryDrain_RunIteration. apply paid_bind; [by apply fit_now|intros t].
  apply paid_bind; [by apply fit_read|]. intros [candidates|err]; [apply paid_recoverAll|pays].
Qed.
End notifier.

(** ** Sends and attempts *)

Inductive NotifierCall :=
  | CallNotify (build : Build)
  | CallIteration (batchSize : Z).

Section calls.
Context `{NotifyErrors} `{Addresses} (e : NotifSurroundings) (s : BuildNotificationService).

Definition run_notifier (c : NotifierCall) w : NotifWorld :=
  match c with
  | CallNotify build => (NotifyTerminalBuild e s build w).1
  | CallIteration batchSize => (NotificationRecoveryDrain_RunIteration e s batchSize w).1
  end.

(** One call after the other. *)
Definition run_notifiers (calls : list NotifierCall) w : NotifWorld :=
  foldl (λ w c, run_notifier c w) w calls.

Context (Hs : notif_surroundings_ok e) (Hp : nrp_maxAttempts (bn_retryPolicy s) ≤ max_int64).
Context (Hrepo : bn_deliveryRepo s = true).

Lemma run_proceeds c w : notif_world_ok e w → proceeds e free w (run_notifier c w).
Proof.
  destruct c as [build|batchSize]; intros Hw; cbn [run_notifier].
  - by apply (paid_notify e s Hs Hp Hrepo build w Hw).
  - by apply (paid_iteration e s Hs Hp batchSize w Hw).
Qed.

Lemma runs_proceed calls w : notif_world_ok e w → proceeds e free w (run_notifiers calls w).
Proof.
  revert w. induction calls as [|c calls IH]; intros w Hw; [by apply proceeds_silent|].
  pose proof (run_proceeds c w Hw) as H1. eapply proceeds_trans; [exact H1|apply IH, H1|done].
Qed.
End calls.

(** C34: whatever other notifiers do meanwhile, however often builds are notified
    and deliveries recovered: the notifier uses the store as it allows for, every
    send is for a delivery and goes to its destination, a notification is sent no
    more often than it was attempted, so at most its maximum of attempts, and
    what was sent or failed for good is not sent again. *)
Theorem sends_are_attempts `{NotifyErrors} `{Addresses} e s calls w :
  notif_surroundings_ok e → nrp_maxAttempts (bn_retryPolicy s) ≤ max_int64 →
  bn_deliveryRepo s = true → notif_world_ok e w →
  let w' := run_notifiers e s calls w in
  rtc notif_step (nw_store w) (nw_store w') ∧
  (∃ new, nw_sent w' = nw_sent w ++ new ∧ Forall addressed new) ∧
  (∀ key, sends_of (nw_sent w') key - sends_of (nw_sent w) key ≤
     attempts_of (nw_store w') key - attempts_of (nw_store w) key) ∧
  (∀ key v, notif_view (nw_store w') key = Some v →
     sends_of (nw_sent w') key - sends_of (nw_sent w) key ≤ pg_max v.2) ∧
  (∀ key, finished (nw_store w) key → sends_of (nw_sent w') key = sends_of (nw_sent w) key).
Proof.
  intros Hs Hp Hrepo Hw. cbv zeta.
  destruct (runs_proceed e s Hs Hp Hrepo calls w Hw) as [[Hr' _] Hst (new&E&Hnew) Hpaid].
  pose proof (notif_reachable_ok _ (proj1 Hw)) as Hr. apply notif_reachable_ok in Hr'.
  assert (Hpaid' : ∀ key, sends_of (nw_sent (run_notifiers e s calls w)) key - sends_of (nw_sent w) key ≤
    attempts_of (nw_store (run_notifiers e s calls w)) key - attempts_of (nw_store w) key).
  { intros key. specialize (Hpaid key). unfold free in Hpaid. lia. }
  split_and!; [done|by exists new|done| |].
  - intros key v Hv. specialize (Hpaid' key). pose proof (attempts_nonneg _ key Hr).
    pose proof (attempts_max _ key v Hr' Hv). lia.
  - intros key Hf. specialize (Hpaid' key). pose proof (finished_attempts _ _ _ Hr Hst Hf).
    assert (0 ≤ sends_of new key) by (unfold sends_of; lia).
    rewrite E, sends_app in *. lia.
Qed.

(** ** The outcome of a claimed delivery *)

(** The holder of a claim reports its outcome. *)
Lemma sent_by_holder r d since until owner sentAt :
  notif_ok r → nr_deliveries r !! nd_ID d = Some d →
  notif_phase d = Sending (TrimSpace owner) since until → zero_time < sentAt →
  let x := NotificationDeliveryRepository_MarkSent
    (mkNotificationDeliveryMarkSentInput (nd_ID d) owner since sentAt) r in
  (∃ d', x.2 = inl (mkNotificationDeliveryUpdateResult d' NotificationDeliveryUpdateOutcomeUpdated)) ∧
  notif_view x.1 (logicalKey d) =
    Some (addressee d, mkProgress Sent (nd_Attempts d) (nd_MaxAttempts d)).
Proof.
  intros Hr Hl Hph Ht. destruct (no_delivery r Hr _ _ Hl) as (_&Hid&_&Hw&_).
  destruct (sending_matches d _ _ _ (TrimSpace owner) since Hw Hph) as [Hst Hm].
  rewrite bool_decide_eq_true_2, Z.eqb_refl in Hm by done.
  pose proof (sent_notification_valid d sentAt Hw Hst Ht) as Hv.
  destruct (sent_notification_step d sentAt Hw Hst Hv) as (?&Hpr&?&?&?). cbv zeta.
  unfold NotificationDeliveryRepository_MarkSent.
  cbn [nmi_DeliveryID nmi_ClaimOwner nmi_ClaimedAt nmi_SentAt]. rewrite Hid, Hl, Hm. cbn [negb andb].
  rewrite outcome_view, Hpr by (done || by split_and!). split; [|done].
  unfold updateNotification. rewrite Hv. by eexists.
Qed.

Lemma failed_by_holder r d since until input status :
  notif_ok r → nr_deliveries r !! nd_ID d = Some d → nfi_DeliveryID input = nd_ID d →
  notif_phase d = Sending (TrimSpace (nfi_ClaimOwner input)) since until → nfi_ClaimedAt input = since →
  notif_failure status (nfi_FailureCategory input) →
  (status = NotificationDeliveryStatusRetryWaiting →
   nd_Attempts d < nd_MaxAttempts d ∧ ∃ t, nfi_NextAttemptAt input = Some t ∧ zero_time < t) →
  let x := recordNotificationFailure input status r in
  (∃ d', x.2 = inl (mkNotificationDeliveryUpdateResult d' NotificationDeliveryUpdateOutcomeUpdated)) ∧
  notif_view x.1 (logicalKey d) = Some (addressee d, notif_progress (failedNotification input status d)).
Proof.
  intros Hr Hl Hi Hph Hc Hf Hretry. destruct (no_delivery r Hr _ _ Hl) as (_&Hid&_&Hw&_).
  destruct (sending_matches d _ _ _ (TrimSpace (nfi_ClaimOwner input)) since Hw Hph) as [Hst Hm].
  rewrite bool_decide_eq_true_2, Z.eqb_refl in Hm by done.
  pose proof (failed_notification_valid input status d Hw Hst Hf Hretry) as Hv. cbv zeta.
  unfold recordNotificationFailure. rewrite Hi, Hc, Hid, Hl, Hm. cbn [negb andb].
  rewrite outcome_view by (done || (apply failed_notification_step; [done..|destruct Hf; auto|done])).
  split; [|done]. unfold updateNotification. rewrite Hv. by eexists.
Qed.

(** Errors that are not those of a context are classified, and the category fits. *)
Lemma classified `{NotifyErrors} transport err :
  is_context_error (GoError err) = false →
  let decision := classifyNotificationDeliveryFailure transport (GoError err) in
  nfd_category decision =
    if nfd_retryable decision then NotificationDeliveryFailureCategoryRetryable
    else NotificationDeliveryFailureCategoryPermanent.
Proof.
  intros Hc. unfold classifyNotificationDeliveryFailure, classifyNotificationSendError,
    classifyEmailNotificationError, classifySlackWebhookNotificationError,
    classifySlackDMNotificationError. cbv zeta. cbn [executionErr]. rewrite Hc.
  by repeat case_match.
Qed.

Definition notif_policy_ok (p : notificationRetryPolicy) : Prop :=
  0 < nrp_initialDelay p ≤ nrp_maxDelay p ∧ 2 * nrp_maxDelay p ≤ max_int64.

Lemma notif_delay p attempt :
  notif_policy_ok p →
  notificationRetryPolicy_delayForAttempt p attempt =
    Z.min (nrp_initialDelay p * 2 ^ Z.max 0 (attempt - 1)) (nrp_maxDelay p).
Proof.
  intros [Hd Hm]. unfold notificationRetryPolicy_delayForAttempt. destruct (Z.leb_spec attempt 1).
  - rewrite Z.max_l, Z.pow_0_r by lia. lia.
  - rewrite doubled_spec by done. do 3 f_equal. lia.
Qed.

Section alone.
Context `{NotifyErrors} `{Addresses} (e : NotifSurroundings) (s : BuildNotificationService).
Context (Hq : ∀ n r, ne_others e n r = r) (Hclock : ∀ i, zero_time < ne_clock e i).
Context (Hpolicy : notif_policy_ok (bn_retryPolicy s)).

Lemma on_alone {A} (f : NotificationDeliveryRepository → NotificationDeliveryRepository * A) w :
  nw_store (on_notifications e f w).1 = (f (nw_store w)).1 ∧
  (on_notifications e f w).2 = (f (nw_store w)).2 ∧ nw_sent (on_notifications e f w).1 = nw_sent w.
Proof.
  unfold on_notifications. change (nw_store (notif_interference e w)) with (ne_others e (nw_accesses w) (nw_store w)).
  rewrite Hq. by destruct (f (nw_store w)).
Qed.

(** One call on the store and what is made of its answer. *)
Lemma call_alone {A B} (f : NotificationDeliveryRepository → NotificationDeliveryRepository * A) (g : A → B) w :
  let x := (result ← on_notifications e f; mret (g result) : NotifierM B) w in
  nw_store x.1 = (f (nw_store w)).1 ∧ x.2 = g (f (nw_store w)).2 ∧ nw_sent x.1 = nw_sent w.
Proof.
  destruct (on_alone f w) as (E1&E2&E3). unfold mbind, NotifierM_bind.
  destruct (on_notifications e f w) as [w' x]. cbn in *. by subst.
Qed.

Context (d : NotificationDelivery) (since until : Time).
Context (Hph : notif_phase d = Sending (TrimSpace (bn_claimOwner s)) since until).

Lemma claimed_at r :
  notif_ok r → nr_deliveries r !! nd_ID d = Some d → claimedNotificationTimestamp d = inl since.
Proof.
  intros Hr Hl. destruct (no_delivery r Hr _ _ Hl) as (_&_&_&Hw&_).
  destruct (sending_matches d _ _ _ "" since Hw Hph) as [Hst _].
  destruct (wn_sending d Hw Hst) as (o&t&u&E1&E2&E3&_&Ht). unfold notif_phase in Hph.
  rewrite Hst, E1, E2, E3 in Hph. injection Hph as _ -> _. unfold claimedNotificationTimestamp.
  rewrite E2. assert (Hz : IsZero since = false) by (unfold IsZero; lia). by rewrite Hz.
Qed.

Definition seen w : option _ := notif_view (nw_store w) (logicalKey d).

Lemma marked_sent w t :
  notif_ok (nw_store w) → nr_deliveries (nw_store w) !! nd_ID d = Some d → zero_time < t →
  let x := markNotificationSent e s d t w in
  x.2 = (notificationExecutionOutcomeSent, None) ∧ nw_sent x.1 = nw_sent w ∧
  seen x.1 = Some (addressee d, mkProgress Sent (nd_Attempts d) (nd_MaxAttempts d)).
Proof.
  intros Hr Hl Ht. cbv zeta. unfold markNotificationSent. rewrite (claimed_at _ Hr Hl).
  destruct (call_alone (NotificationDeliveryRepository_MarkSent (mkNotificationDeliveryMarkSentInput
    (nd_ID d) (bn_claimOwner s) since t)) (notificationOutcomeOf notificationExecutionOutcomeSent) w) as (E1&E2&E3).
  destruct (sent_by_holder (nw_store w) d since until (bn_claimOwner s) t Hr Hl Hph Ht) as [[d' Hd'] Hv].
  rewrite E2, E3, Hd'. split_and!; [done..|]. unfold seen. by rewrite E1.
Qed.

(** What a failure makes of the delivery. *)
Definition failed_outcome (retryable : bool) (at_ : Time) : notificationExecutionOutcome * Progress :=
  let n := nd_Attempts d in
  let m := nd_MaxAttempts d in
  let p := bn_retryPolicy s in
  if retryable && (n <? m) then
    (notificationExecutionOutcomeRetryScheduled,
     mkProgress (RetryWaiting (at_ + Z.min (nrp_initialDelay p * 2 ^ Z.max 0 (n - 1)) (nrp_maxDelay p))) n m)
  else if retryable then (notificationExecutionOutcomeAttemptsExhausted, mkProgress FailedExhausted m m)
  else (notificationExecutionOutcomePermanentlyFailed, mkProgress FailedPermanent n m).

Lemma marked_failed w err t :
  notif_ok (nw_store w) → nr_deliveries (nw_store w) !! nd_ID d = Some d → zero_time < t →
  is_context_error (GoError err) = false →
  let x := markNotificationFailed e s d (GoError err) t w in
  let y := failed_outcome
    (nfd_retryable (classifyNotificationDeliveryFailure (nd_Transport d) (GoError err))) t in
  x.2 = (y.1, None) ∧ nw_sent x.1 = nw_sent w ∧ seen x.1 = Some (addressee d, y.2).
Proof.
  intros Hr Hl Ht Hc. pose proof (classified (nd_Transport d) err Hc) as Hcat.
  destruct (no_delivery _ Hr _ _ Hl) as (_&_&_&Hw&_).
  cbv zeta in *. unfold markNotificationFailed, failed_outcome. rewrite (claimed_at _ Hr Hl). cbv zeta.
  set (at_ := t + notificationRetryPolicy_delayForAttempt _ _).
  assert (Hat : zero_time < at_).
  { subst at_. rewrite notif_delay by done. destruct Hpolicy as [? _].
    pose proof (Z.pow_pos_nonneg 2 (Z.max 0 (nd_Attempts d - 1)) ltac:(lia) ltac:(lia)). nia. }
  assert (Hfit : ∀ next status,
    notif_failure status (nfd_category (classifyNotificationDeliveryFailure (nd_Transport d) (GoError err))) →
    notif_failure status (nfi_FailureCategory (notificationFailureInput s d since t (GoError err) next)))
    by exact (λ _ _ H, H).
  assert (Hgo : ∀ next status updated g,
    notif_failure status (nfd_category (classifyNotificationDeliveryFailure (nd_Transport d) (GoError err))) →
    (status = NotificationDeliveryStatusRetryWaiting → nd_Attempts d < nd_MaxAttempts d ∧
       ∃ t, next = Some t ∧ zero_time < t) →
    g = notif_progress (failedNotification (notificationFailureInput s d since t (GoError err) next) status d) →
    let x := (result ← on_notifications e (recordNotificationFailure
        (notificationFailureInput s d since t (GoError err) next) status);
      mret (notificationOutcomeOf updated result) : NotifierM (notificationExecutionOutcome * option error)) w in
    x.2 = (updated, None) ∧ nw_sent x.1 = nw_sent w ∧ seen x.1 = Some (addressee d, g)).
  { intros next status updated g Hf Hretry ->. cbv zeta.
    destruct (call_alone (recordNotificationFailure (notificationFailureInput s d since t (GoError err) next) status)
      (notificationOutcomeOf updated) w) as (E1&E2&E3).
    destruct (failed_by_holder (nw_store w) d since until
      (notificationFailureInput s d since t (GoError err) next) status Hr Hl) as [[d' Hd'] Hv]; try done.
    rewrite E2, E3, Hd'. split_and!; [done..|]. unfold seen. by rewrite E1. }
  destruct (nfd_retryable _) eqn:Eretry; [destruct (Z.ltb_spec (nd_Attempts d) (nd_MaxAttempts d))|];
    cbn [andb].
  - apply Hgo; [rewrite Hcat; constructor|by eauto|]. 
    rewrite failed_progress by (done || (apply Hfit; rewrite Hcat; constructor)).
    cbn [notificationFailureInput nfi_NextAttemptAt].
    change (normalizeNotificationOptionalTime (Some at_)) with (normalizeSCMOptionalTime (Some at_)).
    rewrite time_optional_id by done. cbn [default]. subst at_. by rewrite notif_delay.
  - apply Hgo; [rewrite Hcat; constructor|done|].
    by rewrite failed_progress by (done || (apply Hfit; rewrite Hcat; constructor)).
  - apply Hgo; [rewrite Hcat; constructor|done|].
    by rewrite failed_progress by (done || (apply Hfit; rewrite Hcat; constructor)).
Qed.
End alone.

(** A send leaves the store and the clock. *)
Lemma send_leaves `{NotifyErrors} e s what destination content w :
  let w' := (sendDestination e s what destination content w).1 in
  nw_store w' = nw_store w ∧ nw_readings w' = nw_readings w.
Proof. cbv zeta. unfold sendDestination. by repeat case_match. Qed.

Lemma execute_unfold `{NotifyErrors} e s d destination content w w' answer :
  sendDestination e s (Some d) destination content w = (w', answer) →
  executeClaimedNotification e s d destination content w =
  (let w'' := w' <| nw_readings := S (nw_readings w') |> in
   let at_ := ne_clock e (nw_readings w') in
   match answer with
   | Some err =>
       if is_context_error (GoError err) then (w'', (notificationExecutionOutcomeNone, Some (GoError err)))
       else ('(outcome, updateErr) ← markNotificationFailed e s d (GoError err) at_;
        match updateErr with
        | Some updateErr =>
            mret (notificationExecutionOutcomeNone, joinErrors [GoError err; GoError updateErr])
        | None => mret (outcome, Some (GoError err))
        end : NotifierM _) w''
   | None =>
       if negb (bn_deliveryRepo s) then (w'', (notificationExecutionOutcomeSent, None))
       else ('(outcome, updateErr) ← markNotificationSent e s d at_;
        match updateErr with
        | Some updateErr =>
            let persistErr := retryableNotificationExecutionFailure "delivery_state_persist_failed"
              "persist sent delivery state failed" (Some updateErr) in
            '(_, markErr) ← markNotificationFailed e s d persistErr at_;
            match markErr with
            | Some markErr =>
                mret (notificationExecutionOutcomeNone, joinErrors [persistErr; GoError markErr])
            | None => mret (notificationExecutionOutcomeRetryScheduled, Some persistErr)
            end
        | None => mret (outcome, None)
        end : NotifierM _) w''
   end).
Proof.
  intros E. unfold executeClaimedNotification, mbind, NotifierM_bind. rewrite E. unfold notif_now.
  destruct answer; [by destruct (is_context_error _)|by destruct (negb _)].
Qed.


(** ** Recipients of the configuration *)

(** Without subscriptions the deliveries to the recipients of the configuration
    have no target, so that a recovery fails them for good, whatever made the
    first attempt fail. *)
Lemma configured_never_recovered `{NotifyErrors} `{Addresses} e s recipient w destination buildID eventType w2 :
  bn_subscriptionRepo s = None →
  (resolveConfiguredEmailDestination e s recipient w).2 = inl destination →
  (rehydrateDestination e s (destinationDelivery buildID eventType destination) w2).2 =
    inr (permanentNotificationExecutionFailure "delivery_metadata_invalid"
           "shared email delivery target reference is missing" None).
Proof.
  intros Hs. unfold resolveConfiguredEmailDestination. rewrite Hs.
  destruct (parseNotificationRecipient _) as [parsed|]; [|done].
  destruct (ParseAddress parsed) as [[address text]|]; [|done]. by intros [= <-].
Qed.
