(* ===== verification/NotifierExamples.v ===== *)
(** A notifier at work: a build that failed is told to a configured recipient,
    whose mail server is down at first; the theorems of NotifierThms.v there. *)

From Stdlib Require Import Ascii.
From stdpp Require Import base gmap strings list pretty sorting numbers.
From S2P Require Import Prelude GoLib GoPath GoText Domain Repository DeliverySpec ScmDelivery ScmRepo.
From S2P Require Import ScmFacts ScmReporter ScmReporterThms ScmExamples NotifDelivery NotifRepo NotifFacts.
From S2P Require Import NotifViews NotifThms NotifExamples NotifDestinations Notifier NotifierFacts NotifierThms.

Open Scope go_scope.
Open Scope Z_scope.

#[local] Instance nx_errors : NotifyErrors := {|
  notify_text := λ _, "unreachable";
  netError := λ err, match err with Sentinel "timeout" => Some true | _ => None end;
  SlackWebhookHTTPError := λ _, None;
|}.

#[local] Instance nx_addresses : Addresses := {|
  ParseAddress := λ text, inl (text, text);
  parseHTTPS := λ _, None;
|}.

(** The mail server answers [refusal] to the first message, and takes the others. *)
Definition nx_surroundings (refusal : option error) : NotifSurroundings := {|
  ne_clock := λ n, 1000 + 100 * scm_Second * Z.of_nat n;
  ne_uuid := ex_uuid;
  ne_send := λ sent _ _, match sent with [] => refusal | _ => None end;
  ne_render := λ _ build _, inl (mkNotificationContent (b_ID build) "failed" "" "");
  ne_others := λ _ r, r;
|}.

Definition nx_build : Build := zero_Build <| b_ID := "b1" |> <| b_Status := BuildStatusFailed |>.

(** The recipient of the configuration is a stored target. *)
Definition nx_target : NotificationTarget :=
  mkNotificationTarget "t1" None NotificationTargetTypeEmail NotificationTargetOriginConfigDefault
    "ops" "ops@example.com" true 1 1.

Definition nx_subscriptions : notificationSubscriptionRepository := {|
  ListEnabledMatchesForBuildEvent := λ _ _ _, inl [];
  GetOwnedEmailTargetByUserID := λ _ _, inr ErrNotificationTargetNotFound;
  EnsureConfigEmailTarget := λ _ _, inl nx_target;
  GetTargetByID := λ _ id, if id == "t1" then inl nx_target else inr ErrNotificationTargetNotFound;
|}.

Definition nx_service (subscriptions : option notificationSubscriptionRepository) : BuildNotificationService := {|
  bn_enabled := true;
  bn_defaultRecipients := ["ops@example.com"];
  bn_sender := true;
  bn_slackSender := false;
  bn_slackClient := false;
  bn_buildRepo := Some (λ _ id, if id == "b1" then inl nx_build else inr ErrBuildNotFound);
  bn_deliveryRepo := true;
  bn_subscriptionRepo := subscriptions;
  bn_userRepo := None;
  bn_preferenceRepo := None;
  bn_identityRepo := None;
  bn_workspaceRepo := None;
  bn_claimOwner := "w1";
  bn_claimDuration := defaultNotificationDeliveryClaimDuration;
  bn_retryPolicy := defaultNotificationRetryPolicy;
|}.

Definition nx_world : NotifWorld := mkNotifWorld NewNotificationDeliveryRepository [] 0 0 0.

(** Told, refused, recovered, and told again in vain. *)
Definition nx_calls : list NotifierCall :=
  [CallNotify nx_build; CallIteration 10; CallNotify nx_build; CallIteration 10].

Definition nx_answers (subscriptions : option notificationSubscriptionRepository)
    (refusal : option error) : list (option error) :=
  sn_answer <$> nw_sent (run_notifiers (nx_surroundings refusal) (nx_service subscriptions) nx_calls nx_world).

Example nx_sent_once : nx_answers (Some nx_subscriptions) None = [None].
Proof. vm_compute. reflexivity. Qed.

Example nx_recovered :
  nx_answers (Some nx_subscriptions) (Some (Sentinel "timeout")) = [Some (Sentinel "timeout"); None].
Proof. vm_compute. reflexivity. Qed.

Example nx_permanent :
  nx_answers (Some nx_subscriptions) (Some ErrInvalidMessage) = [Some ErrInvalidMessage].
Proof. vm_compute. reflexivity. Qed.

(** Without subscriptions a retry that is due is never made. *)
Example nx_never_recovered :
  nx_answers None (Some (Sentinel "timeout")) = [Some (Sentinel "timeout")].
Proof. vm_compute. reflexivity. Qed.

(** ** The theorems *)

Lemma nx_surroundings_ok refusal : notif_surroundings_ok (nx_surroundings refusal).
Proof.
  split; simpl; [done|done| | |apply ex_uuid_inj].
  - intros i. unfold zero_time, scm_Second. lia.
  - intros i. split; [apply ex_uuid_trimmed|done].
Qed.

Lemma nx_world_ok refusal : notif_world_ok (nx_surroundings refusal) nx_world.
Proof. split; [apply rtc_refl|]. intros i _. apply lookup_empty. Qed.

Lemma nx_attempts : nrp_maxAttempts (bn_retryPolicy (nx_service (Some nx_subscriptions))) ≤ max_int64.
Proof. by vm_compute. Qed.

Definition nx_outage := nx_surroundings (Some (Sentinel "timeout")).
Definition nx_notifier := nx_service (Some nx_subscriptions).
Definition nx_final := run_notifiers nx_outage nx_notifier nx_calls nx_world.

Lemma sends_are_attempts_witness :
  (∃ new, nw_sent nx_final = nw_sent nx_world ++ new ∧ Forall addressed new) ∧
  ∀ key, sends_of (nw_sent nx_final) key - sends_of (nw_sent nx_world) key ≤
    attempts_of (nw_store nx_final) key - attempts_of (nw_store nx_world) key.
Proof.
  destruct (sends_are_attempts nx_outage nx_notifier nx_calls nx_world (nx_surroundings_ok _) nx_attempts
    eq_refl (nx_world_ok _)) as (_&Hnew&Hpaid&_).
  split; [exact Hnew|exact Hpaid].
Defined.

(** The delivery of NotifExamples.v, claimed by w1, whose direct message is
    refused. *)
Definition nx_slack_service : BuildNotificationService :=
  mkBuildNotificationService true [] false false true None true None None None None None "w1"
    defaultNotificationDeliveryClaimDuration defaultNotificationRetryPolicy.

Definition nx_held : NotificationDelivery := notificationAt ex_store1 "n1".

Definition nx_destination : notificationDestination :=
  mkNotificationDestination NotificationTransportSlackDM NotificationDestinationKindSlackIdentity
    "slack-dm:w1:U1" None (Some "u1") (Some "w1") "slack_dm:w1:U1" "" "" "U1" "token".

Definition nx_content : notificationContent := mkNotificationContent "b1" "failed" "" "".

Definition nx_held_world : NotifWorld := mkNotifWorld ex_store1 [] 0 0 0.

Lemma nx_held_facts :
  nr_deliveries ex_store1 !! nd_ID nx_held = Some nx_held ∧
  notif_phase nx_held = Sending "w1" (ex_instant 0) (ex_instant 10) ∧
  nd_Transport nx_held = NotificationTransportSlackDM ∧ nd_Attempts nx_held = 1 ∧ nd_MaxAttempts nx_held = 2.
Proof. split_and!; vm_compute; reflexivity. Qed.

Lemma nx_store_ok : notif_ok ex_store1.
Proof. apply notif_reachable_ok. eapply rtc_once, ex_step1. Qed.

Lemma nx_policy : notif_policy_ok (bn_retryPolicy nx_slack_service).
Proof. split; [split|]; vm_compute; done. Qed.

Lemma nx_clock refusal i : zero_time < ne_clock (nx_surroundings refusal) i.
Proof. apply (nx_surroundings_ok refusal). Qed.

Definition nx_refused := nx_surroundings (Some ErrRateLimited).

