(* ===== verification/NotifTargets.v ===== *)
(** The in-memory stores of the settings of notifications
    (backend/internal/repository/memory: notification_subscription_repository.go,
    user_notification_preference_repository.go,
    notification_instance_settings_repository.go).

    A method is a function of the store, its result and its error.  The clock and
    [uuid.NewString] are the arguments [now] and [newID].  The store of targets
    holds a pointer to the store of preferences and to that of the settings of the
    instance, or nil: it is one state with what they point to. *)

From Stdlib Require Import Ascii.
From stdpp Require Import base gmap strings list pretty sorting numbers.
From S2P Require Import Prelude GoLib GoPath GoText Domain Repository NotifDelivery.
From S2P Require Import NotifDestinations Notifier.

Open Scope go_scope.
Open Scope Z_scope.

(** ** Data *)

#[export] Instance eta_NotificationSubscription : Eta NotificationSubscription := λ s,
  mkNotificationSubscription (ns_ID s) (ns_TargetID s) (ns_ProjectID s) (ns_JobID s)
    (ns_EventType s) (ns_Enabled s) (ns_CreatedAt s) (ns_UpdatedAt s).

#[export] Instance eta_UserNotificationPreference : Eta UserNotificationPreference := λ p,
  mkUserNotificationPreference (up_UserID p) (up_CommitAuthorFailureEmailEnabled p)
    (up_CommitAuthorFailureSlackEnabled p) (up_CommitAuthorFailureEmailSource p)
    (up_CommitAuthorSuccessEmailEnabled p) (up_CommitAuthorSuccessSlackEnabled p)
    (up_CommitAuthorSuccessEmailSource p) (up_CreatedAt p) (up_UpdatedAt p).

Definition UserNotificationPreferenceSourceInstanceDefault : string := "instance_default".
Definition UserNotificationPreferenceSourceUser : string := "user".

(** domain/notification_instance_settings.go. *)
Record NotificationInstanceSettings := mkNotificationInstanceSettings {
  is_DefaultCommitAuthorFailureEmailEnabled : bool;
  is_DefaultCommitAuthorSuccessEmailEnabled : bool;
  is_CreatedAt : Time;
  is_UpdatedAt : Time;
}.

#[export] Instance eta_NotificationInstanceSettings : Eta NotificationInstanceSettings := λ s,
  mkNotificationInstanceSettings (is_DefaultCommitAuthorFailureEmailEnabled s)
    (is_DefaultCommitAuthorSuccessEmailEnabled s) (is_CreatedAt s) (is_UpdatedAt s).

Definition ErrNotificationTargetDuplicate : error :=
  Sentinel "repository.ErrNotificationTargetDuplicate".
Definition ErrNotificationSubscriptionDuplicate : error :=
  Sentinel "repository.ErrNotificationSubscriptionDuplicate".
Definition ErrNotificationSubscriptionNotFound : error :=
  Sentinel "repository.ErrNotificationSubscriptionNotFound".
Definition ErrNotificationInstanceSettingsNotFound : error :=
  Sentinel "repository.ErrNotificationInstanceSettingsNotFound".

Record EnsureOwnedNotificationEmailTargetInput := mkEnsureOwnedNotificationEmailTargetInput {
  eo_ID : string;
  eo_OwnerUserID : string;
  eo_Name : string;
  eo_Recipient : string;
  eo_CreatedAt : Time;
  eo_UpdatedAt : Time;
}.

Record NotificationSubscriptionListFilter := mkNotificationSubscriptionListFilter {
  nlf_ProjectID : option string;
  nlf_JobID : option string;
}.

(** ** Preferences *)

Abbreviation UserNotificationPreferenceRepository :=
  (gmap string UserNotificationPreference) (only parsing).

Definition UserNotificationPreferenceRepository_GetByUserID (userID : string)
    (r : UserNotificationPreferenceRepository) : UserNotificationPreference + error :=
  match r !! TrimSpace userID with
  | None => inr ErrUserNotificationPreferenceNotFound
  | Some preference => inl preference
  end.

Definition UserNotificationPreferenceRepository_InitializeIfAbsent
    (preference : UserNotificationPreference) (r : UserNotificationPreferenceRepository)
    : UserNotificationPreferenceRepository * (UserNotificationPreference * bool) :=
  let preference := preference <| up_UserID := TrimSpace (up_UserID preference) |> in
  match r !! up_UserID preference with
  | Some existing => (r, (existing, false))
  | None => (<[up_UserID preference := preference]> r, (preference, true))
  end.

Definition UserNotificationPreferenceRepository_Upsert
    (preference : UserNotificationPreference) (r : UserNotificationPreferenceRepository)
    : UserNotificationPreferenceRepository * UserNotificationPreference :=
  let preference := preference <| up_UserID := TrimSpace (up_UserID preference) |> in
  (<[up_UserID preference := preference]> r, preference).

(** ** Settings of the instance *)

Abbreviation NotificationInstanceSettingsRepository :=
  (option NotificationInstanceSettings) (only parsing).

Definition NotificationInstanceSettingsRepository_Get (r : NotificationInstanceSettingsRepository)
    : NotificationInstanceSettings + error :=
  match r with
  | None => inr ErrNotificationInstanceSettingsNotFound
  | Some settings => inl settings
  end.

Definition NotificationInstanceSettingsRepository_Upsert (settings : NotificationInstanceSettings)
    (r : NotificationInstanceSettingsRepository)
    : NotificationInstanceSettingsRepository * NotificationInstanceSettings :=
  (Some settings, settings).

(** ** Targets and subscriptions *)

Record NotificationSubscriptionRepository := mkSubscriptionStore {
  sb_targets : gmap string NotificationTarget;
  sb_subscriptions : gmap string NotificationSubscription;
  sb_projectIndex : gmap string string;
  sb_jobIndex : gmap string string;
  sb_preferences : option UserNotificationPreferenceRepository;
  sb_settings : option NotificationInstanceSettingsRepository;
}.

#[export] Instance eta_NotificationSubscriptionRepository
    : Eta NotificationSubscriptionRepository := λ r,
  mkSubscriptionStore (sb_targets r) (sb_subscriptions r) (sb_projectIndex r) (sb_jobIndex r)
    (sb_preferences r) (sb_settings r).

Definition NewNotificationSubscriptionRepository : NotificationSubscriptionRepository :=
  mkSubscriptionStore ∅ ∅ ∅ ∅ None None.

Definition SetNotificationPreferenceRepository (preferences : UserNotificationPreferenceRepository)
    (r : NotificationSubscriptionRepository) : NotificationSubscriptionRepository :=
  r <| sb_preferences := Some preferences |>.

Definition SetNotificationInstanceSettingsRepository
    (settings : NotificationInstanceSettingsRepository) (r : NotificationSubscriptionRepository)
    : NotificationSubscriptionRepository :=
  r <| sb_settings := Some settings |>.

(** The values of the maps in the order Go iterates them. *)
Definition targetsInAnyOrder (r : NotificationSubscriptionRepository) : list NotificationTarget :=
  (map_to_list (sb_targets r)).*2.

Definition subscriptionsInAnyOrder (r : NotificationSubscriptionRepository)
    : list NotificationSubscription :=
  (map_to_list (sb_subscriptions r)).*2.

Definition storeTarget (id : string) (target : NotificationTarget)
    (r : NotificationSubscriptionRepository) : NotificationSubscriptionRepository :=
  r <| sb_targets := <[id := target]> (sb_targets r) |>.

(** [strings.EqualFold] compares rune by rune the least rune each can be folded to
    by [unicode.SimpleFold], a table of the library. *)
Class Folding := { foldRune : list Ascii.ascii → list Ascii.ascii }.

Definition EqualFold `{Folding} (s t : string) : bool :=
  (foldRune <$> runes (string_to_list s)) == (foldRune <$> runes (string_to_list t)).

Definition trimOptionalString (value : option string) : option string :=
  match value with
  | None => None
  | Some value =>
      let trimmed := TrimSpace value in if trimmed == "" then None else Some trimmed
  end.

Definition notificationSubscriptionKey (targetID : string) (eventType : NotificationEventType)
    (projectID jobID : option string) : string :=
  let scope := match projectID with Some projectID => "project:" +:+ projectID | None => "" end in
  let scope := match jobID with Some jobID => "job:" +:+ jobID | None => scope end in
  TrimSpace targetID +:+ "|" +:+ TrimSpace eventType +:+ "|" +:+ scope.

(** The key of a subscription. *)
Definition subscriptionKey (s : NotificationSubscription) : string :=
  notificationSubscriptionKey (ns_TargetID s) (ns_EventType s) (ns_ProjectID s) (ns_JobID s).

Definition isNil (value : option string) : bool :=
  match value with None => true | Some _ => false end.

(** *** Searches *)

Definition keepEarliest (selected : option NotificationTarget) (target : NotificationTarget)
    : option NotificationTarget :=
  match selected with
  | None => Some target
  | Some found =>
      if Before (nt_CreatedAt target) (nt_CreatedAt found)
         || (Equal (nt_CreatedAt target) (nt_CreatedAt found)
             && string_lt (nt_ID target) (nt_ID found))
      then Some target else selected
  end.

Definition ownsEmail (userID : string) (target : NotificationTarget) : bool :=
  (nt_Type target == NotificationTargetTypeEmail)
  && match nt_OwnerUserID target with
     | None => false
     | Some owner => TrimSpace owner == userID
     end.

Definition findOwnedEmailTargetByUserIDLocked (userID : string)
    (r : NotificationSubscriptionRepository) : option NotificationTarget :=
  foldl keepEarliest None
    (filter (λ target, Is_true (ownsEmail (TrimSpace userID) target)) (targetsInAnyOrder r)).

Definition configEmail `{Folding} (recipient : string) (target : NotificationTarget) : bool :=
  (nt_Type target == NotificationTargetTypeEmail) && isNil (nt_OwnerUserID target)
  && (nt_Origin target == NotificationTargetOriginConfigDefault)
  && EqualFold (nt_Recipient target) recipient.

Definition findConfigEmailTargetByRecipientLocked `{Folding} (recipient : string)
    (r : NotificationSubscriptionRepository) : option NotificationTarget :=
  foldl keepEarliest None
    (filter (λ target, Is_true (configEmail recipient target)) (targetsInAnyOrder r)).

(** Another target than the one called [id]. *)
Definition another (id : string) (found : option NotificationTarget) : bool :=
  match found with None => false | Some existing => nt_ID existing != id end.

(** *** Targets *)

Definition duplicateOwner (id : string) (owner : option string)
    (r : NotificationSubscriptionRepository) : bool :=
  match owner with
  | None => false
  | Some owner => another id (findOwnedEmailTargetByUserIDLocked owner r)
  end.

Definition duplicateConfig `{Folding} (id : string) (owner : option string)
    (target : NotificationTarget) (r : NotificationSubscriptionRepository) : bool :=
  (nt_Type target == NotificationTargetTypeEmail) && isNil owner
  && (nt_Origin target == NotificationTargetOriginConfigDefault)
  && another id (findConfigEmailTargetByRecipientLocked (nt_Recipient target) r).

(** The times of a new target. *)
Definition withTimes (now : Time) (target : NotificationTarget) : NotificationTarget :=
  let target :=
    if IsZero (nt_CreatedAt target) then target <| nt_CreatedAt := now |> else target in
  if IsZero (nt_UpdatedAt target) then target <| nt_UpdatedAt := nt_CreatedAt target |>
  else target.

Definition NotificationSubscriptionRepository_CreateTarget `{Addresses} `{Folding}
    (newID : string) (now : Time) (target : NotificationTarget)
    (r : NotificationSubscriptionRepository)
    : NotificationSubscriptionRepository * (NotificationTarget + error) :=
  let target := if TrimSpace (nt_ID target) == "" then target <| nt_ID := newID |> else target in
  match ValidateExplicitNotificationTarget target with
  | inr err => (r, inr err)
  | inl target =>
      let target := withTimes now target in
      match sb_targets r !! nt_ID target with
      | Some _ => (r, inr ErrNotificationTargetDuplicate)
      | None =>
          if duplicateOwner (nt_ID target) (nt_OwnerUserID target) r
          then (r, inr ErrNotificationTargetDuplicate)
          else if duplicateConfig (nt_ID target) (nt_OwnerUserID target) target r
          then (r, inr ErrNotificationTargetDuplicate)
          else (storeTarget (nt_ID target) target r, inl target)
      end
  end.

Definition targetBefore (x y : NotificationTarget) : bool :=
  if Equal (nt_CreatedAt x) (nt_CreatedAt y) then string_lt (nt_ID x) (nt_ID y)
  else Before (nt_CreatedAt x) (nt_CreatedAt y).

Definition NotificationSubscriptionRepository_ListTargets (r : NotificationSubscriptionRepository)
    : list NotificationTarget :=
  sort_slice targetBefore (targetsInAnyOrder r).

Definition foundTarget (found : option NotificationTarget) : NotificationTarget + error :=
  match found with
  | None => inr ErrNotificationTargetNotFound
  | Some target => inl target
  end.

Definition NotificationSubscriptionRepository_GetTargetByID (id : string)
    (r : NotificationSubscriptionRepository) : NotificationTarget + error :=
  foundTarget (sb_targets r !! TrimSpace id).

Definition NotificationSubscriptionRepository_GetOwnedEmailTargetByUserID (userID : string)
    (r : NotificationSubscriptionRepository) : NotificationTarget + error :=
  foundTarget (findOwnedEmailTargetByUserIDLocked (TrimSpace userID) r).

(** The target of a recipient of the configuration. *)
Definition configTarget (id name recipient : string) (createdAt updatedAt : Time)
    : NotificationTarget :=
  mkNotificationTarget id None NotificationTargetTypeEmail NotificationTargetOriginConfigDefault
    name recipient true createdAt updatedAt.

Definition NotificationSubscriptionRepository_EnsureConfigEmailTarget `{Addresses} `{Folding}
    (newID : string) (now : Time) (input : EnsureConfigNotificationEmailTargetInput)
    (r : NotificationSubscriptionRepository)
    : NotificationSubscriptionRepository * (NotificationTarget + error) :=
  match NormalizeNotificationTarget
          (configTarget "" "" (ec_Recipient input) zero_time zero_time) with
  | inr err => (r, inr err)
  | inl normalizedTarget =>
      let trimmedRecipient := nt_Recipient normalizedTarget in
      match findConfigEmailTargetByRecipientLocked trimmedRecipient r with
      | Some existing => (r, inl existing)
      | None =>
          let createdAt := if IsZero (ec_CreatedAt input) then now else ec_CreatedAt input in
          let updatedAt := if IsZero (ec_UpdatedAt input) then createdAt else ec_UpdatedAt input in
          let id := TrimSpace (ec_ID input) in
          let id := if id == "" then newID else id in
          let name := TrimSpace (ec_Name input) in
          let name := if name == "" then trimmedRecipient else name in
          match NormalizeNotificationTarget
                  (configTarget id name (ec_Recipient input) createdAt updatedAt) with
          | inr err => (r, inr err)
          | inl created => (storeTarget (nt_ID created) created r, inl created)
          end
      end
  end.

(** The first target of the iteration that the user owns. *)
Definition NotificationSubscriptionRepository_SetOwnedEmailTargetEnabled (ownerUserID : string)
    (enabled : bool) (updatedAt : Time) (r : NotificationSubscriptionRepository)
    : NotificationSubscriptionRepository * (NotificationTarget + error) :=
  let trimmedUserID := TrimSpace ownerUserID in
  match filter (λ x, Is_true (ownsEmail trimmedUserID x.2)) (map_to_list (sb_targets r)) with
  | [] => (r, inr ErrNotificationTargetNotFound)
  | (id, target) :: _ =>
      let target := target <| nt_Enabled := enabled |> in
      let target :=
        if IsZero updatedAt then target else target <| nt_UpdatedAt := updatedAt |> in
      (storeTarget id target r, inl target)
  end.

(** The target of a user, before it is normalized. *)
Definition ownedTarget (newID : string) (now : Time)
    (input : EnsureOwnedNotificationEmailTargetInput) : NotificationTarget :=
  let trimmedOwnerID := TrimSpace (eo_OwnerUserID input) in
  let trimmedRecipient := TrimSpace (eo_Recipient input) in
  let createdAt := if IsZero (eo_CreatedAt input) then now else eo_CreatedAt input in
  let updatedAt := if IsZero (eo_UpdatedAt input) then createdAt else eo_UpdatedAt input in
  let id := TrimSpace (eo_ID input) in
  let id := if id == "" then newID else id in
  let name := TrimSpace (eo_Name input) in
  let name := if name == "" then trimmedRecipient else name in
  mkNotificationTarget id (Some trimmedOwnerID) NotificationTargetTypeEmail
    NotificationTargetOriginManual name (eo_Recipient input) true createdAt updatedAt.

Definition ensureOwnedEmailTargetLocked `{Addresses} (newID : string) (now : Time)
    (input : EnsureOwnedNotificationEmailTargetInput) (r : NotificationSubscriptionRepository)
    : NotificationSubscriptionRepository * ((NotificationTarget * bool) + error) :=
  let trimmedOwnerID := TrimSpace (eo_OwnerUserID input) in
  match findOwnedEmailTargetByUserIDLocked trimmedOwnerID r with
  | Some target => (r, inl (target, false))
  | None =>
      match NormalizeNotificationTarget (ownedTarget newID now input) with
      | inr err => (r, inr err)
      | inl created => (storeTarget (nt_ID created) created r, inl (created, true))
      end
  end.

Definition NotificationSubscriptionRepository_EnsureOwnedEmailTarget `{Addresses}
    (newID : string) (now : Time) (input : EnsureOwnedNotificationEmailTargetInput)
    (r : NotificationSubscriptionRepository)
    : NotificationSubscriptionRepository * (NotificationTarget + error) :=
  let trimmedOwnerID := TrimSpace (eo_OwnerUserID input) in
  match findOwnedEmailTargetByUserIDLocked trimmedOwnerID r with
  | Some target => (r, inl target)
  | None =>
      match NormalizeNotificationTarget (ownedTarget newID now input) with
      | inr err => (r, inr err)
      | inl created => (storeTarget (nt_ID created) created r, inl created)
      end
  end.

(** The preferences a new target brings with it: those of the instance, which do
    not replace what the user chose. *)
Definition initialPreference (input : EnsureOwnedNotificationEmailTargetInput)
    (failureEnabled successEnabled : bool) : UserNotificationPreference := {|
  up_UserID := TrimSpace (eo_OwnerUserID input);
  up_CommitAuthorFailureEmailEnabled := failureEnabled;
  up_CommitAuthorFailureSlackEnabled := false;
  up_CommitAuthorFailureEmailSource := UserNotificationPreferenceSourceInstanceDefault;
  up_CommitAuthorSuccessEmailEnabled := successEnabled;
  up_CommitAuthorSuccessSlackEnabled := false;
  up_CommitAuthorSuccessEmailSource := Some UserNotificationPreferenceSourceInstanceDefault;
  up_CreatedAt := eo_CreatedAt input;
  up_UpdatedAt := eo_UpdatedAt input;
|}.

(** The defaults for failures and for successes. *)
Definition instanceDefaults (settings : option NotificationInstanceSettingsRepository)
    : bool * bool :=
  match settings with
  | Some (Some settings) =>
      (is_DefaultCommitAuthorFailureEmailEnabled settings,
       is_DefaultCommitAuthorSuccessEmailEnabled settings)
  | _ => (true, false)
  end.

Definition initializedPreferences (input : EnsureOwnedNotificationEmailTargetInput)
    (failureEnabled successEnabled : bool) (preferences : UserNotificationPreferenceRepository)
    : UserNotificationPreferenceRepository :=
  let trimmedUserID := TrimSpace (eo_OwnerUserID input) in
  match preferences !! trimmedUserID with
  | None => <[trimmedUserID := initialPreference input failureEnabled successEnabled]> preferences
  | Some existing =>
      match up_CommitAuthorSuccessEmailSource existing with
      | Some _ => preferences
      | None =>
          let existing := existing
            <| up_CommitAuthorSuccessEmailEnabled := successEnabled |>
            <| up_CommitAuthorSuccessEmailSource :=
                 Some UserNotificationPreferenceSourceInstanceDefault |>
            <| up_UpdatedAt := eo_UpdatedAt input |> in
          <[trimmedUserID := existing]> preferences
      end
  end.

Definition NotificationSubscriptionRepository_EnsureOwnedEmailTargetInitialized `{Addresses}
    (newID : string) (now : Time) (input : EnsureOwnedNotificationEmailTargetInput)
    (r : NotificationSubscriptionRepository)
    : NotificationSubscriptionRepository * (NotificationTarget + error) :=
  let '(r, result) := ensureOwnedEmailTargetLocked newID now input r in
  match result with
  | inr err => (r, inr err)
  | inl (target, newlyEligible) =>
      match sb_preferences r with
      | None => (r, inl target)
      | Some preferences =>
          if negb newlyEligible then (r, inl target)
          else
            let '(failureEnabled, successEnabled) := instanceDefaults (sb_settings r) in
            (r <| sb_preferences :=
                 Some (initializedPreferences input failureEnabled successEnabled preferences) |>,
             inl target)
      end
  end.

Definition updatedTarget (current target : NotificationTarget) (ownerUserID : option string)
    : NotificationTarget :=
  let current := current
    <| nt_Type := nt_Type target |>
    <| nt_OwnerUserID := ownerUserID |>
    <| nt_Origin := nt_Origin target |>
    <| nt_Name := TrimSpace (nt_Name target) |>
    <| nt_Recipient := nt_Recipient target |>
    <| nt_Enabled := nt_Enabled target |> in
  let current :=
    if IsZero (nt_CreatedAt target) then current
    else current <| nt_CreatedAt := nt_CreatedAt target |> in
  if IsZero (nt_UpdatedAt target) then current
  else current <| nt_UpdatedAt := nt_UpdatedAt target |>.

Definition NotificationSubscriptionRepository_UpdateTarget `{Addresses} `{Folding}
    (target : NotificationTarget) (r : NotificationSubscriptionRepository)
    : NotificationSubscriptionRepository * (NotificationTarget + error) :=
  let targetID := TrimSpace (nt_ID target) in
  match sb_targets r !! targetID with
  | None => (r, inr ErrNotificationTargetNotFound)
  | Some current =>
      match ValidateExplicitNotificationTarget target with
      | inr err => (r, inr err)
      | inl target =>
          let ownerUserID := trimOptionalString (nt_OwnerUserID target) in
          if duplicateOwner targetID ownerUserID r
          then (r, inr ErrNotificationTargetDuplicate)
          else if duplicateConfig targetID ownerUserID target r
          then (r, inr ErrNotificationTargetDuplicate)
          else
            let current := updatedTarget current target ownerUserID in
            (storeTarget targetID current r, inl current)
      end
  end.

(** *** Subscriptions *)

(** The index a subscription is in. *)
Definition removeFromIndex (s : NotificationSubscription) (r : NotificationSubscriptionRepository)
    : NotificationSubscriptionRepository :=
  if isNil (ns_ProjectID s)
  then r <| sb_jobIndex := delete (subscriptionKey s) (sb_jobIndex r) |>
  else r <| sb_projectIndex := delete (subscriptionKey s) (sb_projectIndex r) |>.

Definition restoreNotificationSubscriptionIndexLocked (s : NotificationSubscription)
    (r : NotificationSubscriptionRepository) : NotificationSubscriptionRepository :=
  if isNil (ns_ProjectID s)
  then r <| sb_jobIndex := <[subscriptionKey s := ns_ID s]> (sb_jobIndex r) |>
  else r <| sb_projectIndex := <[subscriptionKey s := ns_ID s]> (sb_projectIndex r) |>.

Definition indexed (s : NotificationSubscription) (r : NotificationSubscriptionRepository)
    : option string :=
  if isNil (ns_ProjectID s) then sb_jobIndex r !! subscriptionKey s
  else sb_projectIndex r !! subscriptionKey s.

Definition storeSubscription (id : string) (s : NotificationSubscription)
    (r : NotificationSubscriptionRepository) : NotificationSubscriptionRepository :=
  r <| sb_subscriptions := <[id := s]> (sb_subscriptions r) |>.

Definition dropSubscription (id : string) (s : NotificationSubscription)
    (r : NotificationSubscriptionRepository) : NotificationSubscriptionRepository :=
  removeFromIndex s (r <| sb_subscriptions := delete id (sb_subscriptions r) |>).

(** One pass of the loop of [DeleteTarget]. *)
Definition dropOfTarget (targetID : string) (r : NotificationSubscriptionRepository)
    (x : string * NotificationSubscription) : NotificationSubscriptionRepository :=
  let '(subscriptionID, subscription) := x in
  if ns_TargetID subscription != targetID then r
  else dropSubscription subscriptionID subscription r.

Definition NotificationSubscriptionRepository_DeleteTarget (id : string)
    (r : NotificationSubscriptionRepository)
    : NotificationSubscriptionRepository * option error :=
  let targetID := TrimSpace id in
  match sb_targets r !! targetID with
  | None => (r, Some ErrNotificationTargetNotFound)
  | Some _ =>
      let r := r <| sb_targets := delete targetID (sb_targets r) |> in
      (foldl (dropOfTarget targetID) r (map_to_list (sb_subscriptions r)), None)
  end.

(** The checks of a subscription that is created or changed. *)
Definition checkSubscription (subscription : NotificationSubscription)
    (targets : gmap string NotificationTarget) : (option string * option string) + error :=
  if TrimSpace (ns_TargetID subscription) == ""
  then inr (Errorf "notification subscription target_id is required")
  else match targets !! TrimSpace (ns_TargetID subscription) with
  | None =>
      inr (Errorf ("notification subscription target " +:+ Quote (ns_TargetID subscription)
                   +:+ " not found"))
  | Some _ =>
      let projectID := trimOptionalString (ns_ProjectID subscription) in
      let jobID := trimOptionalString (ns_JobID subscription) in
      if eqb (isNil projectID) (isNil jobID)
      then inr (Errorf "notification subscription must specify exactly one scope")
      else if TrimSpace (ns_EventType subscription) == ""
      then inr (Errorf "notification subscription event_type is required")
      else if (ns_EventType subscription != NotificationEventTypeBuildSucceeded)
              && (ns_EventType subscription != NotificationEventTypeBuildFailed)
      then inr (Errorf ("unsupported notification event type " +:+ Quote (ns_EventType subscription)))
      else inl (projectID, jobID)
  end.

Definition createdSubscription (newID : string) (now : Time) (projectID jobID : option string)
    (subscription : NotificationSubscription) : NotificationSubscription :=
  let subscription :=
    if TrimSpace (ns_ID subscription) == "" then subscription <| ns_ID := newID |>
    else subscription in
  let subscription := subscription
    <| ns_TargetID := TrimSpace (ns_TargetID subscription) |>
    <| ns_ProjectID := projectID |>
    <| ns_JobID := jobID |> in
  let subscription :=
    if IsZero (ns_CreatedAt subscription) then subscription <| ns_CreatedAt := now |>
    else subscription in
  if IsZero (ns_UpdatedAt subscription)
  then subscription <| ns_UpdatedAt := ns_CreatedAt subscription |> else subscription.

Definition NotificationSubscriptionRepository_CreateSubscription (newID : string) (now : Time)
    (subscription : NotificationSubscription) (r : NotificationSubscriptionRepository)
    : NotificationSubscriptionRepository * (NotificationSubscription + error) :=
  match checkSubscription subscription (sb_targets r) with
  | inr err => (r, inr err)
  | inl (projectID, jobID) =>
      let subscription := createdSubscription newID now projectID jobID subscription in
      match indexed subscription r with
      | Some _ => (r, inr ErrNotificationSubscriptionDuplicate)
      | None =>
          let r := restoreNotificationSubscriptionIndexLocked subscription r in
          (storeSubscription (ns_ID subscription) subscription r, inl subscription)
      end
  end.

Definition matchesNotificationSubscriptionFilter (subscription : NotificationSubscription)
    (projectID jobID : option string) : bool :=
  (isNil projectID && isNil jobID)
  || (negb (isNil projectID) && negb (isNil (ns_ProjectID subscription))
      && (ns_ProjectID subscription == projectID))
  || (negb (isNil jobID) && negb (isNil (ns_JobID subscription))
      && (ns_JobID subscription == jobID)).

Definition subscriptionBefore (x y : NotificationSubscription) : bool :=
  if Equal (ns_CreatedAt x) (ns_CreatedAt y) then string_lt (ns_ID x) (ns_ID y)
  else Before (ns_CreatedAt x) (ns_CreatedAt y).

Definition NotificationSubscriptionRepository_ListSubscriptions
    (filter_ : NotificationSubscriptionListFilter) (r : NotificationSubscriptionRepository)
    : list NotificationSubscription :=
  let projectID := trimOptionalString (nlf_ProjectID filter_) in
  let jobID := trimOptionalString (nlf_JobID filter_) in
  sort_slice subscriptionBefore
    (filter (λ s, Is_true (matchesNotificationSubscriptionFilter s projectID jobID))
       (subscriptionsInAnyOrder r)).

Definition NotificationSubscriptionRepository_GetSubscriptionByID (id : string)
    (r : NotificationSubscriptionRepository) : NotificationSubscription + error :=
  match sb_subscriptions r !! TrimSpace id with
  | None => inr ErrNotificationSubscriptionNotFound
  | Some subscription => inl subscription
  end.

(** [subscription] with the fields of its new place. *)
Definition movedSubscription (current subscription : NotificationSubscription)
    (projectID jobID : option string) : NotificationSubscription :=
  let current := current
    <| ns_TargetID := TrimSpace (ns_TargetID subscription) |>
    <| ns_ProjectID := projectID |>
    <| ns_JobID := jobID |>
    <| ns_EventType := ns_EventType subscription |>
    <| ns_Enabled := ns_Enabled subscription |> in
  let current :=
    if IsZero (ns_CreatedAt subscription) then current
    else current <| ns_CreatedAt := ns_CreatedAt subscription |> in
  if IsZero (ns_UpdatedAt subscription) then current
  else current <| ns_UpdatedAt := ns_UpdatedAt subscription |>.

Definition NotificationSubscriptionRepository_UpdateSubscription
    (subscription : NotificationSubscription) (r : NotificationSubscriptionRepository)
    : NotificationSubscriptionRepository * (NotificationSubscription + error) :=
  let subscriptionID := TrimSpace (ns_ID subscription) in
  match sb_subscriptions r !! subscriptionID with
  | None => (r, inr ErrNotificationSubscriptionNotFound)
  | Some current =>
      match checkSubscription subscription (sb_targets r) with
      | inr err => (r, inr err)
      | inl (projectID, jobID) =>
          let newKey := notificationSubscriptionKey (TrimSpace (ns_TargetID subscription))
                          (ns_EventType subscription) projectID jobID in
          let removed := removeFromIndex current r in
          let index := if isNil projectID then sb_jobIndex removed else sb_projectIndex removed in
          if match index !! newKey with Some id => id != subscriptionID | None => false end
          then (restoreNotificationSubscriptionIndexLocked current removed,
                inr ErrNotificationSubscriptionDuplicate)
          else
            let index := <[newKey := subscriptionID]> index in
            let r := if isNil projectID then removed <| sb_jobIndex := index |>
                     else removed <| sb_projectIndex := index |> in
            let current := movedSubscription current subscription projectID jobID in
            (storeSubscription subscriptionID current r, inl current)
      end
  end.

Definition NotificationSubscriptionRepository_DeleteSubscription (id : string)
    (r : NotificationSubscriptionRepository)
    : NotificationSubscriptionRepository * option error :=
  let subscriptionID := TrimSpace id in
  match sb_subscriptions r !! subscriptionID with
  | None => (r, Some ErrNotificationSubscriptionNotFound)
  | Some subscription => (dropSubscription subscriptionID subscription r, None)
  end.

(** Is the subscription one to the event of the build? *)
Definition subscribes (projectID : string) (jobID : option string)
    (eventType : NotificationEventType) (subscription : NotificationSubscription) : bool :=
  ns_Enabled subscription
  && (ns_EventType subscription == eventType)
  && match ns_ProjectID subscription with
     | None => true
     | Some project => (projectID != "") && (project == projectID)
     end
  && match ns_JobID subscription with
     | None => true
     | Some job => match jobID with None => false | Some jobID => job == jobID end
     end.

Definition matchOf (r : NotificationSubscriptionRepository) (subscription : NotificationSubscription)
    : option NotificationSubscriptionMatch :=
  match sb_targets r !! ns_TargetID subscription with
  | None => None
  | Some target =>
      if nt_Enabled target then Some (mkNotificationSubscriptionMatch subscription target) else None
  end.

Definition NotificationSubscriptionRepository_ListEnabledMatchesForBuildEvent (build : Build)
    (eventType : NotificationEventType) (r : NotificationSubscriptionRepository)
    : list NotificationSubscriptionMatch :=
  let projectID := TrimSpace (b_ProjectID build) in
  let jobID := trimOptionalString (b_JobID build) in
  omap (λ s, if subscribes projectID jobID eventType s then matchOf r s else None)
    (subscriptionsInAnyOrder r).
