(* ===== verification/SubscriptionBook.v ===== *)
(** A book of targets and subscriptions: what the store of NotifTargets.v promises,
    without its indexes and its choices among several targets.

    A user has one email target and a configured address has one; a subscription
    is known by its place, the target, the event and the project or job, and no
    two have the same.  [book_call] is what a call answers and leaves. *)

From stdpp Require Import base gmap strings list pretty sorting numbers.
From S2P Require Import Prelude GoLib GoPath GoText Domain Repository NotifDelivery.
From S2P Require Import NotifDestinations Notifier NotifTargets.

Open Scope go_scope.
Open Scope Z_scope.

(** ** The calls *)

Inductive SettingsCall :=
  | CallCreateTarget (newID : string) (now : Time) (target : NotificationTarget)
  | CallEnsureConfig (newID : string) (now : Time) (input : EnsureConfigNotificationEmailTargetInput)
  | CallSetEnabled (ownerUserID : string) (enabled : bool) (updatedAt : Time)
  | CallEnsureOwned (newID : string) (now : Time) (input : EnsureOwnedNotificationEmailTargetInput)
  | CallInitialize (newID : string) (now : Time) (input : EnsureOwnedNotificationEmailTargetInput)
  | CallUpdateTarget (target : NotificationTarget)
  | CallDeleteTarget (id : string)
  | CallCreateSubscription (newID : string) (now : Time) (subscription : NotificationSubscription)
  | CallUpdateSubscription (subscription : NotificationSubscription)
  | CallDeleteSubscription (id : string).

Inductive SettingsAnswer :=
  | AnswerTarget (result : NotificationTarget + error)
  | AnswerSubscription (result : NotificationSubscription + error)
  | AnswerDone (err : option error).

Section calls.
Context `{Addresses} `{Folding}.

Definition settings_call (c : SettingsCall) (r : NotificationSubscriptionRepository)
    : NotificationSubscriptionRepository * SettingsAnswer :=
  match c with
  | CallCreateTarget newID now target =>
      prod_map id AnswerTarget (NotificationSubscriptionRepository_CreateTarget newID now target r)
  | CallEnsureConfig newID now input =>
      prod_map id AnswerTarget
        (NotificationSubscriptionRepository_EnsureConfigEmailTarget newID now input r)
  | CallSetEnabled owner enabled at_ =>
      prod_map id AnswerTarget
        (NotificationSubscriptionRepository_SetOwnedEmailTargetEnabled owner enabled at_ r)
  | CallEnsureOwned newID now input =>
      prod_map id AnswerTarget
        (NotificationSubscriptionRepository_EnsureOwnedEmailTarget newID now input r)
  | CallInitialize newID now input =>
      prod_map id AnswerTarget
        (NotificationSubscriptionRepository_EnsureOwnedEmailTargetInitialized newID now input r)
  | CallUpdateTarget target =>
      prod_map id AnswerTarget (NotificationSubscriptionRepository_UpdateTarget target r)
  | CallDeleteTarget i =>
      prod_map id AnswerDone (NotificationSubscriptionRepository_DeleteTarget i r)
  | CallCreateSubscription newID now subscription =>
      prod_map id AnswerSubscription
        (NotificationSubscriptionRepository_CreateSubscription newID now subscription r)
  | CallUpdateSubscription subscription =>
      prod_map id AnswerSubscription
        (NotificationSubscriptionRepository_UpdateSubscription subscription r)
  | CallDeleteSubscription i =>
      prod_map id AnswerDone (NotificationSubscriptionRepository_DeleteSubscription i r)
  end.

Fixpoint settings_calls (cs : list SettingsCall) (r : NotificationSubscriptionRepository)
    : NotificationSubscriptionRepository * list SettingsAnswer :=
  match cs with
  | [] => (r, [])
  | c :: cs =>
      let '(r, answer) := settings_call c r in
      let '(r, answers) := settings_calls cs r in (r, answer :: answers)
  end.

(** ** The book *)

Record Book := mkBook {
  bk_targets : gmap string NotificationTarget;
  bk_subscriptions : gmap string NotificationSubscription;
  bk_preferences : option (gmap string UserNotificationPreference);
  bk_settings : option (option NotificationInstanceSettings);
}.

#[local] Instance eta_Book : Eta Book := λ b,
  mkBook (bk_targets b) (bk_subscriptions b) (bk_preferences b) (bk_settings b).

Definition book_of (r : NotificationSubscriptionRepository) : Book :=
  mkBook (sb_targets r) (sb_subscriptions r) (sb_preferences r) (sb_settings r).

(** The one target that has the property. *)
Definition the (P : NotificationTarget → bool) (m : gmap string NotificationTarget)
    : option NotificationTarget :=
  snd <$> head (filter (λ x, Is_true (P x.2)) (map_to_list m)).

Definition put (target : NotificationTarget) (b : Book) : Book :=
  b <| bk_targets := <[nt_ID target := target]> (bk_targets b) |>.

(** Another target that stands for the same user or the same configured address. *)
Definition stands_for (owner : option string) (target other : NotificationTarget) : bool :=
  match owner with
  | Some owner => ownsEmail (TrimSpace owner) other
  | None =>
      (nt_Type target == NotificationTargetTypeEmail)
      && (nt_Origin target == NotificationTargetOriginConfigDefault)
      && configEmail (nt_Recipient target) other
  end.

Definition rival (i : string) (owner : option string) (target : NotificationTarget)
    (m : gmap string NotificationTarget) : bool :=
  bool_decide (map_Exists (λ j other, j ≠ i ∧ Is_true (stands_for owner target other)) m).

(** Where a subscription stands. *)
Definition place (s : NotificationSubscription)
    : string * NotificationEventType * option string * option string :=
  (ns_TargetID s, ns_EventType s, ns_ProjectID s, ns_JobID s).

Definition taken (i : string) (s : NotificationSubscription)
    (m : gmap string NotificationSubscription) : bool :=
  bool_decide (map_Exists (λ j other, j ≠ i ∧ place other = place s) m).

Definition put_subscription (i : string) (s : NotificationSubscription) (b : Book) : Book :=
  b <| bk_subscriptions := <[i := s]> (bk_subscriptions b) |>.

(** The target of a user, and whether it is new. *)
Definition book_owned (newID : string) (now : Time)
    (input : EnsureOwnedNotificationEmailTargetInput) (b : Book)
    : Book * ((NotificationTarget * bool) + error) :=
  match the (ownsEmail (TrimSpace (eo_OwnerUserID input))) (bk_targets b) with
  | Some target => (b, inl (target, false))
  | None =>
      match NormalizeNotificationTarget (ownedTarget newID now input) with
      | inr err => (b, inr err)
      | inl created => (put created b, inl (created, true))
      end
  end.

Definition book_call (c : SettingsCall) (b : Book) : Book * SettingsAnswer :=
  match c with
  | CallCreateTarget newID now target =>
      let target := if TrimSpace (nt_ID target) == "" then target <| nt_ID := newID |> else target in
      match ValidateExplicitNotificationTarget target with
      | inr err => (b, AnswerTarget (inr err))
      | inl target =>
          let target := withTimes now target in
          if bool_decide (is_Some (bk_targets b !! nt_ID target))
             || rival (nt_ID target) (nt_OwnerUserID target) target (bk_targets b)
          then (b, AnswerTarget (inr ErrNotificationTargetDuplicate))
          else (put target b, AnswerTarget (inl target))
      end
  | CallEnsureConfig newID now input =>
      match NormalizeNotificationTarget
              (configTarget "" "" (ec_Recipient input) zero_time zero_time) with
      | inr err => (b, AnswerTarget (inr err))
      | inl normalized =>
          match the (configEmail (nt_Recipient normalized)) (bk_targets b) with
          | Some existing => (b, AnswerTarget (inl existing))
          | None =>
              let i := if TrimSpace (ec_ID input) == "" then newID else TrimSpace (ec_ID input) in
              let name := if TrimSpace (ec_Name input) == "" then nt_Recipient normalized
                          else TrimSpace (ec_Name input) in
              let createdAt := if IsZero (ec_CreatedAt input) then now else ec_CreatedAt input in
              let updatedAt := if IsZero (ec_UpdatedAt input) then createdAt else ec_UpdatedAt input in
              let created :=
                configTarget i (TrimSpace name) (nt_Recipient normalized) createdAt updatedAt in
              (put created b, AnswerTarget (inl created))
          end
      end
  | CallSetEnabled owner enabled at_ =>
      match the (ownsEmail (TrimSpace owner)) (bk_targets b) with
      | None => (b, AnswerTarget (inr ErrNotificationTargetNotFound))
      | Some target =>
          let target := target <| nt_Enabled := enabled |> in
          let target := if IsZero at_ then target else target <| nt_UpdatedAt := at_ |> in
          (put target b, AnswerTarget (inl target))
      end
  | CallEnsureOwned newID now input =>
      let '(b, result) := book_owned newID now input b in
      (b, AnswerTarget (sum_map fst id result))
  | CallInitialize newID now input =>
      let '(b', result) := book_owned newID now input b in
      match result, bk_preferences b with
      | inl (_, true), Some preferences =>
          let '(failures, successes) := instanceDefaults (bk_settings b) in
          (b' <| bk_preferences :=
             Some (initializedPreferences input failures successes preferences) |>,
           AnswerTarget (sum_map fst id result))
      | _, _ => (b', AnswerTarget (sum_map fst id result))
      end
  | CallUpdateTarget target =>
      match bk_targets b !! TrimSpace (nt_ID target) with
      | None => (b, AnswerTarget (inr ErrNotificationTargetNotFound))
      | Some current =>
          match ValidateExplicitNotificationTarget target with
          | inr err => (b, AnswerTarget (inr err))
          | inl target =>
              if rival (nt_ID current) (nt_OwnerUserID target) target (bk_targets b)
              then (b, AnswerTarget (inr ErrNotificationTargetDuplicate))
              else let target := updatedTarget current target (nt_OwnerUserID target) in
                   (put target b, AnswerTarget (inl target))
          end
      end
  | CallDeleteTarget i =>
      match bk_targets b !! TrimSpace i with
      | None => (b, AnswerDone (Some ErrNotificationTargetNotFound))
      | Some _ =>
          (b <| bk_targets := delete (TrimSpace i) (bk_targets b) |>
             <| bk_subscriptions :=
                  filter (λ x, ns_TargetID x.2 ≠ TrimSpace i) (bk_subscriptions b) |>,
           AnswerDone None)
      end
  | CallCreateSubscription newID now subscription =>
      match checkSubscription subscription (bk_targets b) with
      | inr err => (b, AnswerSubscription (inr err))
      | inl (projectID, jobID) =>
          let s := createdSubscription newID now projectID jobID subscription in
          if taken (ns_ID s) s (bk_subscriptions b)
          then (b, AnswerSubscription (inr ErrNotificationSubscriptionDuplicate))
          else (put_subscription (ns_ID s) s b, AnswerSubscription (inl s))
      end
  | CallUpdateSubscription subscription =>
      match bk_subscriptions b !! TrimSpace (ns_ID subscription) with
      | None => (b, AnswerSubscription (inr ErrNotificationSubscriptionNotFound))
      | Some current =>
          match checkSubscription subscription (bk_targets b) with
          | inr err => (b, AnswerSubscription (inr err))
          | inl (projectID, jobID) =>
              let s := movedSubscription current subscription projectID jobID in
              if taken (ns_ID s) s (bk_subscriptions b)
              then (b, AnswerSubscription (inr ErrNotificationSubscriptionDuplicate))
              else (put_subscription (ns_ID s) s b, AnswerSubscription (inl s))
          end
      end
  | CallDeleteSubscription i =>
      match bk_subscriptions b !! TrimSpace i with
      | None => (b, AnswerDone (Some ErrNotificationSubscriptionNotFound))
      | Some _ =>
          (b <| bk_subscriptions := delete (TrimSpace i) (bk_subscriptions b) |>, AnswerDone None)
      end
  end.

Fixpoint book_calls (cs : list SettingsCall) (b : Book) : Book * list SettingsAnswer :=
  match cs with
  | [] => (b, [])
  | c :: cs =>
      let '(b, answer) := book_call c b in
      let '(b, answers) := book_calls cs b in (b, answer :: answers)
  end.

End calls.
