(* ===== verification/NotifTargetFacts.v ===== *)
(** The invariant of the store of targets and subscriptions, and what its searches
    and its indexes find. *)

From Stdlib Require Import Ascii.
From stdpp Require Import base gmap strings list pretty sorting numbers.
From S2P Require Import Prelude GoLib GoPath GoText Domain Repository NotifDelivery.
From S2P Require Import NotifDestinations Notifier NotifTargets SubscriptionBook.

Open Scope go_scope.
Open Scope Z_scope.

Implicit Types (t : NotificationTarget) (s : NotificationSubscription).
Implicit Types (r : NotificationSubscriptionRepository).

(** ** Keys of subscriptions *)

Definition no_bar (text : string) : Prop := "|"%char ∉ string_to_list text.

Lemma bar_split a b x y :
  no_bar a → no_bar b → a +:+ "|" +:+ x = b +:+ "|" +:+ y → a = b ∧ x = y.
Proof.
  unfold no_bar. revert b. induction a as [|c a IH]; intros [|c' b] Ha Hb; simpl in *; intros [= E].
  - done.
  - exfalso. apply Hb. subst. by left.
  - exfalso. apply Ha. subst. by left.
  - destruct (IH b) as [-> ->]; [set_solver|set_solver|done|]. by subst.
Qed.

Lemma string_app_inj a x y : a +:+ x = a +:+ y → x = y.
Proof. induction a as [|c a IH]; simpl; [done|]. intros [= ?]. auto. Qed.

(** A subscription as it is stored. *)
Record placed s : Prop := {
  pl_target : TrimSpace (ns_TargetID s) = ns_TargetID s;
  pl_event : ns_EventType s = NotificationEventTypeBuildSucceeded ∨
             ns_EventType s = NotificationEventTypeBuildFailed;
  pl_scope : isNil (ns_ProjectID s) = negb (isNil (ns_JobID s));
}.

Lemma event_trimmed s : placed s → TrimSpace (ns_EventType s) = ns_EventType s.
Proof. intros [_ [-> | ->] _]; vm_compute; reflexivity. Qed.

Lemma event_no_bar s : placed s → no_bar (ns_EventType s).
Proof. intros [_ [-> | ->] _]; apply (bool_decide_unpack _); vm_compute; exact I. Qed.

(** The keys of one index tell the places apart. *)
Lemma subscriptionKey_inj s1 s2 :
  placed s1 → placed s2 → no_bar (ns_TargetID s1) → no_bar (ns_TargetID s2) →
  isNil (ns_ProjectID s1) = isNil (ns_ProjectID s2) →
  subscriptionKey s1 = subscriptionKey s2 → place s1 = place s2.
Proof.
  intros H1 H2 Hb1 Hb2 Hn. unfold subscriptionKey, notificationSubscriptionKey.
  rewrite (pl_target _ H1), (pl_target _ H2), (event_trimmed _ H1), (event_trimmed _ H2).
  intros E. apply bar_split in E as [Et E]; [|done|done].
  apply bar_split in E as [Ee E]; [|by apply event_no_bar..].
  pose proof (pl_scope _ H1) as P1. pose proof (pl_scope _ H2) as P2.
  unfold place. rewrite Et, Ee.
  destruct (ns_ProjectID s1), (ns_JobID s1), (ns_ProjectID s2), (ns_JobID s2);
    simpl in *; try done; by simplify_eq.
Qed.

Lemma place_key s1 s2 : place s1 = place s2 → subscriptionKey s1 = subscriptionKey s2.
Proof. unfold place, subscriptionKey. by intros [= -> -> -> ->]. Qed.

(** ** Indexes *)

(** An index holds the subscriptions it is for, under their keys. *)
Definition indexes (sel : NotificationSubscription → bool) (index : gmap string string)
    (m : gmap string NotificationSubscription) : Prop :=
  ∀ key id, index !! key = Some id ↔ ∃ s, m !! id = Some s ∧ sel s = true ∧ subscriptionKey s = key.

Section indexes.
Context (sel : NotificationSubscription → bool) (index : gmap string string)
  (m : gmap string NotificationSubscription) (Hi : indexes sel index m).

Lemma indexes_insert id s :
  m !! id = None → sel s = true → index !! subscriptionKey s = None →
  indexes sel (<[subscriptionKey s := id]> index) (<[id := s]> m).
Proof.
  intros Hid Hs Hk key i. destruct (decide (key = subscriptionKey s)) as [->|Hne].
  - rewrite lookup_insert_eq. split; [intros [= <-]; exists s; by rewrite lookup_insert_eq|].
    intros (s' & Hl & Hs' & Hk'). destruct (decide (i = id)) as [->|]; [done|].
    rewrite lookup_insert_ne in Hl by done. exfalso.
    assert (index !! subscriptionKey s = Some i) by (apply Hi; eauto). congruence.
  - rewrite lookup_insert_ne, (Hi key i) by done. split.
    + intros (s' & Hl & Hr). exists s'. rewrite lookup_insert_ne by congruence. done.
    + intros (s' & Hl & Hs' & Hk'). destruct (decide (i = id)) as [->|].
      * rewrite lookup_insert_eq in Hl. simplify_eq.
      * rewrite lookup_insert_ne in Hl by done. eauto.
Qed.

Lemma indexes_insert_other id s :
  m !! id = None → sel s = false → indexes sel index (<[id := s]> m).
Proof.
  intros Hid Hs key i. rewrite (Hi key i). split; intros (s' & Hl & Hs' & Hk).
  - exists s'. rewrite lookup_insert_ne by congruence. done.
  - destruct (decide (i = id)) as [->|].
    + rewrite lookup_insert_eq in Hl. simplify_eq. congruence.
    + rewrite lookup_insert_ne in Hl by done. eauto.
Qed.

Lemma indexes_delete id s :
  m !! id = Some s → sel s = true → indexes sel (delete (subscriptionKey s) index) (delete id m).
Proof.
  intros Hid Hs key i. rewrite lookup_delete_Some, (Hi key i). split.
  - intros (Hne & s' & Hl & Hr). exists s'. rewrite lookup_delete_ne by (intros ->; naive_solver).
    done.
  - intros (s' & Hl & Hs' & Hk). apply lookup_delete_Some in Hl as [Hne Hl].
    split; [|eauto]. intros E. apply Hne.
    assert (index !! subscriptionKey s = Some id) by (apply Hi; eauto).
    assert (index !! key = Some i) by (apply Hi; eauto). congruence.
Qed.

Lemma indexes_delete_other id s :
  m !! id = Some s → sel s = false → indexes sel index (delete id m).
Proof.
  intros Hid Hs key i. rewrite (Hi key i). split; intros (s' & Hl & Hs' & Hk).
  - exists s'. rewrite lookup_delete_ne by (intros ->; congruence). done.
  - apply lookup_delete_Some in Hl as [_ Hl]. eauto.
Qed.

End indexes.

(** ** The one target that has a property *)

Definition unique (P : NotificationTarget → bool) (m : gmap string NotificationTarget) : Prop :=
  ∀ i j t u, m !! i = Some t → m !! j = Some u → P t = true → P u = true → i = j.

Definition keyed (m : gmap string NotificationTarget) : Prop :=
  ∀ i t, m !! i = Some t → nt_ID t = i.

Lemma the_short P m :
  unique P m → (length (filter (λ x, Is_true (P x.2)) (map_to_list m)) ≤ 1)%nat.
Proof.
  intros Hu. pose proof (NoDup_fst_map_to_list m) as Hnd.
  destruct (filter _ (map_to_list m)) as [|[i t] [|[j u] l]] eqn:E; simpl; [lia..|].
  assert (Hi : (i, t) ∈ filter (λ x, Is_true (P x.2)) (map_to_list m)) by (rewrite E; by left).
  assert (Hj : (j, u) ∈ filter (λ x, Is_true (P x.2)) (map_to_list m)) by (rewrite E; right; by left).
  apply list_elem_of_filter in Hi as [Pt Hi]. apply list_elem_of_filter in Hj as [Pu Hj].
  apply elem_of_map_to_list in Hi, Hj. apply Is_true_true in Pt, Pu.
  specialize (Hu _ _ _ _ Hi Hj Pt Pu). subst j.
  assert (Hs : sublist (filter (λ x, Is_true (P x.2)) (map_to_list m)) (map_to_list m))
    by apply sublist_filter.
  apply (fmap_sublist fst) in Hs. rewrite E in Hs. simpl in Hs.
  pose proof (sublist_NoDup _ _ Hnd Hs) as Hnd'. apply list.NoDup_cons in Hnd' as [Hnd' _].
  exfalso. apply Hnd'. by left.
Qed.

(** What an iteration finds first. *)
Lemma the_list P m :
  match filter (λ x, Is_true (P x.2)) (map_to_list m) with
  | [] => the P m = None
  | (i, t) :: _ => the P m = Some t ∧ m !! i = Some t ∧ P t = true
  end.
Proof.
  unfold the. destruct (filter _ _) as [|[i t] l] eqn:E; [done|]. split; [done|].
  assert (Hin : (i, t) ∈ filter (λ x, Is_true (P x.2)) (map_to_list m)) by (rewrite E; by left).
  apply list_elem_of_filter in Hin as [Hp Hin]. apply elem_of_map_to_list in Hin.
  by apply Is_true_true in Hp.
Qed.

Lemma the_Some P m t : the P m = Some t → ∃ i, m !! i = Some t ∧ P t = true.
Proof.
  pose proof (the_list P m) as Hl. destruct (filter _ _) as [|[i u] l]; [congruence|].
  destruct Hl as (-> & Hl & Hp). intros [= ->]. eauto.
Qed.

Lemma the_None P m i t : the P m = None → m !! i = Some t → P t = false.
Proof.
  unfold the. intros Hn Hl. destruct (P t) eqn:Hp; [|done]. exfalso.
  assert (Hin : (i, t) ∈ filter (λ x, Is_true (P x.2)) (map_to_list m)).
  { apply list_elem_of_filter. split; [by apply Is_true_true|by apply elem_of_map_to_list]. }
  destruct (filter _ _); simplify_eq/=. set_solver.
Qed.

(** The earliest one is the only one. *)
Lemma earliest_the P m :
  unique P m →
  foldl keepEarliest None (filter (λ t, Is_true (P t)) (map_to_list m).*2) = the P m.
Proof.
  intros Hu. pose proof (the_short P m Hu) as Hl. unfold the.
  rewrite filter_of_fmap. destruct (filter _ (map_to_list m)) as [|[i t] [|]]; simpl in *; [done..|lia].
Qed.

Lemma another_the P m i :
  unique P m → keyed m →
  another i (the P m) = bool_decide (map_Exists (λ j u, j ≠ i ∧ Is_true (P u)) m).
Proof.
  intros Hu Hk. destruct (the P m) as [t|] eqn:Ht; simpl.
  - apply the_Some in Ht as (j & Hj & Hp). rewrite (Hk _ _ Hj).
    destruct (bool_decide_reflect (j = i)) as [->|Hne]; simpl; symmetry.
    + apply bool_decide_eq_false. intros (k & u & Hlk & Hnk & Hpu). apply Hnk.
      apply Is_true_true in Hpu. eauto.
    + apply bool_decide_eq_true. exists j, t. split; [done|]. split; [done|by apply Is_true_true].
  - symmetry. apply bool_decide_eq_false. intros (k & u & Hlk & Hnk & Hpu).
    rewrite (the_None _ _ _ _ Ht Hlk) in Hpu. done.
Qed.

Lemma unique_insert P m i t :
  unique P m → (P t = true → ∀ j u, m !! j = Some u → P u = true → j = i) →
  unique P (<[i := t]> m).
Proof.
  intros Hu Ht j k x y Hj Hk Hx Hy.
  apply lookup_insert_Some in Hj as [[<- <-]|[Hj Hlj]];
    apply lookup_insert_Some in Hk as [[<- <-]|[Hk Hlk]]; [done| | |by eapply Hu].
  - symmetry. by eapply Ht.
  - by eapply Ht.
Qed.

Lemma unique_delete P m i : unique P m → unique P (delete i m).
Proof.
  intros Hu j k x y Hj Hk. apply lookup_delete_Some in Hj as [_ Hj].
  apply lookup_delete_Some in Hk as [_ Hk]. by eapply Hu.
Qed.
