(* ===== verification/NotifTargetThms.v ===== *)
(** The store of targets and subscriptions does what the book says, call by call,
    and keeps its invariant. *)

From Stdlib Require Import Ascii.
From stdpp Require Import base gmap strings list pretty sorting numbers.
From S2P Require Import Prelude GoLib GoPath GoText Domain Repository NotifDelivery.
From S2P Require Import NotifDestinations Notifier NotifTargets SubscriptionBook NotifTargetFacts.

Open Scope go_scope.
Open Scope Z_scope.

Implicit Types (t : NotificationTarget) (s : NotificationSubscription).
Implicit Types (r : NotificationSubscriptionRepository).

Definition of_project s : bool := negb (isNil (ns_ProjectID s)).
Definition of_job s : bool := isNil (ns_ProjectID s).

Record store_ok `{Folding} r : Prop := {
  so_keyed : keyed (sb_targets r);
  so_plain : ∀ i t, sb_targets r !! i = Some t → no_bar i;
  so_owner : ∀ user, unique (ownsEmail user) (sb_targets r);
  so_config : ∀ address, unique (configEmail address) (sb_targets r);
  so_subscriptions : ∀ i s, sb_subscriptions r !! i = Some s →
    ns_ID s = i ∧ placed s ∧ is_Some (sb_targets r !! ns_TargetID s);
  so_project : indexes of_project (sb_projectIndex r) (sb_subscriptions r);
  so_job : indexes of_job (sb_jobIndex r) (sb_subscriptions r);
}.

(** The identifier of something new. *)
Definition chosen (newID given : string) : string := if TrimSpace given == "" then newID else given.
Definition chosen_trimmed (newID given : string) : string :=
  if TrimSpace given == "" then newID else TrimSpace given.

(** What a call may bring: identifiers of targets without a bar, and a new
    identifier for a new subscription. *)
Definition call_ok (c : SettingsCall) r : Prop :=
  match c with
  | CallCreateTarget newID _ t => no_bar (chosen newID (nt_ID t))
  | CallEnsureConfig newID _ input => no_bar (chosen_trimmed newID (ec_ID input))
  | CallEnsureOwned newID _ input | CallInitialize newID _ input =>
      no_bar (chosen_trimmed newID (eo_ID input))
  | CallCreateSubscription newID _ s => sb_subscriptions r !! chosen newID (ns_ID s) = None
  | _ => True
  end.

Section store.
Context `{Addresses} `{Folding}.

Lemma EqualFold_sym x y : EqualFold x y = EqualFold y x.
Proof. unfold EqualFold. by apply bool_decide_ext. Qed.

Lemma EqualFold_trans x y z : EqualFold x y = true → EqualFold y z = true → EqualFold x z = true.
Proof. unfold EqualFold. intros. bool_to_prop. apply bool_decide_eq_true. congruence. Qed.

(** ** Targets *)

Lemma normalized_target t t' :
  NormalizeNotificationTarget t = inl t' →
  nt_ID t' = nt_ID t ∧ nt_OwnerUserID t' = trimOptionalString (nt_OwnerUserID t).
Proof.
  unfold NormalizeNotificationTarget. intros Hn.
  by repeat (case_match; try discriminate); simplify_eq/=.
Qed.

Lemma explicit_target t t' :
  ValidateExplicitNotificationTarget t = inl t' →
  nt_ID t' = nt_ID t ∧ nt_OwnerUserID t' = trimOptionalString (nt_OwnerUserID t).
Proof.
  unfold ValidateExplicitNotificationTarget. case_match; [done|]. apply normalized_target.
Qed.

Lemma trimOptionalString_idemp v : trimOptionalString (trimOptionalString v) = trimOptionalString v.
Proof.
  destruct v as [v|]; [|done]. simpl. destruct (TrimSpace v == "") eqn:E; [done|].
  simpl. by rewrite TrimSpace_idemp, E.
Qed.

Lemma normalize_config i name recipient createdAt updatedAt :
  NormalizeNotificationTarget (configTarget i name recipient createdAt updatedAt)
  = match normalizeNotificationTargetRecipient NotificationTargetTypeEmail recipient with
    | inr err => inr err
    | inl address => inl (configTarget i (TrimSpace name) address createdAt updatedAt)
    end.
Proof. reflexivity. Qed.

(** A target that is stored next to no rival. *)
Lemma rival_owner i t m user j u :
  rival i (nt_OwnerUserID t) t m = false → ownsEmail user t = true →
  m !! j = Some u → ownsEmail user u = true → j = i.
Proof.
  intros Hr Ht Hj Hu. apply bool_decide_eq_false in Hr.
  destruct (decide (j = i)) as [|Hne]; [done|]. exfalso. apply Hr. exists j, u.
  split; [done|]. split; [done|]. apply Is_true_true.
  unfold ownsEmail in Ht. destruct (nt_OwnerUserID t) as [o|]; [|by rewrite andb_false_r in Ht].
  bool_to_prop. simpl. by simplify_eq.
Qed.

Lemma rival_config i t m address j u :
  rival i (nt_OwnerUserID t) t m = false → configEmail address t = true →
  m !! j = Some u → configEmail address u = true → j = i.
Proof.
  intros Hr Ht Hj Hu. apply bool_decide_eq_false in Hr.
  destruct (decide (j = i)) as [|Hne]; [done|]. exfalso. apply Hr. exists j, u.
  split; [done|]. split; [done|]. apply Is_true_true.
  unfold configEmail in *. destruct (nt_OwnerUserID t); [bool_to_prop; done|]. simpl.
  destruct (nt_OwnerUserID u) eqn:Eu; [bool_to_prop; done|]. simpl in *.
  apply andb_true_iff in Ht as [Ht1 Ht2]. apply andb_true_iff in Hu as [Hu1 Hu2].
  rewrite andb_true_r in Ht1, Hu1. rewrite Ht1. simpl. unfold configEmail. simpl.
  apply andb_true_iff in Hu1 as [-> ->]. rewrite Eu. simpl.
  apply EqualFold_trans with address; [done|by rewrite EqualFold_sym].
Qed.

Lemma store_target_ok t r :
  store_ok r → no_bar (nt_ID t) → rival (nt_ID t) (nt_OwnerUserID t) t (sb_targets r) = false →
  store_ok (storeTarget (nt_ID t) t r).
Proof.
  intros [Hk Hp Ho Hc Hs Hpi Hji] Hb Hr. split; simpl; [| | | | |done..].
  - intros i u [[<- <-]|[_ Hl]]%lookup_insert_Some; [done|by apply Hk].
  - intros i u [[<- <-]|[_ Hl]]%lookup_insert_Some; [done|by eapply Hp].
  - intros user. apply unique_insert; [done|]. intros. by eapply rival_owner.
  - intros address. apply unique_insert; [done|]. intros. by eapply rival_config.
  - intros i s Hl. destruct (Hs _ _ Hl) as (? & ? & Ht). split; [done|]. split; [done|].
    destruct (decide (nt_ID t = ns_TargetID s)) as [->|]; [by rewrite lookup_insert_eq|].
    by rewrite lookup_insert_ne.
Qed.

Lemma rival_dup i owner t r :
  store_ok r → duplicateOwner i owner r || duplicateConfig i owner t r = rival i owner t (sb_targets r).
Proof.
  intros [Hk _ Ho Hc _ _ _]. unfold duplicateOwner, duplicateConfig, rival,
    findOwnedEmailTargetByUserIDLocked, findConfigEmailTargetByRecipientLocked, targetsInAnyOrder.
  destruct owner as [o|]; simpl.
  - rewrite andb_false_r, orb_false_r, earliest_the, another_the by done. done.
  - rewrite earliest_the, another_the, andb_true_r by done.
    destruct ((nt_Type t == NotificationTargetTypeEmail)
              && (nt_Origin t == NotificationTargetOriginConfigDefault)); simpl; [done|].
    symmetry. apply bool_decide_eq_false.
    intros (? & ? & _ & _ & []).
Qed.

(** No target has the property, so it is no rival. *)
Lemma no_rival i owner t m P :
  the P m = None → (∀ u, stands_for owner t u = true → P u = true) → rival i owner t m = false.
Proof.
  intros Hn Hp. apply bool_decide_eq_false. intros (j & u & Hl & _ & Hs%Is_true_true%Hp).
  by rewrite (the_None _ _ _ _ Hn Hl) in Hs.
Qed.

(** A call does what the book says and keeps the invariant. *)
Definition refines (c : SettingsCall) : Prop := ∀ r, store_ok r → call_ok c r →
  book_call c (book_of r) = (book_of (settings_call c r).1, (settings_call c r).2)
  ∧ store_ok (settings_call c r).1.

Lemma id_dates now t :
  nt_ID (withTimes now t) = nt_ID t ∧ nt_OwnerUserID (withTimes now t) = nt_OwnerUserID t.
Proof. unfold withTimes. by destruct (IsZero (nt_CreatedAt t)); simpl; case_match. Qed.

Lemma refines_createTarget newID now t : refines (CallCreateTarget newID now t).
Proof.
  intros r Hr Hb. unfold settings_call, NotificationSubscriptionRepository_CreateTarget. cbn -[rival].
  set (t0 := if TrimSpace (nt_ID t) == "" then t <| nt_ID := newID |> else t).
  assert (Hid : nt_ID t0 = chosen newID (nt_ID t)).
  { unfold t0, chosen. by case_match. }
  destruct (ValidateExplicitNotificationTarget t0) as [t1|err] eqn:Hv; [|done].
  apply explicit_target in Hv as [Hi1 Ho1]. destruct (id_dates now t1) as [Hi2 Ho2]. 
  destruct (sb_targets r !! nt_ID (withTimes now t1)) ; simpl; [done|].
  pose proof (rival_dup (nt_ID (withTimes now t1)) (nt_OwnerUserID (withTimes now t1))
    (withTimes now t1) r Hr) as Hd. rewrite <- Hd.
  destruct (duplicateOwner _ _ r); [done|].
  destruct (duplicateConfig _ _ _ r); [done|]. split; [done|].
  apply store_target_ok; [done| |by rewrite <- Hd]. simpl in Hb. by rewrite Hi2, Hi1, Hid.
Qed.

Lemma refines_ensureConfig newID now input : refines (CallEnsureConfig newID now input).
Proof.
  intros r Hr Hb. unfold settings_call, NotificationSubscriptionRepository_EnsureConfigEmailTarget.
  cbn -[rival the configTarget NormalizeNotificationTarget]. rewrite !normalize_config.
  destruct (normalizeNotificationTargetRecipient _ _) as [address|err] eqn:En; [|done].
  cbn -[rival the]. unfold findConfigEmailTargetByRecipientLocked, targetsInAnyOrder.
  rewrite earliest_the by apply Hr. destruct (the _ _) as [existing|] eqn:Hn; [done|].
  rewrite normalize_config, En.
  split; [done|]. apply store_target_ok; [done|done|].
  eapply no_rival; [done|]. intros u. done.
Qed.

Lemma refines_setEnabled owner enabled at_ : refines (CallSetEnabled owner enabled at_).
Proof.
  intros r Hr _. unfold settings_call, NotificationSubscriptionRepository_SetOwnedEmailTargetEnabled.
  cbn -[rival the]. pose proof (the_list (ownsEmail (TrimSpace owner)) (sb_targets r)) as Hl.
  destruct (filter _ (map_to_list (sb_targets r))) as [|[i t] l]; [by rewrite Hl|].
  destruct Hl as (-> & Hl & Hp). pose proof (so_keyed _ Hr _ _ Hl) as Ei. subst i.
  set (t1 := if IsZero at_ then _ else _).
  assert (Hi : nt_ID t1 = nt_ID t) by (unfold t1; by case_match).
  rewrite <- Hi. split; [done|].
  apply store_target_ok; [done|rewrite Hi; by eapply so_plain|].
  apply bool_decide_eq_false. intros (j & u & Hj & Hne & Hs%Is_true_true). apply Hne. rewrite Hi.
  unfold ownsEmail in Hp.
  assert (Ho : nt_OwnerUserID t1 = nt_OwnerUserID t) 
    by (unfold t1; by destruct (IsZero at_)).
  rewrite Ho in Hs.
  destruct (nt_OwnerUserID t) as [o|] eqn:Eo; [|by rewrite andb_false_r in Hp].
  eapply so_owner; [done..| |]; [done|]. unfold ownsEmail. rewrite Eo. bool_to_prop.
  apply andb_true_iff. split; by apply bool_decide_eq_true.
Qed.

Lemma findOwned_the user r :
  store_ok r → findOwnedEmailTargetByUserIDLocked user r = the (ownsEmail (TrimSpace user)) (sb_targets r).
Proof.
  intros Hr. unfold findOwnedEmailTargetByUserIDLocked, targetsInAnyOrder.
  apply earliest_the, Hr.
Qed.

Lemma owned_manual newID now input t :
  NormalizeNotificationTarget (ownedTarget newID now input) = inl t →
  nt_Origin t = NotificationTargetOriginManual.
Proof.
  unfold NormalizeNotificationTarget. cbn -[normalizeNotificationTargetRecipient TrimSpace].
  change (normalizeNotificationTargetOrigin _ _ _)
    with (@inl NotificationTargetOrigin error NotificationTargetOriginManual).
  change (TrimSpace NotificationTargetTypeEmail) with NotificationTargetTypeEmail.
  simpl. case_match; [|done]. by intros [= <-].
Qed.

Lemma ensureOwned_book newID now input r :
  store_ok r → no_bar (chosen_trimmed newID (eo_ID input)) →
  book_owned newID now input (book_of r)
  = (book_of (ensureOwnedEmailTargetLocked newID now input r).1,
     (ensureOwnedEmailTargetLocked newID now input r).2)
  ∧ store_ok (ensureOwnedEmailTargetLocked newID now input r).1.
Proof.
  intros Hr Hb. unfold book_owned, ensureOwnedEmailTargetLocked.
  rewrite findOwned_the, TrimSpace_idemp by done. cbn [bk_targets book_of].
  destruct (the _ _) as [t|] eqn:Hn; [done|].
  destruct (NormalizeNotificationTarget _) as [t|err] eqn:Ht; [|done].
  pose proof (owned_manual _ _ _ _ Ht) as Hm. apply normalized_target in Ht as [Hi Ho].
  split; [done|]. apply store_target_ok; [done|by rewrite Hi|]. eapply no_rival; [done|]. intros u.
  rewrite Ho. simpl. rewrite TrimSpace_idemp.
  destruct (TrimSpace (eo_OwnerUserID input) == ""); cbn [stands_for].
  - rewrite Hm, andb_false_r. done.
  - by rewrite TrimSpace_idemp.
Qed.

Lemma refines_ensureOwned newID now input : refines (CallEnsureOwned newID now input).
Proof.
  intros r Hr Hb. destruct (ensureOwned_book newID now input r Hr Hb) as [Hbook Hok].
  cbn [book_call settings_call]. rewrite Hbook. revert Hok.
  unfold ensureOwnedEmailTargetLocked, NotificationSubscriptionRepository_EnsureOwnedEmailTarget.
  destruct (findOwnedEmailTargetByUserIDLocked _ _); [done|].
  by destruct (NormalizeNotificationTarget _).
Qed.

Lemma store_preferences_ok preferences r :
  store_ok r → store_ok (r <| sb_preferences := preferences |>).
Proof. intros []. by split. Qed.

Lemma refines_initialize newID now input : refines (CallInitialize newID now input).
Proof.
  intros r Hr Hb. destruct (ensureOwned_book newID now input r Hr Hb) as [Hbook Hok].
  assert (Hp : sb_preferences (ensureOwnedEmailTargetLocked newID now input r).1 = sb_preferences r
    ∧ sb_settings (ensureOwnedEmailTargetLocked newID now input r).1 = sb_settings r).
  { unfold ensureOwnedEmailTargetLocked. by repeat case_match. }
  cbn [book_call settings_call]. rewrite Hbook.
  unfold NotificationSubscriptionRepository_EnsureOwnedEmailTargetInitialized.
  destruct (ensureOwnedEmailTargetLocked _ _ _ _) as [r' [[t []]|err]]; simpl in *;
    destruct Hp as [Hp1 Hp2]; rewrite <- ?Hp1, <- ?Hp2; destruct (sb_preferences r') eqn:E; try done.
  simpl. destruct (instanceDefaults _). split; [done|]. by apply store_preferences_ok.
Qed.

Lemma refines_updateTarget t : refines (CallUpdateTarget t).
Proof.
  intros r Hr _. unfold settings_call, NotificationSubscriptionRepository_UpdateTarget.
  cbn -[rival]. destruct (sb_targets r !! TrimSpace (nt_ID t)) as [current|] eqn:Hl; [|done].
  destruct (ValidateExplicitNotificationTarget t) as [t1|err] eqn:Hv; [|done].
  apply explicit_target in Hv as [Hi1 Ho1].
  rewrite (so_keyed _ Hr _ _ Hl).
  assert (Ho : trimOptionalString (nt_OwnerUserID t1) = nt_OwnerUserID t1)
    by (rewrite Ho1; apply trimOptionalString_idemp).
  rewrite Ho. pose proof (rival_dup (TrimSpace (nt_ID t)) (nt_OwnerUserID t1) t1 r Hr) as Hd.
  rewrite <- Hd. destruct (duplicateOwner _ _ r); [done|]. destruct (duplicateConfig _ _ _ r); [done|].
  set (t2 := updatedTarget current t1 (nt_OwnerUserID t1)).
  assert (H2 : nt_ID t2 = TrimSpace (nt_ID t) ∧ nt_OwnerUserID t2 = nt_OwnerUserID t1
    ∧ ∀ other, stands_for (nt_OwnerUserID t1) t2 other = stands_for (nt_OwnerUserID t1) t1 other).
  { rewrite <- (so_keyed _ Hr _ _ Hl). unfold t2, updatedTarget.
    by destruct (IsZero (nt_CreatedAt t1)), (IsZero (nt_UpdatedAt t1)). }
  destruct H2 as (Hi2 & Ho2 & Hs). rewrite <- Hi2. split; [done|].
  apply store_target_ok; [done|rewrite Hi2; by eapply so_plain|].
  rewrite Ho2, Hi2. 
  trans (rival (TrimSpace (nt_ID t)) (nt_OwnerUserID t1) t1 (sb_targets r)); [|by rewrite <- Hd].
  apply bool_decide_ext.
  split; intros (j & u & Hj); exists j, u; rewrite Hs in *; done.
Qed.

(** ** Subscriptions *)

Lemma stored_no_bar r i s : store_ok r → sb_subscriptions r !! i = Some s → no_bar (ns_TargetID s).
Proof.
  intros Hr Hl. destruct (so_subscriptions _ Hr _ _ Hl) as (_ & _ & t & Ht). by eapply so_plain.
Qed.

(** The indexes find what stands at the same place. *)
Lemma indexed_place r s i :
  store_ok r → placed s → no_bar (ns_TargetID s) →
  indexed s r = Some i ↔ ∃ other, sb_subscriptions r !! i = Some other ∧ place other = place s.
Proof.
  intros Hr Hs Hb. unfold indexed.
  assert (Hp : ∀ other, place other = place s → ns_ProjectID other = ns_ProjectID s)
    by (unfold place; congruence).
  destruct (isNil (ns_ProjectID s)) eqn:En;
    [rewrite (so_job _ Hr (subscriptionKey s) i)|rewrite (so_project _ Hr (subscriptionKey s) i)];
    (split; [intros (other & Hl & Hn & Hk)|intros (other & Hl & Hk)]; exists other; split; try done);
    unfold of_job, of_project in *.
  - apply subscriptionKey_inj; [by eapply so_subscriptions|done|by eapply stored_no_bar|done| |done].
    congruence.
  - split; [|by apply place_key]. by rewrite (Hp _ Hk).
  - apply subscriptionKey_inj; [by eapply so_subscriptions|done|by eapply stored_no_bar|done| |done].
    rewrite En. by apply negb_true_iff.
  - split; [|by apply place_key]. by rewrite (Hp _ Hk), En.
Qed.

Lemma drop_ok r i s :
  store_ok r → sb_subscriptions r !! i = Some s → store_ok (dropSubscription i s r).
Proof.
  intros [Hk Hp Ho Hc Hs Hpi Hji] Hl. unfold dropSubscription, removeFromIndex.
  assert (Hs' : ∀ j u, delete i (sb_subscriptions r) !! j = Some u →
    ns_ID u = j ∧ placed u ∧ is_Some (sb_targets r !! ns_TargetID u)).
  { intros j u [_ Hj]%lookup_delete_Some. by apply Hs. }
  destruct (isNil (ns_ProjectID s)) eqn:En; split; try done; simpl.
  - eapply indexes_delete_other; [done..|]. unfold of_project. by rewrite En.
  - by apply (indexes_delete of_job).
  - apply (indexes_delete of_project); [done..|]. unfold of_project. by rewrite En.
  - by eapply indexes_delete_other.
Qed.

Lemma add_ok r s :
  store_ok r → placed s → is_Some (sb_targets r !! ns_TargetID s) →
  sb_subscriptions r !! ns_ID s = None → indexed s r = None →
  store_ok (storeSubscription (ns_ID s) s (restoreNotificationSubscriptionIndexLocked s r)).
Proof.
  intros [Hk Hp Ho Hc Hs Hpi Hji] Hpl Ht Hl Hx.
  unfold storeSubscription, restoreNotificationSubscriptionIndexLocked, indexed in *.
  assert (Hs' : ∀ j u, <[ns_ID s := s]> (sb_subscriptions r) !! j = Some u →
    ns_ID u = j ∧ placed u ∧ is_Some (sb_targets r !! ns_TargetID u)).
  { intros j u [[<- <-]|[_ Hj]]%lookup_insert_Some; [done|by apply Hs]. }
  destruct (isNil (ns_ProjectID s)) eqn:En; split; try done; simpl.
  - apply indexes_insert_other; [done..|]. unfold of_project. by rewrite En.
  - by apply indexes_insert.
  - apply indexes_insert; [done..| |done]. unfold of_project. by rewrite En.
  - by apply indexes_insert_other.
Qed.

(** What the checks leave. *)
Lemma checked s m projectID jobID :
  checkSubscription s m = inl (projectID, jobID) →
  is_Some (m !! TrimSpace (ns_TargetID s)) ∧ isNil projectID = negb (isNil jobID)
  ∧ (ns_EventType s = NotificationEventTypeBuildSucceeded ∨
     ns_EventType s = NotificationEventTypeBuildFailed).
Proof.
  unfold checkSubscription. intros Hc.
  destruct (TrimSpace (ns_TargetID s) == ""); [done|].
  destruct (m !! TrimSpace (ns_TargetID s)) eqn:Hm; [|done].
  destruct (eqb _ _) eqn:En; [done|]. destruct (TrimSpace (ns_EventType s) == ""); [done|].
  destruct (_ && _) eqn:Ee; [done|]. simplify_eq. split; [done|]. split.
  - by destruct (isNil (trimOptionalString (ns_ProjectID s))), (isNil (trimOptionalString (ns_JobID s))).
  - bool_to_prop. destruct Ee; bool_to_prop; auto.
Qed.

Lemma created_fields newID now projectID jobID s :
  let u := createdSubscription newID now projectID jobID s in
  ns_ID u = chosen newID (ns_ID s) ∧ ns_TargetID u = TrimSpace (ns_TargetID s)
  ∧ ns_ProjectID u = projectID ∧ ns_JobID u = jobID ∧ ns_EventType u = ns_EventType s.
Proof.
  unfold createdSubscription, chosen. destruct (TrimSpace (ns_ID s) == "");
    destruct (IsZero (ns_CreatedAt _)); cbn; by case_match.
Qed.

Lemma moved_fields current s projectID jobID :
  let u := movedSubscription current s projectID jobID in
  ns_ID u = ns_ID current ∧ ns_TargetID u = TrimSpace (ns_TargetID s)
  ∧ ns_ProjectID u = projectID ∧ ns_JobID u = jobID ∧ ns_EventType u = ns_EventType s.
Proof.
  unfold movedSubscription. destruct (IsZero (ns_CreatedAt s)), (IsZero (ns_UpdatedAt s)); done.
Qed.

Lemma checked_placed s m projectID jobID u :
  checkSubscription s m = inl (projectID, jobID) →
  ns_TargetID u = TrimSpace (ns_TargetID s) → ns_ProjectID u = projectID → ns_JobID u = jobID →
  ns_EventType u = ns_EventType s → placed u ∧ is_Some (m !! ns_TargetID u).
Proof.
  intros (Ht & Hn & He)%checked E1 E2 E3 E4. rewrite E1. split; [|done].
  split; [by rewrite E1, TrimSpace_idemp|by rewrite E4|by rewrite E2, E3].
Qed.

(** A place is taken when an index says so. *)
Lemma taken_indexed r i u :
  store_ok r → placed u → is_Some (sb_targets r !! ns_TargetID u) → sb_subscriptions r !! i = None →
  taken i u (sb_subscriptions r) = bool_decide (is_Some (indexed u r)).
Proof.
  intros Hr Hu [t Ht] Hn. assert (Hb : no_bar (ns_TargetID u)) by by eapply so_plain.
  apply bool_decide_ext. split.
  - intros (j & other & Hl & _ & Hp). exists j. apply indexed_place; eauto.
  - intros [j Hj]. apply indexed_place in Hj as (other & Hl & Hp); [|done..].
    exists j, other. split; [done|]. split; [congruence|done].
Qed.

Lemma taken_delete i u m : taken i u (delete i m) = taken i u m.
Proof.
  apply bool_decide_ext. split; intros (j & other & Hl & Hn & Hp); exists j, other.
  - apply lookup_delete_Some in Hl as [_ Hl]. done.
  - by rewrite lookup_delete_ne.
Qed.

Lemma refines_createSubscription newID now s : refines (CallCreateSubscription newID now s).
Proof.
  intros r Hr Hf. unfold settings_call, NotificationSubscriptionRepository_CreateSubscription.
  cbn -[taken]. destruct (checkSubscription _ _) as [[projectID jobID]|err] eqn:Hc; [|done].
  set (u := createdSubscription newID now projectID jobID s).
  destruct (created_fields newID now projectID jobID s) as (Ei & Et & Ep & Ej & Ee). fold u in Ei, Et, Ep, Ej, Ee.
  destruct (checked_placed _ _ _ _ u Hc Et Ep Ej Ee) as [Hpl Ht].
  assert (Hn : sb_subscriptions r !! ns_ID u = None) by by rewrite Ei.
  rewrite (taken_indexed _ _ _ Hr Hpl Ht Hn).
  destruct (indexed u r) eqn:Hx; simpl; [done|].
  split; [|by apply add_ok].
  by unfold book_of, restoreNotificationSubscriptionIndexLocked; destruct (isNil _).
Qed.

Lemma refines_deleteSubscription i : refines (CallDeleteSubscription i).
Proof.
  intros r Hr _. unfold settings_call, NotificationSubscriptionRepository_DeleteSubscription.
  cbn. destruct (sb_subscriptions r !! TrimSpace i) as [s|] eqn:Hl; [|done].
  split; [|by apply drop_ok]. unfold book_of, dropSubscription, removeFromIndex. by destruct (isNil _).
Qed.

(** The index entry that was taken out is put back. *)
Lemma restore_removed r s :
  indexed s r = Some (ns_ID s) →
  restoreNotificationSubscriptionIndexLocked s (removeFromIndex s r) = r.
Proof.
  unfold indexed, restoreNotificationSubscriptionIndexLocked, removeFromIndex.
  destruct r, (isNil (ns_ProjectID s)); simpl; intros Hx; by rewrite insert_delete_id.
Qed.

(** The indexes of an update are those after a removal. *)
Lemma moved_index r i current u projectID :
  ns_ID u = i → ns_ProjectID u = projectID →
  let removed := removeFromIndex current r in
  let r1 := dropSubscription i current r in
  let index := if isNil projectID then sb_jobIndex removed else sb_projectIndex removed in
  index !! subscriptionKey u = indexed u r1
  ∧ storeSubscription i u
      (if isNil projectID then removed <| sb_jobIndex := <[subscriptionKey u := i]> index |>
       else removed <| sb_projectIndex := <[subscriptionKey u := i]> index |>)
    = storeSubscription i u (restoreNotificationSubscriptionIndexLocked u r1).
Proof.
  intros <- <-. unfold dropSubscription, removeFromIndex, indexed, storeSubscription,
    restoreNotificationSubscriptionIndexLocked.
  destruct r, (isNil (ns_ProjectID current)), (isNil (ns_ProjectID u)); simpl;
    (split; [done|]); unfold set_field; simpl; by rewrite ?insert_delete_eq.
Qed.

Lemma refines_updateSubscription s : refines (CallUpdateSubscription s).
Proof.
  intros r Hr _. unfold settings_call, NotificationSubscriptionRepository_UpdateSubscription.
  cbn -[taken]. set (i := TrimSpace (ns_ID s)).
  destruct (sb_subscriptions r !! i) as [current|] eqn:Hl; [|done].
  destruct (checkSubscription _ _) as [[projectID jobID]|err] eqn:Hc; [|done].
  destruct (so_subscriptions _ Hr _ _ Hl) as (Hi & Hcp & Hct).
  pose proof (drop_ok _ _ _ Hr Hl) as Hd.
  set (u := movedSubscription current s projectID jobID).
  destruct (moved_fields current s projectID jobID) as (Ei & Et & Ep & Ej & Ee). fold u in Ei, Et, Ep, Ej, Ee.
  destruct (checked_placed _ _ _ _ u Hc Et Ep Ej Ee) as [Hpl Ht].
  set (r1 := dropSubscription i current r) in *.
  assert (Hr1 : sb_targets r1 = sb_targets r ∧ sb_subscriptions r1 = delete i (sb_subscriptions r))
    by (unfold r1, dropSubscription, removeFromIndex; by destruct (isNil _)).
  destruct Hr1 as [Hr1t Hr1s]. rewrite Ei, Hi.
  pose proof (taken_indexed r1 i u Hd Hpl) as Hx. rewrite Hr1t, Hr1s, lookup_delete_eq, taken_delete in Hx.
  rewrite (Hx Ht eq_refl). clear Hx.
  assert (Hb : no_bar (ns_TargetID u)) by (destruct Ht as [? Ht1]; exact (so_plain _ Hr _ _ Ht1)).
  destruct (moved_index r i current u projectID (eq_trans Ei Hi) Ep) as [Hlook Hstore].
  replace (notificationSubscriptionKey _ _ _ _) with (subscriptionKey u)
    by (unfold subscriptionKey; congruence).
  fold r1 in Hlook, Hstore. rewrite Hlook, Hstore. clear Hlook Hstore.
  destruct (indexed u r1) as [j|] eqn:Hx; simpl.
  - apply indexed_place in Hx as (other & Hj & _); [|done..].
    rewrite Hr1s in Hj. apply lookup_delete_Some in Hj as [Hne _].
    rewrite bool_decide_false by congruence. simpl. rewrite restore_removed; [done|].
    apply indexed_place; [done|done|exact (stored_no_bar _ _ _ Hr Hl)|]. exists current. by rewrite Hi.
  - split.
    + unfold put_subscription, book_of, r1, dropSubscription, storeSubscription, removeFromIndex,
        restoreNotificationSubscriptionIndexLocked.
      destruct (isNil (ns_ProjectID current)), (isNil (ns_ProjectID u)); simpl; by rewrite insert_delete_eq.
    + rewrite <- Hi, <- Ei. apply add_ok; [done|done|by rewrite Hr1t| |done].
      by rewrite Hr1s, Ei, Hi, lookup_delete_eq.
Qed.

(** The loop of [DeleteTarget] drops the subscriptions to the target. *)
Lemma drop_all_ok targetID l r :
  store_ok r → NoDup l.*1 → (∀ i s, (i, s) ∈ l → sb_subscriptions r !! i = Some s) →
  let r' := foldl (dropOfTarget targetID) r l in
  store_ok r' ∧ sb_targets r' = sb_targets r ∧ sb_preferences r' = sb_preferences r
  ∧ sb_settings r' = sb_settings r
  ∧ ∀ i s, sb_subscriptions r' !! i = Some s ↔
      sb_subscriptions r !! i = Some s ∧ ¬ ((i, s) ∈ l ∧ ns_TargetID s = targetID).
Proof.
  revert r. induction l as [|[i s] l IH]; intros r Hr Hn Hl; simpl.
  { split_and!; [done..|]. intros j u. split; [|naive_solver]. split; [done|]. set_solver. }
  apply list.NoDup_cons in Hn as [Hni Hn]. assert (Hs := Hl i s ltac:(left)).
  change (dropOfTarget targetID r (i, s))
    with (if ns_TargetID s != targetID then r else dropSubscription i s r).
  destruct (bool_decide_reflect (ns_TargetID s = targetID)) as [Et|Et]; simpl.
  - assert (Hd : sb_subscriptions (dropSubscription i s r) = delete i (sb_subscriptions r)
      ∧ sb_targets (dropSubscription i s r) = sb_targets r
      ∧ sb_preferences (dropSubscription i s r) = sb_preferences r
      ∧ sb_settings (dropSubscription i s r) = sb_settings r)
      by (unfold dropSubscription, removeFromIndex; by destruct (isNil _)).
    destruct Hd as (Hd & Ht & Hp & Hse).
    destruct (IH (dropSubscription i s r)) as (H1 & H2 & H3 & H4 & H5); [by apply drop_ok|done| |].
    { intros j u Hj. rewrite Hd, lookup_delete_ne; [apply Hl; by right|].
      intros ->. apply Hni, list_elem_of_fmap. by exists (j, u). }
    split_and!; [done|congruence..|]. intros j u. rewrite H5, Hd, lookup_delete_Some. split.
    + intros [[Hne Hj] Hx]. split; [done|]. intros [[E|Hin]%elem_of_cons Hu]; [congruence|tauto].
    + intros [Hj Hx]. split; [split; [|done]|].
      * intros <-. apply Hx. assert (u = s) as -> by congruence. split; [by left|done].
      * intros [Hin Hu]. apply Hx. split; [by right|done].
  - destruct (IH r) as (H1 & H2 & H3 & H4 & H5); [done|done|intros; apply Hl; by right|].
    split_and!; [done..|]. intros j u. rewrite H5. split; intros [Hj Hx]; (split; [done|]).
    + intros [[E|Hin]%elem_of_cons Hu]; [congruence|tauto].
    + intros [Hin Hu]. apply Hx. split; [by right|done].
Qed.

(** The loop reads and writes what is not the targets. *)
Lemma drop_all_targets targetID l m r :
  foldl (dropOfTarget targetID) (r <| sb_targets := m |>) l
  = (foldl (dropOfTarget targetID) r l) <| sb_targets := m |>.
Proof.
  revert r. induction l as [|[i s] l IH]; intros r; simpl; [done|]. rewrite <- IH. f_equal.
  destruct (_ != _); [done|]. unfold dropSubscription, removeFromIndex. by destruct (isNil _).
Qed.

Lemma refines_deleteTarget i : refines (CallDeleteTarget i).
Proof.
  intros r Hr _. unfold settings_call, NotificationSubscriptionRepository_DeleteTarget.
  cbn. destruct (sb_targets r !! TrimSpace i) as [t|] eqn:Hl; [|done].
  rewrite drop_all_targets. simpl.
  destruct (drop_all_ok (TrimSpace i) (map_to_list (sb_subscriptions r)) r Hr) as (H1 & H2 & H3 & H4 & H5).
  { apply NoDup_fst_map_to_list. } { intros j s. by rewrite elem_of_map_to_list. }
  set (r' := foldl _ r _) in *. split.
  - unfold book_of. simpl. rewrite H3, H4. repeat f_equal. apply map_eq. intros j.
    apply option_eq. intros s. rewrite map_lookup_filter_Some, H5, elem_of_map_to_list. simpl. tauto.
  - destruct H1 as [Hk Hp Ho Hc Hs Hpi Hji]. rewrite H2 in *. split; simpl; try done.
    + intros j u [_ Hj]%lookup_delete_Some. by apply Hk.
    + intros j u [_ Hj]%lookup_delete_Some. by eapply Hp.
    + intros user. by apply unique_delete.
    + intros address. by apply unique_delete.
    + intros j s Hj. destruct (Hs _ _ Hj) as (? & ? & Ht). split; [done|]. split; [done|].
      rewrite lookup_delete_ne; [done|]. intros E. apply H5 in Hj as [Hj Hx]. apply Hx.
      by rewrite elem_of_map_to_list.
Qed.

Lemma call_refines c : refines c.
Proof.
  destruct c; eauto using refines_createTarget, refines_ensureConfig, refines_setEnabled,
    refines_ensureOwned, refines_initialize, refines_updateTarget, refines_deleteTarget,
    refines_createSubscription, refines_updateSubscription, refines_deleteSubscription.
Qed.

(** Every call of a sequence brings what it may. *)
Fixpoint calls_ok (cs : list SettingsCall) r : Prop :=
  match cs with
  | [] => True
  | c :: cs => call_ok c r ∧ calls_ok cs (settings_call c r).1
  end.

Lemma calls_keep cs r : store_ok r → calls_ok cs r → store_ok (settings_calls cs r).1.
Proof.
  revert r. induction cs as [|c cs IH]; intros r Hr Hc; simpl; [done|]. destruct Hc as [Hc Hcs].
  destruct (call_refines c r Hr Hc) as [_ Hr']. specialize (IH _ Hr' Hcs).
  destruct (settings_call c r) as [r1 answer]. simpl in *. by destruct (settings_calls cs r1).
Qed.

End store.
