(* ===== verification/NotifTargetProps.v ===== *)
(** What the stores of targets and subscriptions guarantee: they are the book of
    SubscriptionBook.v; which subscriptions answer an event of a build; and the
    target of a configured address. *)

From Stdlib Require Import Ascii.
From stdpp Require Import base gmap strings list pretty sorting numbers.
From S2P Require Import Prelude GoLib GoPath GoText Domain Repository NotifDelivery.
From S2P Require Import NotifDestinations Notifier NotifTargets SubscriptionBook NotifTargetFacts.
From S2P Require Import NotifTargetThms.

Open Scope go_scope.
Open Scope Z_scope.

Lemma new_store_ok `{Folding} preferences settings :
  store_ok (NewNotificationSubscriptionRepository
    <| sb_preferences := preferences |> <| sb_settings := settings |>).
Proof.
  split; simpl; try (intros ? ? Hl; by rewrite lookup_empty in Hl);
    try (intros ? ? ? ? ? Hl; by rewrite lookup_empty in Hl).
  - intros key i. split; [by rewrite lookup_empty|]. intros (s & Hl & _). by rewrite lookup_empty in Hl.
  - intros key i. split; [by rewrite lookup_empty|]. intros (s & Hl & _). by rewrite lookup_empty in Hl.
Qed.

(** ** The store is the book *)


(** ** Events of builds *)

(** The scope of a subscription fits a build. *)
Definition concerns (s : NotificationSubscription) (build : Build) : Prop :=
  (∃ project, ns_ProjectID s = Some project ∧ ns_JobID s = None
              ∧ project = TrimSpace (b_ProjectID build) ∧ project ≠ "")
  ∨ (∃ job, ns_JobID s = Some job ∧ ns_ProjectID s = None
            ∧ trimOptionalString (b_JobID build) = Some job).

Lemma subscribes_spec s build eventType :
  placed s →
  subscribes (TrimSpace (b_ProjectID build)) (trimOptionalString (b_JobID build)) eventType s = true
  ↔ ns_Enabled s = true ∧ ns_EventType s = eventType ∧ concerns s build.
Proof.
  intros [_ _ Hs]. unfold subscribes, concerns.
  destruct (ns_ProjectID s) as [p|], (ns_JobID s) as [j|]; try done; clear Hs.
  - rewrite andb_true_r, !andb_true_iff, negb_true_iff, bool_decide_eq_false, !bool_decide_eq_true.
    naive_solver.
  - rewrite andb_true_r, !andb_true_iff, !bool_decide_eq_true.
    destruct (trimOptionalString (b_JobID build)); rewrite ?bool_decide_eq_true; naive_solver.
Qed.

Lemma match_elem r build eventType x :
  x ∈ NotificationSubscriptionRepository_ListEnabledMatchesForBuildEvent build eventType r ↔
  ∃ i, sb_subscriptions r !! i = Some (nsm_Subscription x)
    ∧ subscribes (TrimSpace (b_ProjectID build)) (trimOptionalString (b_JobID build)) eventType
        (nsm_Subscription x) = true
    ∧ sb_targets r !! ns_TargetID (nsm_Subscription x) = Some (nsm_Target x)
    ∧ nt_Enabled (nsm_Target x) = true.
Proof.
  unfold NotificationSubscriptionRepository_ListEnabledMatchesForBuildEvent, subscriptionsInAnyOrder.
  rewrite list_elem_of_omap. split.
  - intros (s & Hs & Hm). apply list_elem_of_fmap in Hs as ([i s'] & -> & Hl). simpl in *.
    apply elem_of_map_to_list in Hl. exists i.
    destruct (subscribes _ _ _ s') eqn:Hsub; [|done]. unfold matchOf in Hm.
    destruct (sb_targets r !! ns_TargetID s') eqn:Ht; [|done].
    destruct (nt_Enabled n) eqn:He; [|done]. by simplify_eq/=.
  - intros (i & Hl & Hs & Ht & He). exists (nsm_Subscription x). split.
    + apply list_elem_of_fmap. exists (i, nsm_Subscription x). by rewrite elem_of_map_to_list.
    + rewrite Hs. unfold matchOf. rewrite Ht, He. by destruct x.
Qed.

Lemma omap_NoDup {A B} (f : A → option B) (l : list A) :
  (∀ x y z, f x = Some z → f y = Some z → x = y) → NoDup l → NoDup (omap f l).
Proof.
  intros Hf. induction 1 as [|x l Hx Hl IH]; simpl; [constructor|].
  destruct (f x) as [z|] eqn:E; [|done]. apply list.NoDup_cons. split; [|done].
  intros (y & Hy & Ey)%list_elem_of_omap. apply Hx. by rewrite (Hf x y z).
Qed.

Lemma subscriptions_NoDup `{Folding} r : store_ok r → NoDup (subscriptionsInAnyOrder r).
Proof.
  intros Hr. apply (NoDup_fmap_1 ns_ID). unfold subscriptionsInAnyOrder.
  rewrite <- list_fmap_compose.
  rewrite (list_fmap_ext _ fst); [apply NoDup_fst_map_to_list|].
  intros k [i s] Hk. simpl. apply list_elem_of_lookup_2, elem_of_map_to_list in Hk.
  by apply (so_subscriptions _ Hr).
Qed.

(** C39: The matches for an event of a build are exactly the enabled subscriptions
    to the event that concern the build and whose target is enabled, each with its
    target and each once, in whatever order the maps are iterated; a target is
    matched at most once for the project and once for the job. *)
Theorem ListEnabledMatchesForBuildEvent_spec `{Folding} r build eventType :
  store_ok r →
  let matches := NotificationSubscriptionRepository_ListEnabledMatchesForBuildEvent build eventType r in
  (∀ x, x ∈ matches ↔
     ∃ s t, x = mkNotificationSubscriptionMatch s t
       ∧ sb_subscriptions r !! ns_ID s = Some s ∧ sb_targets r !! ns_TargetID s = Some t
       ∧ ns_Enabled s = true ∧ nt_Enabled t = true ∧ ns_EventType s = eventType ∧ concerns s build)
  ∧ NoDup matches
  ∧ (∀ x y, x ∈ matches → y ∈ matches →
       nt_ID (nsm_Target x) = nt_ID (nsm_Target y) →
       isNil (ns_ProjectID (nsm_Subscription x)) = isNil (ns_ProjectID (nsm_Subscription y)) → x = y).
Proof.
  intros Hr matches.
  assert (Hspec : ∀ x, x ∈ matches ↔
     ∃ s t, x = mkNotificationSubscriptionMatch s t
       ∧ sb_subscriptions r !! ns_ID s = Some s ∧ sb_targets r !! ns_TargetID s = Some t
       ∧ ns_Enabled s = true ∧ nt_Enabled t = true ∧ ns_EventType s = eventType ∧ concerns s build).
  { intros [s t]. unfold matches. rewrite match_elem. simpl. split.
    - intros (i & Hl & Hs & Ht & He). destruct (so_subscriptions _ Hr _ _ Hl) as (<- & Hp & _).
      apply subscribes_spec in Hs as (? & ? & ?); [|done]. by exists s, t.
    - intros (? & ? & [= <- <-] & Hl & Ht & He & Hte & Hev & Hc). exists (ns_ID s). split_and!; try done.
      apply subscribes_spec; [by eapply so_subscriptions|done]. }
  split; [done|]. split.
  - apply omap_NoDup; [|by apply subscriptions_NoDup]. intros s u z Hs Hu.
    destruct (subscribes _ _ _ s); [|done]. destruct (subscribes _ _ _ u); [|done].
    unfold matchOf in *. repeat (case_match; try done). by simplify_eq.
  - intros x y (s & t & -> & Hs & Ht & _ & _ & Es & Cs)%Hspec (u & v & -> & Hu & Hv & _ & _ & Eu & Cu)%Hspec.
    simpl. rewrite (so_keyed _ Hr _ _ Ht), (so_keyed _ Hr _ _ Hv). intros Et Ep.
    assert (place s = place u).
    { unfold place. destruct Cs as [(p & Hp1 & Hp2 & Hp & _)|(j & Hp1 & Hp2 & Hp)],
        Cu as [(p' & Hq1 & Hq2 & Hq & _)|(j' & Hq1 & Hq2 & Hq)];
        rewrite Hp1, Hq1, ?Hp2, ?Hq2 in *; simpl in *; congruence. }
    assert (s = u) as ->; [|congruence].
    destruct (so_subscriptions _ Hr _ _ Hs) as (_ & Ps & _).
    destruct (so_subscriptions _ Hr _ _ Hu) as (_ & Pu & _).
    assert (Hi : indexed u r = Some (ns_ID s)).
    { apply indexed_place; [done|done|by eapply stored_no_bar|]. eauto. }
    assert (Hj : indexed u r = Some (ns_ID u)).
    { apply indexed_place; [done|done|by eapply stored_no_bar|]. eauto. }
    congruence.
Qed.

(** ** Configured addresses *)

(** The second request for a configured address finds the target of the first. *)
Lemma ensureConfig_again `{Addresses} `{Folding} newID now input newID' now' input' r r' t :
  store_ok r → no_bar (chosen_trimmed newID (ec_ID input)) →
  ec_Recipient input' = ec_Recipient input →
  NotificationSubscriptionRepository_EnsureConfigEmailTarget newID now input r = (r', inl t) →
  NotificationSubscriptionRepository_EnsureConfigEmailTarget newID' now' input' r' = (r', inl t).
Proof.
  intros Hr Hb Er He.
  assert (Hr' : store_ok r').
  { pose proof (refines_ensureConfig newID now input r Hr Hb) as [_ Hok].
    unfold settings_call in Hok. by rewrite He in Hok. }
  revert He. unfold NotificationSubscriptionRepository_EnsureConfigEmailTarget.
  rewrite Er, !normalize_config.
  destruct (normalizeNotificationTargetRecipient _ _) as [address|err] eqn:En; [|done].
  cbn [nt_Recipient configTarget].
  unfold findConfigEmailTargetByRecipientLocked, targetsInAnyOrder.
  rewrite (earliest_the _ (sb_targets r)), (earliest_the _ (sb_targets r')) by (apply Hr || apply Hr').
  destruct (the _ (sb_targets r)) as [existing|] eqn:Ht; [by intros [= <- <-]; rewrite Ht|].
  rewrite normalize_config, En. intros [= <- Et].
  set (created := configTarget _ _ _ _ _) in *.
  set (r1 := storeTarget _ created r). fold r1 in Hr'.
  destruct (the (configEmail address) (sb_targets r1)) as [found|] eqn:Hf.
  - apply the_Some in Hf as (j & Hj & Hp). simpl in Hj.
    apply lookup_insert_Some in Hj as [[_ Hj]|[_ Hj]]; [by rewrite <- Hj, Et|].
    by rewrite (the_None _ _ _ _ Ht Hj) in Hp.
  - exfalso. assert (Hc : configEmail address created = false).
    { eapply the_None; [exact Hf|]. apply lookup_insert_eq. }
    unfold configEmail, created in Hc. simpl in Hc. unfold EqualFold in Hc.
    by rewrite bool_decide_true in Hc.
Qed.
