(* ===== verification/NotifSettings.v ===== *)
(** The service of notification settings (backend/internal/service:
    notification_service.go, notification_targets.go, notification_subscriptions.go,
    notification_preferences.go, notification_defaults.go) over the stores of
    NotifTargets.v.

    An operation is a function on a world: the stores, and how often the clock was
    read, an identifier drawn and a store accessed.  Other users may change the
    stores before every access.  The repositories of Slack identities and of the
    Slack workspace, the clock and the identifiers are arguments. *)

From Stdlib Require Import Ascii.
From stdpp Require Import base gmap strings list pretty sorting numbers.
From S2P Require Import Prelude GoLib GoPath GoText Domain Repository NotifDelivery.
From S2P Require Import NotifDestinations Notifier NotifTargets.

Open Scope go_scope.
Open Scope Z_scope.

(** ** Errors *)

Definition ErrNotificationTargetNameRequired : error := Sentinel "service.ErrNotificationTargetNameRequired".
Definition ErrNotificationTargetTypeInvalid : error := Sentinel "service.ErrNotificationTargetTypeInvalid".
Definition ErrNotificationTargetAddressRequired : error :=
  Sentinel "service.ErrNotificationTargetAddressRequired".
Definition ErrNotificationTargetAddressInvalid : error :=
  Sentinel "service.ErrNotificationTargetAddressInvalid".
Definition ErrNotificationTargetWebhookURLRequired : error :=
  Sentinel "service.ErrNotificationTargetWebhookURLRequired".
Definition ErrNotificationTargetWebhookURLInvalid : error :=
  Sentinel "service.ErrNotificationTargetWebhookURLInvalid".
Definition ErrNotificationTargetIDInvalid : error := Sentinel "service.ErrNotificationTargetIDInvalid".
Definition ErrNotificationTargetEnabledRequired : error :=
  Sentinel "service.ErrNotificationTargetEnabledRequired".
Definition ErrNotificationSubscriptionTargetIDRequired : error :=
  Sentinel "service.ErrNotificationSubscriptionTargetIDRequired".
Definition ErrNotificationSubscriptionIDInvalid : error :=
  Sentinel "service.ErrNotificationSubscriptionIDInvalid".
Definition ErrNotificationSubscriptionTargetIDInvalid : error :=
  Sentinel "service.ErrNotificationSubscriptionTargetIDInvalid".
Definition ErrNotificationSubscriptionProjectIDInvalid : error :=
  Sentinel "service.ErrNotificationSubscriptionProjectIDInvalid".
Definition ErrNotificationSubscriptionJobIDInvalid : error :=
  Sentinel "service.ErrNotificationSubscriptionJobIDInvalid".
Definition ErrNotificationSubscriptionScopeRequired : error :=
  Sentinel "service.ErrNotificationSubscriptionScopeRequired".
Definition ErrNotificationSubscriptionEventTypeInvalid : error :=
  Sentinel "service.ErrNotificationSubscriptionEventTypeInvalid".
Definition ErrNotificationPersonalEmailRequired : error :=
  Sentinel "service.ErrNotificationPersonalEmailRequired".
Definition ErrNotificationPersonalUserIDRequired : error :=
  Sentinel "service.ErrNotificationPersonalUserIDRequired".
Definition ErrNotificationPreferenceChannelEnabledRequired : error :=
  Sentinel "service.ErrNotificationPreferenceChannelEnabledRequired".
Definition ErrNotificationDefaultsUpdateRequired : error :=
  Sentinel "service.ErrNotificationDefaultsUpdateRequired".
Definition ErrNotificationPreferencePersonalTargetRequired : error :=
  Sentinel "service.ErrNotificationPreferencePersonalTargetRequired".
Definition ErrNotificationPreferencePersonalSlackRequired : error :=
  Sentinel "service.ErrNotificationPreferencePersonalSlackRequired".

Definition NotificationPreferenceUnavailableReasonPersonalTargetRequired : string :=
  "personal_target_required".
Definition NotificationPreferenceUnavailableReasonPersonalTargetDisabled : string :=
  "personal_target_disabled".
Definition NotificationPreferenceUnavailableReasonSlackIdentityRequired : string :=
  "slack_identity_required".
Definition NotificationPreferenceUnavailableReasonSlackIdentityDisabled : string :=
  "slack_identity_disabled".
Definition NotificationPreferenceUnavailableReasonSlackWorkspaceNotConfigured : string :=
  "slack_workspace_not_configured".
Definition NotificationPreferenceUnavailableReasonSlackWorkspaceDisabled : string :=
  "slack_workspace_disabled".
Definition NotificationPreferenceUnavailableReasonSlackWorkspaceMismatch : string :=
  "slack_workspace_mismatch".

(** ** Data *)

Record CommitAuthorEmailNotificationPreferenceState := mkCommitAuthorEmailState {
  ce_Enabled : bool;
  ce_DeliveryActive : bool;
  ce_Target : option NotificationTarget;
  ce_UnavailableReason : option string;
}.

#[export] Instance eta_EmailState : Eta CommitAuthorEmailNotificationPreferenceState := λ s,
  mkCommitAuthorEmailState (ce_Enabled s) (ce_DeliveryActive s) (ce_Target s) (ce_UnavailableReason s).

Record CommitAuthorSlackNotificationPreferenceState := mkCommitAuthorSlackState {
  cs_Enabled : bool;
  cs_DeliveryActive : bool;
  cs_UnavailableReason : option string;
}.

#[export] Instance eta_SlackState : Eta CommitAuthorSlackNotificationPreferenceState := λ s,
  mkCommitAuthorSlackState (cs_Enabled s) (cs_DeliveryActive s) (cs_UnavailableReason s).

Record CommitAuthorNotificationPreferenceState := mkCommitAuthorState {
  ca_Email : CommitAuthorEmailNotificationPreferenceState;
  ca_Slack : CommitAuthorSlackNotificationPreferenceState;
}.

Record UpdateCommitAuthorNotificationPreferenceInput := mkUpdateCommitAuthorInput {
  uc_EmailEnabled : option bool;
  uc_SlackEnabled : option bool;
}.

(** Failures and successes. *)
Abbreviation NotificationDefaultsState := (bool * bool)%type (only parsing).

Record CreateNotificationTargetInput := mkCreateNotificationTargetInput {
  ct_Type : string;
  ct_Name : string;
  ct_Address : string;
  ct_WebhookURL : string;
  ct_Enabled : option bool;
}.

Record UpdateNotificationTargetInput := mkUpdateNotificationTargetInput {
  ut_Name : option string;
  ut_Address : option string;
  ut_WebhookURL : option string;
  ut_Enabled : option bool;
}.

Record CreateNotificationSubscriptionInput := mkCreateNotificationSubscriptionInput {
  cn_TargetID : string;
  cn_ProjectID : option string;
  cn_JobID : option string;
  cn_EventType : string;
  cn_Enabled : option bool;
}.

(** The service: whether the repositories of preferences and of settings are set,
    and the two others. *)
Record NotificationService := mkNotificationService {
  sv_preferencesRepo : bool;
  sv_settingsRepo : bool;
  sv_identityRepo : option notificationSlackIdentityRepository;
  sv_workspaceRepo : option notificationSlackWorkspaceRepository;
}.

#[export] Instance eta_NotificationService : Eta NotificationService := λ s,
  mkNotificationService (sv_preferencesRepo s) (sv_settingsRepo s) (sv_identityRepo s)
    (sv_workspaceRepo s).

Definition NewNotificationService : NotificationService :=
  mkNotificationService false false None None.

(** The store is told of a repository that is not nil. *)
Definition WithPreferenceRepository (preferences : option UserNotificationPreferenceRepository)
    (s : NotificationService) (r : NotificationSubscriptionRepository)
    : NotificationService * NotificationSubscriptionRepository :=
  (s <| sv_preferencesRepo := bool_decide (is_Some preferences) |>,
   match preferences with
   | None => r
   | Some preferences => SetNotificationPreferenceRepository preferences r
   end).

Definition WithInstanceSettingsRepository (settings : option NotificationInstanceSettingsRepository)
    (s : NotificationService) (r : NotificationSubscriptionRepository)
    : NotificationService * NotificationSubscriptionRepository :=
  (s <| sv_settingsRepo := bool_decide (is_Some settings) |>,
   match settings with
   | None => r
   | Some settings => SetNotificationInstanceSettingsRepository settings r
   end).

Definition WithUserSlackIdentityRepository (identityRepo : option notificationSlackIdentityRepository)
    (s : NotificationService) : NotificationService := s <| sv_identityRepo := identityRepo |>.

Definition WithSlackWorkspaceIntegrationRepository
    (workspaceRepo : option notificationSlackWorkspaceRepository) (s : NotificationService)
    : NotificationService := s <| sv_workspaceRepo := workspaceRepo |>.

(** [mail.Address.String] of an address without a name, and [uuid.Parse] with the
    text of what it read. *)
Class Identifiers := {
  AddressString : string → string;
  uuid_Parse : string → option string;
}.

(** ** Normalization *)

Definition NormalizeEmail (value : string) : string := ToLower (TrimSpace value).

Definition normalizeNotificationEmailAddress `{Addresses} `{Identifiers} (value : string)
    : string + error :=
  let trimmed := TrimSpace value in
  if trimmed == "" then inr ErrNotificationTargetAddressRequired
  else match ParseAddress trimmed with
       | inr _ => inr ErrNotificationTargetAddressInvalid
       | inl (address, _) => inl (AddressString (NormalizeEmail address))
       end.

Definition normalizeNotificationTargetType (value : string) : NotificationTargetType + error :=
  let trimmed := TrimSpace value in
  if trimmed == "" then inl NotificationTargetTypeEmail
  else if (trimmed == NotificationTargetTypeEmail) || (trimmed == NotificationTargetTypeSlackWebhook)
  then inl trimmed
  else inr ErrNotificationTargetTypeInvalid.

Definition normalizeNotificationWebhookURL `{Addresses} (value : string) : string + error :=
  let trimmed := TrimSpace value in
  if trimmed == "" then inr ErrNotificationTargetWebhookURLRequired
  else match parseHTTPS trimmed with
       | None => inr ErrNotificationTargetWebhookURLInvalid
       | Some text => inl text
       end.

Definition normalizeTargetRecipient `{Addresses} `{Identifiers} (targetType : NotificationTargetType)
    (address webhookURL : string) : string + error :=
  if targetType == NotificationTargetTypeEmail then normalizeNotificationEmailAddress address
  else if targetType == NotificationTargetTypeSlackWebhook
  then normalizeNotificationWebhookURL webhookURL
  else inr ErrNotificationTargetTypeInvalid.

Definition normalizeNotificationEventType (value : string) : NotificationEventType + error :=
  let trimmed := TrimSpace value in
  if (trimmed == NotificationEventTypeBuildSucceeded) || (trimmed == NotificationEventTypeBuildFailed)
  then inl trimmed
  else inr ErrNotificationSubscriptionEventTypeInvalid.

Definition trimOptionalStringValue (value : option string) : option string :=
  match value with
  | None => None
  | Some value => let trimmed := TrimSpace value in if trimmed == "" then None else Some trimmed
  end.

Definition normalizeRequiredNotificationUUID `{Identifiers} (value : string)
    (emptyErr invalidErr : error) : string + error :=
  let trimmed := TrimSpace value in
  if trimmed == "" then inr emptyErr
  else match uuid_Parse trimmed with
       | None => inr invalidErr
       | Some parsed => inl parsed
       end.

Definition normalizeOptionalNotificationUUID `{Identifiers} (value : option string)
    (invalidErr : error) : option string + error :=
  match trimOptionalStringValue value with
  | None => inl None
  | Some trimmed =>
      match uuid_Parse trimmed with
      | None => inr invalidErr
      | Some parsed => inl (Some parsed)
      end
  end.

(** ** The world *)

Record SettingsWorld := mkSettingsWorld {
  sw_store : NotificationSubscriptionRepository;
  sw_readings : nat;
  sw_identifiers : nat;
  sw_accesses : nat;
}.

#[export] Instance eta_SettingsWorld : Eta SettingsWorld := λ w,
  mkSettingsWorld (sw_store w) (sw_readings w) (sw_identifiers w) (sw_accesses w).

Record SettingsSurroundings := mkSettingsSurroundings {
  se_clock : nat → Time;
  se_uuid : nat → string;
  se_others : nat → NotificationSubscriptionRepository → NotificationSubscriptionRepository;
}.

Definition SettingsM (A : Type) : Type := SettingsWorld → SettingsWorld * A.

#[export] Instance SettingsM_ret : MRet SettingsM := λ A x w, (w, x).
#[export] Instance SettingsM_bind : MBind SettingsM := λ A B f m w, let '(w, x) := m w in f x w.

(** A result, or the error to return at once. *)
Definition bind_ok {A B} (m : SettingsM (A + error)) (f : A → SettingsM (B + error))
    : SettingsM (B + error) :=
  x ← m; match x with inr err => mret (inr err) | inl x => f x end.

Notation "x ⇐ m ; k" := (bind_ok m (λ x, k))
  (at level 20, m at level 100, k at level 200, right associativity) : go_scope.

Definition pure {A} (x : A + error) : SettingsM (A + error) := mret x.

Section operations.
Context `{Addresses} `{Folding} `{Identifiers} (e : SettingsSurroundings) (s : NotificationService).

Definition set_now : SettingsM Time := λ w,
  (w <| sw_readings := S (sw_readings w) |>, se_clock e (sw_readings w)).

Definition set_uuid : SettingsM string := λ w,
  (w <| sw_identifiers := S (sw_identifiers w) |>, se_uuid e (sw_identifiers w)).

(** What the others do before the next access. *)
Definition settings_interference (w : SettingsWorld) : SettingsWorld :=
  w <| sw_store := se_others e (sw_accesses w) (sw_store w) |>
    <| sw_accesses := S (sw_accesses w) |>.

Definition on_settings {A}
    (f : NotificationSubscriptionRepository → NotificationSubscriptionRepository * A)
    : SettingsM A := λ w,
  let w := settings_interference w in
  let '(r, x) := f (sw_store w) in (w <| sw_store := r |>, x).

Definition read_settings {A} (f : NotificationSubscriptionRepository → A) : SettingsM A :=
  on_settings (λ r, (r, f r)).

(** An access to one of the other repositories. *)
Definition ask_other {A} (f : nat → A) : SettingsM A := λ w,
  let w := settings_interference w in (w, f (sw_accesses w)).

Definition on_preferences {A}
    (f : UserNotificationPreferenceRepository → UserNotificationPreferenceRepository * A)
    : SettingsM A :=
  on_settings (λ r,
    let '(preferences, x) := f (default ∅ (sb_preferences r)) in
    (r <| sb_preferences := Some preferences |>, x)).

Definition on_instance {A}
    (f : NotificationInstanceSettingsRepository → NotificationInstanceSettingsRepository * A)
    : SettingsM A :=
  on_settings (λ r,
    let '(settings, x) := f (default None (sb_settings r)) in
    (r <| sb_settings := Some settings |>, x)).

(** An access that may draw an identifier or read the clock does so once. *)
Definition on_settings_new {A}
    (f : string → Time → NotificationSubscriptionRepository → NotificationSubscriptionRepository * A)
    : SettingsM A :=
  newID ← set_uuid;
  now ← set_now;
  on_settings (f newID now).

(** ** Targets (notification_targets.go) *)

Definition svc_ListTargets : SettingsM (list NotificationTarget + error) :=
  read_settings (λ r, inl (NotificationSubscriptionRepository_ListTargets r)).

Definition svc_GetOwnedEmailTarget (user : User) : SettingsM (NotificationTarget + error) :=
  let ownerUserID := TrimSpace (us_ID user) in
  if ownerUserID == "" then mret (inr ErrNotificationPersonalUserIDRequired)
  else read_settings (NotificationSubscriptionRepository_GetOwnedEmailTargetByUserID ownerUserID).

(** The name of the target of a user. *)
Definition personalTargetName (user : User) (normalizedIdentityEmail : string) : string :=
  match us_DisplayName user with
  | None => normalizedIdentityEmail
  | Some displayName =>
      let trimmedDisplayName := TrimSpace displayName in
      if trimmedDisplayName != "" then trimmedDisplayName else normalizedIdentityEmail
  end.

Definition svc_EnsureOwnedEmailTarget (user : User) : SettingsM (NotificationTarget + error) :=
  let ownerUserID := TrimSpace (us_ID user) in
  if ownerUserID == "" then mret (inr ErrNotificationPersonalUserIDRequired)
  else
    let normalizedIdentityEmail := NormalizeEmail (us_Email user) in
    if normalizedIdentityEmail == "" then mret (inr ErrNotificationPersonalEmailRequired)
    else match normalizeNotificationEmailAddress normalizedIdentityEmail with
    | inr err =>
        mret (inr (if errors_Is err ErrNotificationTargetAddressRequired
                      || errors_Is err ErrNotificationTargetAddressInvalid
                   then ErrNotificationPersonalEmailRequired else err))
    | inl recipient =>
        let targetName := personalTargetName user normalizedIdentityEmail in
        now ← set_now;
        newID ← set_uuid;
        let input := mkEnsureOwnedNotificationEmailTargetInput newID ownerUserID targetName
                       recipient now now in
        on_settings_new (λ newID now,
          NotificationSubscriptionRepository_EnsureOwnedEmailTargetInitialized newID now input)
    end.

Definition svc_SetOwnedEmailTargetEnabled (user : User) (enabled : option bool)
    : SettingsM (NotificationTarget + error) :=
  let ownerUserID := TrimSpace (us_ID user) in
  if ownerUserID == "" then mret (inr ErrNotificationPersonalUserIDRequired)
  else match enabled with
       | None => mret (inr ErrNotificationTargetEnabledRequired)
       | Some enabled =>
           now ← set_now;
           on_settings
             (NotificationSubscriptionRepository_SetOwnedEmailTargetEnabled ownerUserID enabled now)
       end.

Definition svc_CreateTarget (input : CreateNotificationTargetInput)
    : SettingsM (NotificationTarget + error) :=
  let name := TrimSpace (ct_Name input) in
  if name == "" then mret (inr ErrNotificationTargetNameRequired)
  else
    targetType ⇐ pure (normalizeNotificationTargetType (ct_Type input));
    recipient ⇐ pure (normalizeTargetRecipient targetType (ct_Address input) (ct_WebhookURL input));
    let enabled := default true (ct_Enabled input) in
    now ← set_now;
    newID ← set_uuid;
    let target := mkNotificationTarget newID None targetType NotificationTargetOriginManual name
                    recipient enabled now now in
    on_settings_new (λ newID now, NotificationSubscriptionRepository_CreateTarget newID now target).

Definition svc_CreateEmailTarget (input : CreateNotificationTargetInput)
    : SettingsM (NotificationTarget + error) :=
  svc_CreateTarget (mkCreateNotificationTargetInput NotificationTargetTypeEmail (ct_Name input)
    (ct_Address input) (ct_WebhookURL input) (ct_Enabled input)).

(** The changes of a request, without the time. *)
Definition changedTarget (input : UpdateNotificationTargetInput) (current : NotificationTarget)
    : NotificationTarget + error :=
  match (match ut_Name input with
         | None => inl current
         | Some name =>
             let name := TrimSpace name in
             if name == "" then inr ErrNotificationTargetNameRequired
             else inl (current <| nt_Name := name |>)
         end) with
  | inr err => inr err
  | inl current =>
      match (match ut_Address input, ut_WebhookURL input with
             | None, None => inl current
             | address, webhookURL =>
                 match normalizeTargetRecipient (nt_Type current) (default "" address)
                         (default "" webhookURL) with
                 | inr err => inr err
                 | inl recipient => inl (current <| nt_Recipient := recipient |>)
                 end
             end) with
      | inr err => inr err
      | inl current =>
          inl (match ut_Enabled input with
               | None => current
               | Some enabled => current <| nt_Enabled := enabled |>
               end)
      end
  end.

Definition svc_UpdateTarget (id : string) (input : UpdateNotificationTargetInput)
    : SettingsM (NotificationTarget + error) :=
  targetID ⇐ pure (normalizeRequiredNotificationUUID id ErrNotificationTargetNotFound
                     ErrNotificationTargetIDInvalid);
  current ⇐ read_settings (NotificationSubscriptionRepository_GetTargetByID targetID);
  current ⇐ pure (changedTarget input current);
  now ← set_now;
  on_settings (NotificationSubscriptionRepository_UpdateTarget (current <| nt_UpdatedAt := now |>)).

Definition svc_DeleteTarget (id : string) : SettingsM (option error) :=
  match normalizeRequiredNotificationUUID id ErrNotificationTargetNotFound
          ErrNotificationTargetIDInvalid with
  | inr err => mret (Some err)
  | inl targetID => on_settings (NotificationSubscriptionRepository_DeleteTarget targetID)
  end.

(** ** Subscriptions (notification_subscriptions.go) *)

Definition svc_ListSubscriptions (projectID jobID : option string)
    : SettingsM (list NotificationSubscription + error) :=
  projectID ⇐ pure (normalizeOptionalNotificationUUID projectID
                      ErrNotificationSubscriptionProjectIDInvalid);
  jobID ⇐ pure (normalizeOptionalNotificationUUID jobID ErrNotificationSubscriptionJobIDInvalid);
  read_settings (λ r, inl (NotificationSubscriptionRepository_ListSubscriptions
    (mkNotificationSubscriptionListFilter projectID jobID) r)).

Definition svc_CreateSubscription (input : CreateNotificationSubscriptionInput)
    : SettingsM (NotificationSubscription + error) :=
  targetID ⇐ pure (normalizeRequiredNotificationUUID (cn_TargetID input)
                     ErrNotificationSubscriptionTargetIDRequired
                     ErrNotificationSubscriptionTargetIDInvalid);
  target ⇐ read_settings (NotificationSubscriptionRepository_GetTargetByID targetID);
  projectID ⇐ pure (normalizeOptionalNotificationUUID (cn_ProjectID input)
                      ErrNotificationSubscriptionProjectIDInvalid);
  jobID ⇐ pure (normalizeOptionalNotificationUUID (cn_JobID input)
                  ErrNotificationSubscriptionJobIDInvalid);
  if eqb (isNil projectID) (isNil jobID)
  then mret (inr ErrNotificationSubscriptionScopeRequired)
  else
    eventType ⇐ pure (normalizeNotificationEventType (cn_EventType input));
    let enabled := default true (cn_Enabled input) in
    now ← set_now;
    newID ← set_uuid;
    let subscription := mkNotificationSubscription newID targetID projectID jobID eventType enabled
                          now now in
    on_settings_new (λ newID now,
      NotificationSubscriptionRepository_CreateSubscription newID now subscription).

Definition svc_UpdateSubscription (id : string) (enabled : option bool)
    : SettingsM (NotificationSubscription + error) :=
  subscriptionID ⇐ pure (normalizeRequiredNotificationUUID id ErrNotificationSubscriptionNotFound
                           ErrNotificationSubscriptionIDInvalid);
  current ⇐ read_settings (NotificationSubscriptionRepository_GetSubscriptionByID subscriptionID);
  let current := match enabled with
                 | None => current
                 | Some enabled => current <| ns_Enabled := enabled |>
                 end in
  now ← set_now;
  on_settings
    (NotificationSubscriptionRepository_UpdateSubscription (current <| ns_UpdatedAt := now |>)).

Definition svc_DeleteSubscription (id : string) : SettingsM (option error) :=
  match normalizeRequiredNotificationUUID id ErrNotificationSubscriptionNotFound
          ErrNotificationSubscriptionIDInvalid with
  | inr err => mret (Some err)
  | inl subscriptionID =>
      on_settings (NotificationSubscriptionRepository_DeleteSubscription subscriptionID)
  end.

(** ** Preferences (notification_preferences.go) *)

Definition getUserNotificationPreference (userID : string)
    : SettingsM (UserNotificationPreference + error) :=
  if negb (sv_preferencesRepo s)
  then mret (inl (mkUserNotificationPreference userID false false "" false false None
                    zero_time zero_time))
  else
    now ← set_now;
    stored ← read_settings (λ r,
      UserNotificationPreferenceRepository_GetByUserID userID (default ∅ (sb_preferences r)));
    match stored with
    | inr err =>
        if errors_Is err ErrUserNotificationPreferenceNotFound
        then mret (inl (mkUserNotificationPreference userID false false
                          UserNotificationPreferenceSourceUser false false None now now))
        else mret (inr err)
    | inl stored => mret (inl stored)
    end.

Definition zero_EmailState : CommitAuthorEmailNotificationPreferenceState :=
  mkCommitAuthorEmailState false false None None.

Definition resolveEmailPreferenceState (userID : string)
    : SettingsM (CommitAuthorEmailNotificationPreferenceState + error) :=
  target ← read_settings (NotificationSubscriptionRepository_GetOwnedEmailTargetByUserID userID);
  match target with
  | inr err =>
      if errors_Is err ErrNotificationTargetNotFound
      then mret (inl (zero_EmailState <| ce_UnavailableReason :=
             Some NotificationPreferenceUnavailableReasonPersonalTargetRequired |>))
      else mret (inr err)
  | inl target =>
      let state := zero_EmailState <| ce_Target := Some target |>
                                   <| ce_DeliveryActive := nt_Enabled target |> in
      mret (inl (if negb (nt_Enabled target)
                 then state <| ce_UnavailableReason :=
                        Some NotificationPreferenceUnavailableReasonPersonalTargetDisabled |>
                 else state))
  end.

Definition slackUnavailable (reason : string) : CommitAuthorSlackNotificationPreferenceState :=
  mkCommitAuthorSlackState false false (Some reason).

Definition resolveSlackPreferenceState (userID : string) (requireDeliverable : bool)
    : SettingsM (CommitAuthorSlackNotificationPreferenceState + error) :=
  match sv_workspaceRepo s, sv_identityRepo s with
  | Some workspaceRepo, Some identityRepo =>
      integration ← ask_other workspaceRepo;
      match integration with
      | inr err =>
          if errors_Is err ErrSlackWorkspaceIntegrationNotFound
          then mret (inl (slackUnavailable
                 NotificationPreferenceUnavailableReasonSlackWorkspaceNotConfigured))
          else mret (inr err)
      | inl integration =>
          if TrimSpace (wi_BotTokenSecret integration) == ""
          then mret (inl (slackUnavailable
                 NotificationPreferenceUnavailableReasonSlackWorkspaceNotConfigured))
          else if negb (wi_Enabled integration)
          then mret (inl (slackUnavailable
                 NotificationPreferenceUnavailableReasonSlackWorkspaceDisabled))
          else
            identity ← ask_other (λ n, identityRepo n userID);
            match identity with
            | inr err =>
                if errors_Is err ErrUserSlackIdentityNotFound
                then mret (inl (slackUnavailable
                       NotificationPreferenceUnavailableReasonSlackIdentityRequired))
                else mret (inr err)
            | inl identity =>
                mret (inl (
                  if TrimSpace (ui_SlackUserID identity) == ""
                  then slackUnavailable NotificationPreferenceUnavailableReasonSlackIdentityRequired
                  else if negb (ui_Enabled identity)
                  then slackUnavailable NotificationPreferenceUnavailableReasonSlackIdentityDisabled
                  else if ui_SlackWorkspaceIntegrationID identity != wi_ID integration
                  then slackUnavailable NotificationPreferenceUnavailableReasonSlackWorkspaceMismatch
                  else mkCommitAuthorSlackState false true None))
            end
      end
  | _, _ =>
      mret (inl (slackUnavailable
        NotificationPreferenceUnavailableReasonSlackWorkspaceNotConfigured))
  end.

Definition validateCommitAuthorPreferenceChannels (userID : string)
    (emailEnabled slackEnabled : bool) : SettingsM (option error) :=
  emailErr ← (if emailEnabled then
    emailState ← resolveEmailPreferenceState userID;
    match emailState with
    | inr err => mret (Some err)
    | inl emailState =>
        mret (if negb (ce_DeliveryActive emailState)
              then Some ErrNotificationPreferencePersonalTargetRequired else None)
    end
  else mret None);
  match emailErr with
  | Some err => mret (Some err)
  | None =>
      if slackEnabled then
        state ← resolveSlackPreferenceState userID true;
        match state with
        | inr err => mret (Some err)
        | inl state =>
            mret (if negb (cs_DeliveryActive state)
                  then Some ErrNotificationPreferencePersonalSlackRequired else None)
        end
      else mret None
  end.

(** Both preferences of a commit's author are read alike; [channels] are those of
    failures or of successes. *)
Definition commitAuthorPreference (channels : UserNotificationPreference → bool * bool) (user : User)
    : SettingsM (CommitAuthorNotificationPreferenceState + error) :=
  let ownerUserID := TrimSpace (us_ID user) in
  if ownerUserID == "" then mret (inr ErrNotificationPersonalUserIDRequired)
  else
    preference ⇐ getUserNotificationPreference ownerUserID;
    emailState ⇐ resolveEmailPreferenceState ownerUserID;
    let emailState := emailState <| ce_Enabled := (channels preference).1 |> in
    let emailState := emailState <| ce_DeliveryActive :=
                        ce_Enabled emailState && ce_DeliveryActive emailState |> in
    slackState ⇐ resolveSlackPreferenceState ownerUserID false;
    let slackState := slackState <| cs_Enabled := (channels preference).2 |> in
    let slackState := slackState <| cs_DeliveryActive :=
                        cs_Enabled slackState && cs_DeliveryActive slackState |> in
    mret (inl (mkCommitAuthorState emailState slackState)).

Definition failureChannels (p : UserNotificationPreference) : bool * bool :=
  (up_CommitAuthorFailureEmailEnabled p, up_CommitAuthorFailureSlackEnabled p).

Definition successChannels (p : UserNotificationPreference) : bool * bool :=
  (up_CommitAuthorSuccessEmailEnabled p, up_CommitAuthorSuccessSlackEnabled p).

Definition GetCommitAuthorFailureNotificationPreference
    : User → SettingsM (CommitAuthorNotificationPreferenceState + error) :=
  commitAuthorPreference failureChannels.

Definition GetCommitAuthorSuccessNotificationPreference
    : User → SettingsM (CommitAuthorNotificationPreferenceState + error) :=
  commitAuthorPreference successChannels.

(** [choose] writes the chosen channels and who chose them. *)
Definition setCommitAuthorPreference
    (choose : bool → bool → UserNotificationPreference → UserNotificationPreference)
    (get : User → SettingsM (CommitAuthorNotificationPreferenceState + error)) (user : User)
    (input : UpdateCommitAuthorNotificationPreferenceInput)
    : SettingsM (CommitAuthorNotificationPreferenceState + error) :=
  let ownerUserID := TrimSpace (us_ID user) in
  if ownerUserID == "" then mret (inr ErrNotificationPersonalUserIDRequired)
  else match uc_EmailEnabled input, uc_SlackEnabled input with
  | Some emailEnabled, Some slackEnabled =>
      invalid ← validateCommitAuthorPreferenceChannels ownerUserID emailEnabled slackEnabled;
      match invalid with
      | Some err => mret (inr err)
      | None =>
          if negb (sv_preferencesRepo s)
          then mret (inr (Errorf "notification preference repository is not configured"))
          else
            now ← set_now;
            preference ⇐ getUserNotificationPreference ownerUserID;
            let preference := preference <| up_UpdatedAt := now |> in
            _ ← on_preferences (UserNotificationPreferenceRepository_Upsert
                                  (choose emailEnabled slackEnabled preference));
            get user
      end
  | _, _ => mret (inr ErrNotificationPreferenceChannelEnabledRequired)
  end.

Definition SetCommitAuthorFailureNotificationPreference
    : User → UpdateCommitAuthorNotificationPreferenceInput →
      SettingsM (CommitAuthorNotificationPreferenceState + error) :=
  setCommitAuthorPreference (λ emailEnabled slackEnabled p,
      p <| up_CommitAuthorFailureEmailEnabled := emailEnabled |>
        <| up_CommitAuthorFailureSlackEnabled := slackEnabled |>
        <| up_CommitAuthorFailureEmailSource := UserNotificationPreferenceSourceUser |>)
    GetCommitAuthorFailureNotificationPreference.

Definition SetCommitAuthorSuccessNotificationPreference
    : User → UpdateCommitAuthorNotificationPreferenceInput →
      SettingsM (CommitAuthorNotificationPreferenceState + error) :=
  setCommitAuthorPreference (λ emailEnabled slackEnabled p,
      p <| up_CommitAuthorSuccessEmailEnabled := emailEnabled |>
        <| up_CommitAuthorSuccessSlackEnabled := slackEnabled |>
        <| up_CommitAuthorSuccessEmailSource := Some UserNotificationPreferenceSourceUser |>)
    GetCommitAuthorSuccessNotificationPreference.

(** ** Defaults (notification_defaults.go) *)

Definition getNotificationDefaultsEnabled : SettingsM (NotificationDefaultsState + error) :=
  if negb (sv_settingsRepo s) then mret (inl (true, false))
  else
    settings ← read_settings (λ r,
      NotificationInstanceSettingsRepository_Get (default None (sb_settings r)));
    match settings with
    | inr err =>
        if errors_Is err ErrNotificationInstanceSettingsNotFound then mret (inl (true, false))
        else mret (inr (Wrap "get notification instance settings" err))
    | inl settings =>
        mret (inl (is_DefaultCommitAuthorFailureEmailEnabled settings,
                   is_DefaultCommitAuthorSuccessEmailEnabled settings))
    end.

Definition GetNotificationDefaults : SettingsM (NotificationDefaultsState + error) :=
  getNotificationDefaultsEnabled.

Definition SetNotificationDefaults (failureEnabled successEnabled : option bool)
    : SettingsM (NotificationDefaultsState + error) :=
  match failureEnabled, successEnabled with
  | None, None => mret (inr ErrNotificationDefaultsUpdateRequired)
  | _, _ =>
      if negb (sv_settingsRepo s)
      then mret (inr (Errorf "notification instance settings repository is not configured"))
      else
        now ← set_now;
        existing ← read_settings (λ r,
          NotificationInstanceSettingsRepository_Get (default None (sb_settings r)));
        match (match existing with
               | inl existing => inl (existing, is_CreatedAt existing)
               | inr err =>
                   if errors_Is err ErrNotificationInstanceSettingsNotFound
                   then inl (mkNotificationInstanceSettings true false now now, now)
                   else inr err
               end) with
        | inr err => mret (inr err)
        | inl (settings, createdAt) =>
            let settings := match failureEnabled with
              | None => settings
              | Some enabled => settings <| is_DefaultCommitAuthorFailureEmailEnabled := enabled |>
              end in
            let settings := match successEnabled with
              | None => settings
              | Some enabled => settings <| is_DefaultCommitAuthorSuccessEmailEnabled := enabled |>
              end in
            let settings := settings <| is_CreatedAt := createdAt |> <| is_UpdatedAt := now |> in
            settings ← on_instance (NotificationInstanceSettingsRepository_Upsert settings);
            mret (inl (is_DefaultCommitAuthorFailureEmailEnabled settings,
                       is_DefaultCommitAuthorSuccessEmailEnabled settings))
        end
  end.

End operations.

(** ** For the notifier

    The stores as the notifier's repositories see them, by the number of its
    accesses. *)

Definition subscriptions_at `{Addresses} `{Folding} (newID : nat → string) (now : nat → Time)
    (stores : nat → NotificationSubscriptionRepository) : notificationSubscriptionRepository := {|
  ListEnabledMatchesForBuildEvent := λ n build eventType,
    inl (NotificationSubscriptionRepository_ListEnabledMatchesForBuildEvent build eventType (stores n));
  GetOwnedEmailTargetByUserID := λ n userID,
    NotificationSubscriptionRepository_GetOwnedEmailTargetByUserID userID (stores n);
  EnsureConfigEmailTarget := λ n input,
    (NotificationSubscriptionRepository_EnsureConfigEmailTarget (newID n) (now n) input (stores n)).2;
  GetTargetByID := λ n id, NotificationSubscriptionRepository_GetTargetByID id (stores n);
|}.

Definition preferences_at (stores : nat → NotificationSubscriptionRepository)
    : notificationPreferenceRepository := λ n userID,
  UserNotificationPreferenceRepository_GetByUserID userID (default ∅ (sb_preferences (stores n))).
