(* ===== verification/NotifSettingsThms.v ===== *)
(** The settings of notifications and the notifier agree: what the settings call
    active is where the notifier sends. *)

From Stdlib Require Import Ascii.
From stdpp Require Import base gmap strings list pretty sorting numbers.
From S2P Require Import Prelude GoLib GoPath GoText Domain Repository NotifDelivery.
From S2P Require Import NotifDestinations Notifier NotifTargets SubscriptionBook NotifTargetFacts.
From S2P Require Import NotifTargetThms NotifSettings.

Open Scope go_scope.
Open Scope Z_scope.

(** ** What the settings answer *)

Section agreement.
Context `{Addresses} `{Folding}.

(** Stores that nobody changes meanwhile, and the same Slack repositories for both
    services. *)
Context (e : SettingsSurroundings) (s : NotificationService) (n : BuildNotificationService)
  (en : NotifSurroundings) (r : NotificationSubscriptionRepository)
  (identity : option (string → UserSlackIdentity + error))
  (workspace : option (SlackWorkspaceIntegration + error)).
Context (Hquiet : ∀ k, se_others e k r = r) (Hprefs : sv_preferencesRepo s = true)
  (Hsi : sv_identityRepo s = option_map (λ f _, f) identity)
  (Hsw : sv_workspaceRepo s = option_map (λ x _, x) workspace)
  (Hni : bn_identityRepo n = option_map (λ f _, f) identity)
  (Hnw : bn_workspaceRepo n = option_map (λ x _, x) workspace).

(** The Slack account of a user can be written to, as the settings see it. *)
Definition slack_reachable (user : string) : bool :=
  match workspace, identity with
  | Some (inl integration), Some identity =>
      match identity user with
      | inr _ => false
      | inl identity =>
          (TrimSpace (wi_BotTokenSecret integration) != "") && wi_Enabled integration
          && (TrimSpace (ui_SlackUserID identity) != "") && ui_Enabled identity
          && (ui_SlackWorkspaceIntegrationID identity == wi_ID integration)
      end
  | _, _ => false
  end.

(** [m] reads the stores as they are, leaves them and answers [Q]. *)
Definition yields {A} (m : SettingsM A) (Q : A → Prop) : Prop :=
  ∀ w, sw_store w = r → sw_store (m w).1 = r ∧ Q (m w).2.

Lemma yields_ret {A} (x : A) (Q : A → Prop) : Q x → yields (mret x) Q.
Proof. by intros Hx w Hw. Qed.

Lemma yields_bind {A B} (m : SettingsM A) (f : A → SettingsM B) (P : A → Prop) (Q : B → Prop) :
  yields m P → (∀ x, P x → yields (f x) Q) → yields (m ≫= f) Q.
Proof.
  intros Hm Hf w Hw. destruct (Hm w Hw) as [H1 H2]. unfold mbind, SettingsM_bind.
  destruct (m w) as [w1 x]. by apply Hf.
Qed.

Lemma yields_bind_ok {A B} (m : SettingsM (A + error)) (f : A → SettingsM (B + error))
    (P : A → Prop) (Q : B → Prop) :
  yields m (λ x, ∀ a, x = inl a → P a) →
  (∀ a, P a → yields (f a) (λ y, ∀ b, y = inl b → Q b)) →
  yields (bind_ok m f) (λ y, ∀ b, y = inl b → Q b).
Proof.
  intros Hm Hf. eapply yields_bind; [exact Hm|]. intros [a|err] Ha; [by apply Hf, Ha|].
  by apply yields_ret.
Qed.

Lemma yields_read {A} (f : NotificationSubscriptionRepository → A) :
  yields (read_settings e f) (λ x, x = f r).
Proof.
  intros w Hw. unfold read_settings, on_settings, settings_interference. simpl.
  by rewrite Hw, Hquiet.
Qed.

Lemma yields_ask {A} (x : A) : yields (ask_other e (λ _, x)) (λ y, y = x).
Proof. intros w Hw. unfold ask_other, settings_interference. simpl. by rewrite Hw, Hquiet. Qed.

Lemma yields_now : yields (set_now e) (λ _, True).
Proof. by intros w Hw. Qed.

(** What the notifier reads of a preference. *)
Definition stored_channels (channels : UserNotificationPreference → bool * bool) (user : string)
    : option (bool * bool) :=
  match UserNotificationPreferenceRepository_GetByUserID user (default ∅ (sb_preferences r)) with
  | inl stored => Some (channels stored)
  | inr _ => None
  end.

Lemma preference_quiet channels user :
  channels = failureChannels ∨ channels = successChannels →
  yields (getUserNotificationPreference e s user)
    (λ x, ∀ p, x = inl p → channels p = default (false, false) (stored_channels channels user)).
Proof.
  intros Hc. unfold getUserNotificationPreference, stored_channels. rewrite Hprefs.
  eapply yields_bind; [apply yields_now|]. intros now _.
  eapply yields_bind; [apply yields_read|]. intros x ->.
  unfold UserNotificationPreferenceRepository_GetByUserID.
  destruct (default ∅ (sb_preferences r) !! TrimSpace user) as [p|]; apply yields_ret.
  - by intros ? [= <-].
  - intros p [= <-]. by destruct Hc as [-> | ->].
Qed.

Lemma email_quiet user :
  store_ok r →
  yields (resolveEmailPreferenceState e user)
    (λ x, ∀ st, x = inl st →
      ce_Target st = the (ownsEmail (TrimSpace user)) (sb_targets r)
      ∧ ce_DeliveryActive st = from_option nt_Enabled false (ce_Target st)).
Proof.
  intros Hr. unfold resolveEmailPreferenceState. eapply yields_bind; [apply yields_read|].
  intros x ->. unfold NotificationSubscriptionRepository_GetOwnedEmailTargetByUserID.
  rewrite findOwned_the, TrimSpace_idemp by done.
  destruct (the _ _) as [t|]; cbn [foundTarget]; apply yields_ret; intros st [= <-]; [|done].
  destruct (nt_Enabled t) eqn:En; simpl; by rewrite ?En.
Qed.

Lemma slack_quiet user requireDeliverable :
  yields (resolveSlackPreferenceState e s user requireDeliverable)
    (λ x, ∀ st, x = inl st → cs_DeliveryActive st = slack_reachable user).
Proof.
  clear Hni Hnw. unfold resolveSlackPreferenceState, slack_reachable. rewrite Hsi, Hsw.
  destruct workspace as [x|], identity as [f|]; simpl;
    try (apply yields_ret; intros st [= <-]; by repeat case_match).
  eapply yields_bind; [apply yields_ask|]. intros y ->.
  destruct x as [integration|err]; [|case_match; apply yields_ret; by intros st [=]; subst].
  destruct (TrimSpace (wi_BotTokenSecret integration) == "") eqn:E1;
    [apply yields_ret; intros st [= <-]; by destruct (f user)|].
  destruct (wi_Enabled integration) eqn:E2; simpl;
    [|apply yields_ret; intros st [= <-]; by destruct (f user)].
  eapply yields_bind; [apply yields_ask|]. intros y ->.
  destruct (f user) as [i|err]; [|case_match; apply yields_ret; by intros st [=]; subst].
  apply yields_ret. intros st [= <-].
  destruct (TrimSpace (ui_SlackUserID i) == ""); [done|]. simpl.
  destruct (ui_Enabled i); [|done]. simpl.
  by destruct (ui_SlackWorkspaceIntegrationID i == wi_ID integration).
Qed.

(** What the settings show for a user, when they answer. *)
Lemma preference_shown channels user w w' st :
  store_ok r → channels = failureChannels ∨ channels = successChannels →
  sw_store w = r → commitAuthorPreference e s channels user w = (w', inl st) →
  let uid := TrimSpace (us_ID user) in
  let enabled := default (false, false) (stored_channels channels uid) in
  uid ≠ ""
  ∧ ce_Enabled (ca_Email st) = enabled.1 ∧ cs_Enabled (ca_Slack st) = enabled.2
  ∧ ce_Target (ca_Email st) = the (ownsEmail (TrimSpace uid)) (sb_targets r)
  ∧ ce_DeliveryActive (ca_Email st)
    = enabled.1 && from_option nt_Enabled false (ce_Target (ca_Email st))
  ∧ cs_DeliveryActive (ca_Slack st) = enabled.2 && slack_reachable uid.
Proof.
  intros Hr Hc Hw Hrun uid enabled. unfold commitAuthorPreference in Hrun. fold uid in Hrun.
  destruct (bool_decide_reflect (uid = "")) as [|Hne]; [done|]. split; [done|].
  match type of Hrun with ?m w = _ => assert (Hy : yields m (λ y, ∀ st, y = inl st →
    ce_Enabled (ca_Email st) = enabled.1 ∧ cs_Enabled (ca_Slack st) = enabled.2
    ∧ ce_Target (ca_Email st) = the (ownsEmail (TrimSpace uid)) (sb_targets r)
    ∧ ce_DeliveryActive (ca_Email st)
      = enabled.1 && from_option nt_Enabled false (ce_Target (ca_Email st))
    ∧ cs_DeliveryActive (ca_Slack st) = enabled.2 && slack_reachable uid)) end.
  { eapply yields_bind_ok; [by apply preference_quiet|]. intros p Hp. fold enabled in Hp.
    eapply yields_bind_ok; [by apply email_quiet|]. intros es [Ht Ha].
    eapply yields_bind_ok; [by apply slack_quiet|]. intros ss Hss.
    apply yields_ret. intros ? [= <-]. simpl. rewrite Hp, <- Hss, <- Ha. done. }
  destruct (Hy w Hw) as [_ Hq]. rewrite Hrun in Hq. by apply Hq.
Qed.

(** ** What the notifier plans *)

(** [m] answers [x]. *)
Definition tells {A} (m : NotifierM A) (x : A) : Prop := ∀ w, (m w).2 = x.

Lemma tells_bind {A B} (m : NotifierM A) (f : A → NotifierM B) x y :
  tells m x → tells (f x) y → tells (m ≫= f) y.
Proof.
  intros Hm Hf w. specialize (Hm w). unfold mbind, NotifierM_bind.
  destruct (m w) as [w1 x1]. simpl in Hm. subst. apply Hf.
Qed.

Lemma tells_ask {A} (f : nat → A) x : (∀ k, f k = x) → tells (ask en f) x.
Proof. intros Hf w. simpl. apply Hf. Qed.

(** Targets as the services make them, with an identifier and a recipient. *)
Definition complete_targets : Prop :=
  ∀ i t, sb_targets r !! i = Some t → TrimSpace (nt_ID t) ≠ "" ∧ TrimSpace (nt_Recipient t) ≠ "".

Lemma email_planned subs newID now uid :
  store_ok r → complete_targets → subs = subscriptions_at newID now (λ _, r) →
  ∃ email, tells (resolveCommitAuthorEmailDestination en subs uid) (inl email)
  ∧ (is_Some email ↔
     from_option nt_Enabled false (the (ownsEmail (TrimSpace uid)) (sb_targets r)) = true)
  ∧ ∀ d, email = Some d → ∃ t, the (ownsEmail (TrimSpace uid)) (sb_targets r) = Some t
      ∧ personalEmailTargetDestination t = inl d.
Proof.
  intros Hr Hct ->. unfold resolveCommitAuthorEmailDestination.
  assert (Hask : tells (ask en (λ k, GetOwnedEmailTargetByUserID (subscriptions_at newID now (λ _, r)) k uid))
    (foundTarget (the (ownsEmail (TrimSpace uid)) (sb_targets r)))).
  { apply tells_ask. intros k. simpl. unfold NotificationSubscriptionRepository_GetOwnedEmailTargetByUserID.
    by rewrite findOwned_the, TrimSpace_idemp. }
  destruct (the _ _) as [t|] eqn:Ht; simpl in Hask.
  - destruct (the_Some _ _ _ Ht) as (i & Hi & _). destruct (Hct _ _ Hi) as [Hid Hrc].
    destruct (nt_Enabled t) eqn:Hen.
    + destruct (personalEmailTargetDestination t) as [d|err] eqn:Hd.
      * exists (Some d). split; [|split; [simpl; by rewrite Hen|by intros ? [= <-]; eauto]].
        eapply tells_bind; [exact Hask|]. cbn beta iota. rewrite Hen. simpl.
        rewrite (bool_decide_false (TrimSpace (nt_Recipient t) = "")), Hd by done. done.
      * exfalso. unfold personalEmailTargetDestination, NotificationPersonalEmailTargetKey in Hd.
        rewrite TrimSpace_idemp, bool_decide_false in Hd by done. done.
    + exists None. split; [|split; [simpl; rewrite Hen; by split; [intros []|]|done]].
      eapply tells_bind; [exact Hask|]. cbn beta iota. by rewrite Hen.
  - exists None. split; [by eapply tells_bind; [exact Hask|]|]. split; [|done].
    by split; [intros []|].
Qed.

(** The name of the user in Slack. *)
Definition slack_id (uid : string) : string :=
  match identity with
  | Some f => match f uid with inl i => TrimSpace (ui_SlackUserID i) | inr _ => "" end
  | None => ""
  end.

(** The Slack repositories find, or say that there is nothing. *)
Definition slack_answers (uid : string) : Prop :=
  (∀ f err, identity = Some f → f uid = inr err → errors_Is err ErrUserSlackIdentityNotFound = true)
  ∧ (∀ err, workspace = Some (inr err) →
       errors_Is err ErrSlackWorkspaceIntegrationNotFound = true)
  ∧ (∀ integration, workspace = Some (inl integration) → TrimSpace (wi_ID integration) ≠ "").

(** Nothing is planned, and something makes the settings show so. *)
Ltac no_slack :=
  exists None; split; [|split; [split; [by intros []|intros (? & ? & ?); by bool_to_prop]|done]].

Ltac tell_ask := eapply tells_bind; [apply tells_ask; reflexivity|]; cbn beta iota.
Ltac tell E := tell_ask; rewrite ?E; cbn beta iota.

Lemma slack_planned user :
  slack_answers (us_ID user) →
  ∃ slack, tells (resolveCommitAuthorSlackDestination en n user) (inl slack)
  ∧ (is_Some slack ↔ slack_reachable (us_ID user) = true ∧ bn_slackClient n = true
                     ∧ IsSlackUserID (slack_id (us_ID user)) = true)
  ∧ ∀ d, slack = Some d → dn_slackUserID d = slack_id (us_ID user).
Proof.
  clear Hsi Hsw. intros (Hi & Hwk & Hid). unfold resolveCommitAuthorSlackDestination, slack_reachable, slack_id.
  rewrite Hni, Hnw.
  destruct identity as [f|], workspace as [x|]; simpl; try (no_slack; done);
    try (no_slack; intros w; by destruct (bn_slackClient n)).
  destruct (bn_slackClient n); [|no_slack; done].
  destruct (f (us_ID user)) as [i|err] eqn:Ef.
  2: { destruct x; (no_slack; tell Ef; by rewrite (Hi f err)). }
  destruct (ui_Enabled i) eqn:E1.
  2: { destruct x; rewrite ?andb_false_r; (no_slack; tell Ef; by rewrite E1). }
  destruct x as [g|err].
  2: { no_slack. tell Ef. rewrite E1. simpl. tell_ask. by rewrite (Hwk err). }
  destruct (wi_Enabled g) eqn:E2.
  2: { rewrite andb_false_r. no_slack. tell_ask. rewrite E1. simpl. tell_ask. by rewrite E2. }
  destruct (decide (ui_SlackWorkspaceIntegrationID i = wi_ID g)) as [E3|E3].
  2: { no_slack. tell_ask. rewrite E1. simpl. tell_ask. rewrite E2. simpl.
       by rewrite (bool_decide_false (wi_ID g = _)) by congruence. }
  destruct (bool_decide_reflect (TrimSpace (wi_BotTokenSecret g) = "")) as [E4|E4].
  { no_slack. tell_ask. rewrite E1. simpl. tell_ask. rewrite E2, E3, E4. by rewrite bool_decide_true. }
  destruct (IsSlackUserID (TrimSpace (ui_SlackUserID i))) eqn:E5.
  2: { no_slack. tell_ask. rewrite E1. simpl. tell_ask. rewrite E2, E3, E5. simpl.
       rewrite (bool_decide_true (wi_ID g = _)) by done. by rewrite orb_true_r. }
  assert (E6 : TrimSpace (ui_SlackUserID i) ≠ "") by (intros E6; by rewrite E6 in E5).
  destruct (slackDMDestination (us_ID user) (wi_ID g) (ui_SlackUserID i) (wi_BotTokenSecret g))
    as [d|err] eqn:Ed.
  - exists (Some d). split; [|split].
    + tell_ask. rewrite E1. simpl. tell_ask. rewrite E2, E3, E5. simpl.
      rewrite (bool_decide_true (wi_ID g = _)), (bool_decide_false (TrimSpace (wi_BotTokenSecret g) = ""))
        by done. simpl. by rewrite Ed.
    + split; [|done]. intros _. rewrite (bool_decide_true (_ = wi_ID g)) by done.
      by rewrite (bool_decide_false (TrimSpace (ui_SlackUserID i) = "")).
    + intros ? [= <-]. unfold slackDMDestination in Ed. destruct (NotificationSlackDMDestinationKey _ _)
        as [[]|]; [|done]. by simplify_eq.
  - exfalso. unfold slackDMDestination, NotificationSlackDMDestinationKey in Ed.
    rewrite !bool_decide_false in Ed; [done|done|by eapply Hid].
Qed.

Definition channels_of (eventType : NotificationEventType)
    (channels : UserNotificationPreference → bool * bool) : Prop :=
  (eventType = NotificationEventTypeBuildFailed ∧ channels = failureChannels)
  ∨ (eventType = NotificationEventTypeBuildSucceeded ∧ channels = successChannels).

Lemma author_planned subs users user build eventType channels x :
  bn_userRepo n = Some users → bn_preferenceRepo n = Some (preferences_at (λ _, r)) →
  bn_subscriptionRepo n = Some subs →
  normalizeCommitAuthorEmail (b_SourceAuthorEmail build) ≠ "" →
  (∀ k, users k (normalizeCommitAuthorEmail (b_SourceAuthorEmail build)) = inl user) →
  channels_of eventType channels →
  let enabled := default (false, false) (stored_channels channels (us_ID user)) in
  tells (authorDestinations en n subs user enabled.1 enabled.2) x →
  tells (resolveCommitAuthorDestinations en n build eventType) x.
Proof.
  intros Hu Hp Hsub Hne Husers Hc enabled Hx. unfold resolveCommitAuthorDestinations.
  rewrite Hu, Hp, Hsub, bool_decide_false by done.
  eapply tells_bind; [by apply tells_ask|]. cbn beta iota.
  eapply tells_bind; [by apply (tells_ask _ (UserNotificationPreferenceRepository_GetByUserID
    (us_ID user) (default ∅ (sb_preferences r))))|].
  unfold enabled, stored_channels in Hx. unfold UserNotificationPreferenceRepository_GetByUserID in *.
  destruct (default ∅ (sb_preferences r) !! TrimSpace (us_ID user)) as [p|].
  - destruct Hc as [[-> ->]|[-> ->]]; exact Hx.
  - intros w. by rewrite <- (Hx w).
Qed.

Lemma channels_planned subs newID now user enabled :
  store_ok r → complete_targets → slack_answers (us_ID user) →
  subs = subscriptions_at newID now (λ _, r) →
  ∃ email slack, tells (authorDestinations en n subs user enabled.1 enabled.2)
    (inl (option_list email ++ option_list slack))
  ∧ (is_Some email ↔ enabled.1 && from_option nt_Enabled false
       (the (ownsEmail (TrimSpace (us_ID user))) (sb_targets r)) = true)
  ∧ (∀ d, email = Some d → ∃ t,
       the (ownsEmail (TrimSpace (us_ID user))) (sb_targets r) = Some t
       ∧ personalEmailTargetDestination t = inl d)
  ∧ (is_Some slack ↔ enabled.2 && slack_reachable (us_ID user) = true ∧ bn_slackClient n = true
                     ∧ IsSlackUserID (slack_id (us_ID user)) = true)
  ∧ (∀ d, slack = Some d → dn_slackUserID d = slack_id (us_ID user)).
Proof.
  intros Hr Hct Ha Hsub.
  destruct (email_planned subs newID now (us_ID user) Hr Hct Hsub) as (email & Et & Ei & Ed).
  destruct (slack_planned user Ha) as (slack & St & Si & Sd).
  exists (if enabled.1 then email else None), (if enabled.2 then slack else None).
  unfold authorDestinations. split_and!.
  - apply (tells_bind _ _ (inl (if enabled.1 then email else None)));
      [by destruct (enabled.1)|]. cbn beta iota.
    by apply (tells_bind _ _ (inl (if enabled.2 then slack else None)));
      [destruct (enabled.2)|].
  - destruct (enabled.1); [exact Ei|]. by split; [intros []|].
  - destruct (enabled.1); [exact Ed|done].
  - destruct (enabled.2); [exact Si|]. by split; [intros []|intros []].
  - destruct (enabled.2); [exact Sd|done].
Qed.

End agreement.

(** ** One instance *)

(** The service of settings and the notifier of one instance: both on the same
    stores, which nobody changes meanwhile, and on the same Slack repositories; the
    notifier knows the author of a build as [user]. *)
Record one_instance `{Addresses} `{Folding} (e : SettingsSurroundings) (s : NotificationService)
    (n : BuildNotificationService) (r : NotificationSubscriptionRepository)
    (identity : option (string → UserSlackIdentity + error))
    (workspace : option (SlackWorkspaceIntegration + error)) (user : User) (build : Build)
    : Prop := {
  oi_quiet : ∀ k, se_others e k r = r;
  oi_preferences : sv_preferencesRepo s = true;
  oi_identity : sv_identityRepo s = option_map (λ f _, f) identity
                ∧ bn_identityRepo n = option_map (λ f _, f) identity;
  oi_workspace : sv_workspaceRepo s = option_map (λ x _, x) workspace
                 ∧ bn_workspaceRepo n = option_map (λ x _, x) workspace;
  oi_answers : slack_answers identity workspace (us_ID user);
  oi_subscriptions : ∃ newID now, bn_subscriptionRepo n = Some (subscriptions_at newID now (λ _, r));
  oi_preferenceRepo : bn_preferenceRepo n = Some (preferences_at (λ _, r));
  oi_author : normalizeCommitAuthorEmail (b_SourceAuthorEmail build) ≠ "";
  oi_users : ∃ users, bn_userRepo n = Some users
    ∧ ∀ k, users k (normalizeCommitAuthorEmail (b_SourceAuthorEmail build)) = inl user;
  oi_user : TrimSpace (us_ID user) = us_ID user;
  oi_store : store_ok r;
  oi_targets : complete_targets r;
}.

