(* ===== verification/NotifSettingsRuns.v ===== *)
(** The service of notification settings beside other users of the stores: whatever
    it is asked for, the stores stay as NotifTargetThms.v wants them. *)

From Stdlib Require Import Ascii.
From stdpp Require Import base gmap strings list pretty sorting numbers.
From S2P Require Import Prelude GoLib GoPath GoText Domain Repository NotifDelivery.
From S2P Require Import NotifDestinations Notifier NotifTargets SubscriptionBook NotifTargetFacts.
From S2P Require Import NotifTargetThms NotifTargetProps NotifSettings.

Open Scope go_scope.
Open Scope Z_scope.

(** ** Worlds *)

(** The others keep the stores in order and do not use the identifiers drawn here;
    an identifier is trimmed text without a bar. *)
Record settings_surroundings_ok `{Folding} (e : SettingsSurroundings) : Prop := {
  sso_others : ∀ k r, store_ok r → store_ok (se_others e k r);
  sso_new : ∀ k r i, sb_subscriptions r !! se_uuid e i = None →
    sb_subscriptions (se_others e k r) !! se_uuid e i = None;
  sso_uuid : ∀ i, TrimSpace (se_uuid e i) = se_uuid e i ∧ se_uuid e i ≠ "" ∧ no_bar (se_uuid e i);
  sso_inj : ∀ i j, se_uuid e i = se_uuid e j → i = j;
}.

Record settings_world_ok `{Folding} (e : SettingsSurroundings) (w : SettingsWorld) : Prop := {
  swo_store : store_ok (sw_store w);
  swo_new : ∀ i, (sw_identifiers w ≤ i)%nat → sb_subscriptions (sw_store w) !! se_uuid e i = None;
}.

(** The subscriptions a call adds. *)
Definition call_adds (c : SettingsCall) : option string :=
  match c with
  | CallCreateSubscription newID _ s => Some (chosen newID (ns_ID s))
  | _ => None
  end.

Lemma call_subscriptions `{Addresses} `{Folding} c r i :
  store_ok r → call_ok c r → sb_subscriptions r !! i = None → call_adds c ≠ Some i →
  sb_subscriptions (settings_call c r).1 !! i = None.
Proof.
  intros Hr Hc Hi Ha. destruct (call_refines c r Hr Hc) as [Hb _].
  replace (sb_subscriptions (settings_call c r).1)
    with (bk_subscriptions (book_call c (book_of r)).1) by by rewrite Hb.
  destruct c; cbn -[rival taken the]; unfold book_owned;
    repeat (case_match; cbn -[rival taken the] in *; simplify_eq; try done).
  - apply map_lookup_filter_None_2. by left.
  - destruct (created_fields newID now o o0 subscription) as [-> _].
    rewrite lookup_insert_ne; [done|]. simpl in Ha. congruence.
  - destruct (moved_fields n subscription o o0) as [-> _].
    match goal with H : _ !! TrimSpace _ = Some n |- _ =>
      destruct (so_subscriptions _ Hr _ _ H) as [E _]; rewrite lookup_insert_ne; [done|congruence] end.
  - rewrite lookup_delete_None. by right.
Qed.

Section service.
Context `{Addresses} `{Folding} `{Identifiers} (e : SettingsSurroundings) (s : NotificationService).
Context (He : settings_surroundings_ok e).

(** ** Operations that keep the world in order *)

Definition keeps {A} (m : SettingsM A) : Prop :=
  ∀ w, settings_world_ok e w → settings_world_ok e (m w).1.

Lemma keeps_ret {A} (x : A) : keeps (mret x).
Proof. by intros w Hw. Qed.

Lemma keeps_pure {A} (x : A + error) : keeps (pure x).
Proof. apply keeps_ret. Qed.

Lemma keeps_bind {A B} (m : SettingsM A) (f : A → SettingsM B) :
  keeps m → (∀ x, keeps (f x)) → keeps (m ≫= f).
Proof.
  intros Hm Hf w Hw. specialize (Hm w Hw). unfold mbind, SettingsM_bind.
  destruct (m w) as [w1 x]. by apply Hf.
Qed.

Lemma keeps_bind_ok {A B} (m : SettingsM (A + error)) (f : A → SettingsM (B + error)) :
  keeps m → (∀ x, keeps (f x)) → keeps (bind_ok m f).
Proof. intros Hm Hf. apply keeps_bind; [done|]. intros [x|err]; [apply Hf|apply keeps_ret]. Qed.

Lemma keeps_now : keeps (set_now e).
Proof. intros w [Hs Hn]. by split. Qed.

Lemma keeps_uuid : keeps (set_uuid e).
Proof. intros w [Hs Hn]. split; [done|]. intros i Hi. apply Hn. simpl in Hi. lia. Qed.

Lemma interference_keeps w : settings_world_ok e w → settings_world_ok e (settings_interference e w).
Proof.
  intros [Hs Hn]. split; simpl; [by apply (sso_others _ He)|].
  intros i Hi. by apply (sso_new _ He), Hn.
Qed.

Lemma keeps_ask {A} (f : nat → A) : keeps (ask_other e f).
Proof. intros w Hw. by apply interference_keeps. Qed.

(** An access that keeps the store and adds no subscription. *)
Lemma keeps_access {A} (f : NotificationSubscriptionRepository → NotificationSubscriptionRepository * A) :
  (∀ r, store_ok r → store_ok (f r).1
     ∧ ∀ i, sb_subscriptions r !! i = None → sb_subscriptions (f r).1 !! i = None) →
  keeps (on_settings e f).
Proof.
  intros Hf w Hw. apply interference_keeps in Hw as [Hs Hn]. unfold on_settings.
  destruct (Hf _ Hs) as [Hok Hadd]. destruct (f _) as [r x]. simpl in *.
  split; [done|]. intros i Hi. by apply Hadd, Hn.
Qed.

Lemma keeps_read {A} (f : NotificationSubscriptionRepository → A) : keeps (read_settings e f).
Proof. by apply keeps_access. Qed.

Lemma keeps_call {A} c (f : NotificationSubscriptionRepository → NotificationSubscriptionRepository * A) :
  (∀ r, (f r).1 = (settings_call c r).1) → call_adds c = None → (∀ r, store_ok r → call_ok c r) →
  keeps (on_settings e f).
Proof.
  intros Hf Ha Hc. apply keeps_access. intros r Hr. rewrite Hf. split.
  - by apply call_refines, Hc.
  - intros i Hi. apply call_subscriptions; [done|by apply Hc|done|by rewrite Ha].
Qed.

Lemma keeps_preferences {A} (f : gmap string UserNotificationPreference → gmap string UserNotificationPreference * A) :
  keeps (on_preferences e f).
Proof.
  apply keeps_access. intros r [Hr1 Hr2 Hr3 Hr4 Hr5 Hr6 Hr7]. destruct (f _) as [p x].
  split; [by constructor|done].
Qed.

Lemma keeps_instance {A} (f : option NotificationInstanceSettings → option NotificationInstanceSettings * A) :
  keeps (on_instance e f).
Proof.
  apply keeps_access. intros r [Hr1 Hr2 Hr3 Hr4 Hr5 Hr6 Hr7]. destruct (f _) as [p x].
  split; [by constructor|done].
Qed.

(** A target is made under a new identifier. *)
Lemma keeps_uuid_then {A} (f : string → SettingsM A) :
  (∀ i, keeps (f (se_uuid e i))) → keeps (set_uuid e ≫= f).
Proof.
  intros Hf w Hw. change ((set_uuid e ≫= f) w)
    with (f (se_uuid e (sw_identifiers w)) (w <| sw_identifiers := S (sw_identifiers w) |>)).
  apply Hf. by apply keeps_uuid in Hw.
Qed.

Lemma keeps_new {A} i c
    (f : string → Time → NotificationSubscriptionRepository → NotificationSubscriptionRepository * A) :
  (∀ newID now r, (f newID now r).1 = (settings_call (c newID now) r).1) →
  (∀ newID now, call_adds (c newID now) = None) →
  (∀ newID now r, no_bar (se_uuid e i) → TrimSpace (se_uuid e i) = se_uuid e i →
     se_uuid e i ≠ "" → call_ok (c newID now) r) →
  keeps (on_settings_new e f).
Proof.
  intros Hf Ha Hc. destruct (sso_uuid _ He i) as (Ht & Hne & Hb).
  apply keeps_bind; [apply keeps_uuid|intros newID]. apply keeps_bind; [apply keeps_now|intros now].
  apply (keeps_call (c newID now)); [apply Hf|apply Ha|]. intros r _. by apply Hc.
Qed.

#[local] Hint Resolve keeps_ret keeps_pure keeps_now keeps_uuid keeps_ask keeps_read keeps_preferences
  keeps_instance : go.

(** Operations that only read, or write what is no target and no subscription. *)
Ltac keep :=
  repeat first
    [ solve [eauto with go]
    | apply keeps_bind_ok; [|intros ?]
    | apply keeps_bind; [|intros ?]
    | case_match ].

Lemma keeps_preference channels user : keeps (commitAuthorPreference e s channels user).
Proof.
  unfold commitAuthorPreference, getUserNotificationPreference, resolveEmailPreferenceState,
    resolveSlackPreferenceState. keep.
Qed.

Lemma keeps_setPreference choose channels user input :
  keeps (setCommitAuthorPreference e s choose (commitAuthorPreference e s channels) user input).
Proof.
  pose proof (keeps_preference channels user) as Hk.
  unfold setCommitAuthorPreference, validateCommitAuthorPreferenceChannels,
    getUserNotificationPreference, resolveEmailPreferenceState, resolveSlackPreferenceState. keep.
Qed.

Lemma keeps_defaults failures successes : keeps (SetNotificationDefaults e s failures successes).
Proof. unfold SetNotificationDefaults. keep. Qed.

Lemma keeps_ensureOwned user : keeps (svc_EnsureOwnedEmailTarget e user).
Proof.
  unfold svc_EnsureOwnedEmailTarget. do 2 (case_match; [apply keeps_ret|]).
  case_match; [|apply keeps_ret].
  apply keeps_bind; [apply keeps_now|intros at_]. apply keeps_uuid_then. intros i.
  apply (keeps_new i (λ newID now, CallInitialize newID now
    (mkEnsureOwnedNotificationEmailTargetInput (se_uuid e i) (TrimSpace (us_ID user))
       (personalTargetName user (NormalizeEmail (us_Email user))) s0 at_ at_))); [done|done|].
  intros newID now r Hb Ht Hne. unfold call_ok, chosen_trimmed. cbn [eo_ID].
  by rewrite Ht, bool_decide_false.
Qed.

Lemma keeps_createTarget input : keeps (svc_CreateTarget e input).
Proof.
  unfold svc_CreateTarget. case_match; [apply keeps_ret|].
  apply keeps_bind_ok; [apply keeps_ret|intros type]. apply keeps_bind_ok; [apply keeps_ret|intros recipient].
  apply keeps_bind; [apply keeps_now|intros at_]. apply keeps_uuid_then. intros i.
  apply (keeps_new i (λ newID now, CallCreateTarget newID now
    (mkNotificationTarget (se_uuid e i) None type NotificationTargetOriginManual
       (TrimSpace (ct_Name input)) recipient (default true (ct_Enabled input)) at_ at_))); [done|done|].
  intros newID now r Hb Ht Hne. unfold call_ok, chosen. cbn [nt_ID].
  by rewrite Ht, bool_decide_false.
Qed.

Lemma keeps_setEnabled user enabled : keeps (svc_SetOwnedEmailTargetEnabled e user enabled).
Proof.
  unfold svc_SetOwnedEmailTargetEnabled. case_match; [apply keeps_ret|].
  destruct enabled; [|apply keeps_ret].
  apply keeps_bind; [apply keeps_now|intros at_]. by eapply (keeps_call (CallSetEnabled _ _ _)).
Qed.

Lemma keeps_updateTarget id input : keeps (svc_UpdateTarget e id input).
Proof.
  unfold svc_UpdateTarget. do 3 (apply keeps_bind_ok; [solve [auto with go]|intros ?]).
  apply keeps_bind; [apply keeps_now|intros at_]. by eapply (keeps_call (CallUpdateTarget _)).
Qed.

Lemma keeps_deleteTarget id : keeps (svc_DeleteTarget e id).
Proof.
  unfold svc_DeleteTarget. case_match; [|apply keeps_ret]. by eapply (keeps_call (CallDeleteTarget _)).
Qed.

Lemma keeps_updateSubscription id enabled : keeps (svc_UpdateSubscription e id enabled).
Proof.
  unfold svc_UpdateSubscription. do 2 (apply keeps_bind_ok; [solve [auto with go]|intros ?]).
  apply keeps_bind; [apply keeps_now|intros at_]. by eapply (keeps_call (CallUpdateSubscription _)).
Qed.

Lemma keeps_deleteSubscription id : keeps (svc_DeleteSubscription e id).
Proof.
  unfold svc_DeleteSubscription. case_match; [|apply keeps_ret].
  by eapply (keeps_call (CallDeleteSubscription _)).
Qed.

(** A new subscription has the identifier that was drawn for it. *)
Lemma keeps_new_subscription (make : string → NotificationSubscription) :
  (∀ id, ns_ID (make id) = id) →
  keeps (set_uuid e ≫= λ id, on_settings_new e (λ newID now,
    NotificationSubscriptionRepository_CreateSubscription newID now (make id))).
Proof.
  intros Hmake w Hw. set (i := sw_identifiers w). destruct (sso_uuid _ He i) as (Ht & Hne & _).
  apply interference_keeps in Hw as [Hs Hn]. simpl in Hs, Hn. fold i in Hn.
  set (c := CallCreateSubscription (se_uuid e (S i)) (se_clock e (sw_readings w)) (make (se_uuid e i))).
  set (r := se_others e (sw_accesses w) (sw_store w)) in *.
  assert (Hch : chosen (se_uuid e (S i)) (ns_ID (make (se_uuid e i))) = se_uuid e i).
  { unfold chosen. rewrite Hmake, Ht. by rewrite bool_decide_false. }
  assert (Hc : call_ok c r) by (simpl; rewrite Hch; apply Hn; lia).
  assert (Hst : settings_world_ok e (mkSettingsWorld (settings_call c r).1 (S (sw_readings w))
    (S (S i)) (S (sw_accesses w)))).
  { split; [by apply (call_refines c r Hs Hc)|]. intros j Hj. simpl in Hj.
    apply (call_subscriptions c r); [done|done|apply Hn; lia|]. unfold call_adds, c. rewrite Hch.
    intros [= E]. apply (sso_inj _ He) in E. lia. }
  revert Hst. unfold mbind, SettingsM_bind, on_settings_new, set_uuid, set_now, on_settings.
  simpl. unfold mbind, SettingsM_bind. simpl. fold i r.
  by destruct (NotificationSubscriptionRepository_CreateSubscription _ _ _ _).
Qed.

Lemma keeps_createSubscription input : keeps (svc_CreateSubscription e input).
Proof.
  unfold svc_CreateSubscription. do 4 (apply keeps_bind_ok; [solve [auto with go]|intros ?]).
  case_match; [apply keeps_ret|]. apply keeps_bind_ok; [apply keeps_ret|intros type].
  apply keeps_bind; [apply keeps_now|intros at_].
  by apply (keeps_new_subscription (λ id, mkNotificationSubscription id _ _ _ _ _ _ _)).
Qed.

End service.

(** ** Requests *)

Inductive SettingsRequest :=
  | RequestOwnedTarget (user : User)
  | RequestEnabled (user : User) (enabled : option bool)
  | RequestCreateTarget (input : CreateNotificationTargetInput)
  | RequestCreateEmailTarget (input : CreateNotificationTargetInput)
  | RequestUpdateTarget (id : string) (input : UpdateNotificationTargetInput)
  | RequestDeleteTarget (id : string)
  | RequestCreateSubscription (input : CreateNotificationSubscriptionInput)
  | RequestUpdateSubscription (id : string) (enabled : option bool)
  | RequestDeleteSubscription (id : string)
  | RequestFailurePreference (user : User) (input : UpdateCommitAuthorNotificationPreferenceInput)
  | RequestSuccessPreference (user : User) (input : UpdateCommitAuthorNotificationPreferenceInput)
  | RequestDefaults (failures successes : option bool).

Section requests.
Context `{Addresses} `{Folding} `{Identifiers} (e : SettingsSurroundings) (s : NotificationService).

(** What a request leaves. *)
Definition serve (q : SettingsRequest) (w : SettingsWorld) : SettingsWorld :=
  match q with
  | RequestOwnedTarget user => (svc_EnsureOwnedEmailTarget e user w).1
  | RequestEnabled user enabled => (svc_SetOwnedEmailTargetEnabled e user enabled w).1
  | RequestCreateTarget input => (svc_CreateTarget e input w).1
  | RequestCreateEmailTarget input => (svc_CreateEmailTarget e input w).1
  | RequestUpdateTarget id input => (svc_UpdateTarget e id input w).1
  | RequestDeleteTarget id => (svc_DeleteTarget e id w).1
  | RequestCreateSubscription input => (svc_CreateSubscription e input w).1
  | RequestUpdateSubscription id enabled => (svc_UpdateSubscription e id enabled w).1
  | RequestDeleteSubscription id => (svc_DeleteSubscription e id w).1
  | RequestFailurePreference user input =>
      (SetCommitAuthorFailureNotificationPreference e s user input w).1
  | RequestSuccessPreference user input =>
      (SetCommitAuthorSuccessNotificationPreference e s user input w).1
  | RequestDefaults failures successes => (SetNotificationDefaults e s failures successes w).1
  end.

Lemma serve_keeps q w :
  settings_surroundings_ok e → settings_world_ok e w → settings_world_ok e (serve q w).
Proof.
  intros He Hw. destruct q; simpl.
  - by apply keeps_ensureOwned.
  - by apply keeps_setEnabled.
  - by apply keeps_createTarget.
  - by apply keeps_createTarget.
  - by apply keeps_updateTarget.
  - by apply keeps_deleteTarget.
  - by apply keeps_createSubscription.
  - by apply keeps_updateSubscription.
  - by apply keeps_deleteSubscription.
  - by apply keeps_setPreference.
  - by apply keeps_setPreference.
  - by apply keeps_defaults.
Qed.

(** Whatever is asked of the service, in whatever order and beside whatever others,
    a user has one email target, no two subscriptions stand at the same place, every
    subscription has its target, and the indexes are those of the subscriptions. *)
Theorem settings_stay_consistent qs w :
  settings_surroundings_ok e → settings_world_ok e w →
  let r := sw_store (foldl (λ w q, serve q w) w qs) in
  store_ok r
  ∧ (∀ user i j t u, sb_targets r !! i = Some t → sb_targets r !! j = Some u →
       ownsEmail user t = true → ownsEmail user u = true → i = j)
  ∧ (∀ i j x y, sb_subscriptions r !! i = Some x → sb_subscriptions r !! j = Some y →
       place x = place y → i = j)
  ∧ (∀ i x, sb_subscriptions r !! i = Some x → is_Some (sb_targets r !! ns_TargetID x)).
Proof.
  intros He Hw r. assert (Hr : store_ok r).
  { unfold r. clear r. revert w Hw. induction qs as [|q qs IH]; intros w Hw; simpl.
    - by destruct Hw.
    - apply IH. by apply serve_keeps. }
  clearbody r. split; [done|]. split; [apply (so_owner _ Hr)|]. split.
  - intros i j x y Hx Hy Hp. destruct (so_subscriptions _ Hr _ _ Hy) as (_ & Hpl & _).
    pose proof (stored_no_bar _ _ _ Hr Hy) as Hb.
    assert (Hi : indexed y r = Some i) by (apply indexed_place; eauto).
    assert (Hj : indexed y r = Some j) by (apply indexed_place; eauto). congruence.
  - intros i x Hx. by apply (so_subscriptions _ Hr i x Hx).
Qed.

End requests.
