(* ===== verification/NotifSettingsExamples.v ===== *)
(** The settings of notifications at work: two targets and their subscriptions, a
    user with preferences, and the theorems about them there. *)

From Stdlib Require Import Ascii.
From stdpp Require Import base gmap strings list pretty sorting numbers.
From S2P Require Import Prelude GoLib GoPath GoText Domain Repository DeliverySpec ScmDelivery ScmRepo.
From S2P Require Import ScmExamples NotifDelivery NotifRepo NotifDestinations Notifier NotifTargets.
From S2P Require Import SubscriptionBook NotifTargetFacts NotifTargetThms NotifTargetProps.
From S2P Require Import NotifSettings NotifSettingsThms NotifSettingsRuns.

Open Scope go_scope.
Open Scope Z_scope.

#[local] Instance sx_addresses : Addresses := {|
  ParseAddress := λ text, inl (text, text);
  parseHTTPS := λ text, Some text;
|}.

(** ASCII letters are folded to small ones. *)
#[local] Instance sx_folding : Folding := {| foldRune := lower_bytes |}.

#[local] Instance sx_identifiers : Identifiers := {|
  AddressString := λ address, address;
  uuid_Parse := λ text, Some text;
|}.

(** ** The stores *)

Definition sx_target (id : string) : NotificationTarget :=
  mkNotificationTarget id None NotificationTargetTypeEmail NotificationTargetOriginManual
    "team" "team@example.com" true 1 1.

Definition sx_owned : EnsureOwnedNotificationEmailTargetInput :=
  mkEnsureOwnedNotificationEmailTargetInput "t2" "u1" "Una" "una@example.com" 2 2.

Definition sx_config (recipient : string) : EnsureConfigNotificationEmailTargetInput :=
  mkEnsureConfigNotificationEmailTargetInput "" "" recipient 3 3.

Definition sx_subscription (id target : string) (project job : option string) : NotificationSubscription :=
  mkNotificationSubscription id target project job NotificationEventTypeBuildFailed true 5 5.

Definition sx_new : NotificationSubscriptionRepository :=
  NewNotificationSubscriptionRepository <| sb_preferences := Some ∅ |> <| sb_settings := Some None |>.

(** A second subscription to the same place, and a second configured address that
    differs in case only. *)
Definition sx_calls : list SettingsCall :=
  [CallCreateTarget "x1" 1 (sx_target "t1");
   CallInitialize "x2" 2 sx_owned;
   CallEnsureConfig "t3" 3 (sx_config "ops@example.com");
   CallEnsureConfig "t4" 4 (sx_config "Ops@Example.com");
   CallCreateSubscription "" 5 (sx_subscription "s1" "t1" (Some "p1") None);
   CallCreateSubscription "" 6 (sx_subscription "s2" "t1" None (Some "j1"));
   CallCreateSubscription "" 7 (sx_subscription "s3" "t1" (Some " p1 ") None);
   CallCreateSubscription "" 8 (sx_subscription "s4" "t3" None (Some "j1"));
   CallUpdateSubscription (sx_subscription "s4" "t1" None (Some "j1"));
   CallDeleteTarget "t3"].

Definition sx_store : NotificationSubscriptionRepository := (settings_calls sx_calls sx_new).1.

Lemma sx_calls_ok : calls_ok sx_calls sx_new.
Proof.
  repeat split;
    first [ apply (bool_decide_unpack _); vm_compute; exact I | vm_compute; reflexivity ].
Qed.

Lemma sx_new_ok : store_ok sx_new.
Proof. apply new_store_ok. Qed.

Lemma sx_store_ok : store_ok sx_store.
Proof. apply (calls_keep sx_calls); [apply sx_new_ok|apply sx_calls_ok]. Qed.

(** The answers of the book: what is refused, and what finds an existing target. *)
Definition refusals (answers : list SettingsAnswer) : list (option error) :=
  (λ answer, match answer with
             | AnswerTarget (inr err) | AnswerSubscription (inr err) => Some err
             | AnswerDone err => err
             | _ => None
             end) <$> answers.


(** A given identifier is stored as it is and looked up trimmed. *)
Example sx_untrimmed_unreachable :
  let r := (NotificationSubscriptionRepository_CreateTarget "x1" 1 (sx_target " t1 ") sx_new).1 in
  is_Some (sb_targets r !! " t1 ")
  ∧ NotificationSubscriptionRepository_GetTargetByID " t1 " r = inr ErrNotificationTargetNotFound.
Proof. split; [eexists|]; vm_compute; reflexivity. Qed.

(** A given identifier that is in use takes the other subscription away and leaves
    its place taken. *)
Example sx_reused_identifier :
  let r := (settings_calls
    [CallCreateTarget "x1" 1 (sx_target "t1");
     CallCreateSubscription "" 5 (sx_subscription "s1" "t1" (Some "p1") None);
     CallCreateSubscription "" 6 (sx_subscription "s1" "t1" (Some "p2") None)] sx_new).1 in
  ns_ProjectID <$> subscriptionsInAnyOrder r = [Some "p2"]
  ∧ (NotificationSubscriptionRepository_CreateSubscription "" 7
       (sx_subscription "s3" "t1" (Some "p1") None) r).2 = inr ErrNotificationSubscriptionDuplicate.
Proof. split; vm_compute; reflexivity. Qed.

(** ** A build *)

Definition sx_build : Build := zero_Build
  <| b_ID := "b1" |> <| b_ProjectID := "p1" |> <| b_JobID := Some "j1" |>
  <| b_Status := BuildStatusFailed |> <| b_SourceAuthorEmail := Some "una@example.com" |>.

Example sx_matches :
  (λ m, (ns_ID (nsm_Subscription m), nt_ID (nsm_Target m))) <$>
    NotificationSubscriptionRepository_ListEnabledMatchesForBuildEvent sx_build
      NotificationEventTypeBuildFailed sx_store ≡ₚ [("s1", "t1"); ("s2", "t1")].
Proof. apply (bool_decide_unpack _). vm_compute. exact I. Qed.

Lemma ListEnabledMatchesForBuildEvent_spec_witness :
  let matches := NotificationSubscriptionRepository_ListEnabledMatchesForBuildEvent sx_build
    NotificationEventTypeBuildFailed sx_store in
  length matches = 2%nat ∧ NoDup matches
  ∧ ∀ x y, x ∈ matches → y ∈ matches → nt_ID (nsm_Target x) = nt_ID (nsm_Target y) →
      isNil (ns_ProjectID (nsm_Subscription x)) = isNil (ns_ProjectID (nsm_Subscription y)) → x = y.
Proof.
  split; [vm_compute; reflexivity|].
  exact (proj2 (ListEnabledMatchesForBuildEvent_spec sx_store sx_build NotificationEventTypeBuildFailed
    sx_store_ok)).
Defined.

(** ** The settings of a user *)

Definition sx_user : User := mkUser "u1" "una@example.com" (Some "Una") "member" 1 1.

Definition sx_identity (slackUserID : string) : UserSlackIdentity :=
  mkUserSlackIdentity "i1" "u1" "w1" slackUserID None None None None None true 1 None 1 1.

Definition sx_integration : SlackWorkspaceIntegration :=
  mkSlackWorkspaceIntegration "w1" "T1" None None None None None "token" 1 true 1 None None 1 1.

Definition sx_surroundings : SettingsSurroundings := {|
  se_clock := λ k, 100 + Z.of_nat k;
  se_uuid := ex_uuid;
  se_others := λ _ r, r;
|}.

Definition sx_identities (slackUserID : string) : string → UserSlackIdentity + error :=
  λ _, inl (sx_identity slackUserID).

Definition sx_service (slackUserID : string) : NotificationService :=
  mkNotificationService true true (Some (λ _, sx_identities slackUserID))
    (Some (λ _, inl sx_integration)).

Definition sx_world (r : NotificationSubscriptionRepository) : SettingsWorld := mkSettingsWorld r 0 0 0.

Lemma sx_world_store r : sw_store (sx_world r) = r.
Proof. reflexivity. Qed.

(** The user enables both channels. *)
Definition sx_chosen (slackUserID : string)
    : SettingsWorld * (CommitAuthorNotificationPreferenceState + error) :=
  SetCommitAuthorFailureNotificationPreference sx_surroundings (sx_service slackUserID) sx_user
    (mkUpdateCommitAuthorInput (Some true) (Some true)) (sx_world sx_store).

Definition sx_settled (slackUserID : string) : NotificationSubscriptionRepository :=
  sw_store (sx_chosen slackUserID).1.

(** What the settings show, whatever the name in Slack is. *)
Example sx_active :
  (λ slackUserID,
    match (sx_chosen slackUserID).2 with
    | inl st => Some (ce_DeliveryActive (ca_Email st), cs_DeliveryActive (ca_Slack st))
    | inr _ => None
    end) <$> ["U1"; "someone"] = [Some (true, true); Some (true, true)].
Proof. vm_compute. reflexivity. Qed.

Definition sx_notifier (slackUserID : string) (r : NotificationSubscriptionRepository)
    : BuildNotificationService := {|
  bn_enabled := true;
  bn_defaultRecipients := [];
  bn_sender := true;
  bn_slackSender := false;
  bn_slackClient := true;
  bn_buildRepo := None;
  bn_deliveryRepo := true;
  bn_subscriptionRepo := Some (subscriptions_at (λ _, "x3") (λ _, 9) (λ _, r));
  bn_userRepo := Some (λ _ _, inl sx_user);
  bn_preferenceRepo := Some (preferences_at (λ _, r));
  bn_identityRepo := Some (λ _, sx_identities slackUserID);
  bn_workspaceRepo := Some (λ _, inl sx_integration);
  bn_claimOwner := "w1";
  bn_claimDuration := defaultNotificationDeliveryClaimDuration;
  bn_retryPolicy := defaultNotificationRetryPolicy;
|}.

Definition sx_sending : NotifSurroundings := {|
  ne_clock := λ k, 100 + Z.of_nat k;
  ne_uuid := ex_uuid;
  ne_send := λ _ _ _, None;
  ne_render := λ _ build _, inl (mkNotificationContent (b_ID build) "failed" "" "");
  ne_others := λ _ r, r;
|}.

Definition sx_sending_world : NotifWorld := mkNotifWorld NewNotificationDeliveryRepository [] 0 0 0.

(** Where the notifier plans to send. *)
Definition sx_planned (slackUserID : string) : list (NotificationTransport * string) + error :=
  match (resolveCommitAuthorDestinations sx_sending (sx_notifier slackUserID (sx_settled slackUserID))
           sx_build NotificationEventTypeBuildFailed sx_sending_world).2 with
  | inl destinations => inl ((λ d, (dn_transport d, dn_destinationKey d)) <$> destinations)
  | inr err => inr err
  end.

(** A name that is none of a Slack member is shown as active and not written to. *)
Example sx_planned_both :
  sx_planned "U1" = inl [(NotificationTransportEmail, "email-personal:t2");
                         (NotificationTransportSlackDM, "slack-dm:w1:U1")]
  ∧ sx_planned "someone" = inl [(NotificationTransportEmail, "email-personal:t2")].
Proof. split; vm_compute; reflexivity. Qed.

Lemma sx_settled_ok slackUserID : store_ok (sx_settled slackUserID).
Proof.
  assert (Hs : settings_surroundings_ok sx_surroundings).
  { split; simpl; [done|done| |apply ex_uuid_inj]. intros i. split; [apply ex_uuid_trimmed|]. split; [done|].
    unfold no_bar, ex_uuid. rewrite string_to_of_list, elem_of_replicate. intros [? _]. done. }
  assert (Hw : settings_world_ok sx_surroundings (sx_world sx_store)).
  { split; [apply sx_store_ok|]. intros i _.
    change (sw_store (sx_world sx_store)) with sx_store. change (se_uuid sx_surroundings i) with (ex_uuid i).
    destruct (sb_subscriptions sx_store !! ex_uuid i) as [s|] eqn:E; [|reflexivity]. exfalso.
    assert (Hf : map_Forall (λ k _, k = "s1" ∨ k = "s2") (sb_subscriptions sx_store)).
    { apply (bool_decide_unpack _). vm_compute. exact I. }
    destruct (Hf _ _ E) as [Ek|Ek]; discriminate Ek. }
  apply (serve_keeps sx_surroundings (sx_service slackUserID)
    (RequestFailurePreference sx_user (mkUpdateCommitAuthorInput (Some true) (Some true))) _ Hs Hw).
Qed.

Lemma sx_one_instance :
  one_instance sx_surroundings (sx_service "U1") (sx_notifier "U1" (sx_settled "U1")) (sx_settled "U1")
    (Some (sx_identities "U1")) (Some (inl sx_integration)) sx_user sx_build.
Proof.
  constructor.
  - intros k. reflexivity.
  - reflexivity.
  - split; reflexivity.
  - split; reflexivity.
  - split; [by intros f err [= <-]|]. split; [done|]. intros integration [= <-]. by vm_compute.
  - by exists (λ _, "x3"), (λ _, 9).
  - reflexivity.
  - apply (bool_decide_unpack _). vm_compute. exact I.
  - exists (λ _ _, inl sx_user). split; reflexivity.
  - vm_compute. reflexivity.
  - apply sx_settled_ok.
  - assert (Hf : map_Forall (λ _ t, TrimSpace (nt_ID t) ≠ "" ∧ TrimSpace (nt_Recipient t) ≠ "")
      (sb_targets (sx_settled "U1"))) by (apply (bool_decide_unpack _); vm_compute; exact I).
    exact Hf.
Qed.

